(** * Account buy/sell server: the order / escrow state machine

    A shallow embedding of the Express server in its current version (the
    one with the reservation, payment-verification, cancellation and
    withdrawal endpoints), of [POST /orders] as the older [index.js] has
    it, and of the parts of [bot.js] that drive the server: the completion
    of a transfer, the deletion of an account, the Telebirr and CBE
    receipt handlers, the registration on [/start], the order button and
    the choice of a payment method, the payout of the balance, and the
    browsing and cancelling of one's orders.

    Conventions of the embedding.
    - A table is the list of its rows, in insertion order; [select] is
      [filter], [update ... returning] rewrites the matching rows and
      returns them, [delete ... returning] removes and returns them.
    - [uuid] columns are numbers ([Id]); [gen_random_uuid()] is the
      counter [next_id] of the store.
    - The numbers of a request are [Z]; an [integer] column holds 32-bit
      numbers, and the store refuses to write any other ([int4],
      [out_of_range]).
    - Text is [string], read as the bytes of its UTF-8 encoding.
    - A number that JavaScript computes with is a [JsNum]: [NaN], a double
      (given as the rational it is), [-0] or an infinity; [parseInt],
      [parseFloat] and the arithmetic round to the nearest double.
    - Where a query has no ORDER BY the rows are listed in the order of
      the table, and what is stated of them holds in any order.
    - A handler runs in the monad [M]: state passing over the whole server
      (store, clock, pending timers) with exceptions.  A JavaScript [throw]
      keeps the writes made so far; [transaction] is what undoes them.
    - [setTimeout] pushes a [Timer] on the server state; the event loop
      fires a timer in a later step, once it is due.
    - One request is one step, except where requests are made to race
      ([Race], [complete_schedule]).

    Left out: the [transfers] table (the bot never writes it), the bank
    details, [url], [is_active] and [updated_at] columns, the messages the
    bot sends, the upload of receipt images, and the case mapping of the
    characters beyond ASCII ([toUpperCase] and [toLowerCase] are the ASCII
    part of it; the search takes the mapping of the engine as given). *)

From Stdlib Require Import ZArith NArith List String Ascii Bool Lia.
From Stdlib Require Import QArith.
From Stdlib Require Import Sorting.Permutation Sorting.Sorted.
Import ListNotations.

Local Open Scope string_scope.
Local Open Scope Z_scope.

(** ** Data model ([db/schema.js]) *)

Definition Id := N.

(** [accounts.status]: enum ['available', 'pending', 'sold'], default
    'available'.  The server only ever writes these three constants. *)
Inductive AccountStatus : Type := available | pending | sold.

Definition status_eqb (x y : AccountStatus) : bool :=
  match x, y with
  | available, available | pending, pending | sold, sold => true
  | _, _ => false
  end.

Record User : Type := mkUser {
  user_id : Id;
  telegram_user_id : string;
  username : string;
  balance : Z
}.

Record Account : Type := mkAccount {
  account_id : Id;
  owner_id : Id;
  platform : string;
  name : string;
  price : Z;
  status : AccountStatus;
  subscriber_count : Z;
  creation_year : option Z;
  is_monetized : option bool;
  created_at : N
}.

(** [orders.status] is a text column: [PUT /orders/:id] stores whatever
    string the request carries, and the queries compare it with
    'pending' and 'in_progress'. *)
Record Order : Type := mkOrder {
  order_id : Id;
  buyer_id : Id;
  order_account_id : Id;
  amount : Z;
  order_status : string;
  receipt_no : option string
}.

Record Withdrawal : Type := mkWithdrawal {
  withdrawal_id : Id;
  withdrawal_user_id : Id;
  withdrawal_amount : Z;
  withdrawal_status : string;
  reason : string
}.

Record Db : Type := mkDb {
  users : list User;
  accounts : list Account;
  orders : list Order;
  withdrawals : list Withdrawal;
  next_id : Id
}.

(** The two deferred jobs of the server: the reservation release of
    [POST /accounts/:id/reserve] and the clean-up of [PUT /orders/:id]. *)
Inductive Task : Type :=
| ReleaseReservation (id : Id)
| CleanupAfterCompletion (id : Id).

Record Timer : Type := mkTimer { due : N; task : Task }.

Record Server : Type := mkServer {
  db : Db;
  clock : N;            (* milliseconds *)
  timers : list Timer
}.

Definition empty_db : Db := mkDb [] [] [] [] 1%N.
Definition init : Server := mkServer empty_db 0%N [].

Definition set_status (st : AccountStatus) (a : Account) : Account :=
  mkAccount (account_id a) (owner_id a) (platform a) (name a) (price a) st
            (subscriber_count a) (creation_year a) (is_monetized a)
            (created_at a).

Definition set_order_status (st : string) (o : Order) : Order :=
  mkOrder (order_id o) (buyer_id o) (order_account_id o) (amount o) st
          (receipt_no o).

Definition set_balance (b : Z) (u : User) : User :=
  mkUser (user_id u) (telegram_user_id u) (username u) b.

Definition with_users (us : list User) (d : Db) : Db :=
  mkDb us (accounts d) (orders d) (withdrawals d) (next_id d).
Definition with_accounts (acs : list Account) (d : Db) : Db :=
  mkDb (users d) acs (orders d) (withdrawals d) (next_id d).
Definition with_orders (os : list Order) (d : Db) : Db :=
  mkDb (users d) (accounts d) os (withdrawals d) (next_id d).
Definition with_withdrawals (ws : list Withdrawal) (d : Db) : Db :=
  mkDb (users d) (accounts d) (orders d) ws (next_id d).
Definition bump_id (d : Db) : Db :=
  mkDb (users d) (accounts d) (orders d) (withdrawals d) (N.succ (next_id d)).

Definition with_db (d : Db) (s : Server) : Server :=
  mkServer d (clock s) (timers s).

(** ** The handler monad *)

Definition M (A : Type) : Type := Server -> (string + A) * Server.

Definition ret {A} (a : A) : M A := fun s => (inr a, s).
Definition throw {A} (msg : string) : M A := fun s => (inl msg, s).
Definition bind {A B} (m : M A) (k : A -> M B) : M B :=
  fun s => match m s with
           | (inl e, s') => (inl e, s')
           | (inr a, s') => k a s'
           end.

Notation "x <- m ;; k" := (bind m (fun x => k))
  (at level 61, m at next level, right associativity).
Notation "m ;;; k" := (bind m (fun _ => k))
  (at level 61, right associativity).

Definition get_db : M Db := fun s => (inr (db s), s).
Definition put_db (d : Db) : M unit := fun s => (inr tt, with_db d s).

(** [db.transaction(async (tx) => ...)]: when the body throws, the store
    is rolled back to what it was; a timer set inside stays set. *)
Definition transaction {A} (body : M A) : M A :=
  fun s => match body s with
           | (inl e, s') => (inl e, with_db (db s) s')
           | (inr a, s') => (inr a, s')
           end.

(** [setTimeout(job, delay)] *)
Definition setTimeout (t : Task) (delay : N) : M unit :=
  fun s => (inr tt, mkServer (db s) (clock s)
                             (timers s ++ [mkTimer (clock s + delay)%N t])).

(** ** Store primitives (the drizzle queries the handlers use) *)

Definition by_account_id (id : Id) (a : Account) : bool := (account_id a =? id)%N.
Definition by_order_id (id : Id) (o : Order) : bool := (order_id o =? id)%N.
Definition by_user_id (id : Id) (u : User) : bool := (user_id u =? id)%N.
Definition of_account (id : Id) (o : Order) : bool := (order_account_id o =? id)%N.

Definition select_accounts (p : Account -> bool) : M (list Account) :=
  d <- get_db ;; ret (filter p (accounts d)).
Definition select_orders (p : Order -> bool) : M (list Order) :=
  d <- get_db ;; ret (filter p (orders d)).
Definition select_users (p : User -> bool) : M (list User) :=
  d <- get_db ;; ret (filter p (users d)).

Definition update_rows {R} (p : R -> bool) (f : R -> R) (rows : list R) : list R :=
  map (fun r => if p r then f r else r) rows.

(** [tx.update(accounts).set(...).where(...).returning()] *)
Definition update_accounts (p : Account -> bool) (f : Account -> Account)
  : M (list Account) :=
  d <- get_db ;;
  put_db (with_accounts (update_rows p f (accounts d)) d) ;;;
  ret (map f (filter p (accounts d))).

Definition update_orders (p : Order -> bool) (f : Order -> Order)
  : M (list Order) :=
  d <- get_db ;;
  put_db (with_orders (update_rows p f (orders d)) d) ;;;
  ret (map f (filter p (orders d))).

Definition update_users (p : User -> bool) (f : User -> User) : M (list User) :=
  d <- get_db ;;
  put_db (with_users (update_rows p f (users d)) d) ;;;
  ret (map f (filter p (users d))).

Definition delete_orders (p : Order -> bool) : M (list Order) :=
  d <- get_db ;;
  put_db (with_orders (filter (fun o => negb (p o)) (orders d)) d) ;;;
  ret (filter p (orders d)).

(** Deleting accounts takes their orders along: [orders.account_id]
    references [accounts.id] with [onDelete: 'cascade']. *)
Definition delete_accounts (p : Account -> bool) : M (list Account) :=
  d <- get_db ;;
  let gone := filter p (accounts d) in
  let keep_order (o : Order) :=
    negb (existsb (fun a => (account_id a =? order_account_id o)%N) gone) in
  put_db (with_orders (filter keep_order (orders d))
            (with_accounts (filter (fun a => negb (p a)) (accounts d)) d)) ;;;
  ret gone.

Definition fk_violation : string := "violates foreign key constraint".

(** [integer] columns ([users.balance], [accounts.price],
    [accounts.subscriber_count], [accounts.creation_year], [orders.amount],
    [withdrawals.amount]) are 32-bit: the store refuses a statement that
    carries a value outside this range, before it looks at any row. *)
Definition int4 (z : Z) : bool := (-2147483648 <=? z) && (z <=? 2147483647).

Definition out_of_range : string := "out of range for type integer".

(** [db.insert(orders).values({...}).returning()]: one row goes in, with a
    fresh id, and comes back (the handlers read it as [result[0]]).
    The foreign keys of [orders] ([buyer_id], [account_id]) are checked by
    the store. *)
Definition insert_order (buyer acc : Id) (amt : Z) (st : string)
  (receipt : option string) : M Order :=
  d <- get_db ;;
  if negb (int4 amt) then throw out_of_range
  else if existsb (by_user_id buyer) (users d)
          && existsb (by_account_id acc) (accounts d)
  then
    let o := mkOrder (next_id d) buyer acc amt st receipt in
    put_db (bump_id (with_orders (orders d ++ [o]) d)) ;;;
    ret o
  else throw fk_violation.

Definition insert_withdrawal (uid : Id) (amt : Z) (st : string)
  : M Withdrawal :=
  d <- get_db ;;
  if negb (int4 amt) then throw out_of_range
  else if existsb (by_user_id uid) (users d)
  then
    (* [reason] is not given by the handler: column default 'order_refund' *)
    let w := mkWithdrawal (next_id d) uid amt st "order_refund" in
    put_db (bump_id (with_withdrawals (withdrawals d ++ [w]) d)) ;;;
    ret w
  else throw fk_violation.

(** [update(users).set({ balance }).where(...).returning()] *)
Definition update_balance (p : User -> bool) (b : Z) : M (list User) :=
  if int4 b then update_users p (set_balance b) else throw out_of_range.

(** ** HTTP responses *)

Inductive Response (A : Type) : Type :=
| Ok (code : N) (body : A)
| Fail (code : N) (error : string).
Arguments Ok {A} code body.
Arguments Fail {A} code error.

Definition is_ok {A} (r : Response A) : bool :=
  match r with Ok _ _ => true | Fail _ _ => false end.

(** [message.includes(needle)] *)
Fixpoint prefixb (p s : string) : bool :=
  match p, s with
  | EmptyString, _ => true
  | String a p', String b s' => Ascii.eqb a b && prefixb p' s'
  | String _ _, EmptyString => false
  end.

Fixpoint includes (s needle : string) : bool :=
  prefixb needle s ||
  match s with
  | EmptyString => false
  | String _ s' => includes s' needle
  end.

(** ** Reservation: [POST /accounts/:id/reserve] *)

Definition reservation_timeout : N := (10 * 60 * 1000)%N.

Definition not_available_msg : string := "Account is not available for reservation.".

(** The transaction body, in its two halves: the locking read with its
    check, and the write with the timer.  [updatedAccount[0]] is
    [hd_error]. *)
Definition reserve_check (id : Id) : M unit :=
  account <- select_accounts (by_account_id id) ;;   (* ... .for('update') *)
  match account with
  | [] => throw not_available_msg
  | a0 :: _ =>
      if negb (status_eqb (status a0) available) then throw not_available_msg
      else ret tt
  end.

Definition reserve_write (id : Id) : M (option Account) :=
  updatedAccount <- update_accounts (by_account_id id) (set_status pending) ;;
  setTimeout (ReleaseReservation id) reservation_timeout ;;;
  ret (hd_error updatedAccount).

Definition reserve_tx (id : Id) : M (option Account) :=
  transaction (reserve_check id ;;; reserve_write id).

Definition reserve_reply (r : string + option Account) : Response (option Account) :=
  match r with
  | inr a => Ok 200 a
  | inl e => Fail (if includes e "Account is not available" then 409 else 500) e
  end.

(** The request body's [buyer_id] is [None] when it is missing (falsy). *)
Definition reserve (id : Id) (buyer : option Id) (s : Server)
  : Response (option Account) * Server :=
  match buyer with
  | None => (Fail 400 "Buyer ID is required to reserve an account.", s)
  | Some _ => let (r, s') := reserve_tx id s in (reserve_reply r, s')
  end.

(** The spec's [NotAvailable]: status 409 with the handler's message. *)
Definition NotAvailable : Response (option Account) := Fail 409 not_available_msg.

(** *** Reservation requests racing for one account

    [SELECT ... FOR UPDATE] takes the row lock of the account and keeps it
    until the transaction ends; a request that finds the row locked waits.
    [ReservePc] is the point a request has reached. *)
Inductive ReservePc : Type :=
| AtSelectForUpdate
| AtUpdate                                   (* holds the row lock *)
| Replied (r : Response (option Account)).

Record Race : Type := mkRace {
  race_server : Server;
  row_lock : option nat;                     (* the request holding the lock *)
  requests : list ReservePc
}.

Fixpoint set_nth {A} (i : nat) (x : A) (l : list A) : list A :=
  match i, l with
  | _, [] => []
  | O, _ :: l' => x :: l'
  | S i', y :: l' => y :: set_nth i' x l'
  end.

(** Request [i] moves, if it can. *)
Definition race_step (id : Id) (i : nat) (r : Race) : Race :=
  match nth_error (requests r) i with
  | Some AtSelectForUpdate =>
      match filter (by_account_id id) (accounts (db (race_server r))), row_lock r with
      | _ :: _, Some _ => r                                  (* waits *)
      | _, _ =>
          match reserve_check id (race_server r) with
          | (inr _, _) =>
              mkRace (race_server r) (Some i) (set_nth i AtUpdate (requests r))
          | (inl e, _) =>                                    (* rolled back *)
              mkRace (race_server r) (row_lock r)
                     (set_nth i (Replied (reserve_reply (inl e))) (requests r))
          end
      end
  | Some AtUpdate =>
      let (a, s') := reserve_write id (race_server r) in      (* and commit *)
      mkRace s' None (set_nth i (Replied (reserve_reply a)) (requests r))
  | Some (Replied _) => r
  | None => r
  end.

Definition race (id : Id) (sched : list nat) (r : Race) : Race :=
  fold_left (fun r i => race_step id i r) sched r.

Definition race_start (n : nat) (s : Server) : Race :=
  mkRace s None (repeat AtSelectForUpdate n).

Definition granted (pc : ReservePc) : bool :=
  match pc with Replied (Ok _ _) => true | _ => false end.

Definition replied (pc : ReservePc) : bool :=
  match pc with Replied _ => true | _ => false end.

(** ** Reservation expiry and post-completion clean-up (the timer bodies) *)

Definition is_pending_order (o : Order) : bool :=
  String.eqb (order_status o) "pending".

(** The [setTimeout] callback of the reserve handler. *)
Definition release_reservation (id : Id) : M unit :=
  currentAccount <- select_accounts (by_account_id id) ;;
  match currentAccount with
  | a0 :: _ =>
      if status_eqb (status a0) pending then
        (* Check if an order was created in the meantime *)
        pendingOrder <- select_orders
                          (fun o => of_account id o && is_pending_order o) ;;
        match pendingOrder with
        | [] => update_accounts (by_account_id id) (set_status available) ;;;
                ret tt
        | _ :: _ => ret tt
        end
      else ret tt
  | [] => ret tt
  end.

(** The [setTimeout] callback of [PUT /orders/:id]. *)
Definition cleanup_after_completion (acc : Id) : M unit :=
  delete_orders (of_account acc) ;;;
  delete_accounts (by_account_id acc) ;;;
  ret tt.

Definition run_task (t : Task) : M unit :=
  match t with
  | ReleaseReservation id => release_reservation id
  | CleanupAfterCompletion acc => cleanup_after_completion acc
  end.

Definition exec {A} (m : M A) (s : Server) : Server := snd (m s).

(** The event loop: time passes, and a timer that is due may fire. *)
Definition advance (dt : N) (s : Server) : Server :=
  mkServer (db s) (clock s + dt)%N (timers s).

Fixpoint remove_nth {A} (i : nat) (l : list A) : list A :=
  match i, l with
  | _, [] => []
  | O, _ :: l' => l'
  | S i', x :: l' => x :: remove_nth i' l'
  end.

Definition fire (i : nat) (s : Server) : Server :=
  match nth_error (timers s) i with
  | Some t =>
      if (due t <=? clock s)%N
      then exec (run_task (task t))
                (mkServer (db s) (clock s) (remove_nth i (timers s)))
      else s
  | None => s
  end.

(** ** Orders *)

Definition is_active_order (o : Order) : bool :=
  String.eqb (order_status o) "pending" || String.eqb (order_status o) "in_progress".

Definition duplicate_active_order_msg : string :=
  "You already have an active order for this account".

(** The condition of the duplicate check: an active order of [buyer] on
    account [acc]. *)
Definition own_active_order (buyer acc : Id) (o : Order) : bool :=
  (buyer_id o =? buyer)%N && of_account acc o && is_active_order o.

(** [GET /orders/check] *)
Definition ordersCheck (buyer acc : option Id) (s : Server) : Response bool :=
  match buyer, acc with
  | Some b, Some a =>
      match filter (own_active_order b a) (orders (db s)) with
      | _ :: _ => Fail 400 duplicate_active_order_msg
      | [] => Ok 200 false            (* { exists: false } *)
      end
  | _, _ => Fail 400 "Missing buyer_id or account_id"
  end.

(** [POST /orders], current server: the row is inserted as it comes. *)
Definition createOrder (buyer acc : Id) (amt : Z) (receipt : option string)
  (s : Server) : Response Order * Server :=
  match insert_order buyer acc amt "pending" receipt s with
  | (inr newOrder, s') => (Ok 201 newOrder, s')
  | (inl e, s') => (Fail 500 e, s')
  end.

(** [POST /orders] of the older [index.js]: the same insert behind a check
    for an active order of the same buyer on the same account.  No receipt
    number is stored. *)
Definition createOrder_legacy (buyer acc : Id) (amt : Z) (s : Server)
  : Response Order * Server :=
  match filter (own_active_order buyer acc) (orders (db s)) with
  | _ :: _ => (Fail 400 duplicate_active_order_msg, s)
  | [] =>
      match insert_order buyer acc amt "pending" None s with
      | (inr result, s') => (Ok 201 result, s')
      | (inl e, s') => (Fail 500 e, s')
      end
  end.

Definition cleanup_delay : N := 5000%N.

(** [PUT /orders/:id].  Not a transaction: three separate statements. *)
Definition updateOrder_body (id : Id) (st : string)
  : M (Response (option Order)) :=
  orderDetails <- select_orders (by_order_id id) ;;
  match orderDetails with
  | [] => ret (Fail 404 "Order not found")
  | _ :: _ =>
      result <- update_orders (by_order_id id) (set_order_status st) ;;
      (if String.eqb st "completed" then
         match result with
         | order :: _ =>
             update_accounts (by_account_id (order_account_id order))
                             (set_status sold) ;;;
             setTimeout (CleanupAfterCompletion (order_account_id order))
                        cleanup_delay
         | [] => throw "TypeError: order is undefined"
         end
       else ret tt) ;;;
      ret (Ok 200 (hd_error result))
  end.

(** An empty [status] stands for a missing one (both are falsy). *)
Definition updateOrder (id : Id) (st : string) (s : Server)
  : Response (option Order) * Server :=
  if String.eqb st EmptyString then (Fail 400 "Status is required", s)
  else match updateOrder_body id st s with
       | (inr r, s') => (r, s')
       | (inl e, s') => (Fail 500 e, s')     (* logged; no reply is sent *)
       end.

Definition order_not_found_msg : string := "Order not found".

(** [POST /orders/:id/cancel] *)
Definition cancelOrder_tx (id : Id) : M (option Order) :=
  transaction (
    orderArr <- select_orders (by_order_id id) ;;
    match orderArr with
    | [] => throw order_not_found_msg
    | order :: _ =>
        update_accounts (by_account_id (order_account_id order))
                        (set_status available) ;;;
        deletedOrder <- delete_orders (by_order_id id) ;;
        ret (hd_error deletedOrder)
    end).

Definition cancelOrder (id : Id) (s : Server)
  : Response (option Order) * Server :=
  match cancelOrder_tx id s with
  | (inr o, s') => (Ok 200 o, s')
  | (inl e, s') =>
      (Fail (if includes e "Order not found" then 404 else 500) e, s')
  end.

Definition OrderNotFound : Response (option Order) := Fail 404 order_not_found_msg.

(** [DELETE /orders/:id] *)
Definition deleteOrder (id : Id) (s : Server) : Response Order * Server :=
  match delete_orders (by_order_id id) s with
  | (inr (o :: _), s') => (Ok 200 o, s')
  | (inr [], s') => (Fail 404 "Order not found", s')
  | (inl e, s') => (Fail 500 e, s')
  end.

(** ** Users and accounts *)

Definition insert_user (tg uname : string) : M User :=
  d <- get_db ;;
  let u := mkUser (next_id d) tg uname 0 in      (* balance defaults to 0 *)
  put_db (bump_id (with_users (users d ++ [u]) d)) ;;;
  ret u.

(** [POST /users] *)
Definition createUser (tg uname : string) (s : Server) : Response User * Server :=
  match filter (fun u => String.eqb (telegram_user_id u) tg) (users (db s)) with
  | u :: _ => (Ok 200 u, s)
  | [] =>
      if String.eqb uname EmptyString
      then (Fail 400 "Username is required to create an account.", s)
      else match insert_user tg uname s with
           | (inr u, s') => (Ok 200 u, s')
           | (inl _, s') => (Fail 500 "Failed to create user", s')
           end
  end.

(** [GET /users/:id]: [result[0]], which may be undefined. *)
Definition getUser (id : Id) (s : Server) : option User :=
  hd_error (filter (by_user_id id) (users (db s))).

(** [GET /users/by-telegram/:telegram_user_id] *)
Definition getUserByTelegram (tg : string) (s : Server) : Response User :=
  match filter (fun u => String.eqb (telegram_user_id u) tg) (users (db s)) with
  | u :: _ => Ok 200 u
  | [] => Fail 404 "User not found"
  end.

(** [PUT /users/:id] with body [{ balance }]; a body without [balance]
    makes the update throw, and so does a balance the column cannot hold. *)
Definition setUserBalance (id : Id) (bal : option Z) (s : Server)
  : Response User * Server :=
  match bal with
  | None => (Fail 500 "Failed to update user balance", s)
  | Some b =>
      match update_balance (by_user_id id) b s with
      | (inr (u :: _), s') => (Ok 200 u, s')
      | (inr [], s') => (Fail 404 "User not found", s')
      | (inl _, s') => (Fail 500 "Failed to update user balance", s')
      end
  end.

Definition insert_account (owner : Id) (pf nm : string) (pr subs : Z)
  (year : option Z) (monet : option bool) : M Account :=
  fun s =>
    let d := db s in
    if negb (int4 pr && int4 subs
             && match year with Some y => int4 y | None => true end)
    then (inl out_of_range, s)
    else if existsb (by_user_id owner) (users d)
    then
      (* [status] defaults to 'available', [created_at] to now *)
      let a := mkAccount (next_id d) owner pf nm pr available subs year monet
                         (clock s) in
      (inr a, with_db (bump_id (with_accounts (accounts d ++ [a]) d)) s)
    else (inl fk_violation, s).

(** [POST /accounts] (listing an account).  The bank details that the same
    transaction writes on the owner are not part of the model. *)
Definition createAccount (owner : Id) (pf nm : string) (pr subs : Z)
  (year : option Z) (monet : option bool) (s : Server)
  : Response Account * Server :=
  match transaction (
          accountResult <- insert_account owner pf nm pr subs year monet ;;
          userResult <- update_users (by_user_id owner) (fun u => u) ;;
          match userResult with
          | _ :: _ => ret accountResult
          | [] => throw "Failed to create account or update user bank details"
          end) s with
  | (inr a, s') => (Ok 200 a, s')
  | (inl e, s') => (Fail 500 e, s')
  end.

(** [GET /accounts/:id]: the account joined with its owner. *)
Definition getAccount (id : Id) (s : Server) : list (Account * User) :=
  flat_map (fun a => map (fun u => (a, u))
                         (filter (by_user_id (owner_id a)) (users (db s))))
           (filter (by_account_id id) (accounts (db s))).

Record OrderView : Type := mkOrderView {
  ov_order : Order;
  ov_account : Account;
  ov_buyer : User;
  ov_seller : User
}.

(** [GET /orders/:id]: the order joined with its buyer and its account,
    then the seller looked up from the account's owner. *)
Definition getOrder (id : Id) (s : Server) : Response OrderView :=
  let result :=
    flat_map (fun o =>
      flat_map (fun u =>
        map (fun a => (o, u, a))
            (filter (by_account_id (order_account_id o)) (accounts (db s))))
        (filter (by_user_id (buyer_id o)) (users (db s))))
      (filter (by_order_id id) (orders (db s))) in
  match result with
  | [] => Fail 404 "Order not found"
  | (o, u, a) :: _ =>
      match filter (by_user_id (owner_id a)) (users (db s)) with
      | [] => Fail 404 "Seller not found for this order"
      | seller :: _ => Ok 200 (mkOrderView o a u seller)
      end
  end.

Definition not_deletable_msg : string :=
  "Cannot delete account. Account must be in 'available' status to be deleted.".
Definition has_pending_orders_msg : string :=
  "Cannot delete account with pending orders. Please complete or cancel all orders first.".

(** [DELETE /accounts/:id] *)
Definition deleteAccountApi (id : Id) (s : Server) : Response Account * Server :=
  match filter (by_account_id id) (accounts (db s)) with
  | [] => (Fail 404 "Account not found", s)
  | a0 :: _ =>
      if negb (status_eqb (status a0) available)
      then (Fail 400 not_deletable_msg, s)
      else
        match filter (fun o => of_account id o && is_active_order o)
                     (orders (db s)) with
        | _ :: _ => (Fail 400 has_pending_orders_msg, s)
        | [] =>
            match delete_accounts (by_account_id id) s with
            | (inr (a :: _), s') => (Ok 200 a, s')
            | (inr [], s') => (Fail 404 "Account not found", s')
            | (inl e, s') => (Fail 500 e, s')
            end
        end
  end.

(** ** Withdrawals: [POST /withdrawals] *)

Definition insufficient_balance_msg : string := "Insufficient balance".

Definition withdraw_tx (uid : Id) (amt : Z) : M Withdrawal :=
  transaction (
    user <- select_users (by_user_id uid) ;;
    match user with
    | [] => throw "User not found"
    | u0 :: _ =>
        if balance u0 <? amt then throw insufficient_balance_msg
        else
          let newBalance := balance u0 - amt in
          update_balance (by_user_id uid) newBalance ;;;
          withdrawal <- insert_withdrawal uid amt "pending" ;;
          ret withdrawal
    end).

Definition withdraw (uid : option Id) (amt : option Z) (s : Server)
  : Response Withdrawal * Server :=
  match uid, amt with
  | Some u, Some a =>
      match withdraw_tx u a s with
      | (inr w, s') => (Ok 200 w, s')
      | (inl e, s') => (Fail 500 e, s')
      end
  | _, _ => (Fail 400 "user_id and amount are required", s)
  end.

Definition InsufficientBalance : Response Withdrawal :=
  Fail 500 insufficient_balance_msg.

(** ** The bot's flows over the server ([bot.js]) *)

(** What a bot handler ends with: its work done, an alert of its own to the
    user, or an error response of the server (logged, with a generic
    message to the user). *)
Inductive Outcome (A : Type) : Type :=
| Done (a : A)
| Refused (alert : string)
| Rejected (code : N) (error : string).
Arguments Done {A} a.
Arguments Refused {A} alert.
Arguments Rejected {A} code error.

(** *** Completing an order: [bot.action(/transfer_complete_(.+)/)]

    Four requests in a row: update the order, read it back, read the
    seller, write the seller's new balance.  [CompletePc] is the point a
    run of the handler has reached, with what it holds in local variables. *)
Inductive CompletePc : Type :=
| AtUpdateOrder (orderId : Id)
| AtFetchOrder (orderId : Id)
| AtFetchSeller (account : Account)
| AtWriteBalance (sellerId : Id) (newBalance : Z)
| Finished (credited : option Z).      (* the balance written, if any *)

Definition complete_step (pc : CompletePc) (s : Server) : CompletePc * Server :=
  match pc with
  | AtUpdateOrder orderId =>
      match updateOrder orderId "completed" s with
      | (Ok _ _, s') => (AtFetchOrder orderId, s')
      | (Fail _ _, s') => (Finished None, s')
      end
  | AtFetchOrder orderId =>
      match getOrder orderId s with
      | Ok _ v => (AtFetchSeller (ov_account v), s)
      | Fail _ _ => (Finished None, s)
      end
  | AtFetchSeller account =>
      let sellerId := owner_id account in
      match getUser sellerId s with
      | Some sellerData =>
          let currentBalance :=                          (* balance || 0 *)
            if balance sellerData =? 0 then 0 else balance sellerData in
          let newBalance := currentBalance + price account in
          (AtWriteBalance sellerId newBalance, s)
      | None => (Finished None, s)
      end
  | AtWriteBalance sellerId newBalance =>
      match setUserBalance sellerId (Some newBalance) s with
      | (Ok _ _, s') => (Finished (Some newBalance), s')
      | (Fail _ _, s') => (Finished None, s')
      end
  | Finished r => (Finished r, s)
  end.

Fixpoint complete_run (n : nat) (pc : CompletePc) (s : Server)
  : CompletePc * Server :=
  match n with
  | O => (pc, s)
  | S n' => let (pc', s') := complete_step pc s in complete_run n' pc' s'
  end.

(** One run of the handler from start to end, nothing in between. *)
Definition completeOrder (orderId : Id) (s : Server) : option Z * Server :=
  match complete_run 4 (AtUpdateOrder orderId) s with
  | (Finished r, s') => (r, s')
  | (_, s') => (None, s')
  end.

(** Several runs of the handler at once: a schedule names, step by step,
    the run that moves next. *)

Definition complete_sched_step (i : nat) (st : list CompletePc * Server)
  : list CompletePc * Server :=
  match nth_error (fst st) i with
  | Some pc => let (pc', s') := complete_step pc (snd st) in
               (set_nth i pc' (fst st), s')
  | None => st
  end.

Definition complete_schedule (sched : list nat) (st : list CompletePc * Server)
  : list CompletePc * Server :=
  fold_left (fun st i => complete_sched_step i st) sched st.

(** *** Deleting an account: the two buttons of the bot

    [delete_account_<id>] checks that the user who pressed it owns the
    account, and asks for a confirmation; [confirm_delete_<id>], the
    button under that question, sends the DELETE request. *)

Definition forbidden_msg : string := "Error: You can only delete your own accounts.".

(** [bot.action(/delete_account_(.+)/)].  The handler reads and asks, it
    writes nothing: [Done id] is the confirmation message, whose 'Confirm
    Delete' button carries [confirm_delete_<id>]. *)
Definition on_delete_account (id : Id) (from_tg : string) (s : Server)
  : Outcome Id :=
  match getAccount id s with
  | [] => Refused "Error: Account not found."
  | (account, owner) :: _ =>
      (* Verify the user is the owner *)
      if negb (String.eqb (telegram_user_id owner) from_tg)
      then Refused forbidden_msg
      else Done id
  end.

(** [bot.action(/confirm_delete_(.+)/)]: the DELETE request, whoever
    [from_tg] the button was pressed by. *)
Definition on_confirm_delete (id : Id) (from_tg : string) (s : Server)
  : Outcome Account * Server :=
  match deleteAccountApi id s with
  | (Ok _ a, s') => (Done a, s')
  | (Fail c e, s') => (Rejected c e, s')
  end.

Definition Forbidden {A} : Outcome A := Refused forbidden_msg.
Definition NotDeletable : Outcome Account := Rejected 400 not_deletable_msg.
Definition HasPendingOrders : Outcome Account := Rejected 400 has_pending_orders_msg.

(** ** The server as a transition system *)

Inductive Op : Type :=
| OpCreateUser (tg uname : string)
| OpCreateAccount (owner : Id) (pf nm : string) (pr subs : Z)
                  (year : option Z) (monet : option bool)
| OpReserve (id : Id) (buyer : option Id)
| OpCreateOrder (buyer acc : Id) (amt : Z) (receipt : option string)
| OpUpdateOrder (id : Id) (st : string)
| OpCancelOrder (id : Id)
| OpDeleteOrder (id : Id)
| OpDeleteAccount (id : Id)
| OpSetUserBalance (id : Id) (bal : option Z)
| OpWithdraw (uid : option Id) (amt : option Z)
| OpAdvance (dt : N)
| OpFire (i : nat).

Definition step (op : Op) (s : Server) : Server :=
  match op with
  | OpCreateUser tg uname => snd (createUser tg uname s)
  | OpCreateAccount owner pf nm pr subs year monet =>
      snd (createAccount owner pf nm pr subs year monet s)
  | OpReserve id buyer => snd (reserve id buyer s)
  | OpCreateOrder buyer acc amt receipt => snd (createOrder buyer acc amt receipt s)
  | OpUpdateOrder id st => snd (updateOrder id st s)
  | OpCancelOrder id => snd (cancelOrder id s)
  | OpDeleteOrder id => snd (deleteOrder id s)
  | OpDeleteAccount id => snd (deleteAccountApi id s)
  | OpSetUserBalance id bal => snd (setUserBalance id bal s)
  | OpWithdraw uid amt => snd (withdraw uid amt s)
  | OpAdvance dt => advance dt s
  | OpFire i => fire i s
  end.

Definition run (ops : list Op) (s : Server) : Server :=
  fold_left (fun s op => step op s) ops s.

Definition reachable (s : Server) : Prop := exists ops, s = run ops init.

Definition find_account (id : Id) (s : Server) : option Account :=
  hd_error (filter (by_account_id id) (accounts (db s))).
Definition find_order (id : Id) (s : Server) : option Order :=
  hd_error (filter (by_order_id id) (orders (db s))).
Definition find_user (id : Id) (s : Server) : option User :=
  hd_error (filter (by_user_id id) (users (db s))).

Definition account_status (id : Id) (s : Server) : option AccountStatus :=
  option_map status (find_account id s).

Definition balance_of (id : Id) (s : Server) : option Z :=
  option_map balance (find_user id s).

(** The edges of the status graph as the spec draws it. *)
Definition spec_edge (x y : AccountStatus) : Prop :=
  (x = available /\ y = pending) \/
  (x = pending /\ y = available) \/
  (x = pending /\ y = sold).

(** ** JavaScript strings and numbers, as far as the handlers use them

    A text is the list of the bytes of its UTF-8 encoding. *)

Definition code (c : ascii) : N := N_of_ascii c.

(** White space, as [trim] and the number parsers skip it.  In one byte:
    TAB, LF, VT, FF, CR and the space. *)
Definition is_space (c : ascii) : bool :=
  let n := code c in
  ((9 <=? n) && (n <=? 13) || (n =? 32))%N.

(** In two bytes: U+00A0 (C2 A0). *)
Definition is_space2 (c1 c2 : ascii) : bool :=
  ((code c1 =? 194) && (code c2 =? 160))%N.

(** In three bytes: U+1680 (E1 9A 80), U+2000 to U+200A, U+2028, U+2029
    and U+202F (E2 80 80 to 8A, A8, A9, AF), U+205F (E2 81 9F), U+3000
    (E3 80 80) and U+FEFF (EF BB BF). *)
Definition is_space3 (c1 c2 c3 : ascii) : bool :=
  let a := code c1 in
  let b := code c2 in
  let c := code c3 in
  (((a =? 225) && (b =? 154) && (c =? 128))
   || ((a =? 226) && (b =? 128)
       && ((128 <=? c) && (c <=? 138) || (c =? 168) || (c =? 169) || (c =? 175)))
   || ((a =? 226) && (b =? 129) && (c =? 159))
   || ((a =? 227) && (b =? 128) && (c =? 128))
   || ((a =? 239) && (b =? 187) && (c =? 191)))%N.

(** The text without the white space at its head. *)
Fixpoint skip_spaces (l : list ascii) : list ascii :=
  match l with
  | c1 :: l1 =>
      if is_space c1 then skip_spaces l1
      else
        match l1 with
        | c2 :: l2 =>
            if is_space2 c1 c2 then skip_spaces l2
            else
              match l2 with
              | c3 :: l3 => if is_space3 c1 c2 c3 then skip_spaces l3 else l
              | [] => l
              end
        | [] => l
        end
  | [] => []
  end.

(** The same for a text read backwards, from its last byte. *)
Fixpoint skip_spaces_back (l : list ascii) : list ascii :=
  match l with
  | c1 :: l1 =>
      if is_space c1 then skip_spaces_back l1
      else
        match l1 with
        | c2 :: l2 =>
            if is_space2 c2 c1 then skip_spaces_back l2
            else
              match l2 with
              | c3 :: l3 => if is_space3 c3 c2 c1 then skip_spaces_back l3 else l
              | [] => l
              end
        | [] => l
        end
  | [] => []
  end.

(** [s.trim()] *)
Definition trim (s : string) : string :=
  string_of_list_ascii
    (rev (skip_spaces_back (rev (skip_spaces (list_ascii_of_string s))))).

(** The case of the letters [a] to [z] and [A] to [Z].  The case mapping
    of the characters beyond ASCII is not part of the model: what is
    stated of [toUpperCase] and [toLowerCase] is stated of ASCII text. *)
Definition upper (c : ascii) : ascii :=
  let n := code c in
  if ((97 <=? n) && (n <=? 122))%N then ascii_of_N (n - 32) else c.
Definition lower (c : ascii) : ascii :=
  let n := code c in
  if ((65 <=? n) && (n <=? 90))%N then ascii_of_N (n + 32) else c.

Fixpoint map_string (f : ascii -> ascii) (s : string) : string :=
  match s with
  | EmptyString => EmptyString
  | String c s' => String (f c) (map_string f s')
  end.

Definition toUpperCase : string -> string := map_string upper.
Definition toLowerCase : string -> string := map_string lower.

(** [s.split(',')] *)
Fixpoint split_on (sep : ascii) (cur : list ascii) (l : list ascii) : list string :=
  match l with
  | [] => [string_of_list_ascii (rev cur)]
  | c :: l' =>
      if Ascii.eqb c sep
      then string_of_list_ascii (rev cur) :: split_on sep [] l'
      else split_on sep (c :: cur) l'
  end.
Definition split (sep : ascii) (s : string) : list string :=
  split_on sep [] (list_ascii_of_string s).

(** A JavaScript number: [NaN], the value of a double (a rational, in
    lowest terms; [Num 0] is [+0]), [-0], or an infinity. *)
Inductive JsNum : Type :=
| NaN
| Num (q : Q)
| NegZero
| Infinity (negative : bool).

(** The whole part of the binary logarithm of [n / d], for [n, d > 0]. *)
Definition binade (n d : Z) : Z :=
  let l := Z.log2 n - Z.log2 d in
  if (if 0 <=? l then d * 2 ^ l <=? n else d <=? n * 2 ^ (- l)) then l else l - 1.

(** The whole number nearest to [num / den], the even one of two that are
    as near. *)
Definition round_half_even (num den : Z) : Z :=
  let q := num / den in
  let r := num mod den in
  if 2 * r <? den then q
  else if den <? 2 * r then q + 1
  else if Z.even q then q else q + 1.

(** The double nearest to the positive rational [n / d], ties to the even
    mantissa: [m * 2 ^ e] with [m] of at most 53 bits and [e] the exponent
    that goes with the binade of [n / d] (not below that of the subnormal
    numbers); [Infinity] from [2 ^ 1024] on. *)
Definition nearest_double (n d : positive) : JsNum :=
  let e := Z.max (binade (Zpos n) (Zpos d) - 52) (-1074) in
  if 0 <=? e then
    let m := round_half_even (Zpos n) (Zpos d * 2 ^ e) in
    if 2 ^ 1024 <=? m * 2 ^ e then Infinity false else Num (inject_Z (m * 2 ^ e))
  else
    let m := round_half_even (Zpos n * 2 ^ (- e)) (Zpos d) in
    Num (Qred (m # Z.to_pos (2 ^ (- e)))).

(** [- x] *)
Definition js_neg (x : JsNum) : JsNum :=
  match x with
  | NaN => NaN
  | Num q => if Qnum q =? 0 then NegZero else Num (Qopp q)
  | NegZero => Num 0
  | Infinity b => Infinity (negb b)
  end.

Definition js_signed (negative : bool) (x : JsNum) : JsNum :=
  if negative then js_neg x else x.

(** The number a double can hold of the rational [q]. *)
Definition to_double (q : Q) : JsNum :=
  match Qnum q with
  | Z0 => Num 0
  | Zpos n => nearest_double n (Qden q)
  | Zneg n => js_neg (nearest_double n (Qden q))
  end.

Definition js_is_zero (x : JsNum) : bool :=
  match x with
  | Num q => Qnum q =? 0
  | NegZero => true
  | _ => false
  end.

Definition js_negative (x : JsNum) : bool :=
  match x with
  | Num q => Qnum q <? 0
  | NegZero => true
  | Infinity b => b
  | NaN => false
  end.

(** The value of a finite number, and its absolute value. *)
Definition js_value (x : JsNum) : Q :=
  match x with Num q => q | _ => 0 end.
Definition js_abs (x : JsNum) : Q :=
  match x with Num q => Z.abs (Qnum q) # Qden q | _ => 0 end.

(** [a - b] *)
Definition js_sub (a b : JsNum) : JsNum :=
  match a, b with
  | NaN, _ | _, NaN => NaN
  | Infinity s, Infinity t => if Bool.eqb s t then NaN else Infinity s
  | Infinity s, _ => Infinity s
  | _, Infinity t => Infinity (negb t)
  | NegZero, NegZero => Num 0
  | NegZero, Num y => if Qnum y =? 0 then NegZero else to_double (Qopp y)
  | Num x, NegZero => to_double x
  | Num x, Num y => to_double (x - y)
  end.

(** [a * b] *)
Definition js_mul (a b : JsNum) : JsNum :=
  match a, b with
  | NaN, _ | _, NaN => NaN
  | Infinity s, x | x, Infinity s =>
      if js_is_zero x then NaN else Infinity (xorb s (js_negative x))
  | _, _ =>
      js_signed (xorb (js_negative a) (js_negative b))
                (to_double (js_abs a * js_abs b))
  end.

(** [a / b] *)
Definition js_div (a b : JsNum) : JsNum :=
  match a, b with
  | NaN, _ | _, NaN => NaN
  | Infinity _, Infinity _ => NaN
  | Infinity s, x => Infinity (xorb s (js_negative x))
  | x, Infinity t => js_signed (xorb (js_negative x) t) (Num 0)
  | _, _ =>
      let negative := xorb (js_negative a) (js_negative b) in
      if js_is_zero b then (if js_is_zero a then NaN else Infinity negative)
      else js_signed negative (to_double (js_abs a / js_abs b))
  end.

(** The least whole number at or above [a / b], for [b > 0]. *)
Definition ceil_div (a b : Z) : Z := - ((- a) / b).

(** [Math.ceil(x)] *)
Definition js_ceil (x : JsNum) : JsNum :=
  match x with
  | Num q =>
      let c := ceil_div (Qnum q) (Zpos (Qden q)) in
      if (c =? 0) && (Qnum q <? 0) then NegZero else Num (inject_Z c)
  | _ => x
  end.

(** [a < b]: false as soon as one side is [NaN]. *)
Definition js_lt (a b : JsNum) : bool :=
  match a, b with
  | NaN, _ | _, NaN => false
  | Infinity s, Infinity t => s && negb t
  | Infinity s, _ => s
  | _, Infinity t => negb t
  | _, _ => negb (Qle_bool (js_value b) (js_value a))
  end.

(** [a >= b]: false as soon as one side is [NaN]. *)
Definition js_ge (a b : JsNum) : bool :=
  match a, b with
  | NaN, _ | _, NaN => false
  | _, _ => negb (js_lt a b)
  end.

(** [a === b] *)
Definition js_strict_eq (a b : JsNum) : bool :=
  match a, b with
  | NaN, _ | _, NaN => false
  | Infinity s, Infinity t => Bool.eqb s t
  | Infinity _, _ | _, Infinity _ => false
  | _, _ => Qeq_bool (js_value a) (js_value b)
  end.

(** A number is falsy when it is [NaN] or a zero. *)
Definition js_truthy (x : JsNum) : bool :=
  match x with
  | NaN => false
  | _ => negb (js_is_zero x)
  end.

(** The whole number that a number is, if it is one ([-0] is 0). *)
Definition js_int (x : JsNum) : option Z :=
  match x with
  | Num q => if Qnum q mod Zpos (Qden q) =? 0
             then Some (Qnum q / Zpos (Qden q)) else None
  | NegZero => Some 0
  | _ => None
  end.

(** What the store reads when a number is bound to a parameter of type
    [integer] or [bigint]: the driver sends the number as text, and the
    store takes a whole number within the range of the type. *)
Definition int8 (z : Z) : bool := (- 2 ^ 63 <=? z) && (z <? 2 ^ 63).

Definition as_int4 (x : JsNum) : option Z :=
  match js_int x with
  | Some z => if int4 z then Some z else None
  | None => None
  end.

Definition as_bigint (x : JsNum) : option Z :=
  match js_int x with
  | Some z => if int8 z then Some z else None
  | None => None
  end.

Definition digit_value (c : ascii) : option Z :=
  let n := code c in
  if ((48 <=? n) && (n <=? 57))%N then Some (Z.of_N n - 48)
  else if ((97 <=? n) && (n <=? 102))%N then Some (Z.of_N n - 87)
  else if ((65 <=? n) && (n <=? 70))%N then Some (Z.of_N n - 55)
  else None.

(** The longest run of digits in base [radix] at the head of [l]: its
    value, its length, and what follows. *)
Fixpoint take_digits (radix : Z) (l : list ascii) (acc : Z) (cnt : nat)
  : Z * nat * list ascii :=
  match l with
  | c :: l' =>
      match digit_value c with
      | Some d => if d <? radix then take_digits radix l' (acc * radix + d) (S cnt)
                  else (acc, cnt, l)
      | None => (acc, cnt, l)
      end
  | [] => (acc, cnt, l)
  end.

Definition take_sign (l : list ascii) : bool * list ascii :=
  match l with
  | c :: l' => if Ascii.eqb c "-" then (true, l')
               else if Ascii.eqb c "+" then (false, l')
               else (false, l)
  | [] => (false, l)
  end.

Fixpoint starts_with (p l : list ascii) : bool :=
  match p, l with
  | [], _ => true
  | a :: p', b :: l' => Ascii.eqb a b && starts_with p' l'
  | _ :: _, [] => false
  end.

(** The exponent part at the head of [l] ([e] or [E], a sign, digits);
    0 when there is none. *)
Definition exponent (l : list ascii) : Z :=
  match l with
  | c :: r =>
      if Ascii.eqb c "e" || Ascii.eqb c "E" then
        let (negative, r') := take_sign r in
        let '(v, n, _) := take_digits 10 r' 0 0 in
        match n with
        | O => 0
        | _ => if negative then - v else v
        end
      else 0
  | [] => 0
  end.

(** [parseFloat(s)]: white space, a sign, then [Infinity] or digits, a
    fraction and an exponent; the longest prefix of that shape counts,
    and without a digit the result is [NaN]. *)
Definition parseFloat (s : string) : JsNum :=
  let (negative, l1) := take_sign (skip_spaces (list_ascii_of_string s)) in
  if starts_with (list_ascii_of_string "Infinity") l1 then Infinity negative
  else
    let '(ip, n1, l2) := take_digits 10 l1 0 0 in
    let '(fp, n2, l3) :=
      match l2 with
      | c :: r => if Ascii.eqb c "." then take_digits 10 r 0 0 else (0, O, l2)
      | [] => (0, O, l2)
      end in
    match n1, n2 with
    | O, O => NaN
    | _, _ =>
        let ex := exponent l3 - Z.of_nat n2 in
        let mantissa := ip * 10 ^ Z.of_nat n2 + fp in
        let q := if 0 <=? ex then inject_Z (mantissa * 10 ^ ex)
                 else mantissa # Z.to_pos (10 ^ (- ex)) in
        js_signed negative (to_double q)
    end.

(** [parseInt(s)]: white space, a sign, an optional [0x], digits. *)
Definition parseInt (s : string) : JsNum :=
  let (negative, l1) := take_sign (skip_spaces (list_ascii_of_string s)) in
  let (radix, l2) :=
    match l1 with
    | z :: x :: r =>
        if Ascii.eqb z "0" && (Ascii.eqb x "x" || Ascii.eqb x "X")
        then (16, r) else (10, l1)
    | _ => (10, l1)
    end in
  let '(v, n, _) := take_digits radix l2 0 0 in
  match n with
  | O => NaN
  | _ => js_signed negative (to_double (inject_Z v))
  end.

(** ** Payment verification *)

(** What the Telebirr verifier answers: [{ success, data }] with the
    fields of [data] the server reads. *)
Record TelebirrReply : Type := mkTelebirrReply {
  success : bool;
  creditedPartyName : string;
  settledAmount : string
}.

(** [s.replace(/[^0-9.-]+/g, '')]: only digits, dots and minus signs stay. *)
Definition keeps (c : ascii) : bool :=
  let n := code c in
  ((48 <=? n) && (n <=? 57) || (n =? 46) || (n =? 45))%N.
Definition strip_amount (s : string) : string :=
  string_of_list_ascii (filter keeps (list_ascii_of_string s)).

Definition payment_mismatch_msg : string := "Payment details mismatch.".

(** [POST /orders/verify-payment].  [apiKey] is the environment's
    [RECEIPT_VERIFIER_API_KEY]; [verifier] is the remote service, [None]
    when the request to it fails.  [amount] is the number in the request
    body (a whole number, as the bot sends the price), [None] when there
    is none. *)
Definition verifyPayment (apiKey : option string)
  (verifier : string -> option TelebirrReply)
  (reference : string) (amount : option Z) : Response TelebirrReply :=
  match amount with
  | None => Fail 400 "Receipt number and amount are required"
  | Some amt =>
      if String.eqb reference EmptyString || (amt =? 0)
      then Fail 400 "Receipt number and amount are required"
      else
        match apiKey with
        | None => Fail 500 "Server configuration error."
        | Some _ =>
            match verifier reference with
            | None => Fail 500 "Failed to verify payment"
            | Some data =>
                if negb (success data) then Fail 400 "Payment verification failed"
                else
                  let settled := parseFloat (strip_amount (settledAmount data)) in
                  let expectedAmount := Num (inject_Z amt) in
                  if negb (String.eqb (creditedPartyName data) "Kaleb Mate Megane")
                     || js_lt settled expectedAmount
                  then Fail 400 payment_mismatch_msg
                  else Ok 200 data
            end
        end
  end.

Definition PaymentMismatch : Response TelebirrReply := Fail 400 payment_mismatch_msg.

(** What the bot keeps in the session between the order button and the
    receipt. *)
Record Session : Type := mkSession {
  pendingAccountId : option Id;
  pendingPaymentMethod : string;
  pendingAccountPrice : option Z
}.

(** [bot.on('text')]: the Telebirr receipt number.  [None]: the message is
    not for this handler. *)
Definition on_text (apiKey : option string)
  (verifier : string -> option TelebirrReply)
  (sess : Session) (from_tg text : string) (s : Server)
  : option (Outcome Order) * Server :=
  match pendingAccountId sess with
  | None => (None, s)
  | Some accountId =>
      if String.eqb text EmptyString then (None, s)
      else
        let accountPrice := pendingAccountPrice sess in
        let receiptNo := trim text in
        if String.eqb (pendingPaymentMethod sess) "telebirr" then
          match verifyPayment apiKey verifier receiptNo accountPrice with
          | Fail c e => (Some (Rejected c e), s)
          | Ok _ _ =>
              match getUserByTelegram from_tg s, accountPrice with
              | Ok _ userData, Some pr =>
                  match createOrder (user_id userData) accountId pr (Some receiptNo) s with
                  | (Ok _ order, s') => (Some (Done order), s')
                  | (Fail _ _, s') => (Some (Refused "Failed to create order"), s')
                  end
              | _, _ => (Some (Refused "Failed to get user data"), s)
              end
          end
        else (None, s)
  end.

(** What the CBE receipt reader answers: [{ success, message, data }]. *)
Record CbeReply : Type := mkCbeReply {
  cbe_success : bool;
  cbe_message : string;
  receiver : string;
  cbe_amount : string;
  transaction_ref : option string
}.

Definition validReceivers : list string := ["Kaleb Mate"; "KALEB MATE MEGANE"].

(** The two names are ASCII, and no character beyond ASCII has an upper
    case made of ASCII letters of these names: whether the receiver
    matches is decided by the ASCII part of [toUpperCase]. *)
Definition isValidReceiver (receiver : string) : bool :=
  let normalizedReceiver := toUpperCase (trim receiver) in
  existsb (fun name => String.eqb (toUpperCase name) normalizedReceiver)
          validReceivers.

(** The receiver and amount checks of [bot.on('photo')]; the result is the
    amount to charge, or the message of the error thrown. *)
Definition cbe_validate (data : CbeReply) (accountPrice : option Z) : string + Z :=
  if negb (isValidReceiver (receiver data))
  then inl ("The receiver name '" ++ receiver data
            ++ "' does not match any escrow account")
  else
    let amount := parseInt (cbe_amount data) in
    match accountPrice with
    | Some pr =>
        (* amount !== accountPrice *)
        if js_strict_eq amount (Num (inject_Z pr)) then inr pr
        else inl "Amount does not match required price"
    | None => inl "Amount does not match required price"
    end.

(** [bot.on('photo')]: the CBE receipt screenshot.  [reply] is the answer
    of the receipt reader, [None] when the request fails.  The upload and
    removal of the image are left out. *)
Definition on_photo (reply : option CbeReply) (sess : Session)
  (from_tg : string) (s : Server) : option (Outcome Order) * Server :=
  match pendingAccountId sess with
  | None => (None, s)
  | Some accountId =>
      if negb (String.eqb (pendingPaymentMethod sess) "cbe") then (None, s)
      else
        match reply with
        | None => (Some (Refused "Failed to verify payment"), s)
        | Some verificationData =>
            if negb (cbe_success verificationData) then
              (Some (Refused
                 (if String.eqb (cbe_message verificationData) "transaction already exist"
                  then "This transaction receipt has already been used. Please use a new receipt."
                  else "Payment verification failed. Please check your receipt and try again.")),
               s)
            else
              match getUserByTelegram from_tg s with
              | Fail _ _ => (Some (Refused "Failed to get user data"), s)
              | Ok _ userData =>
                  match cbe_validate verificationData (pendingAccountPrice sess) with
                  | inl e => (Some (Refused e), s)
                  | inr amount =>
                      match createOrder (user_id userData) accountId amount
                                        (transaction_ref verificationData) s with
                      | (Ok _ order, s') => (Some (Done order), s')
                      | (Fail _ _, s') =>
                          (Some (Refused "Failed to create order"), s')
                      end
                  end
              end
        end
  end.

(** The comparison the spec asks for: equal after trimming and ignoring
    case, against the escrow identities. *)
Definition same_identity (a b : string) : bool :=
  String.eqb (toUpperCase (trim a)) (toUpperCase (trim b)).
Definition escrow_identities : list string := validReceivers.
Definition matches_escrow (receiver : string) : bool :=
  existsb (same_identity receiver) escrow_identities.

(** ** The marketplace: [GET /accounts] and [GET /search/accounts] *)

(** The body of the two answers.  The numbers are the ones the handler
    computes: JSON prints [NaN] and the infinities as [null], and [-0]
    as 0.  Only the listing reports the offset. *)
Record Page : Type := mkPage {
  page_accounts : list Account;
  currentPage : JsNum;
  totalPages : JsNum;
  totalCount : Z;
  hasMore : bool;
  page_limit : JsNum;
  page_offset : option JsNum
}.

Definition is_available (a : Account) : bool := status_eqb (status a) available.

(** [.orderBy(desc(accounts.created_at), accounts.id)] *)
Definition listed_before (a b : Account) : bool :=
  ((created_at b <? created_at a) ||
   ((created_at a =? created_at b) && (account_id a <=? account_id b)))%N.

Fixpoint insert_sorted (a : Account) (l : list Account) : list Account :=
  match l with
  | [] => [a]
  | b :: l' => if listed_before a b then a :: l else b :: insert_sorted a l'
  end.

Definition orderBy (l : list Account) : list Account :=
  fold_right insert_sorted [] l.

(** [LIMIT limit OFFSET offset] *)
Definition paginate (limit offset : Z) (l : list Account) : list Account :=
  firstn (Z.to_nat limit) (skipn (Z.to_nat offset) l).

(** [.limit(limit).offset(offset)], as the query builder and the store
    treat the two numbers: the builder leaves the limit out of the query
    unless it is a number [>= 0], and the offset unless it is truthy; the
    store reads what is sent as a [bigint] and refuses a negative offset.
    [None]: the query fails. *)
Definition select_page (limit offset : JsNum) (rows : list Account)
  : option (list Account) :=
  let skipped :=
    if js_truthy offset then
      match as_bigint offset with
      | Some n => if n <? 0 then None else Some (skipn (Z.to_nat n) rows)
      | None => None
      end
    else Some rows in
  match skipped with
  | None => None
  | Some rest =>
      if js_ge limit (Num 0) then
        match as_bigint limit with
        | Some n => Some (firstn (Z.to_nat n) rest)
        | None => None
        end
      else Some rest
  end.

(** [parseInt(x) || dflt], where a missing parameter parses to [NaN]. *)
Definition parseInt_or (x : option string) (dflt : Z) : JsNum :=
  match x with
  | Some str => if js_truthy (parseInt str) then parseInt str
                else Num (inject_Z dflt)
  | None => Num (inject_Z dflt)
  end.

(** [GET /accounts].  The count is the number of rows (below [2 ^ 53]). *)
Definition listAccounts (q_page q_limit : option string) (s : Server)
  : Response Page :=
  let page := parseInt_or q_page 1 in
  let limit := parseInt_or q_limit 6 in
  let offset := js_mul (js_sub page (Num 1)) limit in
  let totalCount :=
    Z.of_nat (List.length (filter is_available (accounts (db s)))) in
  match select_page limit offset
                    (orderBy (filter is_available (accounts (db s)))) with
  | None => Fail 500 "Failed to fetch accounts"
  | Some result =>
      let totalPages := js_ceil (js_div (Num (inject_Z totalCount)) limit) in
      let hasMore := js_lt page totalPages in
      Ok 200 (mkPage result page totalPages totalCount hasMore limit (Some offset))
  end.

Record SearchQuery : Type := mkSearchQuery {
  q_query : option string;
  q_platform_types : option string;
  q_minSubscribers : option string;
  q_maxSubscribers : option string;
  q_isMonetized : option string;
  q_creation_year : option string;
  q_page : option string;
  q_limit : option string
}.

(** A query parameter that is there and not empty. *)
Definition truthy (x : option string) : option string :=
  match x with
  | Some str => if String.eqb str EmptyString then None else Some str
  | None => None
  end.

Section Search.

(** [subject ILIKE pattern], as the store decides it. *)
Variable ilike : string -> string -> bool.

(** [t.toLowerCase()], as the engine maps a text to lower case: all of
    Unicode, of which [toLowerCase] above is the ASCII part. *)
Variable lower_case : string -> string.

(** One filter of the search: none, a condition on the row, or a value the
    store cannot compare with an [integer] column ([parseInt] gave [NaN],
    or a number beyond 32 bits). *)
Inductive Filter : Type :=
| NoFilter
| Where (c : Account -> bool)
| BadValue.

Definition number_filter (x : option string) (c : Z -> Account -> bool) : Filter :=
  match truthy x with
  | None => NoFilter
  | Some str => match as_int4 (parseInt str) with
                | Some n => Where (c n)
                | None => BadValue
                end
  end.

Definition search_filters (q : SearchQuery) : list Filter :=
  [ Where is_available;
    match truthy (q_query q) with
    | Some query => Where (fun a => ilike (name a) ("%" ++ query ++ "%"))
    | None => NoFilter
    end;
    match truthy (q_platform_types q) with
    | Some platform_types =>
        let types :=
          filter (fun t => negb (String.eqb t EmptyString))
                 (map (fun t => lower_case (trim t)) (split "," platform_types)) in
        match types with
        | [] => NoFilter
        | _ :: _ => Where (fun a => existsb (String.eqb (platform a)) types)
        end
    | None => NoFilter
    end;
    number_filter (q_minSubscribers q) (fun n a => n <=? subscriber_count a);
    number_filter (q_maxSubscribers q) (fun n a => subscriber_count a <=? n);
    match truthy (q_isMonetized q) with
    | Some isMonetized =>
        Where (fun a => match is_monetized a with
                        | Some b => Bool.eqb b (String.eqb isMonetized "true")
                        | None => false
                        end)
    | None => NoFilter
    end;
    number_filter (q_creation_year q)
                  (fun n a => match creation_year a with
                              | Some y => y =? n
                              | None => false
                              end) ].

(** [and(...conditions)], or nothing when a value is bad. *)
Fixpoint conjunction (fs : list Filter) : option (Account -> bool) :=
  match fs with
  | [] => Some (fun _ => true)
  | f :: fs' =>
      match conjunction fs' with
      | None => None
      | Some rest =>
          match f with
          | NoFilter => Some rest
          | Where c => Some (fun a => c a && rest a)
          | BadValue => None
          end
      end
  end.

(** [page = 1] and [limit = 6] when the parameter is missing, then
    [parseInt]. *)
Definition parseInt_default (x : option string) (dflt : Z) : JsNum :=
  match x with
  | Some str => parseInt str
  | None => Num (inject_Z dflt)
  end.

(** [GET /search/accounts] *)
Definition searchAccounts (q : SearchQuery) (s : Server) : Response Page :=
  let page := parseInt_default (q_page q) 1 in
  let limit := parseInt_default (q_limit q) 6 in
  let offset := js_mul (js_sub page (Num 1)) limit in
  match conjunction (search_filters q) with
  | None => Fail 500 "Failed to search accounts"
  | Some conditions =>
      let totalCount :=
        Z.of_nat (List.length (filter conditions (accounts (db s)))) in
      match select_page limit offset
                        (orderBy (filter conditions (accounts (db s)))) with
      | None => Fail 500 "Failed to search accounts"
      | Some results =>
          let totalPages := js_ceil (js_div (Num (inject_Z totalCount)) limit) in
          let hasMore := js_lt page totalPages in
          Ok 200 (mkPage results page totalPages totalCount hasMore limit None)
      end
  end.

End Search.

(** The store without the accounts that are not 'available'. *)
Definition only_available (s : Server) : Server :=
  with_db (with_accounts (filter is_available (accounts (db s))) (db s)) s.

(** ** States the handlers leave behind *)

(** After a granted reservation of account [id]. *)
Definition reserved (id : Id) (s : Server) : Server :=
  mkServer
    (with_accounts (update_rows (by_account_id id) (set_status pending)
                                (accounts (db s))) (db s))
    (clock s)
    (timers s ++ [mkTimer (clock s + reservation_timeout)%N (ReleaseReservation id)]).

(** After the release of account [id]. *)
Definition released (id : Id) (s : Server) : Server :=
  with_db (with_accounts (update_rows (by_account_id id) (set_status available)
                                      (accounts (db s))) (db s)) s.

(** After the cancellation of [order]. *)
Definition cancelled (order : Order) (s : Server) : Server :=
  with_db
    (with_orders
       (filter (fun o => negb (by_order_id (order_id order) o)) (orders (db s)))
       (with_accounts
          (update_rows (by_account_id (order_account_id order))
                       (set_status available) (accounts (db s)))
          (db s)))
    s.

(** After the deletion of account [id]: the account's rows are gone, and
    with them the orders that refer to them. *)
Definition deleted (id : Id) (s : Server) : Server :=
  exec (delete_accounts (by_account_id id)) s.

(** After the update of order [oid] (the row [o]) to 'completed'. *)
Definition completed_state (oid : Id) (o : Order) (s : Server) : Server :=
  mkServer
    (with_accounts
       (update_rows (by_account_id (order_account_id o)) (set_status sold)
                    (accounts (db s)))
       (with_orders
          (update_rows (by_order_id oid) (set_order_status "completed")
                       (orders (db s)))
          (db s)))
    (clock s)
    (timers s ++ [mkTimer (clock s + cleanup_delay)%N
                          (CleanupAfterCompletion (order_account_id o))]).

(** After the write of balance [nb] on user [id]. *)
Definition credited (id : Id) (nb : Z) (s : Server) : Server :=
  with_db (with_users (update_rows (by_user_id id) (set_balance nb)
                                   (users (db s))) (db s)) s.

(** ** Notions the statements use *)

(** The orders with status 'pending' on account [id]. *)
Definition pending_orders_of (id : Id) (s : Server) : list Order :=
  filter (fun o => of_account id o && is_pending_order o) (orders (db s)).

(** The spec's [DuplicateActiveOrder]: status 400 with the message of the
    duplicate check. *)
Definition DuplicateActiveOrder : Response Order := Fail 400 duplicate_active_order_msg.

(** Two rounds, every request moving once in each. *)
Definition two_rounds (n : nat) : list nat := seq 0 n ++ seq 0 n.

(** The three phases of a race for an account that is 'available' at the
    start: nobody has the lock yet; request [i] has it; request [i] has
    been granted the reservation. *)
Definition race_inv (id : Id) (s : Server) (a0 : Account) (r : Race) : Prop :=
  (row_lock r = None /\ race_server r = s /\
   forall j pc, nth_error (requests r) j = Some pc -> pc = AtSelectForUpdate)
  \/
  (exists i, row_lock r = Some i /\ race_server r = s /\
     nth_error (requests r) i = Some AtUpdate /\
     forall j pc, j <> i -> nth_error (requests r) j = Some pc ->
                  pc = AtSelectForUpdate)
  \/
  (exists i, row_lock r = None /\ race_server r = reserved id s /\
     nth_error (requests r) i = Some (Replied (Ok 200 (Some (set_status pending a0)))) /\
     forall j pc, j <> i -> nth_error (requests r) j = Some pc ->
                  pc = AtSelectForUpdate \/ pc = Replied NotAvailable).

(** Handler runs one after the other, each from start to end. *)
Definition complete_all (oids : list Id) (s : Server) : Server :=
  fold_left (fun s oid => snd (completeOrder oid s)) oids s.

(** What completing order [oid] credits to user [seller]: the price of the
    order's account when [seller] owns it (and the order, its buyer, its
    account and the owner are all on record), nothing otherwise. *)
Definition credit_of (s : Server) (seller : Id) (oid : Id) : Z :=
  match getOrder oid s with
  | Ok _ v => if (owner_id (ov_account v) =? seller)%N
              then price (ov_account v) else 0
  | Fail _ _ => 0
  end.

Definition sum (l : list Z) : Z := fold_right Z.add 0 l.

Definition finished (pc : CompletePc) : bool :=
  match pc with Finished _ => true | _ => false end.

(** Row rewrites that keep the keys of the rows. *)
Record keeps_keys (fu : User -> User) (fa : Account -> Account)
  (fo : Order -> Order) : Prop := mkKeepsKeys {
  kk_user : forall u, user_id (fu u) = user_id u;
  kk_account : forall a, account_id (fa a) = account_id a;
  kk_owner : forall a, owner_id (fa a) = owner_id a;
  kk_price : forall a, price (fa a) = price a;
  kk_order : forall o, order_id (fo o) = order_id o;
  kk_buyer : forall o, buyer_id (fo o) = buyer_id o;
  kk_order_account : forall o, order_account_id (fo o) = order_account_id o
}.

(** ** Scenarios

    Every state below is reached from the empty server by requests.  The
    seller is user 1 (Telegram id 100), the buyer user 2 (Telegram id 200),
    the listing account 3, priced 500, and the buyer's order on it order 4. *)

Definition listing_trace : list Op :=
  [ OpCreateUser "100" "seller"; OpCreateUser "200" "buyer";
    OpCreateAccount 1%N "telegram_channel" "chan" 500 1000 None None ].

(** A listing nobody has reserved yet. *)
Definition fresh_listing : Server := run listing_trace init.

Definition reserved_trace : list Op :=
  listing_trace ++ [ OpReserve 3%N (Some 2%N) ].

(** The listing, reserved by the buyer. *)
Definition reserved_listing : Server := run reserved_trace init.

Definition paid_reservation_trace : list Op :=
  reserved_trace ++ [ OpCreateOrder 2%N 3%N 500 (Some "R1") ].

(** The reservation paid for: the buyer's pending order is on the account. *)
Definition pending_order_state : Server := run paid_reservation_trace init.

(** The order marked 'failed', and ten minutes gone since the reservation. *)
Definition failed_order_trace : list Op :=
  paid_reservation_trace
    ++ [ OpUpdateOrder 4%N "failed"; OpAdvance reservation_timeout ].

(** The sale completed, the clean-up timer not yet fired. *)
Definition completed_sale_trace : list Op :=
  paid_reservation_trace ++ [ OpUpdateOrder 4%N "completed" ].

(** A second buyer (user 3); the listing is then account 4, reserved by
    user 2, whose order on it is order 5. *)
Definition two_buyers_trace : list Op :=
  [ OpCreateUser "100" "seller"; OpCreateUser "200" "buyer";
    OpCreateUser "300" "other";
    OpCreateAccount 1%N "telegram_channel" "chan" 500 1000 None None;
    OpReserve 4%N (Some 2%N);
    OpCreateOrder 2%N 4%N 500 (Some "R1") ].

(** Two listings of one seller (accounts 3 and 4, priced 500 and 300), both
    reserved and paid for by the buyer (orders 5 and 6). *)
Definition two_sales_trace : list Op :=
  [ OpCreateUser "100" "seller"; OpCreateUser "200" "buyer";
    OpCreateAccount 1%N "telegram_channel" "chan" 500 1000 None None;
    OpCreateAccount 1%N "telegram_group" "group" 300 200 None None;
    OpReserve 3%N (Some 2%N); OpReserve 4%N (Some 2%N);
    OpCreateOrder 2%N 3%N 500 (Some "R1");
    OpCreateOrder 2%N 4%N 300 (Some "R2") ].

Definition two_sales : Server := run two_sales_trace init.

(** Both runs read the seller's balance before either writes it. *)
Definition overlapping_schedule : list nat := [0; 0; 0; 1; 1; 1; 0; 1]%nat.

(** The seller alone, with balance [b]. *)
Definition seller_with_balance (b : Z) : Server :=
  run [ OpCreateUser "100" "seller"; OpSetUserBalance 1%N (Some b) ] init.

(** A verifier answer that is a success, names the escrow account as the
    credited party, and carries no readable amount. *)
Definition unreadable_amount_reply : TelebirrReply :=
  mkTelebirrReply true "Kaleb Mate Megane" "N/A".

(** The buyer's session after the order button and the choice of Telebirr. *)
Definition telebirr_session : Session := mkSession (Some 3%N) "telebirr" (Some 500).

(** ** The other read endpoints of the server *)

(** [GET /users/:id/purchases]: the orders of buyer [id], each joined with
    its account, its buyer and the owner of the account.  The query has no
    ORDER BY, so the store may answer the rows in any order:
    [getUserPurchases] lists them in the order of the table, and
    [purchases_answer] below holds of every list the store may answer. *)
Definition getUserPurchases (id : Id) (s : Server) : list OrderView :=
  flat_map (fun o =>
    flat_map (fun a =>
      flat_map (fun u =>
        map (fun seller => mkOrderView o a u seller)
            (filter (by_user_id (owner_id a)) (users (db s))))
        (filter (by_user_id (buyer_id o)) (users (db s))))
      (filter (by_account_id (order_account_id o)) (accounts (db s))))
    (filter (fun o => (buyer_id o =? id)%N) (orders (db s))).

Record SaleView : Type := mkSaleView {
  sv_order : Order;
  sv_account : Account;
  sv_user : User                    (* the buyer *)
}.

(** [GET /users/:id/sales]: the orders on the accounts owned by [id], each
    joined with its account and its buyer; no ORDER BY either. *)
Definition getUserSales (id : Id) (s : Server) : list SaleView :=
  flat_map (fun o =>
    flat_map (fun a =>
      map (fun u => mkSaleView o a u)
          (filter (by_user_id (buyer_id o)) (users (db s))))
      (filter (fun a => by_account_id (order_account_id o) a && (owner_id a =? id)%N)
              (accounts (db s))))
    (orders (db s)).

(** The lists the two endpoints may answer with: the rows of the query, in
    whatever order the store returns them. *)
Definition purchases_answer (id : Id) (s : Server) (rows : list OrderView) : Prop :=
  Permutation rows (getUserPurchases id s).
Definition sales_answer (id : Id) (s : Server) (rows : list SaleView) : Prop :=
  Permutation rows (getUserSales id s).

(** [GET /accounts/:id/orders] *)
Definition getAccountOrders (id : Id) (s : Server) : list Order :=
  filter (of_account id) (orders (db s)).

(** ** Further flows of the bot ([bot.js]) *)

(** [updateUserVisit]: a [PUT /users/:id] whose body carries [last_visit]
    and no [balance]; the bot does not look at the answer. *)
Definition updateUserVisit (userId : Id) (s : Server) : Server :=
  snd (setUserBalance userId None s).

Inductive StartReply : Type :=
| Welcome
| UsernameNeeded.

(** [bot.command('start')]: look the user up, register them when the
    server answers 404.  [session_user] is [ctx.session.user.id] as it was;
    the result carries the one the handler leaves. *)
Definition on_start (from_tg uname : string) (session_user : option Id)
  (s : Server) : StartReply * option Id * Server :=
  match getUserByTelegram from_tg s with
  | Ok _ userData =>
      (Welcome, Some (user_id userData), updateUserVisit (user_id userData) s)
  | Fail c _ =>
      if (c =? 404)%N then
        match createUser from_tg uname s with
        | (Ok _ userData, s') =>
            (Welcome, Some (user_id userData),
             updateUserVisit (user_id userData) s')
        | (Fail c' e, s') =>
            if (c' =? 400)%N && includes e "Username is required"
            then (UsernameNeeded, session_user, s')
            else (Welcome, None, s')
        end
      else (Welcome, None, s)
  end.

(** *** The order button: [bot.on('callback_query')] for [order_account_<id>] *)

Inductive OrderReply : Type :=
| NotIdentified                         (* 'Could not identify you.' *)
| NoLongerAvailable (details : string)
| OwnAccount                            (* 'You cannot buy your own account.' *)
| OrderExists (error : string)
| UnexpectedError
| AskPayment (pr : Z).                  (* the escrow details and the two buttons *)

Definition on_order_button (accountId : Id) (from_tg : string) (sess : Session)
  (s : Server) : OrderReply * Session * Server :=
  match getUserByTelegram from_tg s with
  | Fail _ _ => (NotIdentified, sess, s)
  | Ok _ userData =>
      (* Attempt to reserve the account *)
      match reserve accountId (Some (user_id userData)) s with
      | (Fail _ e, s') => (NoLongerAvailable e, sess, s')
      | (Ok _ None, s') => (UnexpectedError, sess, s')
      | (Ok _ (Some account), s') =>
          (* Check if the buyer is the owner *)
          if (user_id userData =? owner_id account)%N then (OwnAccount, sess, s')
          else
            match ordersCheck (Some (user_id userData)) (Some accountId) s' with
            | Fail c e =>
                if (c =? 400)%N then (OrderExists e, sess, s')
                else (UnexpectedError, sess, s')
            | Ok _ _ =>
                (AskPayment (price account),
                 mkSession (Some accountId) (pendingPaymentMethod sess)
                           (Some (price account)),
                 s')
            end
      end
  end.

(** [bot.action(/pay_method_telebirr_(.+)/)] and [/pay_method_cbe_(.+)/],
    with [method] 'telebirr' or 'cbe': the session is pointed at the
    account of the button, and the price is refreshed when the account can
    be read. *)
Definition on_pay_method (method : string) (accountId : Id) (sess : Session)
  (s : Server) : Session :=
  mkSession (Some accountId) method
            (match getAccount accountId s with
             | (account, _) :: _ => Some (price account)
             | [] => pendingAccountPrice sess
             end).

(** What [bot.on('text')] leaves in the session: a receipt the verifier
    refuses keeps it (the buyer may send another), every other end of the
    handler forgets the account and its price. *)
Definition session_after_text (sess : Session) (r : option (Outcome Order))
  : Session :=
  match r with
  | None => sess
  | Some (Rejected _ _) => sess
  | Some _ => mkSession None (pendingPaymentMethod sess) None
  end.

(** *** Withdrawing the balance: [bot.action('withdraw_balance')] *)

Inductive WithdrawReply : Type :=
| NotLoggedIn
| FetchFailed
| BelowThreshold (bal : Z)
| WithdrawalMessage (message : string)
| WithdrawalFailed (error : string).

(** [reasonMessages[withdrawal.reason] || '...'] *)
Definition reasonMessage (r : string) : string :=
  if String.eqb r "order_refund" then "Refund processed due to order cancellation"
  else if String.eqb r "seller_payout"
  then "Seller payout initiated - funds will be processed within 24 hours"
  else "Funds will be sent to your bank account within 24 hours".

Definition withdraw_balance (session_user : option Id) (s : Server)
  : WithdrawReply * Server :=
  match session_user with
  | None => (NotLoggedIn, s)
  | Some uid =>
      match getUser uid s with
      | None => (FetchFailed, s)      (* no body to parse: [response.json()] throws *)
      | Some userData =>
          (* Check if balance is sufficient *)
          if balance userData <? 100 then (BelowThreshold (balance userData), s)
          else
            (* the body also carries reason: 'seller_payout' *)
            match withdraw (Some uid) (Some (balance userData)) s with
            | (Ok _ withdrawal, s') =>
                (WithdrawalMessage (reasonMessage (reason withdrawal)), s')
            | (Fail _ e, s') => (WithdrawalFailed e, s')
            end
      end
  end.

(** *** Browsing one's orders: [sendOrdersPage] and its two buttons *)

Definition ITEMS_PER_PAGE : nat := 5.

(** An entry of [ctx.session.orders]: a row of the purchases or of the
    sales endpoint (the latter has no [seller]). *)
Record Item : Type := mkItem {
  item_order : Order;
  item_account : Account;
  item_user : User;
  item_seller : option User
}.

Definition purchase_item (v : OrderView) : Item :=
  mkItem (ov_order v) (ov_account v) (ov_buyer v) (Some (ov_seller v)).
Definition sale_item (v : SaleView) : Item :=
  mkItem (sv_order v) (sv_account v) (sv_user v) None.

(** The titles, without their emoji. *)
Definition purchases_title : string := "Your Purchases".
Definition sales_title : string := "Your Sales".

Record OrdersSession : Type := mkOrdersSession {
  session_orders : list Item;
  orders_page : option nat;              (* [None]: undefined *)
  orders_title : string
}.

Inductive Button : Type :=
| InitiateTransfer (orderId : Id)
| CancelOrderButton (orderId : Id)
| PreviousPage
| NextPage.

Record OrdersPage : Type := mkOrdersPage {
  shown : list (Item * list Button);     (* one message per order *)
  page_no : nat;                         (* 'Page n/m' *)
  page_count : nat;
  navigation : list Button
}.

Definition item_keyboard (isSale : bool) (it : Item) : list Button :=
  ((if isSale && String.eqb (order_status (item_order it)) "pending"
    then [InitiateTransfer (order_id (item_order it))] else [])
   ++
   (if negb isSale && String.eqb (order_status (item_order it)) "pending"
    then [CancelOrderButton (order_id (item_order it))] else []))%list.

(** [Math.ceil(orders.length / ITEMS_PER_PAGE)] *)
Definition orders_totalPages (orders : list Item) : nat :=
  Z.to_nat (ceil_div (Z.of_nat (List.length orders)) (Z.of_nat ITEMS_PER_PAGE)).

(** [sendOrdersPage]; [None] is the 'You have no ... yet.' message. *)
Definition sendOrdersPage (sess : OrdersSession) : option OrdersPage :=
  let orders := session_orders sess in
  let currentPage := match orders_page sess with Some p => p | None => O end in
  match orders with
  | [] => None
  | _ :: _ =>
      let totalPages := orders_totalPages orders in
      let start := (currentPage * ITEMS_PER_PAGE)%nat in
      let end_ := (start + ITEMS_PER_PAGE)%nat in
      let paginatedOrders := firstn (end_ - start) (skipn start orders) in
      let isSale := includes (orders_title sess) "Sales" in
      Some (mkOrdersPage
              (map (fun it => (it, item_keyboard isSale it)) paginatedOrders)
              (currentPage + 1) totalPages
              ((if (0 <? currentPage)%nat then [PreviousPage] else [])
               ++ (if (end_ <? List.length orders)%nat then [NextPage] else []))%list)
  end.

(** [bot.action('orders_page_next')] *)
Definition orders_page_next (sess : OrdersSession) : OrdersSession :=
  match orders_page sess with
  | Some p =>
      if (p + 1 <? orders_totalPages (session_orders sess))%nat
      then mkOrdersSession (session_orders sess) (Some (p + 1)%nat) (orders_title sess)
      else sess
  | None => sess
  end.

(** [bot.action('orders_page_prev')] *)
Definition orders_page_prev (sess : OrdersSession) : OrdersSession :=
  match orders_page sess with
  | Some p =>
      if (0 <? p)%nat
      then mkOrdersSession (session_orders sess) (Some (p - 1)%nat) (orders_title sess)
      else sess
  | None => sess
  end.

(** [fetchAndShowPurchases] and [fetchAndShowSales], as far as the session
    goes: an unregistered user leaves it as it is. *)
Definition fetchAndShowPurchases (from_tg : string) (sess : OrdersSession)
  (s : Server) : OrdersSession :=
  match getUserByTelegram from_tg s with
  | Fail _ _ => sess
  | Ok _ userData =>
      mkOrdersSession (map purchase_item (getUserPurchases (user_id userData) s))
                      (Some O) purchases_title
  end.

Definition fetchAndShowSales (from_tg : string) (sess : OrdersSession)
  (s : Server) : OrdersSession :=
  match getUserByTelegram from_tg s with
  | Fail _ _ => sess
  | Ok _ userData =>
      mkOrdersSession (map sale_item (getUserSales (user_id userData) s))
                      (Some O) sales_title
  end.

(** [bot.action(/cancel_order_(.+)/)]: the cancellation, then the
    purchases list anew. *)
Inductive CancelReply : Type :=
| CancelFailed (error : string)
| CancelMessage (message : string).

Definition on_cancel_order (orderId : Id) (from_tg : string)
  (sess : OrdersSession) (s : Server) : CancelReply * OrdersSession * Server :=
  match cancelOrder orderId s with
  | (Fail _ _, s') => (CancelFailed "Failed to cancel order", sess, s')
  | (Ok _ _, s') =>
      (CancelMessage (reasonMessage "order_refund"),
       fetchAndShowPurchases from_tg sess s', s')
  end.

Inductive Press : Type := PressNext | PressPrevious.

Definition press (b : Press) (sess : OrdersSession) : OrdersSession :=
  match b with
  | PressNext => orders_page_next sess
  | PressPrevious => orders_page_prev sess
  end.

Definition browse (presses : list Press) (sess : OrdersSession) : OrdersSession :=
  fold_left (fun sess b => press b sess) presses sess.

(** *** Text helpers *)

(** The characters of the class [[_*[\]()~`>#+\-=|{}.!]]. *)
Definition markdown_special (c : ascii) : bool :=
  existsb (Ascii.eqb c) (list_ascii_of_string "_*[]()~`>#+-=|{}.!").

(** [escapeMarkdown]: [text.replace(/[...]/g, '\\$&')] *)
Fixpoint escapeMarkdown (text : string) : string :=
  match text with
  | EmptyString => EmptyString
  | String c text' =>
      if markdown_special c then String "\" (String c (escapeMarkdown text'))
      else String c (escapeMarkdown text')
  end.

(** Reading an escaped text back: a backslash in front of a special
    character is dropped. *)
Fixpoint unescapeMarkdown (text : string) : string :=
  match text with
  | EmptyString => EmptyString
  | String c text' =>
      match text' with
      | String d text'' =>
          if Ascii.eqb c "\" && markdown_special d
          then String d (unescapeMarkdown text'')
          else String c (unescapeMarkdown text')
      | EmptyString => String c EmptyString
      end
  end.

(** [deleteFromCloudinary] ([cloudinary.js]): the public id it asks
    Cloudinary to destroy, cut out of the image URL. *)
Definition publicId (imageUrl : string) : string :=
  let urlParts := split "/" imageUrl in
  let publicIdWithExtension := last urlParts EmptyString in
  hd EmptyString (split "." publicIdWithExtension).

(** ** The integrity of the store

    What the schema asks of the tables: primary keys ([id]) and
    [users.telegram_user_id] are unique, and the references of [accounts],
    [orders] and [withdrawals] point at rows that exist.  [next_id] is
    above every id handed out. *)
Record consistent (d : Db) : Prop := mkConsistent {
  users_fresh : forall u, In u (users d) -> (user_id u < next_id d)%N;
  accounts_fresh : forall a, In a (accounts d) -> (account_id a < next_id d)%N;
  orders_fresh : forall o, In o (orders d) -> (order_id o < next_id d)%N;
  withdrawals_fresh :
    forall w, In w (withdrawals d) -> (withdrawal_id w < next_id d)%N;
  users_key : NoDup (map user_id (users d));
  accounts_key : NoDup (map account_id (accounts d));
  orders_key : NoDup (map order_id (orders d));
  withdrawals_key : NoDup (map withdrawal_id (withdrawals d));
  telegram_unique : NoDup (map telegram_user_id (users d));
  account_owner :
    forall a, In a (accounts d) -> existsb (by_user_id (owner_id a)) (users d) = true;
  order_buyer :
    forall o, In o (orders d) -> existsb (by_user_id (buyer_id o)) (users d) = true;
  order_account :
    forall o, In o (orders d) ->
              existsb (by_account_id (order_account_id o)) (accounts d) = true;
  withdrawal_user :
    forall w, In w (withdrawals d) ->
              existsb (by_user_id (withdrawal_user_id w)) (users d) = true
}.

(** The [integer] columns of every row hold 32-bit values. *)
Definition user_int4 (u : User) : bool := int4 (balance u).
Definition account_int4 (a : Account) : bool :=
  int4 (price a) && int4 (subscriber_count a)
  && match creation_year a with Some y => int4 y | None => true end.
Definition order_int4 (o : Order) : bool := int4 (amount o).
Definition withdrawal_int4 (w : Withdrawal) : bool := int4 (withdrawal_amount w).

Definition int4_columns (d : Db) : bool :=
  forallb user_int4 (users d) && forallb account_int4 (accounts d)
  && forallb order_int4 (orders d) && forallb withdrawal_int4 (withdrawals d).

(** The amounts withdrawn by user [uid] so far. *)
Definition withdrawn (uid : Id) (s : Server) : Z :=
  sum (map withdrawal_amount
           (filter (fun w => (withdrawal_user_id w =? uid)%N) (withdrawals (db s)))).

(** ** Notions the further statements use *)

(** [a] is listed before [b], or they are the same row. *)
Definition listed (a b : Account) : Prop := listed_before a b = true.

(** Whether account [a] passes filter [f]. *)
Definition holds (f : Filter) (a : Account) : bool :=
  match f with
  | NoFilter => true
  | Where c => c a
  | BadValue => false
  end.

(** The row of the purchases list for order [o], read off the store. *)
Definition purchase_row (s : Server) (o : Order) : option OrderView :=
  match find_account (order_account_id o) s, find_user (buyer_id o) s with
  | Some a, Some u =>
      match find_user (owner_id a) s with
      | Some seller => Some (mkOrderView o a u seller)
      | None => None
      end
  | _, _ => None
  end.

(** The condition of the lookup by Telegram id. *)
Definition by_telegram (tg : string) (u : User) : bool :=
  String.eqb (telegram_user_id u) tg.

(** The page index points into the orders. *)
Definition browsing (items : list Item) (title : string) (sess : OrdersSession)
  : Prop :=
  session_orders sess = items /\ orders_title sess = title /\
  exists p, orders_page sess = Some p /\
            (p * ITEMS_PER_PAGE < List.length items)%nat.

(** The number of special characters of a text. *)
Fixpoint count_special (text : string) : nat :=
  match text with
  | EmptyString => O
  | String c text' => ((if markdown_special c then 1 else 0) + count_special text')%nat
  end.

(** Whether character [c] occurs in [s]. *)
Definition has_char (c : ascii) (s : string) : bool :=
  existsb (Ascii.eqb c) (list_ascii_of_string s).

(** White space only. *)
Definition blank (s : string) : bool := forallb is_space (list_ascii_of_string s).

(** Text of ASCII characters only. *)
Definition ascii_char (c : ascii) : bool := (code c <? 128)%N.
Definition ascii_text (s : string) : bool :=
  forallb ascii_char (list_ascii_of_string s).

(** The text without the one-byte white space at its head: what
    [skip_spaces] is on ASCII text. *)
Fixpoint skip_blank (l : list ascii) : list ascii :=
  match l with
  | c :: l' => if is_space c then skip_blank l' else l
  | [] => []
  end.

(** U+00A0, the no-break space, in UTF-8. *)
Definition nbsp : string :=
  String (ascii_of_N 194) (String (ascii_of_N 160) EmptyString).

(** The character of the decimal digit [d]. *)
Definition digit_char (d : nat) : ascii := ascii_of_nat (48 + d).

(** The text of a number written with the decimal digits [ds]. *)
Definition decimal (ds : list nat) : string :=
  string_of_list_ascii (map digit_char ds).

(** The number that the digits [ds] write. *)
Definition decimal_value (ds : list nat) : Z :=
  fold_left (fun acc d => acc * 10 + Z.of_nat d) ds 0.

(** A non-empty list of decimal digits. *)
Definition are_digits (ds : list nat) : bool :=
  match ds with
  | [] => false
  | _ :: _ => forallb (fun d => (d <? 10)%nat) ds
  end.

(** Text that the amount pattern removes entirely. *)
Definition decoration (s : string) : bool :=
  forallb (fun c => negb (keeps c)) (list_ascii_of_string s).

Definition is_decimal_digit (c : ascii) : bool :=
  ((48 <=? code c) && (code c <=? 57))%N.

(** Text at which [parseInt] stops reading a decimal number. *)
Definition ends_number (s : string) : bool :=
  match s with
  | EmptyString => true
  | String c _ => negb (is_decimal_digit c) && negb (Ascii.eqb c "x")
                  && negb (Ascii.eqb c "X")
  end.

(** *** Further scenarios *)

(** A verifier that confirms 500 paid to the escrow account. *)
Definition paid_500 (_ : string) : option TelebirrReply :=
  Some (mkTelebirrReply true "Kaleb Mate Megane" "500.00").

(** The buyer has reserved the listing, paid, and cancelled the order
    nine minutes after the reservation: its release timer is still
    waiting. *)
Definition cancelled_purchase_trace : list Op :=
  paid_reservation_trace ++ [ OpCancelOrder 4%N; OpAdvance 540000%N ].

(** * Properties *)

Local Open Scope list_scope.

(** Unfolding a handler down to the store. *)
Ltac run_m :=
  cbv [transaction bind select_accounts select_orders select_users
       update_accounts update_orders update_users delete_orders
       delete_accounts insert_order insert_withdrawal insert_user
       insert_account update_balance setTimeout get_db put_db ret throw].

(** ** Lists and rows *)

Lemma update_rows_id {R} (p : R -> bool) (l : list R) :
  update_rows p (fun r => r) l = l.
Proof.
  unfold update_rows. induction l as [|r l IH]; [reflexivity|].
  simpl. rewrite IH. now destruct (p r).
Qed.

Lemma with_orders_same d : with_orders (orders d) d = d.
Proof. now destruct d. Qed.

Lemma with_accounts_same d : with_accounts (accounts d) d = d.
Proof. now destruct d. Qed.

Lemma with_db_same s : with_db (db s) s = s.
Proof. now destruct s. Qed.

Lemma status_eqb_eq x y : status_eqb x y = true <-> x = y.
Proof. destruct x, y; simpl; split; congruence. Qed.

Lemma hd_error_map {A B} (f : A -> B) (l : list A) :
  hd_error (map f l) = option_map f (hd_error l).
Proof. now destruct l. Qed.

Lemma filter_update_rows {R} (q p : R -> bool) (f : R -> R) (l : list R) :
  (forall r, q (f r) = q r) ->
  filter q (update_rows p f l) = update_rows p f (filter q l).
Proof.
  intros Hq. unfold update_rows.
  induction l as [|r l IH]; simpl; [reflexivity|].
  destruct (p r) eqn:Hp.
  - rewrite Hq. destruct (q r); simpl; [rewrite Hp|]; now rewrite IH.
  - destruct (q r); simpl; [rewrite Hp|]; now rewrite IH.
Qed.

Lemma nth_error_set_nth_same {A} (i : nat) (x y : A) (l : list A) :
  nth_error l i = Some y -> nth_error (set_nth i x l) i = Some x.
Proof.
  revert l; induction i as [|i IH]; intros [|z l]; simpl; try discriminate; auto.
Qed.

Lemma nth_error_set_nth_other {A} (i j : nat) (x : A) (l : list A) :
  j <> i -> nth_error (set_nth i x l) j = nth_error l j.
Proof.
  revert j l; induction i as [|i IH]; intros [|j] [|z l] Hij; simpl;
    try reflexivity; try congruence.
  apply IH. congruence.
Qed.

Lemma length_set_nth {A} (i : nat) (x : A) (l : list A) :
  List.length (set_nth i x l) = List.length l.
Proof.
  revert l; induction i as [|i IH]; intros [|z l]; simpl; auto.
Qed.

(** ** C1: reservation *)

Lemma by_account_id_set_status id st a :
  by_account_id id (set_status st a) = by_account_id id a.
Proof. reflexivity. Qed.

Lemma find_account_updated id id' st s s' :
  accounts (db s') = update_rows (by_account_id id) (set_status st) (accounts (db s)) ->
  find_account id' s' =
  option_map (fun a => if by_account_id id a then set_status st a else a)
             (find_account id' s).
Proof.
  intros E. unfold find_account. rewrite E.
  rewrite filter_update_rows by (intros; apply by_account_id_set_status).
  unfold update_rows. apply hd_error_map.
Qed.

Lemma reserve_check_run id s :
  reserve_check id s =
  (match find_account id s with
   | Some a0 => if status_eqb (status a0) available then inr tt
                else inl not_available_msg
   | None => inl not_available_msg
   end, s).
Proof.
  unfold reserve_check, find_account, select_accounts, bind, get_db, ret, throw.
  destruct (filter (by_account_id id) (accounts (db s))) as [|a0 l]; simpl;
    [reflexivity|].
  now destruct (status_eqb (status a0) available).
Qed.

Lemma reserve_write_run id s :
  reserve_write id s =
  (inr (option_map (set_status pending) (find_account id s)), reserved id s).
Proof.
  unfold reserve_write, update_accounts, setTimeout, bind, get_db, put_db, ret,
    find_account, reserved, with_db. simpl.
  now rewrite hd_error_map.
Qed.

Lemma reserve_granted id buyer s a0 :
  find_account id s = Some a0 -> status a0 = available ->
  reserve id (Some buyer) s = (Ok 200 (Some (set_status pending a0)), reserved id s).
Proof.
  intros Hf Hs. unfold reserve, reserve_tx, transaction, bind.
  rewrite reserve_check_run, Hf, Hs. cbn -[reserve_write].
  now rewrite reserve_write_run, Hf.
Qed.

Lemma reserve_refused id buyer s :
  account_status id s <> Some available ->
  reserve id (Some buyer) s = (NotAvailable, s).
Proof.
  intros Hn. unfold reserve, reserve_tx, transaction, bind.
  rewrite reserve_check_run. unfold account_status in Hn.
  destruct (find_account id s) as [a0|]; simpl in *.
  - destruct (status_eqb (status a0) available) eqn:E.
    + apply status_eqb_eq in E. congruence.
    + destruct s; reflexivity.
  - destruct s; reflexivity.
Qed.

Lemma account_status_reserved id s a0 :
  find_account id s = Some a0 ->
  account_status id (reserved id s) = Some pending.
Proof.
  intros Hf. unfold account_status, reserved.
  rewrite (find_account_updated id id pending s) by reflexivity.
  rewrite Hf. simpl.
  assert (by_account_id id a0 = true) as ->; [|reflexivity].
  unfold find_account in Hf.
  destruct (filter (by_account_id id) (accounts (db s))) as [|x l] eqn:E;
    simpl in Hf; [discriminate|].
  injection Hf as ->.
  assert (In a0 (filter (by_account_id id) (accounts (db s)))) as Hin
      by (rewrite E; now left).
  apply filter_In in Hin. tauto.
Qed.

Lemma find_account_some_filter id s a0 :
  find_account id s = Some a0 ->
  exists l, filter (by_account_id id) (accounts (db s)) = a0 :: l.
Proof.
  unfold find_account.
  destruct (filter (by_account_id id) (accounts (db s))) as [|x l]; simpl;
    [discriminate|].
  intros [= ->]. now exists l.
Qed.

Lemma find_account_reserved id s a0 :
  find_account id s = Some a0 ->
  find_account id (reserved id s) = Some (set_status pending a0).
Proof.
  intros Hf. unfold reserved.
  rewrite (find_account_updated id id pending s) by reflexivity.
  rewrite Hf. simpl.
  destruct (find_account_some_filter _ _ _ Hf) as [l E].
  assert (In a0 (filter (by_account_id id) (accounts (db s)))) as Hin
      by (rewrite E; now left).
  apply filter_In in Hin. now rewrite (proj2 Hin).
Qed.

Lemma race_step_waits id s a0 i k r :
  find_account id s = Some a0 ->
  row_lock r = Some i -> race_server r = s ->
  nth_error (requests r) k = Some AtSelectForUpdate ->
  race_step id k r = r.
Proof.
  intros Hf Hl Hs Hk. unfold race_step. rewrite Hk, Hs, Hl.
  destruct (find_account_some_filter _ _ _ Hf) as [l ->]. reflexivity.
Qed.

Lemma race_step_free id k r :
  nth_error (requests r) k = Some AtSelectForUpdate -> row_lock r = None ->
  race_step id k r =
  match fst (reserve_check id (race_server r)) with
  | inr _ => mkRace (race_server r) (Some k) (set_nth k AtUpdate (requests r))
  | inl e => mkRace (race_server r) None
                    (set_nth k (Replied (reserve_reply (inl e))) (requests r))
  end.
Proof.
  intros Hk Hl. unfold race_step. rewrite Hk, Hl.
  destruct (reserve_check id (race_server r)) as [[e|u] s'].
  - now destruct (filter (by_account_id id) (accounts (db (race_server r)))).
  - now destruct (filter (by_account_id id) (accounts (db (race_server r)))).
Qed.

Lemma reply_not_available :
  reserve_reply (inl not_available_msg) = NotAvailable.
Proof. reflexivity. Qed.

Lemma race_step_inv id s a0 k r :
  find_account id s = Some a0 -> status a0 = available ->
  race_inv id s a0 r -> race_inv id s a0 (race_step id k r).
Proof.
  intros Hf Ha Inv.
  destruct (nth_error (requests r) k) as [pc|] eqn:Hk;
    [|unfold race_step; now rewrite Hk].
  destruct Inv as [(Hl & Hs & Hall) | [(i & Hl & Hs & Hi & Hall) | (i & Hl & Hs & Hi & Hall)]].
  - (* nobody has the lock: request [k] takes it *)
    pose proof (Hall _ _ Hk) as ->.
    right; left. exists k.
    rewrite race_step_free, Hs, reserve_check_run, Hf, Ha by assumption.
    cbn [fst status_eqb row_lock race_server requests].
    repeat split.
    + eapply nth_error_set_nth_same; eassumption.
    + intros j pc Hj Hpc. rewrite nth_error_set_nth_other in Hpc by assumption.
      eauto.
  - destruct (Nat.eq_dec k i) as [->|Hki].
    + (* the holder writes and commits *)
      rewrite Hi in Hk. injection Hk as <-.
      right; right. exists i.
      unfold race_step. rewrite Hi, Hs, reserve_write_run, Hf.
      cbn [option_map reserve_reply row_lock race_server requests].
      repeat split.
      * eapply nth_error_set_nth_same; eassumption.
      * intros j pc Hj Hpc. rewrite nth_error_set_nth_other in Hpc by assumption.
        left; eauto.
    + (* another request waits *)
      pose proof (Hall _ _ Hki Hk) as ->.
      rewrite (race_step_waits id s a0 i k r) by assumption.
      right; left. exists i. auto.
  - destruct (Nat.eq_dec k i) as [->|Hki].
    + unfold race_step. rewrite Hi. right; right. exists i. auto.
    + right; right. exists i.
      destruct (Hall _ _ Hki Hk) as [-> | ->].
      * (* a late request finds the account 'pending' *)
        rewrite race_step_free, Hs, reserve_check_run by assumption.
        rewrite (find_account_reserved _ _ _ Hf).
        cbn [fst status status_eqb set_status row_lock race_server requests].
        rewrite reply_not_available.
        repeat split.
        -- rewrite nth_error_set_nth_other by congruence. assumption.
        -- intros j pc Hj Hpc.
           destruct (Nat.eq_dec j k) as [->|Hjk].
           ++ erewrite nth_error_set_nth_same in Hpc by eassumption.
              injection Hpc as <-. now right.
           ++ rewrite nth_error_set_nth_other in Hpc by assumption. eauto.
      * unfold race_step. rewrite Hk. auto.
Qed.

Lemma race_inv_run id s a0 sched r :
  find_account id s = Some a0 -> status a0 = available ->
  race_inv id s a0 r -> race_inv id s a0 (race id sched r).
Proof.
  intros Hf Ha. revert r. unfold race.
  induction sched as [|k sched IH]; intros r Inv; simpl; [assumption|].
  apply IH. now apply race_step_inv.
Qed.

Lemma race_inv_start id s a0 n : race_inv id s a0 (race_start n s).
Proof.
  left. repeat split. simpl. intros j pc Hj.
  apply nth_error_In, repeat_spec in Hj. congruence.
Qed.

Lemma none_granted l :
  (forall j pc, nth_error l j = Some pc -> granted pc = false) ->
  filter granted l = [].
Proof.
  induction l as [|x l IH]; intros H; simpl; [reflexivity|].
  rewrite (H 0%nat x eq_refl). apply IH.
  intros j pc Hj. apply (H (S j) pc Hj).
Qed.

Lemma one_granted l i pc :
  nth_error l i = Some pc -> granted pc = true ->
  (forall j pc', j <> i -> nth_error l j = Some pc' -> granted pc' = false) ->
  List.length (filter granted l) = 1%nat.
Proof.
  revert i; induction l as [|x l IH]; intros [|i] Hi Hg Hothers; simpl in *;
    try discriminate.
  - injection Hi as ->. rewrite Hg. simpl. f_equal.
    rewrite none_granted; [reflexivity|].
    intros j pc' Hj. apply (Hothers (S j) pc'); [congruence|exact Hj].
  - rewrite (Hothers 0%nat x) by (congruence || reflexivity).
    apply (IH i Hi Hg).
    intros j pc' Hj Hpc. apply (Hothers (S j) pc'); [congruence|exact Hpc].
Qed.

Lemma race_idle id l r :
  (forall k, In k l -> race_step id k r = r) -> race id l r = r.
Proof.
  unfold race. induction l as [|k l IH]; intros H; simpl; [reflexivity|].
  rewrite (H k) by now left. apply IH. intros k' Hk'. apply H. now right.
Qed.

Lemma race_cons id k l r : race id (k :: l) r = race id l (race_step id k r).
Proof. reflexivity. Qed.

Lemma race_app id l1 l2 r : race id (l1 ++ l2) r = race id l2 (race id l1 r).
Proof. unfold race. apply fold_left_app. Qed.

Lemma set_nth_middle {A} (l1 l2 : list A) (x y : A) n :
  List.length l1 = n -> set_nth n x (l1 ++ y :: l2) = l1 ++ x :: l2.
Proof.
  intros <-. induction l1 as [|z l1 IH]; simpl; [reflexivity|]. now rewrite IH.
Qed.

Lemma nth_error_middle {A} (l1 l2 : list A) (y : A) n :
  List.length l1 = n -> nth_error (l1 ++ y :: l2) n = Some y.
Proof.
  intros <-. induction l1 as [|z l1 IH]; simpl; [reflexivity|]. exact IH.
Qed.

Lemma repeat_snoc {A} (x : A) n : repeat x n ++ [x] = repeat x (S n).
Proof. induction n as [|n IH]; simpl; [reflexivity|]. now rewrite IH. Qed.

(** The late requests of a round, one after the other, each find the
    account 'pending'. *)
Lemma race_late_round id s a0 win m done :
  find_account id s = Some a0 ->
  race id (seq (S done) m)
       (mkRace (reserved id s) None
               ((win :: repeat (Replied NotAvailable) done)
                  ++ repeat AtSelectForUpdate m)) =
  mkRace (reserved id s) None (win :: repeat (Replied NotAvailable) (done + m)).
Proof.
  intros Hf. revert done. induction m as [|m IH]; intros done.
  - cbn [seq repeat]. unfold race. cbn [fold_left].
    now rewrite app_nil_r, Nat.add_0_r.
  - assert (List.length (win :: repeat (Replied NotAvailable) done) = S done) as Hlen
        by (simpl; now rewrite repeat_length).
    cbn [seq repeat]. rewrite race_cons.
    rewrite race_step_free; cbn [requests row_lock race_server]; try reflexivity.
    2:{ now apply nth_error_middle. }
    rewrite reserve_check_run, (find_account_reserved _ _ _ Hf).
    cbn [fst status status_eqb set_status].
    rewrite reply_not_available.
    rewrite set_nth_middle by assumption.
    replace ((win :: repeat (Replied NotAvailable) done)
               ++ Replied NotAvailable :: repeat AtSelectForUpdate m)
      with ((win :: repeat (Replied NotAvailable) (S done))
              ++ repeat AtSelectForUpdate m).
    2:{ rewrite <- repeat_snoc. cbn [app]. now rewrite <- app_assoc. }
    replace (done + S m)%nat with (S done + m)%nat by lia.
    apply (IH (S done)).
Qed.

Lemma race_step_commit id k r :
  nth_error (requests r) k = Some AtUpdate ->
  race_step id k r =
  mkRace (reserved id (race_server r)) None
         (set_nth k (Replied (Ok 200 (option_map (set_status pending)
                                        (find_account id (race_server r)))))
                  (requests r)).
Proof.
  intros Hk. unfold race_step. now rewrite Hk, reserve_write_run.
Qed.

Lemma race_two_rounds id s a0 m :
  find_account id s = Some a0 -> status a0 = available ->
  race id (two_rounds (S m)) (race_start (S m) s) =
  mkRace (reserved id s) None
         (Replied (Ok 200 (Some (set_status pending a0)))
            :: repeat (Replied NotAvailable) m).
Proof.
  intros Hf Ha. unfold two_rounds. rewrite race_app.
  cbn [seq]. unfold race_start. cbn [repeat].
  (* first round: request 0 takes the lock, the others wait *)
  assert (race id (0%nat :: seq 1 m)
               (mkRace s None (AtSelectForUpdate :: repeat AtSelectForUpdate m)) =
          mkRace s (Some 0%nat) (AtUpdate :: repeat AtSelectForUpdate m)) as ->.
  { rewrite race_cons.
    rewrite race_step_free by reflexivity.
    cbn [race_server requests]. rewrite reserve_check_run, Hf, Ha.
    cbn [fst status_eqb set_nth].
    apply race_idle. intros k Hk. apply in_seq in Hk.
    apply (race_step_waits id s a0 0%nat); try reflexivity; try assumption.
    cbn [requests]. destruct k as [|k]; [lia|]. cbn [nth_error].
    apply nth_error_repeat. lia. }
  (* second round: request 0 commits, the others are turned away *)
  rewrite race_cons, race_step_commit by reflexivity.
  cbn [requests race_server set_nth]. rewrite Hf. cbn [option_map].
  exact (race_late_round id s a0 _ m 0%nat Hf).
Qed.

Lemma forallb_replied_repeat r m :
  forallb replied (repeat (Replied r) m) = true.
Proof. induction m as [|m IH]; simpl; auto. Qed.

(** C1.  A reservation request for account [id] that carries a buyer id:
    - is turned away with NotAvailable, the state untouched, unless the
      account exists with status 'available';
    - on an 'available' account, answers the record with status 'pending'
      and leaves the account 'pending' (one transaction: check, write and
      the release timer);
    - when any number of such requests race for the account under the row
      lock, in any schedule, at most one is granted; once all have been
      answered exactly one was granted, it got the updated record, all the
      others got NotAvailable, and the store is as after one reservation;
    - two rounds of the requests are a schedule that answers them all. *)
Theorem reserve_one_winner (id buyer : Id) (s : Server) (n : nat) (sched : list nat) :
  match find_account id s with
  | Some a0 =>
      if status_eqb (status a0) available then
        reserve id (Some buyer) s
          = (Ok 200 (Some (set_status pending a0)), reserved id s) /\
        account_status id (reserved id s) = Some pending /\
        (let r := race id sched (race_start n s) in
         (List.length (filter granted (requests r)) <= 1)%nat /\
         (forallb replied (requests r) = true -> n <> 0%nat ->
          List.length (filter granted (requests r)) = 1%nat /\
          Forall (fun pc => pc = Replied (Ok 200 (Some (set_status pending a0)))
                            \/ pc = Replied NotAvailable) (requests r) /\
          race_server r = reserved id s)) /\
        forallb replied (requests (race id (two_rounds n) (race_start n s))) = true
      else reserve id (Some buyer) s = (NotAvailable, s)
  | None => reserve id (Some buyer) s = (NotAvailable, s)
  end.
Proof.
  destruct (find_account id s) as [a0|] eqn:Hf.
  2:{ apply reserve_refused. unfold account_status. rewrite Hf. discriminate. }
  destruct (status_eqb (status a0) available) eqn:Ha.
  2:{ apply reserve_refused. unfold account_status. rewrite Hf. simpl.
      intros [= E]. rewrite E in Ha. discriminate. }
  apply status_eqb_eq in Ha.
  split; [now apply reserve_granted|].
  split; [now apply (account_status_reserved id s a0)|].
  split.
  - pose proof (race_inv_run id s a0 sched _ Hf Ha (race_inv_start id s a0 n)) as Inv.
    assert (List.length (requests (race id sched (race_start n s))) = n) as Hlen.
    { clear Inv. unfold race.
      assert (forall r, List.length (requests r) = n ->
                List.length (requests (fold_left (fun r i => race_step id i r) sched r)) = n) as H.
      { induction sched as [|k sched IH]; intros r Hr; simpl; [assumption|].
        apply IH. unfold race_step.
        destruct (nth_error (requests r) k) as [[| |rep]|]; try assumption.
        - destruct (filter (by_account_id id) (accounts (db (race_server r))));
            destruct (row_lock r);
            destruct (reserve_check id (race_server r)) as [[e|u] s'];
            simpl; try rewrite length_set_nth; assumption.
        - destruct (reserve_write id (race_server r)). simpl.
          now rewrite length_set_nth. }
      apply H. simpl. apply repeat_length. }
    cbv zeta. set (r := race id sched (race_start n s)) in *.
    destruct Inv as [(Hl & Hs & Hall) | [(i & Hl & Hs & Hi & Hall) | (i & Hl & Hs & Hi & Hall)]].
    + split.
      * rewrite none_granted; [simpl; lia|].
        intros j pc Hj. now rewrite (Hall _ _ Hj).
      * intros Hrep Hn. exfalso.
        destruct (requests r) as [|pc l] eqn:E; [simpl in Hlen; congruence|].
        pose proof (Hall 0%nat pc eq_refl) as ->. discriminate.
    + split.
      * rewrite none_granted; [simpl; lia|].
        intros j pc Hj. destruct (Nat.eq_dec j i) as [->|Hji].
        -- rewrite Hi in Hj. now injection Hj as <-.
        -- now rewrite (Hall _ _ Hji Hj).
      * intros Hrep _. exfalso.
        rewrite forallb_forall in Hrep.
        specialize (Hrep _ (nth_error_In _ _ Hi)). discriminate.
    + assert (List.length (filter granted (requests r)) = 1%nat) as Hone.
      { apply (one_granted _ i _ Hi); [reflexivity|].
        intros j pc Hji Hj. now destruct (Hall _ _ Hji Hj) as [-> | ->]. }
      split; [lia|].
      intros Hrep _. split; [exact Hone|]. split; [|exact Hs].
      apply Forall_forall. intros pc Hin.
      apply In_nth_error in Hin. destruct Hin as [j Hj].
      destruct (Nat.eq_dec j i) as [->|Hji].
      * rewrite Hi in Hj. injection Hj as <-. now left.
      * destruct (Hall _ _ Hji Hj) as [-> | ->]; [|now right].
        rewrite forallb_forall in Hrep.
        specialize (Hrep _ (nth_error_In _ _ Hj)). discriminate.
  - destruct n as [|m]; [reflexivity|].
    rewrite (race_two_rounds id s a0 m Hf Ha). cbn [requests forallb replied].
    apply forallb_replied_repeat.
Qed.

Lemma reserve_one_winner_witness :
  account_status 3%N (reserved 3%N fresh_listing) = Some pending /\
  reserve 3%N (Some 2%N) (reserved 3%N fresh_listing)
    = (NotAvailable, reserved 3%N fresh_listing) /\
  forallb replied (requests (race 3%N (two_rounds 3) (race_start 3 fresh_listing)))
    = true.
Proof.
  split; [|split].
  - exact (proj1 (proj2 (reserve_one_winner 3%N 2%N fresh_listing 3 []))).
  - exact (reserve_one_winner 3%N 2%N (reserved 3%N fresh_listing) 0 []).
  - exact (proj2 (proj2 (proj2 (reserve_one_winner 3%N 2%N fresh_listing 3 [])))).
Defined.

(** ** C6: cancelling an order *)

Lemma find_order_id id s o : find_order id s = Some o -> order_id o = id.
Proof.
  unfold find_order. intros H.
  destruct (filter (by_order_id id) (orders (db s))) as [|x l] eqn:E;
    simpl in H; [discriminate|]. injection H as ->.
  assert (In o (filter (by_order_id id) (orders (db s)))) as Hin
      by (rewrite E; now left).
  apply filter_In in Hin. unfold by_order_id in Hin.
  now apply N.eqb_eq.
Qed.

Lemma find_account_id id s a : find_account id s = Some a -> account_id a = id.
Proof.
  unfold find_account. intros H.
  destruct (filter (by_account_id id) (accounts (db s))) as [|x l] eqn:E;
    simpl in H; [discriminate|]. injection H as ->.
  assert (In a (filter (by_account_id id) (accounts (db s)))) as Hin
      by (rewrite E; now left).
  apply filter_In in Hin. unfold by_account_id in Hin.
  now apply N.eqb_eq.
Qed.

Lemma find_user_id id s u : find_user id s = Some u -> user_id u = id.
Proof.
  unfold find_user. intros H.
  destruct (filter (by_user_id id) (users (db s))) as [|x l] eqn:E;
    simpl in H; [discriminate|]. injection H as ->.
  assert (In u (filter (by_user_id id) (users (db s)))) as Hin
      by (rewrite E; now left).
  apply filter_In in Hin. unfold by_user_id in Hin.
  now apply N.eqb_eq.
Qed.

Lemma cancelOrder_missing id s :
  find_order id s = None -> cancelOrder id s = (OrderNotFound, s).
Proof.
  unfold find_order, cancelOrder, cancelOrder_tx. run_m.
  destruct (filter (by_order_id id) (orders (db s))); simpl; [|discriminate].
  intros _. now destruct s.
Qed.

(** The handler does not look at the order's status. *)
Lemma cancelOrder_found id s order :
  find_order id s = Some order ->
  cancelOrder id s = (Ok 200 (Some order), cancelled order s).
Proof.
  intros Hf. pose proof (find_order_id _ _ _ Hf) as Hid.
  unfold find_order in Hf.
  unfold cancelOrder, cancelOrder_tx. run_m.
  destruct (filter (by_order_id id) (orders (db s))) as [|o l] eqn:E;
    simpl in Hf; [discriminate|]. injection Hf as ->.
  simpl. rewrite E. simpl. unfold cancelled, with_db. now rewrite Hid.
Qed.

Lemma filter_filter_neg {R} (p q : R -> bool) (l : list R) :
  (forall r, p r = true -> q r = true) ->
  filter p (filter (fun r => negb (q r)) l) = [].
Proof.
  intros H. induction l as [|r l IH]; simpl; [reflexivity|].
  destruct (q r) eqn:Hq; simpl; [exact IH|].
  destruct (p r) eqn:Hp; [|exact IH].
  rewrite (H r Hp) in Hq. discriminate.
Qed.

Lemma filter_filter_other {R} (p q : R -> bool) (l : list R) :
  (forall r, p r = true -> q r = false) ->
  filter p (filter (fun r => negb (q r)) l) = filter p l.
Proof.
  intros H. induction l as [|r l IH]; simpl; [reflexivity|].
  destruct (p r) eqn:Hp.
  - rewrite (H r Hp). simpl. rewrite Hp. now rewrite IH.
  - destruct (q r); simpl; [|rewrite Hp]; exact IH.
Qed.

(** C6, as the code has it.  Cancelling order [id]:
    - when no order has that id the answer is OrderNotFound and the
      state is unchanged;
    - for an order on record, whatever its status, the answer is the
      cancelled order; in the one transaction the account it refers to
      becomes 'available', the order is deleted, and nothing else of the
      store, the clock or the timers changes. *)
Theorem cancelOrder_contract (id : Id) (s : Server) :
  match find_order id s with
  | None => cancelOrder id s = (OrderNotFound, s)
  | Some order =>
      let s' := snd (cancelOrder id s) in
      fst (cancelOrder id s) = Ok 200 (Some order) /\
      find_order id s' = None /\
      (forall id', id' <> id -> find_order id' s' = find_order id' s) /\
      account_status (order_account_id order) s'
        = option_map (fun _ => available)
                     (account_status (order_account_id order) s) /\
      (forall a, a <> order_account_id order ->
                 find_account a s' = find_account a s) /\
      users (db s') = users (db s) /\
      withdrawals (db s') = withdrawals (db s) /\
      timers s' = timers s /\ clock s' = clock s
  end.
Proof.
  destruct (find_order id s) as [order|] eqn:Hf;
    [|now apply cancelOrder_missing].
  rewrite (cancelOrder_found _ _ _ Hf). cbn [fst snd].
  pose proof (find_order_id _ _ _ Hf) as Hid.
  repeat split.
  - unfold find_order, cancelled. simpl. rewrite Hid.
    rewrite filter_filter_neg; [reflexivity|auto].
  - intros id' Hne. unfold find_order, cancelled. simpl. rewrite Hid.
    rewrite filter_filter_other; [reflexivity|].
    unfold by_order_id. intros r Hr. apply N.eqb_eq in Hr.
    apply N.eqb_neq. congruence.
  - unfold account_status, cancelled, with_db.
    rewrite (find_account_updated (order_account_id order)
               (order_account_id order) available s) by reflexivity.
    destruct (find_account (order_account_id order) s) as [a|] eqn:Ha;
      [|reflexivity].
    simpl. apply find_account_id in Ha.
    unfold by_account_id. rewrite Ha, N.eqb_refl. reflexivity.
  - intros a Hne. unfold cancelled, with_db.
    rewrite (find_account_updated (order_account_id order) a available s)
      by reflexivity.
    destruct (find_account a s) as [a1|] eqn:Ha; [|reflexivity].
    simpl. apply find_account_id in Ha.
    unfold by_account_id. rewrite Ha.
    destruct (N.eqb_spec a (order_account_id order)); [contradiction|reflexivity].
Qed.

Lemma cancelOrder_contract_witness :
  cancelOrder 9%N pending_order_state = (OrderNotFound, pending_order_state) /\
  account_status 3%N (snd (cancelOrder 4%N pending_order_state)) = Some available /\
  find_order 4%N (snd (cancelOrder 4%N pending_order_state)) = None /\
  fst (cancelOrder 4%N (run completed_sale_trace init))
  = Ok 200 (Some (mkOrder 4%N 2%N 3%N 500 "completed" (Some "R1"))).
Proof.
  pose proof (cancelOrder_contract 4%N pending_order_state)
    as (_ & Hgone & _ & Hstatus & _).
  pose proof (cancelOrder_contract 4%N (run completed_sale_trace init))
    as (Hdone & _).
  split; [|split; [|split]].
  - exact (cancelOrder_contract 9%N pending_order_state).
  - exact Hstatus.
  - exact Hgone.
  - exact Hdone.
Defined.

(** C6 as the spec words it fails: the cancellation does not require the
    order to be 'pending'.  An order that has been completed is cancelled
    like any other, and the account it sold is put on the market again. *)
Lemma completed_order_cancelled :
  ~ (forall (s : Server) (id : Id) (order : Order),
       reachable s ->
       find_order id s = Some order ->
       order_status order <> "pending" ->
       is_ok (fst (cancelOrder id s)) = false /\ snd (cancelOrder id s) = s).
Proof.
  intros H.
  assert (reachable (run completed_sale_trace init)) as Hreach
      by now exists completed_sale_trace.
  destruct (H (run completed_sale_trace init) 4%N
              (mkOrder 4%N 2%N 3%N 500 "completed" (Some "R1"))
              Hreach eq_refl) as [Hok _]; [discriminate|].
  vm_compute in Hok. discriminate.
Qed.

(** ** C9: withdrawals *)

Lemma existsb_update_rows {R} (q p : R -> bool) (f : R -> R) (l : list R) :
  (forall r, q (f r) = q r) ->
  existsb q (update_rows p f l) = existsb q l.
Proof.
  intros Hq. unfold update_rows. induction l as [|r l IH]; simpl; [reflexivity|].
  rewrite IH. destruct (p r); [rewrite Hq|]; reflexivity.
Qed.

Lemma existsb_found {R} (p : R -> bool) (l : list R) x :
  hd_error (filter p l) = Some x -> existsb p l = true.
Proof.
  intros H. apply existsb_exists. exists x.
  destruct (filter p l) as [|y l'] eqn:E; simpl in H; [discriminate|].
  injection H as ->.
  assert (In x (filter p l)) as Hin by (rewrite E; now left).
  now apply filter_In in Hin.
Qed.

Lemma find_user_updated id id' b s s' :
  users (db s') = update_rows (by_user_id id) (set_balance b) (users (db s)) ->
  find_user id' s' =
  option_map (fun u => if by_user_id id u then set_balance b u else u)
             (find_user id' s).
Proof.
  intros E. unfold find_user. rewrite E.
  rewrite filter_update_rows by reflexivity.
  unfold update_rows. apply hd_error_map.
Qed.

Lemma withdraw_run uid amt s :
  withdraw (Some uid) (Some amt) s =
  match find_user uid s with
  | None => (Fail 500 "User not found", s)
  | Some u0 =>
      if balance u0 <? amt then (InsufficientBalance, s)
      else if int4 (balance u0 - amt) && int4 amt then
        let w := mkWithdrawal (next_id (db s)) uid amt "pending" "order_refund" in
        (Ok 200 w,
         with_db (bump_id
                    (with_withdrawals (withdrawals (db s) ++ [w])
                       (with_users (update_rows (by_user_id uid)
                                                (set_balance (balance u0 - amt))
                                                (users (db s)))
                                   (db s)))) s)
      else (Fail 500 out_of_range, s)
  end.
Proof.
  unfold withdraw, withdraw_tx, find_user. run_m.
  destruct (filter (by_user_id uid) (users (db s))) as [|u0 l] eqn:E;
    cbn [hd_error].
  - now rewrite with_db_same.
  - destruct (balance u0 <? amt); [now rewrite with_db_same|].
    destruct (int4 (balance u0 - amt)); cbn [andb]; run_m;
      [|now rewrite with_db_same].
    destruct (int4 amt); cbn [negb]; run_m; [|now destruct s].
    cbn [db with_db users with_users].
    rewrite existsb_update_rows by reflexivity.
    assert (existsb (by_user_id uid) (users (db s)) = true) as ->.
    { apply (existsb_found _ _ u0). now rewrite E. }
    reflexivity.
Qed.

(** C9.  A withdrawal of [amt] by an existing user [uid]:
    - with a balance below [amt] it fails with InsufficientBalance, and
      the whole state (balances and withdrawal records included) is
      unchanged;
    - when it succeeds, the one transaction has taken exactly [amt] off
      the balance, which stays at or above zero, and has added one
      withdrawal record for [amt] with status 'pending'; orders, accounts
      and the other users are untouched;
    - whenever it fails the state is unchanged;
    - with a balance of at least [amt] it succeeds when [amt] and the new
      balance are values of the 32-bit [integer] columns, and otherwise the
      store refuses the write and the transaction is rolled back. *)
Theorem withdraw_contract (uid : Id) (amt : Z) (s : Server) (u0 : User)
  (Huser : find_user uid s = Some u0) :
  let out := withdraw (Some uid) (Some amt) s in
  (balance u0 < amt -> out = (InsufficientBalance, s)) /\
  (forall c w, fst out = Ok c w ->
     amt <= balance u0 /\
     w = mkWithdrawal (next_id (db s)) uid amt "pending" "order_refund" /\
     balance_of uid (snd out) = Some (balance u0 - amt) /\
     0 <= balance u0 - amt /\
     withdrawals (db (snd out)) = withdrawals (db s) ++ [w] /\
     (forall id', id' <> uid -> find_user id' (snd out) = find_user id' s) /\
     accounts (db (snd out)) = accounts (db s) /\
     orders (db (snd out)) = orders (db s)) /\
  (forall c e, fst out = Fail c e -> snd out = s) /\
  (amt <= balance u0 -> int4 amt = true -> int4 (balance u0 - amt) = true ->
   is_ok (fst out) = true) /\
  (amt <= balance u0 -> int4 (balance u0 - amt) && int4 amt = false ->
   out = (Fail 500 out_of_range, s)).
Proof.
  cbv zeta.
  pose proof (find_user_id _ _ _ Huser) as Hid.
  rewrite withdraw_run, Huser.
  destruct (balance u0 <? amt) eqn:Hlt.
  - apply Z.ltb_lt in Hlt.
    split; [reflexivity|]. split; [intros c w [=]|].
    split; [reflexivity|]. split; intros; lia.
  - apply Z.ltb_ge in Hlt.
    split; [intros; lia|].
    destruct (int4 (balance u0 - amt) && int4 amt) eqn:Hr.
    2:{ split; [intros c w [=]|]. split; [reflexivity|].
        split; [|reflexivity].
        intros _ Ha Hb. rewrite Ha, Hb in Hr. discriminate. }
    cbv zeta. cbn [fst snd].
    split; [|split; [intros c e [=]|split; [reflexivity|discriminate]]].
    intros c w [= _ <-].
    split; [exact Hlt|]. split; [reflexivity|].
    split; [|split; [lia|split; [reflexivity|split; [|split; reflexivity]]]].
    + unfold balance_of.
      rewrite (find_user_updated uid uid (balance u0 - amt) s) by reflexivity.
      rewrite Huser. simpl. unfold by_user_id. now rewrite Hid, N.eqb_refl.
    + intros id' Hne.
      rewrite (find_user_updated uid id' (balance u0 - amt) s) by reflexivity.
      destruct (find_user id' s) as [u1|] eqn:H1; [|reflexivity].
      simpl. apply find_user_id in H1. unfold by_user_id. rewrite H1.
      destruct (N.eqb_spec id' uid); [contradiction|reflexivity].
Qed.

Lemma withdraw_contract_witness :
  withdraw (Some 1%N) (Some 120) (seller_with_balance 50)
  = (InsufficientBalance, seller_with_balance 50) /\
  is_ok (fst (withdraw (Some 1%N) (Some 120) (seller_with_balance 500))) = true /\
  withdraw (Some 1%N) (Some (-3000000000)) (seller_with_balance 50)
  = (Fail 500 out_of_range, seller_with_balance 50).
Proof.
  split; [|split].
  - destruct (withdraw_contract 1%N 120 (seller_with_balance 50) _ eq_refl)
      as (H & _).
    apply H. reflexivity.
  - destruct (withdraw_contract 1%N 120 (seller_with_balance 500) _ eq_refl)
      as (_ & _ & _ & H & _).
    apply H; [discriminate|reflexivity|reflexivity].
  - destruct (withdraw_contract 1%N (-3000000000) (seller_with_balance 50) _ eq_refl)
      as (_ & _ & _ & _ & H).
    apply H; [discriminate|reflexivity].
Defined.

(** ** C7: deleting an account *)

Lemma getAccount_found id s a0 owner :
  find_account id s = Some a0 -> find_user (owner_id a0) s = Some owner ->
  exists rest, getAccount id s = (a0, owner) :: rest.
Proof.
  unfold find_account, find_user, getAccount. intros Ha Ho.
  destruct (filter (by_account_id id) (accounts (db s))) as [|a l];
    simpl in Ha; [discriminate|]. injection Ha as ->.
  simpl.
  destruct (filter (by_user_id (owner_id a0)) (users (db s))) as [|u l'];
    simpl in Ho; [discriminate|]. injection Ho as ->.
  simpl. eexists. reflexivity.
Qed.

Lemma find_account_deleted id s : find_account id (deleted id s) = None.
Proof.
  unfold deleted, exec, find_account. run_m. simpl.
  rewrite filter_filter_neg; [reflexivity|auto].
Qed.

Lemma orders_of_deleted id s :
  find_account id s <> None ->
  filter (of_account id) (orders (db (deleted id s))) = [].
Proof.
  intros Hf. unfold deleted, exec. run_m. simpl.
  apply filter_filter_neg. intros o Ho.
  apply existsb_exists.
  destruct (find_account id s) as [a|] eqn:Ha; [|congruence].
  exists a. unfold find_account in Ha.
  destruct (filter (by_account_id id) (accounts (db s))) as [|x l] eqn:E;
    simpl in Ha; [discriminate|]. injection Ha as ->.
  split; [now left|].
  assert (In a (filter (by_account_id id) (accounts (db s)))) as Hin
      by (rewrite E; now left).
  apply filter_In in Hin. destruct Hin as [_ Hid].
  unfold by_account_id in Hid. unfold of_account in Ho.
  apply N.eqb_eq in Hid, Ho. apply N.eqb_eq. congruence.
Qed.

Lemma deleteAccountApi_run id s a0 :
  find_account id s = Some a0 ->
  deleteAccountApi id s =
  if negb (status_eqb (status a0) available) then (Fail 400 not_deletable_msg, s)
  else match filter (fun o => of_account id o && is_active_order o) (orders (db s)) with
       | _ :: _ => (Fail 400 has_pending_orders_msg, s)
       | [] => (Ok 200 a0, deleted id s)
       end.
Proof.
  unfold find_account, deleteAccountApi, deleted, exec. intros Hf.
  destruct (filter (by_account_id id) (accounts (db s))) as [|a l] eqn:E;
    simpl in Hf; [discriminate|]. injection Hf as ->.
  destruct (negb (status_eqb (status a0) available)); [reflexivity|].
  destruct (filter (fun o => of_account id o && is_active_order o) (orders (db s)));
    [|reflexivity].
  run_m. rewrite E. reflexivity.
Qed.

(** C7, as the code has it.  For an account [id] on record with its owner:
    - [DELETE /accounts/:id] knows no requester.  It answers NotDeletable
      unless the account is 'available' (so also while it is 'pending'),
      HasPendingOrders when an active order refers to an 'available'
      account, and otherwise deletes the account, with the orders that
      referred to it; every refusal leaves the state unchanged;
    - the ownership check is the bot's: the [delete_account_] button
      refuses a user who is not the owner with Forbidden, and shows the
      owner the confirmation; it writes nothing;
    - the [confirm_delete_] button sends the DELETE request whoever
      presses it, and ends as the request does. *)
Theorem deleteAccount_contract (id : Id) (requester : string) (s : Server)
  (a0 : Account) (owner : User)
  (Haccount : find_account id s = Some a0)
  (Howner : find_user (owner_id a0) s = Some owner) :
  (status a0 <> available ->
   deleteAccountApi id s = (Fail 400 not_deletable_msg, s)) /\
  (status a0 = available ->
   filter (fun o => of_account id o && is_active_order o) (orders (db s)) <> [] ->
   deleteAccountApi id s = (Fail 400 has_pending_orders_msg, s)) /\
  (status a0 = available ->
   filter (fun o => of_account id o && is_active_order o) (orders (db s)) = [] ->
   deleteAccountApi id s = (Ok 200 a0, deleted id s) /\
   find_account id (deleted id s) = None /\
   filter (of_account id) (orders (db (deleted id s))) = []) /\
  (forall c a s', deleteAccountApi id s = (Ok c a, s') ->
     status a0 = available /\ a = a0 /\ s' = deleted id s) /\
  (telegram_user_id owner <> requester ->
   on_delete_account id requester s = Forbidden) /\
  (telegram_user_id owner = requester ->
   on_delete_account id requester s = Done id) /\
  on_confirm_delete id requester s
  = (if status_eqb (status a0) available then
       match filter (fun o => of_account id o && is_active_order o)
                    (orders (db s)) with
       | [] => (Done a0, deleted id s)
       | _ :: _ => (HasPendingOrders, s)
       end
     else (NotDeletable, s)).
Proof.
  destruct (getAccount_found _ _ _ _ Haccount Howner) as [rest Hjoin].
  unfold on_delete_account, on_confirm_delete.
  rewrite Hjoin, (deleteAccountApi_run _ _ _ Haccount).
  destruct (status_eqb (status a0) available) eqn:Hst; cbn [negb].
  - apply status_eqb_eq in Hst.
    destruct (filter (fun o => of_account id o && is_active_order o)
                     (orders (db s))) as [|o l] eqn:Hact.
    + split; [congruence|]. split; [congruence|]. split.
      { intros _ _. split; [reflexivity|]. split.
        - apply find_account_deleted.
        - apply orders_of_deleted. congruence. }
      split; [now intros c a s' [= _ <- <-]|].
      split; [|split; [|reflexivity]].
      * intros Hne. apply String.eqb_neq in Hne. now rewrite Hne.
      * intros ->. now rewrite String.eqb_refl.
    + split; [congruence|]. split; [reflexivity|]. split; [congruence|].
      split; [intros c a s' [=]|].
      split; [|split; [|reflexivity]].
      * intros Hne. apply String.eqb_neq in Hne. now rewrite Hne.
      * intros ->. now rewrite String.eqb_refl.
  - assert (status a0 <> available) as Hn.
    { intros E. rewrite E in Hst. discriminate. }
    split; [reflexivity|]. split; [congruence|]. split; [congruence|].
    split; [intros c a s' [=]|].
    split; [|split; [|reflexivity]].
    * intros Hne. apply String.eqb_neq in Hne. now rewrite Hne.
    * intros ->. now rewrite String.eqb_refl.
Qed.

Lemma deleteAccount_contract_witness :
  on_delete_account 3%N "200" fresh_listing = Forbidden /\
  on_delete_account 3%N "100" fresh_listing = Done 3%N /\
  deleteAccountApi 3%N reserved_listing
  = (Fail 400 not_deletable_msg, reserved_listing) /\
  fst (deleteAccountApi 3%N fresh_listing)
  = Ok 200 (mkAccount 3%N 1%N "telegram_channel" "chan" 500 available 1000
                      None None 0%N).
Proof.
  pose proof (deleteAccount_contract 3%N "200" fresh_listing _ _ eq_refl eq_refl)
    as (_ & _ & _ & _ & Hforbidden & _).
  pose proof (deleteAccount_contract 3%N "100" fresh_listing _ _ eq_refl eq_refl)
    as (_ & _ & Hdeleted & _ & _ & Howner & _).
  pose proof (deleteAccount_contract 3%N "100" reserved_listing _ _ eq_refl eq_refl)
    as (Hpending & _).
  split; [|split; [|split]].
  - apply Hforbidden. discriminate.
  - apply Howner. reflexivity.
  - apply Hpending. discriminate.
  - destruct (Hdeleted eq_refl eq_refl) as [E _]. now rewrite E.
Defined.

(** C7 as the spec words it fails: the deletion is not refused to a
    requester who does not own the account.  [DELETE /accounts/:id] takes
    no requester at all, and the bot's [confirm_delete_] button, pressed
    by the buyer, deletes the seller's listing. *)
Lemma deleted_by_another_user :
  ~ (forall (s : Server) (id : Id) (requester : string) (a0 : Account)
            (owner : User),
       reachable s ->
       find_account id s = Some a0 ->
       find_user (owner_id a0) s = Some owner ->
       telegram_user_id owner <> requester ->
       on_confirm_delete id requester s = (Forbidden, s)).
Proof.
  intros H.
  assert (reachable fresh_listing) as Hreach by now exists listing_trace.
  specialize (H fresh_listing 3%N "200" _ _ Hreach eq_refl eq_refl).
  assert ("100" <> "200") as Hne by discriminate.
  specialize (H Hne). vm_compute in H. discriminate.
Qed.

(** ** C8: reservation expiry *)

Lemma release_reservation_run id s :
  exec (release_reservation id) s =
  match find_account id s with
  | Some a0 =>
      if status_eqb (status a0) pending then
        match pending_orders_of id s with
        | [] => released id s
        | _ :: _ => s
        end
      else s
  | None => s
  end.
Proof.
  unfold exec, release_reservation, find_account, pending_orders_of, released.
  run_m.
  destruct (filter (by_account_id id) (accounts (db s))) as [|a0 l];
    [reflexivity|]. cbn [hd_error].
  destruct (status_eqb (status a0) pending); [|reflexivity].
  now destruct (filter (fun o => of_account id o && is_pending_order o)
                       (orders (db s))).
Qed.

Lemma account_status_released id s :
  account_status id (released id s)
  = option_map (fun _ => available) (account_status id s).
Proof.
  unfold account_status, released.
  rewrite (find_account_updated id id available s) by reflexivity.
  destruct (find_account id s) as [a|] eqn:Ha; [|reflexivity].
  simpl. apply find_account_id in Ha.
  unfold by_account_id. now rewrite Ha, N.eqb_refl.
Qed.

Lemma release_not_pending id s :
  account_status id s <> Some pending -> exec (release_reservation id) s = s.
Proof.
  intros Hn. rewrite release_reservation_run. unfold account_status in Hn.
  destruct (find_account id s) as [a0|]; [|reflexivity]. simpl in Hn.
  destruct (status_eqb (status a0) pending) eqn:E; [|reflexivity].
  apply status_eqb_eq in E. congruence.
Qed.

(** C8, as the code has it.  The reservation of account [id] sets a timer
    ten minutes (600000 ms) ahead; the timer cannot fire before it is due,
    and when it fires it runs the release job, which
    - makes the account 'available' again when it is still 'pending' and no
      order with status 'pending' refers to it (in particular when no order
      refers to it at all), touching nothing else;
    - changes nothing when an order with status 'pending' refers to it;
    - changes nothing when the account is not 'pending' any more ('sold',
      'available' again, or deleted);
    - changes nothing when it is run a second time. *)
Theorem release_reservation_contract (id : Id) (s : Server) :
  reservation_timeout = (10 * 60 * 1000)%N /\
  (forall buyer, is_ok (fst (reserve id (Some buyer) s)) = true ->
     timers (snd (reserve id (Some buyer) s))
     = timers s ++ [mkTimer (clock s + reservation_timeout)%N
                            (ReleaseReservation id)]) /\
  (forall i t, nth_error (timers s) i = Some t ->
     task t = ReleaseReservation id ->
     fire i s =
     if (due t <=? clock s)%N
     then exec (release_reservation id)
               (mkServer (db s) (clock s) (remove_nth i (timers s)))
     else s) /\
  (let s' := exec (release_reservation id) s in
   (account_status id s = Some pending -> pending_orders_of id s = [] ->
      s' = released id s /\ account_status id s' = Some available) /\
   (filter (of_account id) (orders (db s)) = [] -> pending_orders_of id s = []) /\
   (pending_orders_of id s <> [] -> s' = s) /\
   (account_status id s <> Some pending -> s' = s) /\
   exec (release_reservation id) s' = s').
Proof.
  split; [reflexivity|]. split; [|split].
  - intros buyer Hok.
    destruct (find_account id s) as [a0|] eqn:Hf.
    + destruct (status_eqb (status a0) available) eqn:Ha.
      * apply status_eqb_eq in Ha.
        now rewrite (reserve_granted id buyer s a0 Hf Ha).
      * rewrite reserve_refused in Hok; [discriminate|].
        unfold account_status. rewrite Hf. simpl. intros [= E].
        rewrite E in Ha. discriminate.
    + rewrite reserve_refused in Hok; [discriminate|].
      unfold account_status. rewrite Hf. discriminate.
  - intros i t Hi Ht. unfold fire. rewrite Hi.
    destruct (due t <=? clock s)%N; [|reflexivity].
    now rewrite Ht.
  - cbv zeta. split; [|split; [|split; [|split]]].
    + intros Hp Hnone. rewrite release_reservation_run.
      unfold account_status in Hp.
      destruct (find_account id s) as [a0|] eqn:Hf; [|discriminate].
      simpl in Hp. injection Hp as Hp. rewrite Hp, Hnone. cbn [status_eqb].
      split; [reflexivity|].
      rewrite account_status_released. unfold account_status. now rewrite Hf.
    + unfold pending_orders_of. intros Hnone.
      induction (orders (db s)) as [|o l IH]; [reflexivity|].
      simpl in *. destruct (of_account id o); [discriminate|].
      simpl. now apply IH.
    + intros Hsome. rewrite release_reservation_run.
      destruct (find_account id s) as [a0|]; [|reflexivity].
      destruct (status_eqb (status a0) pending); [|reflexivity].
      destruct (pending_orders_of id s); [congruence|reflexivity].
    + apply release_not_pending.
    + rewrite (release_reservation_run id s).
      destruct (find_account id s) as [a0|] eqn:Hf;
        [|apply release_not_pending; unfold account_status; rewrite Hf;
          discriminate].
      destruct (status_eqb (status a0) pending) eqn:Hp.
      2:{ apply release_not_pending. unfold account_status. rewrite Hf. simpl.
          intros [= E]. rewrite E in Hp. discriminate. }
      destruct (pending_orders_of id s) eqn:Ho.
      * apply release_not_pending. rewrite account_status_released.
        unfold account_status. rewrite Hf. discriminate.
      * rewrite release_reservation_run, Hf, Hp, Ho. reflexivity.
Qed.

Lemma release_reservation_contract_witness :
  account_status 3%N (exec (release_reservation 3%N) reserved_listing)
    = Some available /\
  exec (release_reservation 3%N) pending_order_state = pending_order_state.
Proof.
  pose proof (release_reservation_contract 3%N reserved_listing)
    as (_ & _ & _ & Hfree & _).
  pose proof (release_reservation_contract 3%N pending_order_state)
    as (_ & _ & _ & _ & _ & Hheld & _).
  split.
  - exact (proj2 (Hfree eq_refl eq_refl)).
  - apply Hheld. discriminate.
Defined.

(** C8 as the spec words it fails: with an order that refers to the
    account, but is not 'pending', the expiry does release the account. *)
Lemma release_ignores_settled_orders :
  ~ (forall (s : Server) (id : Id),
       reachable s ->
       (exists o, In o (orders (db s)) /\ order_account_id o = id) ->
       exec (release_reservation id) s = s).
Proof.
  intros H.
  assert (exec (release_reservation 3%N) (run failed_order_trace init)
          = run failed_order_trace init) as E.
  { apply H; [now exists failed_order_trace|].
    eexists. split; [left; reflexivity|reflexivity]. }
  apply (f_equal (account_status 3%N)) in E. vm_compute in E. discriminate.
Qed.

(** ** C10: the marketplace shows 'available' accounts only *)

Lemma In_insert_sorted x a l : In x (insert_sorted a l) <-> x = a \/ In x l.
Proof.
  induction l as [|b l IH]; simpl.
  - intuition congruence.
  - destruct (listed_before a b); simpl; rewrite ?IH; intuition congruence.
Qed.

Lemma In_orderBy x l : In x (orderBy l) <-> In x l.
Proof.
  unfold orderBy. induction l as [|a l IH]; simpl; [tauto|].
  rewrite In_insert_sorted, IH. intuition congruence.
Qed.

Lemma In_paginate x limit offset l : In x (paginate limit offset l) -> In x l.
Proof.
  unfold paginate. intros H.
  rewrite <- (firstn_skipn (Z.to_nat offset) l). apply in_or_app. right.
  rewrite <- (firstn_skipn (Z.to_nat limit) (skipn (Z.to_nat offset) l)).
  apply in_or_app. now left.
Qed.

Lemma filter_filter_imp {R} (c p : R -> bool) (l : list R) :
  (forall r, c r = true -> p r = true) ->
  filter c (filter p l) = filter c l.
Proof.
  intros H. induction l as [|r l IH]; simpl; [reflexivity|].
  destruct (p r) eqn:Hp; simpl.
  - now rewrite IH.
  - destruct (c r) eqn:Hc; [|exact IH].
    rewrite (H r Hc) in Hp. discriminate.
Qed.

Lemma filter_length_le {R} (c p : R -> bool) (l : list R) :
  (forall r, c r = true -> p r = true) ->
  (List.length (filter c l) <= List.length (filter p l))%nat.
Proof.
  intros H. induction l as [|r l IH]; simpl; [lia|].
  destruct (c r) eqn:Hc.
  - rewrite (H r Hc). simpl. lia.
  - destruct (p r); simpl; lia.
Qed.

Lemma conjunction_available ilike lower_case q c :
  conjunction (search_filters ilike lower_case q) = Some c ->
  forall a, c a = true -> is_available a = true.
Proof.
  unfold search_filters. cbn [conjunction].
  match goal with
  | |- match ?rest with _ => _ end = _ -> _ => destruct rest as [r|]
  end; [|discriminate].
  intros [= <-] a Ha. now apply andb_prop in Ha.
Qed.

Lemma In_select_page x limit offset l r :
  select_page limit offset l = Some r -> In x r -> In x l.
Proof.
  unfold select_page. intros H Hx.
  assert (forall n (l' : list Account), In x (skipn n l') -> In x l') as Hskip.
  { intros n l' Hin. rewrite <- (firstn_skipn n l'). apply in_or_app. now right. }
  assert (forall n (l' : list Account), In x (firstn n l') -> In x l') as Hfirst.
  { intros n l' Hin. rewrite <- (firstn_skipn n l'). apply in_or_app. now left. }
  destruct (js_truthy offset).
  - destruct (as_bigint offset) as [n|]; [|discriminate].
    destruct (n <? 0); [discriminate|].
    destruct (js_ge limit (Num 0)).
    + destruct (as_bigint limit) as [m|]; [|discriminate].
      injection H as <-. eauto.
    + injection H as <-. eauto.
  - destruct (js_ge limit (Num 0)).
    + destruct (as_bigint limit) as [m|]; [|discriminate].
      injection H as <-. eauto.
    + injection H as <-. exact Hx.
Qed.

Lemma available_page l limit offset c r :
  (forall a, c a = true -> is_available a = true) ->
  select_page limit offset (orderBy (filter c l)) = Some r ->
  Forall (fun a => status a = available /\ In a l) r.
Proof.
  intros Hc Hr. apply Forall_forall. intros a Ha.
  apply (In_select_page _ _ _ _ _ Hr), In_orderBy, filter_In in Ha.
  destruct Ha as [Hin Hca].
  split; [|exact Hin].
  apply status_eqb_eq. exact (Hc a Hca).
Qed.

(** C10.  For the listing and for the search, whatever the query:
    - the response is the one the store would give with every account
      that is not 'available' removed from it -- the page and the
      pagination figures, the total count included;
    - every account on a returned page is an account of the store with
      status 'available', so a 'pending' or 'sold' account is never on it;
    - the total count of the listing is the number of 'available'
      accounts, and that of the search is at most this number. *)
Theorem marketplace_only_available (ilike : string -> string -> bool)
  (lower_case : string -> string)
  (page limit : option string) (q : SearchQuery) (s : Server) :
  listAccounts page limit s = listAccounts page limit (only_available s) /\
  searchAccounts ilike lower_case q s = searchAccounts ilike lower_case q (only_available s) /\
  (forall c p, listAccounts page limit s = Ok c p ->
     Forall (fun a => status a = available /\ In a (accounts (db s)))
            (page_accounts p) /\
     (forall a, In a (accounts (db s)) -> status a <> available ->
                ~ In a (page_accounts p)) /\
     totalCount p
     = Z.of_nat (List.length (filter is_available (accounts (db s))))) /\
  (forall c p, searchAccounts ilike lower_case q s = Ok c p ->
     Forall (fun a => status a = available /\ In a (accounts (db s)))
            (page_accounts p) /\
     (forall a, In a (accounts (db s)) -> status a <> available ->
                ~ In a (page_accounts p)) /\
     0 <= totalCount p
       <= Z.of_nat (List.length (filter is_available (accounts (db s))))).
Proof.
  assert (forall l (P : list Account),
            Forall (fun a => status a = available /\ In a l) P ->
            forall a, In a l -> status a <> available -> ~ In a P) as Hexcl.
  { intros l P HP a _ Hst Hin. rewrite Forall_forall in HP.
    apply Hst. now apply HP. }
  split; [|split; [|split]].
  - unfold listAccounts, only_available. cbn [db with_db accounts with_accounts].
    now rewrite (filter_filter_imp is_available is_available) by auto.
  - unfold searchAccounts, only_available. cbn [db with_db accounts with_accounts].
    destruct (conjunction (search_filters ilike lower_case q)) as [cond|] eqn:Hc;
      [|reflexivity].
    now rewrite (filter_filter_imp cond is_available)
      by (apply (conjunction_available ilike lower_case q); exact Hc).
  - intros c p. unfold listAccounts.
    destruct (select_page _ _ _) as [result|] eqn:Hsel; [|discriminate].
    intros [= _ <-]. cbn [page_accounts totalCount].
    assert (Forall (fun a => status a = available /\ In a (accounts (db s)))
              result) as HF
        by (apply (available_page _ _ _ _ _ (fun a H => H) Hsel)).
    split; [exact HF|]. split; [|reflexivity].
    exact (Hexcl _ _ HF).
  - intros c p. unfold searchAccounts.
    destruct (conjunction (search_filters ilike lower_case q)) as [cond|] eqn:Hc;
      [|discriminate].
    pose proof (conjunction_available ilike lower_case q cond Hc) as Hav.
    destruct (select_page _ _ _) as [results|] eqn:Hsel; [|discriminate].
    intros [= _ <-]. cbn [page_accounts totalCount].
    assert (Forall (fun a => status a = available /\ In a (accounts (db s)))
              results) as HF
        by (apply (available_page _ _ _ _ _ Hav Hsel)).
    split; [exact HF|]. split; [exact (Hexcl _ _ HF)|].
    pose proof (filter_length_le cond is_available (accounts (db s)) Hav).
    lia.
Qed.

(** A limit below 0 is left out of the query: the listing answers with
    every available account.  A page that is not a number gives no offset:
    the search answers with the first accounts. *)
Lemma listAccounts_negative_limit (s : Server) :
  exists p, listAccounts None (Some "-1") s = Ok 200 p /\
            page_accounts p = orderBy (filter is_available (accounts (db s))).
Proof.
  unfold listAccounts.
  assert (parseInt_or (Some "-1") 6 = Num (inject_Z (-1))) as ->
      by (vm_compute; reflexivity).
  assert (js_mul (js_sub (parseInt_or None 1) (Num 1)) (Num (inject_Z (-1)))
          = NegZero) as -> by (vm_compute; reflexivity).
  eexists. split; reflexivity.
Qed.

Lemma searchAccounts_unparsable_page (ilike : string -> string -> bool)
  (lower_case : string -> string) (s : Server) :
  exists p,
    searchAccounts ilike lower_case
      (mkSearchQuery None None None None None None (Some "abc") None) s
    = Ok 200 p /\
    page_accounts p = firstn 6 (orderBy (filter is_available (accounts (db s)))) /\
    currentPage p = NaN.
Proof.
  unfold searchAccounts. cbn [search_filters q_page q_limit conjunction truthy
    q_query q_platform_types q_minSubscribers q_maxSubscribers q_isMonetized
    q_creation_year number_filter].
  assert (parseInt_default (Some "abc") 1 = NaN) as -> by (vm_compute; reflexivity).
  assert (forall l, filter (fun a => is_available a && true) l
                    = filter is_available l) as ->.
  { intros l. apply filter_ext. intros a. apply andb_true_r. }
  eexists. split; [reflexivity|]. split; reflexivity.
Qed.

(** ** C5: the status graph *)

Lemma status_same_accounts a s s' :
  accounts (db s') = accounts (db s) -> account_status a s' = account_status a s.
Proof. unfold account_status, find_account. now intros ->. Qed.

Lemma status_after_update a id st s s' :
  accounts (db s') = update_rows (by_account_id id) (set_status st) (accounts (db s)) ->
  account_status a s' =
  if (a =? id)%N then option_map (fun _ => st) (account_status a s)
  else account_status a s.
Proof.
  intros E. unfold account_status.
  rewrite (find_account_updated id a st s s' E).
  destruct (find_account a s) as [a1|] eqn:Ha; simpl;
    [|now destruct (a =? id)%N].
  apply find_account_id in Ha. unfold by_account_id. rewrite Ha.
  now destruct (a =? id)%N.
Qed.

Lemma status_after_append a new s s' :
  accounts (db s') = accounts (db s) ++ [new] ->
  account_status a s' =
  match account_status a s with
  | Some x => Some x
  | None => if by_account_id a new then Some (status new) else None
  end.
Proof.
  intros E. unfold account_status, find_account. rewrite E, filter_app.
  destruct (filter (by_account_id a) (accounts (db s))); simpl; [|reflexivity].
  now destruct (by_account_id a new).
Qed.

Lemma status_after_delete a id s s' :
  accounts (db s') = filter (fun r => negb (by_account_id id r)) (accounts (db s)) ->
  account_status a s' = if (a =? id)%N then None else account_status a s.
Proof.
  intros E. unfold account_status, find_account. rewrite E.
  destruct (N.eqb_spec a id) as [->|Hne].
  - rewrite filter_filter_neg; [reflexivity|auto].
  - rewrite filter_filter_other; [reflexivity|].
    unfold by_account_id. intros r Hr. apply N.eqb_eq in Hr.
    apply N.eqb_neq. congruence.
Qed.

Lemma createUser_accounts tg uname s :
  accounts (db (snd (createUser tg uname s))) = accounts (db s).
Proof.
  unfold createUser.
  destruct (filter (fun u => String.eqb (telegram_user_id u) tg) (users (db s)));
    [|reflexivity].
  now destruct (String.eqb uname EmptyString).
Qed.

Lemma createAccount_run owner pf nm pr subs year monet s :
  createAccount owner pf nm pr subs year monet s =
  if negb (int4 pr && int4 subs
           && match year with Some y => int4 y | None => true end)
  then (Fail 500 out_of_range, s)
  else if existsb (by_user_id owner) (users (db s)) then
    let a := mkAccount (next_id (db s)) owner pf nm pr available subs year monet
                       (clock s) in
    (Ok 200 a, with_db (bump_id (with_accounts (accounts (db s) ++ [a]) (db s))) s)
  else (Fail 500 fk_violation, s).
Proof.
  unfold createAccount. run_m.
  destruct (negb _); [now rewrite with_db_same|].
  destruct (existsb (by_user_id owner) (users (db s))) eqn:Hex;
    [|now rewrite with_db_same].
  cbn [db with_db users bump_id with_accounts].
  apply existsb_exists in Hex as [u [Hu Hp]].
  destruct (filter (by_user_id owner) (users (db s))) as [|u' l] eqn:E.
  { assert (Hin : In u (filter (by_user_id owner) (users (db s))))
      by (apply filter_In; now split).
    rewrite E in Hin. destruct Hin. }
  cbn [map]. rewrite update_rows_id. reflexivity.
Qed.

Lemma setUserBalance_run id bal s :
  setUserBalance id bal s =
  match bal with
  | None => (Fail 500 "Failed to update user balance", s)
  | Some b =>
      if int4 b then
        match find_user id s with
        | Some u => (Ok 200 (set_balance b u), credited id b s)
        | None => (Fail 404 "User not found", credited id b s)
        end
      else (Fail 500 "Failed to update user balance", s)
  end.
Proof.
  unfold setUserBalance, find_user, credited. destruct bal as [b|]; [|reflexivity].
  run_m. destruct (int4 b); run_m; [|reflexivity].
  now destruct (filter (by_user_id id) (users (db s))).
Qed.

Lemma createAccount_accounts owner pf nm pr subs year monet s :
  accounts (db (snd (createAccount owner pf nm pr subs year monet s)))
    = accounts (db s) \/
  exists new, status new = available /\
    accounts (db (snd (createAccount owner pf nm pr subs year monet s)))
      = accounts (db s) ++ [new].
Proof.
  unfold createAccount. run_m.
  destruct (negb _); [now left|].
  destruct (existsb (by_user_id owner) (users (db s))); [|now left].
  cbn [db with_db users bump_id with_accounts].
  destruct (map (fun u => u) (filter (by_user_id owner) (users (db s))));
    [now left|].
  right. eexists. split; [|reflexivity]. reflexivity.
Qed.

Lemma reserve_accounts id buyer s :
  snd (reserve id buyer s) = s \/
  exists a0, find_account id s = Some a0 /\ status a0 = available /\
             snd (reserve id buyer s) = reserved id s.
Proof.
  destruct buyer as [b|]; [|now left].
  destruct (find_account id s) as [a0|] eqn:Hf.
  - destruct (status_eqb (status a0) available) eqn:Ha.
    + apply status_eqb_eq in Ha. right. exists a0.
      now rewrite (reserve_granted id b s a0 Hf Ha).
    + left. rewrite reserve_refused; [reflexivity|].
      unfold account_status. rewrite Hf. simpl. intros [= E].
      rewrite E in Ha. discriminate.
  - left. rewrite reserve_refused; [reflexivity|].
    unfold account_status. rewrite Hf. discriminate.
Qed.

Lemma createOrder_accounts buyer acc amt receipt s :
  accounts (db (snd (createOrder buyer acc amt receipt s))) = accounts (db s).
Proof.
  unfold createOrder. run_m.
  destruct (negb (int4 amt)); [reflexivity|].
  now destruct (existsb (by_user_id buyer) (users (db s)) &&
                existsb (by_account_id acc) (accounts (db s))).
Qed.

Lemma updateOrder_accounts id st s :
  accounts (db (snd (updateOrder id st s))) = accounts (db s) \/
  exists o, st = "completed" /\ find_order id s = Some o /\
    accounts (db (snd (updateOrder id st s)))
    = update_rows (by_account_id (order_account_id o)) (set_status sold)
                  (accounts (db s)).
Proof.
  unfold updateOrder, updateOrder_body, find_order.
  destruct (String.eqb st EmptyString); [now left|]. run_m.
  destruct (filter (by_order_id id) (orders (db s))) as [|o l] eqn:E;
    [now left|].
  destruct (String.eqb_spec st "completed") as [->|Hne]; [|now left].
  cbn [db with_db orders with_orders]. rewrite E.
  cbn [map hd_error]. right. exists o. repeat split.
Qed.

Lemma cancelOrder_accounts id s :
  snd (cancelOrder id s) = s \/
  exists o, find_order id s = Some o /\ snd (cancelOrder id s) = cancelled o s.
Proof.
  destruct (find_order id s) as [o|] eqn:Hf.
  - right. exists o. now rewrite (cancelOrder_found id s o Hf).
  - left. now rewrite cancelOrder_missing.
Qed.

Lemma deleteOrder_accounts id s :
  accounts (db (snd (deleteOrder id s))) = accounts (db s).
Proof.
  unfold deleteOrder. run_m.
  now destruct (filter (by_order_id id) (orders (db s))).
Qed.

Lemma deleteAccountApi_accounts id s :
  snd (deleteAccountApi id s) = s \/
  accounts (db (snd (deleteAccountApi id s)))
  = filter (fun r => negb (by_account_id id r)) (accounts (db s)).
Proof.
  destruct (find_account id s) as [a0|] eqn:Hf.
  - rewrite (deleteAccountApi_run id s a0 Hf).
    destruct (negb (status_eqb (status a0) available)); [now left|].
    destruct (filter (fun o => of_account id o && is_active_order o)
                     (orders (db s))); [|now left].
    right. reflexivity.
  - left. unfold deleteAccountApi. unfold find_account in Hf.
    now destruct (filter (by_account_id id) (accounts (db s))).
Qed.

Lemma setUserBalance_accounts id bal s :
  accounts (db (snd (setUserBalance id bal s))) = accounts (db s).
Proof.
  unfold setUserBalance. destruct bal as [b|]; [|reflexivity]. run_m.
  destruct (int4 b); run_m; [|reflexivity].
  now destruct (map (set_balance b) (filter (by_user_id id) (users (db s)))).
Qed.

Lemma withdraw_accounts uid amt s :
  accounts (db (snd (withdraw uid amt s))) = accounts (db s).
Proof.
  destruct uid as [u|], amt as [a|]; try reflexivity.
  rewrite withdraw_run.
  destruct (find_user u s) as [u0|]; [|reflexivity].
  destruct (balance u0 <? a); [reflexivity|].
  now destruct (int4 (balance u0 - a) && int4 a).
Qed.

Lemma fire_accounts i s :
  accounts (db (fire i s)) = accounts (db s) \/
  (exists t id, nth_error (timers s) i = Some t /\ (due t <= clock s)%N /\
     task t = ReleaseReservation id /\
     account_status id s = Some pending /\ pending_orders_of id s = [] /\
     accounts (db (fire i s))
     = update_rows (by_account_id id) (set_status available) (accounts (db s))) \/
  (exists id, accounts (db (fire i s))
              = filter (fun r => negb (by_account_id id r)) (accounts (db s))).
Proof.
  unfold fire.
  destruct (nth_error (timers s) i) as [t|] eqn:Ht; [|now left].
  destruct (due t <=? clock s)%N eqn:Hdue; [|now left].
  apply N.leb_le in Hdue.
  destruct (task t) as [id|id] eqn:Htask; cbn [run_task].
  - rewrite release_reservation_run.
    change (find_account id (mkServer (db s) (clock s) (remove_nth i (timers s))))
      with (find_account id s).
    change (pending_orders_of id (mkServer (db s) (clock s) (remove_nth i (timers s))))
      with (pending_orders_of id s).
    destruct (find_account id s) as [a0|] eqn:Hf; [|now left].
    destruct (status_eqb (status a0) pending) eqn:Hp; [|now left].
    apply status_eqb_eq in Hp.
    destruct (pending_orders_of id s) eqn:Ho; [|now left].
    right; left. exists t, id. repeat split; try assumption.
    unfold account_status. now rewrite Hf, <- Hp.
  - right; right. exists id. reflexivity.
Qed.

(** C5, as the code has it.  Over one operation of the server, on any
    state, the status of an account either stays what it was or changes in
    one of these ways:
    - 'available' to 'pending', by the reservation of that account;
    - to 'sold' from whatever it was, by the update of an order on that
      account to 'completed';
    - to 'available' from whatever it was, by the cancellation of an
      order on that account;
    - 'pending' to 'available', by the release timer of that account
      firing when due, no pending order referring to the account.
    An account that was not in the store before the operation comes from
    a listing and is 'available'. *)
Theorem status_transitions (op : Op) (s : Server) (a : Id) (y : AccountStatus)
  (Hafter : account_status a (step op s) = Some y) :
  match account_status a s with
  | Some x =>
      x = y \/
      (x = available /\ y = pending /\ exists buyer, op = OpReserve a buyer) \/
      (y = sold /\ exists oid o, op = OpUpdateOrder oid "completed" /\
                     find_order oid s = Some o /\ order_account_id o = a) \/
      (y = available /\ exists oid o, op = OpCancelOrder oid /\
                     find_order oid s = Some o /\ order_account_id o = a) \/
      (x = pending /\ y = available /\ pending_orders_of a s = [] /\
       exists i t, op = OpFire i /\ nth_error (timers s) i = Some t /\
                   task t = ReleaseReservation a /\ (due t <= clock s)%N)
  | None =>
      y = available /\
      exists owner pf nm pr subs year monet,
        op = OpCreateAccount owner pf nm pr subs year monet
  end.
Proof.
  assert (forall s', accounts (db s') = accounts (db s) ->
            account_status a s' = Some y ->
            match account_status a s with
            | Some x => x = y
            | None => False
            end) as Hsame.
  { intros s' E H. rewrite (status_same_accounts a s s' E) in H.
    rewrite H. reflexivity. }
  assert (forall s' id, accounts (db s')
              = filter (fun r => negb (by_account_id id r)) (accounts (db s)) ->
            account_status a s' = Some y ->
            match account_status a s with
            | Some x => x = y
            | None => False
            end) as Hdel.
  { intros s' id E H. rewrite (status_after_delete a id s s' E) in H.
    destruct (a =? id)%N; [discriminate|]. rewrite H. reflexivity. }
  assert (forall (P : AccountStatus -> Prop) (Q : Prop),
            match account_status a s with
                      | Some x => x = y
                      | None => False
                      end ->
            match account_status a s with
            | Some x => x = y \/ P x
            | None => Q
            end) as Hweak.
  { intros P Q H. destruct (account_status a s); [now left|contradiction]. }
  destruct op as [tg uname|owner pf nm pr subs year monet|id buyer
                 |buyer acc amt receipt|id st|id|id|id|id bal|uid amt|dt|i];
    cbn [step] in Hafter.
  - apply Hweak, (Hsame _ (createUser_accounts tg uname s) Hafter).
  - destruct (createAccount_accounts owner pf nm pr subs year monet s)
      as [E|(new & Hnew & E)].
    + apply Hweak, (Hsame _ E Hafter).
    + rewrite (status_after_append a new s _ E) in Hafter.
      destruct (account_status a s) as [x|].
      * left. congruence.
      * destruct (by_account_id a new); [|discriminate].
        injection Hafter as <-. split; [exact Hnew|].
        now exists owner, pf, nm, pr, subs, year, monet.
  - destruct (reserve_accounts id buyer s) as [E|(a0 & Hf & Ha & E)].
    + rewrite E in Hafter. rewrite Hafter. now left.
    + rewrite E in Hafter.
      rewrite (status_after_update a id pending s (reserved id s) eq_refl)
        in Hafter.
      destruct (N.eqb_spec a id) as [->|Hne].
      * unfold account_status in *. rewrite Hf in *. simpl in *.
        injection Hafter as <-. right; left.
        repeat split; [exact Ha|]. now exists buyer.
      * rewrite Hafter. now left.
  - apply Hweak, (Hsame _ (createOrder_accounts buyer acc amt receipt s) Hafter).
  - destruct (updateOrder_accounts id st s) as [E|(o & -> & Hf & E)].
    + apply Hweak, (Hsame _ E Hafter).
    + rewrite (status_after_update a _ sold s _ E) in Hafter.
      destruct (N.eqb_spec a (order_account_id o)) as [->|Hne].
      * destruct (account_status (order_account_id o) s); [|discriminate].
        simpl in Hafter. injection Hafter as <-.
        right; right; left. split; [reflexivity|]. now exists id, o.
      * rewrite Hafter. now left.
  - destruct (cancelOrder_accounts id s) as [E|(o & Hf & E)].
    + rewrite E in Hafter. rewrite Hafter. now left.
    + rewrite E in Hafter.
      rewrite (status_after_update a (order_account_id o) available s
                 (cancelled o s) eq_refl) in Hafter.
      destruct (N.eqb_spec a (order_account_id o)) as [->|Hne].
      * destruct (account_status (order_account_id o) s); [|discriminate].
        simpl in Hafter. injection Hafter as <-.
        right; right; right; left. split; [reflexivity|]. now exists id, o.
      * rewrite Hafter. now left.
  - apply Hweak, (Hsame _ (deleteOrder_accounts id s) Hafter).
  - destruct (deleteAccountApi_accounts id s) as [E|E].
    + rewrite E in Hafter. rewrite Hafter. now left.
    + apply Hweak, (Hdel _ id E Hafter).
  - apply Hweak, (Hsame _ (setUserBalance_accounts id bal s) Hafter).
  - apply Hweak, (Hsame _ (withdraw_accounts uid amt s) Hafter).
  - apply Hweak, (Hsame (advance dt s) eq_refl Hafter).
  - destruct (fire_accounts i s)
      as [E|[(t & id & Ht & Hdue & Htask & Hp & Ho & E)|(id & E)]].
    + apply Hweak, (Hsame _ E Hafter).
    + rewrite (status_after_update a id available s _ E) in Hafter.
      destruct (N.eqb_spec a id) as [->|Hne].
      * rewrite Hp in *. simpl in Hafter. injection Hafter as <-.
        right; right; right; right.
        repeat split; [exact Ho|]. now exists i, t.
      * rewrite Hafter. now left.
    + apply Hweak, (Hdel _ id E Hafter).
Qed.

Lemma status_transitions_witness :
  account_status 3%N (run completed_sale_trace init) = Some sold /\
  account_status 3%N (step (OpCancelOrder 4%N) (run completed_sale_trace init))
    = Some available /\
  (sold = available \/
   (sold = available /\ available = pending /\
    exists buyer, OpCancelOrder 4%N = OpReserve 3%N buyer) \/
   (available = sold /\
    exists oid o, OpCancelOrder 4%N = OpUpdateOrder oid "completed" /\
      find_order oid (run completed_sale_trace init) = Some o /\
      order_account_id o = 3%N) \/
   (available = available /\
    exists oid o, OpCancelOrder 4%N = OpCancelOrder oid /\
      find_order oid (run completed_sale_trace init) = Some o /\
      order_account_id o = 3%N) \/
   (sold = pending /\ available = available /\
    pending_orders_of 3%N (run completed_sale_trace init) = [] /\
    exists i t, OpCancelOrder 4%N = OpFire i /\
      nth_error (timers (run completed_sale_trace init)) i = Some t /\
      task t = ReleaseReservation 3%N /\
      (due t <= clock (run completed_sale_trace init))%N)).
Proof.
  split; [reflexivity|]. split; [reflexivity|].
  exact (status_transitions (OpCancelOrder 4%N) (run completed_sale_trace init)
           3%N available eq_refl).
Defined.

(** C5 as the spec words it fails: a 'sold' account becomes 'available'
    again when the order that sold it is cancelled before the clean-up. *)
Lemma sold_account_becomes_available :
  ~ (forall (s : Server) (op : Op) (a : Id) (x y : AccountStatus),
       reachable s ->
       account_status a s = Some x ->
       account_status a (step op s) = Some y ->
       x <> y -> spec_edge x y).
Proof.
  intros H.
  assert (spec_edge sold available) as E.
  { apply (H (run completed_sale_trace init) (OpCancelOrder 4%N) 3%N);
      [now exists completed_sale_trace|reflexivity|reflexivity|discriminate]. }
  destruct E as [[E _]|[[E _]|[E _]]]; discriminate.
Qed.

(** 'available' to 'sold' in one step: an order placed on an account that
    nobody reserved, then completed. *)
Lemma available_to_sold_reachable :
  let s := run (listing_trace ++ [OpCreateOrder 2%N 3%N 500 None]) init in
  reachable s /\
  account_status 3%N s = Some available /\
  account_status 3%N (step (OpUpdateOrder 4%N "completed") s) = Some sold.
Proof.
  cbv zeta. split; [eexists; reflexivity|].
  split; vm_compute; reflexivity.
Qed.

(** ** C4: completing an order and crediting the seller *)

Lemma updateOrder_completed_found oid s o :
  find_order oid s = Some o ->
  updateOrder oid "completed" s
  = (Ok 200 (Some (set_order_status "completed" o)), completed_state oid o s).
Proof.
  unfold find_order, updateOrder, updateOrder_body, completed_state.
  cbn [String.eqb Ascii.eqb]. run_m. intros Hf.
  destruct (filter (by_order_id oid) (orders (db s))) as [|o' l] eqn:E;
    simpl in Hf; [discriminate|]. injection Hf as ->.
  cbn [db with_db orders with_orders]. rewrite E. reflexivity.
Qed.

Lemma updateOrder_completed_missing oid s :
  find_order oid s = None ->
  updateOrder oid "completed" s = (Fail 404 "Order not found", s).
Proof.
  unfold find_order, updateOrder, updateOrder_body.
  cbn [String.eqb Ascii.eqb]. run_m.
  destruct (filter (by_order_id oid) (orders (db s))); simpl;
    [reflexivity|discriminate].
Qed.

Lemma flat_map_map {A B C} (f : A -> B) (g : B -> list C) (l : list A) :
  flat_map g (map f l) = flat_map (fun x => g (f x)) l.
Proof. induction l as [|x l IH]; simpl; [reflexivity|]. now rewrite IH. Qed.

Lemma map_flat_map {A B C} (f : B -> C) (g : A -> list B) (l : list A) :
  map f (flat_map g l) = flat_map (fun x => map f (g x)) l.
Proof.
  induction l as [|x l IH]; simpl; [reflexivity|]. now rewrite map_app, IH.
Qed.

Lemma filter_map_key {R} (p : R -> bool) (f : R -> R) (l : list R) :
  (forall r, p (f r) = p r) -> filter p (map f l) = map f (filter p l).
Proof.
  intros H. induction l as [|r l IH]; simpl; [reflexivity|].
  rewrite H. destruct (p r); simpl; now rewrite IH.
Qed.

(** [GET /orders/:id] commutes with such rewrites of the tables. *)
Lemma getOrder_natural fu fa fo s s' oid :
  keeps_keys fu fa fo ->
  users (db s') = map fu (users (db s)) ->
  accounts (db s') = map fa (accounts (db s)) ->
  orders (db s') = map fo (orders (db s)) ->
  getOrder oid s' =
  match getOrder oid s with
  | Ok c v => Ok c (mkOrderView (fo (ov_order v)) (fa (ov_account v))
                                (fu (ov_buyer v)) (fu (ov_seller v)))
  | Fail c e => Fail c e
  end.
Proof.
  intros [Hu Ha Hown Hpr Ho Hb Hoa] Eu Ea Eo. unfold getOrder.
  rewrite Eu, Ea, Eo.
  rewrite (filter_map_key (by_order_id oid) fo)
    by (intros r; unfold by_order_id; now rewrite Ho).
  rewrite flat_map_map.
  set (T := fun t : Order * User * Account =>
              let '(o, u, a) := t in (fo o, fu u, fa a)).
  assert (forall l,
    flat_map (fun x =>
       flat_map (fun u => map (fun a => (fo x, u, a))
          (filter (by_account_id (order_account_id (fo x)))
                  (map fa (accounts (db s)))))
         (filter (by_user_id (buyer_id (fo x))) (map fu (users (db s))))) l
    = map T (flat_map (fun o =>
       flat_map (fun u => map (fun a => (o, u, a))
          (filter (by_account_id (order_account_id o)) (accounts (db s))))
         (filter (by_user_id (buyer_id o)) (users (db s)))) l)) as Hjoin.
  { intros l. rewrite map_flat_map. apply flat_map_ext. intros o.
    rewrite Hb, Hoa.
    rewrite (filter_map_key (by_user_id (buyer_id o)) fu)
      by (intros r; unfold by_user_id; now rewrite Hu).
    rewrite (filter_map_key (by_account_id (order_account_id o)) fa)
      by (intros r; unfold by_account_id; now rewrite Ha).
    rewrite flat_map_map, map_flat_map. apply flat_map_ext. intros u.
    now rewrite !map_map. }
  rewrite Hjoin. clear Hjoin.
  destruct (flat_map _ (filter (by_order_id oid) (orders (db s))))
    as [|[[o u] a] rest]; [reflexivity|].
  cbn [map T]. rewrite Hown.
  rewrite (filter_map_key (by_user_id (owner_id a)) fu)
    by (intros r; unfold by_user_id; now rewrite Hu).
  now destruct (filter (by_user_id (owner_id a)) (users (db s))).
Qed.

Lemma credit_of_natural fu fa fo s s' seller oid :
  keeps_keys fu fa fo ->
  users (db s') = map fu (users (db s)) ->
  accounts (db s') = map fa (accounts (db s)) ->
  orders (db s') = map fo (orders (db s)) ->
  credit_of s' seller oid = credit_of s seller oid.
Proof.
  intros K Eu Ea Eo. unfold credit_of.
  rewrite (getOrder_natural fu fa fo s s' oid K Eu Ea Eo).
  destruct (getOrder oid s) as [c v|c e]; [|reflexivity].
  cbn [ov_account]. now rewrite (kk_owner _ _ _ K), (kk_price _ _ _ K).
Qed.

Lemma setUserBalance_found id nb s u :
  find_user id s = Some u ->
  setUserBalance id (Some nb) s =
  if int4 nb then (Ok 200 (set_balance nb u), credited id nb s)
  else (Fail 500 "Failed to update user balance", s).
Proof.
  unfold find_user, setUserBalance, credited. run_m. intros Hf.
  destruct (int4 nb); run_m; [|reflexivity].
  destruct (filter (by_user_id id) (users (db s))) as [|u' l];
    simpl in Hf; [discriminate|]. now injection Hf as ->.
Qed.

Lemma completeOrder_run oid s :
  completeOrder oid s =
  match find_order oid s with
  | None => (None, s)
  | Some o =>
      let s1 := completed_state oid o s in
      match getOrder oid s1 with
      | Fail _ _ => (None, s1)
      | Ok _ v =>
          match find_user (owner_id (ov_account v)) s1 with
          | None => (None, s1)
          | Some sellerData =>
              let nb := balance sellerData + price (ov_account v) in
              if int4 nb then (Some nb, credited (owner_id (ov_account v)) nb s1)
              else (None, s1)
          end
      end
  end.
Proof.
  unfold completeOrder. cbn [complete_run complete_step].
  destruct (find_order oid s) as [o|] eqn:Hf.
  2:{ now rewrite (updateOrder_completed_missing oid s Hf). }
  rewrite (updateOrder_completed_found oid s o Hf). cbv zeta.
  cbn [complete_step].
  destruct (getOrder oid (completed_state oid o s)) as [c v|c e];
    [|reflexivity].
  cbn [complete_step]. unfold getUser.
  fold (find_user (owner_id (ov_account v)) (completed_state oid o s)).
  destruct (find_user (owner_id (ov_account v)) (completed_state oid o s))
    as [sellerData|] eqn:Hs; [|reflexivity].
  assert ((if balance sellerData =? 0 then 0 else balance sellerData)
          = balance sellerData) as ->.
  { destruct (Z.eqb_spec (balance sellerData) 0); congruence. }
  cbn [complete_step].
  rewrite (setUserBalance_found _ _ _ _ Hs).
  now destruct (int4 (balance sellerData + price (ov_account v))).
Qed.

Lemma keeps_keys_completed oid o :
  keeps_keys (fun u => u)
    (fun a => if by_account_id (order_account_id o) a then set_status sold a else a)
    (fun r => if by_order_id oid r then set_order_status "completed" r else r).
Proof.
  constructor; intros r; try reflexivity;
    try (now destruct (by_account_id (order_account_id o) r));
    now destruct (by_order_id oid r).
Qed.

Lemma keeps_keys_credited id nb :
  keeps_keys (fun u => if by_user_id id u then set_balance nb u else u)
             (fun a => a) (fun o => o).
Proof.
  constructor; intros r; try reflexivity. now destruct (by_user_id id r).
Qed.

Lemma credit_of_completed s seller oid o oid' :
  credit_of (completed_state oid o s) seller oid' = credit_of s seller oid'.
Proof.
  apply (credit_of_natural _ _ _ s _ seller oid' (keeps_keys_completed oid o));
    unfold completed_state; simpl; try rewrite map_id; reflexivity.
Qed.

Lemma credit_of_credited s seller id nb oid' :
  credit_of (credited id nb s) seller oid' = credit_of s seller oid'.
Proof.
  apply (credit_of_natural _ _ _ s _ seller oid' (keeps_keys_credited id nb));
    unfold credited; simpl; try rewrite map_id; reflexivity.
Qed.

Lemma completeOrder_credit_stable oid s seller oid' :
  credit_of (snd (completeOrder oid s)) seller oid' = credit_of s seller oid'.
Proof.
  rewrite completeOrder_run.
  destruct (find_order oid s) as [o|]; [|reflexivity]. cbv zeta.
  destruct (getOrder oid (completed_state oid o s)) as [c v|c e]; cbn [snd];
    [|apply credit_of_completed].
  destruct (find_user (owner_id (ov_account v)) (completed_state oid o s))
    as [sellerData|]; cbn [snd]; [|apply credit_of_completed].
  destruct (int4 (balance sellerData + price (ov_account v))); cbn [snd].
  - rewrite credit_of_credited. apply credit_of_completed.
  - apply credit_of_completed.
Qed.

Lemma credit_of_missing s seller oid :
  find_order oid s = None -> credit_of s seller oid = 0.
Proof.
  unfold find_order, credit_of, getOrder. intros Hf.
  destruct (filter (by_order_id oid) (orders (db s))); [reflexivity|discriminate].
Qed.

(** The seller's balance after one run: the credit is written when the
    new balance is a value of the column. *)
Lemma completeOrder_balance seller b oid s :
  balance_of seller s = Some b ->
  int4 (b + credit_of s seller oid) = true ->
  balance_of seller (snd (completeOrder oid s))
  = Some (b + credit_of s seller oid).
Proof.
  intros Hb Hr. rewrite completeOrder_run.
  destruct (find_order oid s) as [o|] eqn:Hf.
  2:{ rewrite (credit_of_missing s seller oid Hf), Z.add_0_r. exact Hb. }
  cbv zeta. rewrite <- (credit_of_completed s seller oid o oid) in Hr |- *.
  unfold credit_of in Hr |- *.
  destruct (getOrder oid (completed_state oid o s)) as [c v|c e]; cbn [snd].
  2:{ rewrite Z.add_0_r. exact Hb. }
  change (find_user (owner_id (ov_account v)) (completed_state oid o s))
    with (find_user (owner_id (ov_account v)) s).
  destruct (find_user (owner_id (ov_account v)) s) as [sellerData|] eqn:Hs;
    cbn [snd].
  - unfold balance_of in Hb.
    destruct (find_user seller s) as [u|] eqn:Hu; [|discriminate].
    simpl in Hb. injection Hb as Hb.
    pose proof (find_user_id _ _ _ Hu) as Hid.
    destruct (N.eqb_spec (owner_id (ov_account v)) seller) as [E|E].
    + rewrite E in Hs. rewrite Hs in Hu. injection Hu as ->.
      rewrite Hb, Hr. cbn [snd]. unfold balance_of.
      rewrite (find_user_updated (owner_id (ov_account v)) seller
                 (b + price (ov_account v))
                 (completed_state oid o s)) by reflexivity.
      change (find_user seller (completed_state oid o s)) with (find_user seller s).
      rewrite Hs. simpl. unfold by_user_id. now rewrite Hid, E, N.eqb_refl.
    + rewrite Z.add_0_r.
      assert (balance_of seller (completed_state oid o s) = Some b) as Hsame.
      { unfold balance_of.
        change (find_user seller (completed_state oid o s)) with (find_user seller s).
        now rewrite Hu, <- Hb. }
      destruct (int4 (balance sellerData + price (ov_account v))); cbn [snd];
        [|exact Hsame].
      unfold balance_of.
      rewrite (find_user_updated (owner_id (ov_account v)) seller
                 (balance sellerData + price (ov_account v))
                 (completed_state oid o s)) by reflexivity.
      change (find_user seller (completed_state oid o s)) with (find_user seller s).
      rewrite Hu. simpl. unfold by_user_id. rewrite Hid.
      destruct (N.eqb_spec seller (owner_id (ov_account v))) as [E'|E'];
        [congruence|]. now rewrite Hb.
  - destruct (owner_id (ov_account v) =? seller)%N eqn:E.
    + apply N.eqb_eq in E. rewrite E in Hs.
      unfold balance_of in Hb. rewrite Hs in Hb. discriminate.
    + rewrite Z.add_0_r. exact Hb.
Qed.

Lemma complete_all_balance oids : forall seller b s,
  balance_of seller s = Some b ->
  (forall k, int4 (b + sum (map (credit_of s seller) (firstn k oids))) = true) ->
  balance_of seller (complete_all oids s)
  = Some (b + sum (map (credit_of s seller) oids)).
Proof.
  induction oids as [|oid oids IH]; intros seller b s Hb Hr.
  - simpl. now rewrite Z.add_0_r.
  - cbn [complete_all fold_left map sum fold_right].
    fold (complete_all oids (snd (completeOrder oid s))).
    assert (int4 (b + credit_of s seller oid) = true) as H1.
    { specialize (Hr 1%nat). cbn [firstn map sum fold_right] in Hr.
      now rewrite Z.add_0_r in Hr. }
    rewrite (IH seller _ _ (completeOrder_balance seller b oid s Hb H1)).
    + rewrite (map_ext (credit_of (snd (completeOrder oid s)) seller)
                       (credit_of s seller))
        by (intros; apply completeOrder_credit_stable).
      fold (sum (map (credit_of s seller) oids)). f_equal. lia.
    + intros k. specialize (Hr (S k)).
      cbn [firstn map sum fold_right] in Hr.
      rewrite (map_ext (credit_of (snd (completeOrder oid s)) seller)
                       (credit_of s seller))
        by (intros; apply completeOrder_credit_stable).
      fold (sum (map (credit_of s seller) (firstn k oids))) in Hr.
      now rewrite Z.add_assoc in Hr.
Qed.

Lemma getOrder_found oid s o buyer acc sel :
  find_order oid s = Some o ->
  find_user (buyer_id o) s = Some buyer ->
  find_account (order_account_id o) s = Some acc ->
  find_user (owner_id acc) s = Some sel ->
  getOrder oid s = Ok 200 (mkOrderView o acc buyer sel).
Proof.
  unfold find_order, find_user, find_account, getOrder.
  intros Ho Hb Ha Hs.
  destruct (filter (by_order_id oid) (orders (db s))) as [|o' lo];
    simpl in Ho; [discriminate|]. injection Ho as ->.
  cbn [flat_map].
  destruct (filter (by_user_id (buyer_id o)) (users (db s))) as [|b' lb];
    simpl in Hb; [discriminate|]. injection Hb as ->.
  cbn [flat_map].
  destruct (filter (by_account_id (order_account_id o)) (accounts (db s)))
    as [|a' la]; simpl in Ha; [discriminate|]. injection Ha as ->.
  cbn [map app].
  destruct (filter (by_user_id (owner_id acc)) (users (db s))) as [|s' ls];
    simpl in Hs; [discriminate|]. now injection Hs as ->.
Qed.

(** C4, as the code has it.  Completing an order is four separate requests
    (update the order, read it back, read the seller, write the seller's
    balance), not one transaction.  When the runs of the handler follow
    one another, each from start to end:
    - a run on an order whose buyer, account and seller are on record
      leaves the order 'completed' and its account 'sold', and sets the
      clean-up timer five seconds ahead; it writes the seller's balance
      plus the account's price as the seller's balance when that sum is a
      value of the 32-bit [integer] column, and otherwise the store
      refuses the write and the balance stays as it was;
    - after any sequence of runs during which the seller's balance stays
      within that range, it is the balance before plus the sum of the
      prices credited to that seller. *)
Theorem completeOrder_sequential (oids : list Id) (seller : Id) (s : Server)
  (b0 : Z) (Hseller : balance_of seller s = Some b0) :
  ((forall k, int4 (b0 + sum (map (credit_of s seller) (firstn k oids))) = true) ->
   balance_of seller (complete_all oids s)
   = Some (b0 + sum (map (credit_of s seller) oids))) /\
  (forall oid o buyer acc,
     find_order oid s = Some o ->
     find_user (buyer_id o) s = Some buyer ->
     find_account (order_account_id o) s = Some acc ->
     owner_id acc = seller ->
     let s' := snd (completeOrder oid s) in
     option_map order_status (find_order oid s') = Some "completed" /\
     account_status (order_account_id o) s' = Some sold /\
     timers s' = timers s ++ [mkTimer (clock s + cleanup_delay)%N
                                (CleanupAfterCompletion (order_account_id o))] /\
     cleanup_delay = 5000%N /\
     (int4 (b0 + price acc) = true ->
      fst (completeOrder oid s) = Some (b0 + price acc) /\
      balance_of seller s' = Some (b0 + price acc)) /\
     (int4 (b0 + price acc) = false ->
      fst (completeOrder oid s) = None /\ balance_of seller s' = Some b0)).
Proof.
  split; [now apply complete_all_balance|].
  intros oid o buyer acc Ho Hb Ha Hown. cbv zeta.
  pose proof Hseller as Hseller'.
  unfold balance_of in Hseller.
  destruct (find_user seller s) as [sel|] eqn:Hs; [|discriminate].
  simpl in Hseller. injection Hseller as Hbal.
  pose proof (getOrder_found oid s o buyer acc sel Ho Hb Ha) as Hget.
  rewrite Hown in Hget. specialize (Hget Hs).
  pose proof (getOrder_natural _ _ _ s (completed_state oid o s) oid
                (keeps_keys_completed oid o)) as Hnat.
  rewrite Hget in Hnat. cbn [ov_order ov_account ov_buyer ov_seller] in Hnat.
  assert (by_account_id (order_account_id o) acc = true) as Hacc.
  { unfold by_account_id. rewrite (find_account_id _ _ _ Ha). apply N.eqb_refl. }
  rewrite Hacc in Hnat.
  rewrite completeOrder_run, Ho. cbv zeta.
  rewrite Hnat by (unfold completed_state; simpl; try rewrite map_id; reflexivity).
  cbn [ov_account owner_id price set_status]. rewrite Hown.
  change (find_user seller (completed_state oid o s)) with (find_user seller s).
  rewrite Hs, Hbal.
  assert (option_map order_status (find_order oid (completed_state oid o s))
          = Some "completed") as Hdone.
  { unfold find_order, completed_state. simpl.
    rewrite filter_update_rows by reflexivity.
    unfold find_order in Ho.
    destruct (filter (by_order_id oid) (orders (db s))) as [|o' l] eqn:E;
      simpl in Ho; [discriminate|]. injection Ho as ->.
    simpl.
    assert (by_order_id oid o = true) as ->; [|reflexivity].
    assert (In o (filter (by_order_id oid) (orders (db s)))) as Hin
        by (rewrite E; now left).
    now apply filter_In in Hin. }
  assert (account_status (order_account_id o) (completed_state oid o s) = Some sold)
    as Hsold.
  { rewrite (status_after_update (order_account_id o) (order_account_id o) sold s)
      by reflexivity.
    rewrite N.eqb_refl. unfold account_status. now rewrite Ha. }
  destruct (int4 (b0 + price acc)) eqn:Hr; cbn [fst snd].
  - split; [exact Hdone|]. split; [exact Hsold|].
    split; [reflexivity|]. split; [reflexivity|].
    split; [|discriminate]. intros _. split; [reflexivity|].
    unfold balance_of.
    rewrite (find_user_updated seller seller (b0 + price acc)
               (completed_state oid o s)) by reflexivity.
    change (find_user seller (completed_state oid o s)) with (find_user seller s).
    rewrite Hs. simpl. pose proof (find_user_id _ _ _ Hs) as Hid.
    unfold by_user_id. now rewrite Hid, N.eqb_refl.
  - split; [exact Hdone|]. split; [exact Hsold|].
    split; [reflexivity|]. split; [reflexivity|].
    split; [discriminate|]. intros _. split; [reflexivity|exact Hseller'].
Qed.

Lemma completeOrder_sequential_witness :
  balance_of 1%N (complete_all [5%N; 6%N] two_sales) = Some 800 /\
  account_status 3%N (snd (completeOrder 5%N two_sales)) = Some sold /\
  balance_of 1%N (snd (completeOrder 5%N (snd (setUserBalance 1%N (Some 2147483647) two_sales))))
  = Some 2147483647.
Proof.
  pose proof (completeOrder_sequential [5%N; 6%N] 1%N two_sales 0 eq_refl)
    as [Hsum Hone].
  split; [|split].
  - apply Hsum. intros [|[|[|k]]]; reflexivity.
  - exact (proj1 (proj2 (Hone 5%N _ _ _ eq_refl eq_refl eq_refl eq_refl))).
  - pose proof (completeOrder_sequential [5%N] 1%N
                  (snd (setUserBalance 1%N (Some 2147483647) two_sales))
                  2147483647 eq_refl) as [_ Hfull].
    destruct (Hfull 5%N _ _ _ eq_refl eq_refl eq_refl eq_refl)
      as (_ & _ & _ & _ & _ & Hlost).
    apply Hlost. reflexivity.
Defined.

(** C4 as the spec words it fails: when two runs of the handler overlap,
    the credit of one of them is lost. *)
Lemma lost_update :
  ~ (forall (s : Server) (oids : list Id) (sched : list nat)
            (seller : Id) (b0 : Z),
       reachable s ->
       balance_of seller s = Some b0 ->
       let final := complete_schedule sched (map AtUpdateOrder oids, s) in
       forallb finished (fst final) = true ->
       balance_of seller (snd final)
       = Some (b0 + sum (map (credit_of s seller) oids))).
Proof.
  intros H.
  assert (reachable two_sales) as Hreach by now exists two_sales_trace.
  specialize (H two_sales [5%N; 6%N] overlapping_schedule 1%N 0 Hreach
                eq_refl eq_refl).
  vm_compute in H. discriminate.
Qed.

(** ** C2: creating an order *)

Lemma createOrder_run buyer acc amt receipt s :
  createOrder buyer acc amt receipt s =
  if negb (int4 amt) then (Fail 500 out_of_range, s)
  else if existsb (by_user_id buyer) (users (db s)) &&
          existsb (by_account_id acc) (accounts (db s))
  then
    let o := mkOrder (next_id (db s)) buyer acc amt "pending" receipt in
    (Ok 201 o, with_db (bump_id (with_orders (orders (db s) ++ [o]) (db s))) s)
  else (Fail 500 fk_violation, s).
Proof.
  unfold createOrder. run_m.
  destruct (negb (int4 amt)); [reflexivity|].
  now destruct (existsb (by_user_id buyer) (users (db s)) &&
                existsb (by_account_id acc) (accounts (db s))).
Qed.

Lemma filter_nonempty {R} (p : R -> bool) (l : list R) x :
  In x l -> p x = true -> filter p l <> [].
Proof.
  intros Hin Hp E.
  assert (In x (filter p l)) as H by (apply filter_In; now split).
  rewrite E in H. contradiction.
Qed.

(** C2, as the code has it.  [POST /orders] of the current server makes no
    check for an existing order:
    - when it succeeds it has appended one order with status 'pending'
      for the given buyer, account, amount and receipt, and nothing else
      of the store has changed;
    - it succeeds whenever the buyer and the account are on record and the
      amount is a value of the 32-bit [integer] column, active orders on
      the account or not; an amount outside that range is refused by the
      store; when it fails the state is unchanged.
    The guard against a duplicate is [GET /orders/check], and was in
    [POST /orders] of the older server; in both it looks for an active
    ('pending' or 'in_progress') order of the same buyer on the account:
    - the older [POST /orders] answers DuplicateActiveOrder, inserting
      nothing, when there is one, and otherwise inserts as above;
    - the check answers with the same error exactly when there is one. *)
Theorem createOrder_contract (buyer acc : Id) (amt : Z)
  (receipt : option string) (s : Server) :
  (forall c o s', createOrder buyer acc amt receipt s = (Ok c o, s') ->
     order_status o = "pending" /\ buyer_id o = buyer /\
     order_account_id o = acc /\ amount o = amt /\ receipt_no o = receipt /\
     int4 amt = true /\
     orders (db s') = orders (db s) ++ [o] /\
     accounts (db s') = accounts (db s) /\ users (db s') = users (db s)) /\
  (find_user buyer s <> None -> find_account acc s <> None -> int4 amt = true ->
   is_ok (fst (createOrder buyer acc amt receipt s)) = true) /\
  (int4 amt = false ->
   createOrder buyer acc amt receipt s = (Fail 500 out_of_range, s)) /\
  (forall c e s', createOrder buyer acc amt receipt s = (Fail c e, s') -> s' = s) /\
  ((exists o, In o (orders (db s)) /\ own_active_order buyer acc o = true) ->
   createOrder_legacy buyer acc amt s = (DuplicateActiveOrder, s)) /\
  ((forall o, In o (orders (db s)) -> own_active_order buyer acc o = false) ->
   createOrder_legacy buyer acc amt s = createOrder buyer acc amt None s) /\
  (ordersCheck (Some buyer) (Some acc) s = Fail 400 duplicate_active_order_msg
   <-> exists o, In o (orders (db s)) /\ own_active_order buyer acc o = true).
Proof.
  rewrite createOrder_run.
  split; [|split; [|split; [|split; [|split; [|split]]]]].
  - intros c o s'. destruct (int4 amt); cbn [negb]; [|discriminate].
    destruct (existsb (by_user_id buyer) (users (db s)) &&
              existsb (by_account_id acc) (accounts (db s))); [|discriminate].
    cbv zeta. intros [= _ <- <-]. repeat split.
  - intros Hb Ha ->. cbn [negb].
    destruct (find_user buyer s) as [u|] eqn:Hu; [|congruence].
    destruct (find_account acc s) as [a|] eqn:Hacc; [|congruence].
    rewrite (existsb_found _ _ _ Hu), (existsb_found _ _ _ Hacc). reflexivity.
  - now intros ->.
  - intros c e s'. destruct (negb (int4 amt)); [now intros [= _ _ <-]|].
    destruct (existsb (by_user_id buyer) (users (db s)) &&
              existsb (by_account_id acc) (accounts (db s))); [discriminate|].
    now intros [= _ _ <-].
  - intros (o & Hin & Hact). unfold createOrder_legacy.
    destruct (filter (own_active_order buyer acc) (orders (db s))) eqn:E;
      [|reflexivity].
    exfalso. exact (filter_nonempty _ _ _ Hin Hact E).
  - intros Hnone. unfold createOrder_legacy.
    destruct (filter (own_active_order buyer acc) (orders (db s))) as [|o l] eqn:E.
    + unfold createOrder. now destruct (insert_order buyer acc amt "pending" None s) as [[e|o] s'].
    + assert (In o (filter (own_active_order buyer acc) (orders (db s)))) as Hin
          by (rewrite E; now left).
      apply filter_In in Hin. destruct Hin as [Hin Hact].
      rewrite (Hnone o Hin) in Hact. discriminate.
  - unfold ordersCheck.
    destruct (filter (own_active_order buyer acc) (orders (db s))) as [|o l] eqn:E.
    + split; [discriminate|].
      intros (o & Hin & Hact). exfalso. exact (filter_nonempty _ _ _ Hin Hact E).
    + split; [|reflexivity]. intros _. exists o.
      assert (In o (filter (own_active_order buyer acc) (orders (db s)))) as Hin
          by (rewrite E; now left).
      now apply filter_In in Hin.
Qed.

Lemma createOrder_contract_witness :
  is_ok (fst (createOrder 2%N 3%N 500 (Some "R1") pending_order_state)) = true /\
  createOrder 2%N 3%N 3000000000 (Some "R1") pending_order_state
    = (Fail 500 out_of_range, pending_order_state) /\
  createOrder_legacy 2%N 3%N 500 pending_order_state
    = (DuplicateActiveOrder, pending_order_state).
Proof.
  pose proof (createOrder_contract 2%N 3%N 500 (Some "R1") pending_order_state)
    as (_ & Hok & _ & _ & Hdup & _).
  pose proof (createOrder_contract 2%N 3%N 3000000000 (Some "R1") pending_order_state)
    as (_ & _ & Hrange & _).
  split; [|split].
  - apply Hok; [discriminate|discriminate|reflexivity].
  - apply Hrange. reflexivity.
  - apply Hdup. exists (mkOrder 4%N 2%N 3%N 500 "pending" (Some "R1")).
    split; [now left|reflexivity].
Defined.

(** C2 as the spec words it fails.  With an active order on the account,
    the current [POST /orders] accepts the same request again and a second
    order goes in; the older [POST /orders] turns the same buyer away, but
    accepts the order of another buyer on that account. *)
Lemma second_order_accepted :
  ~ (forall (s : Server) (buyer acc : Id) (amt : Z) (receipt : option string),
       reachable s ->
       (exists o, In o (orders (db s)) /\
                  order_account_id o = acc /\ is_active_order o = true) ->
       createOrder buyer acc amt receipt s = (DuplicateActiveOrder, s)) /\
  ~ (forall (s : Server) (buyer acc : Id) (amt : Z),
       reachable s ->
       (exists o, In o (orders (db s)) /\
                  order_account_id o = acc /\ is_active_order o = true) ->
       createOrder_legacy buyer acc amt s = (DuplicateActiveOrder, s)).
Proof.
  split; intros H.
  - assert (createOrder 2%N 3%N 500 (Some "R1") pending_order_state
            = (DuplicateActiveOrder, pending_order_state)) as E.
    { apply H; [now exists paid_reservation_trace|].
      eexists. split; [left; reflexivity|]. split; reflexivity. }
    vm_compute in E. discriminate.
  - assert (createOrder_legacy 3%N 4%N 500 (run two_buyers_trace init)
            = (DuplicateActiveOrder, run two_buyers_trace init)) as E.
    { apply H; [now exists two_buyers_trace|].
      eexists. split; [left; reflexivity|]. split; reflexivity. }
    vm_compute in E. discriminate.
Qed.

(** ** C3: payment verification *)

Lemma matches_escrow_valid receiver :
  isValidReceiver receiver = true -> matches_escrow receiver = true.
Proof.
  unfold isValidReceiver, matches_escrow, escrow_identities, validReceivers,
    same_identity. cbn [existsb].
  change (trim "Kaleb Mate") with "Kaleb Mate".
  change (trim "KALEB MATE MEGANE") with "KALEB MATE MEGANE".
  now rewrite !(String.eqb_sym (toUpperCase (trim receiver))).
Qed.

Lemma verifyPayment_sound apiKey verifier reference amt c data q :
  verifyPayment apiKey verifier reference (Some amt) = Ok c data ->
  parseFloat (strip_amount (settledAmount data)) = Num q ->
  verifier reference = Some data /\ success data = true /\
  Qle (inject_Z amt) q /\ matches_escrow (creditedPartyName data) = true.
Proof.
  unfold verifyPayment. intros H Hq.
  destruct (String.eqb reference EmptyString || (amt =? 0)); [discriminate|].
  destruct apiKey; [|discriminate].
  destruct (verifier reference) as [d|]; [|discriminate].
  destruct (success d) eqn:Hs; [|discriminate]. cbn [negb] in H.
  destruct (String.eqb_spec (creditedPartyName d) "Kaleb Mate Megane") as [Hn|];
    [|discriminate]. cbn [negb orb] in H.
  destruct (js_lt (parseFloat (strip_amount (settledAmount d)))
                  (Num (inject_Z amt))) eqn:Hlt; [discriminate|].
  injection H as _ <-. rewrite Hq in Hlt. cbn [js_lt js_value] in Hlt.
  apply negb_false_iff, Qle_bool_iff in Hlt.
  repeat split; try assumption. now rewrite Hn.
Qed.

Lemma verifyPayment_number apiKey verifier reference amt c data :
  verifyPayment apiKey verifier reference (Some amt) = Ok c data ->
  parseFloat (strip_amount (settledAmount data)) <> NaN ->
  js_ge (parseFloat (strip_amount (settledAmount data))) (Num (inject_Z amt))
  = true.
Proof.
  unfold verifyPayment. intros H Hn.
  destruct (String.eqb reference EmptyString || (amt =? 0)); [discriminate|].
  destruct apiKey; [|discriminate].
  destruct (verifier reference) as [d|]; [|discriminate].
  destruct (success d); [|discriminate]. cbn [negb] in H.
  destruct (negb (String.eqb (creditedPartyName d) "Kaleb Mate Megane"));
    [discriminate|]. cbn [orb] in H.
  destruct (js_lt (parseFloat (strip_amount (settledAmount d)))
                  (Num (inject_Z amt))) eqn:Hlt; [discriminate|].
  injection H as _ <-.
  destruct (parseFloat (strip_amount (settledAmount d))) as [|q| |b];
    [now destruct Hn| | |]; cbn [js_ge]; now rewrite Hlt.
Qed.

Lemma verifyPayment_mismatch key verifier reference amt data :
  reference <> EmptyString -> amt <> 0 ->
  verifier reference = Some data -> success data = true ->
  (matches_escrow (creditedPartyName data) = false \/
   exists q, parseFloat (strip_amount (settledAmount data)) = Num q /\
             Qlt q (inject_Z amt)) ->
  verifyPayment (Some key) verifier reference (Some amt) = PaymentMismatch.
Proof.
  intros Href Hamt Hv Hs Hmis. unfold verifyPayment.
  destruct (String.eqb_spec reference EmptyString); [contradiction|].
  destruct (Z.eqb_spec amt 0); [contradiction|]. cbn [orb].
  rewrite Hv, Hs. cbn [negb].
  destruct Hmis as [Hrecv|(q & Hq & Hlt)].
  - destruct (String.eqb_spec (creditedPartyName data) "Kaleb Mate Megane")
      as [E|]; [|reflexivity].
    rewrite E in Hrecv. discriminate.
  - rewrite Hq. cbn [js_lt js_value].
    assert (Qle_bool (inject_Z amt) q = false) as ->.
    { apply not_true_is_false. intros Hle. apply Qle_bool_iff in Hle.
      exact (Qlt_not_le _ _ Hlt Hle). }
    cbn [negb]. now rewrite orb_true_r.
Qed.

Lemma js_strict_eq_int x z :
  js_strict_eq x (Num (inject_Z z)) = true -> js_int x = Some z.
Proof.
  destruct x as [|q| |b]; cbn [js_strict_eq js_value js_int];
    try discriminate.
  - intros H. apply Qeq_bool_iff in H. unfold Qeq in H. cbn in H.
    assert (Qnum q = z * Zpos (Qden q)) as -> by lia.
    rewrite Z.mod_mul, Z.div_mul by lia. reflexivity.
  - intros H. apply Qeq_bool_iff in H. unfold Qeq in H. cbn in H.
    f_equal. lia.
Qed.

Lemma cbe_validate_mismatch data accountPrice :
  (matches_escrow (receiver data) = false \/
   js_int (parseInt (cbe_amount data)) <> accountPrice) ->
  exists e, cbe_validate data accountPrice = inl e.
Proof.
  intros Hmis. unfold cbe_validate.
  destruct (isValidReceiver (receiver data)) eqn:Hr; cbn [negb];
    [|eexists; reflexivity].
  destruct Hmis as [Hrecv|Hamt].
  - rewrite (matches_escrow_valid _ Hr) in Hrecv. discriminate.
  - destruct accountPrice as [pr|]; [|eexists; reflexivity].
    destruct (js_strict_eq (parseInt (cbe_amount data)) (Num (inject_Z pr)))
      eqn:E; [|eexists; reflexivity].
    now apply js_strict_eq_int in E.
Qed.

Lemma cbe_validate_sound data accountPrice amount :
  cbe_validate data accountPrice = inr amount ->
  accountPrice = Some amount /\
  js_int (parseInt (cbe_amount data)) = Some amount /\
  matches_escrow (receiver data) = true.
Proof.
  unfold cbe_validate.
  destruct (isValidReceiver (receiver data)) eqn:Hr; [|discriminate].
  cbn [negb].
  destruct accountPrice as [pr|]; [|discriminate].
  destruct (js_strict_eq (parseInt (cbe_amount data)) (Num (inject_Z pr)))
    eqn:E; [|discriminate].
  intros [= <-]. repeat split.
  - now apply js_strict_eq_int.
  - now apply matches_escrow_valid.
Qed.

(** The handlers create an order only through a verification that passed. *)
Lemma on_text_no_order apiKey verifier sess from text s :
  (forall c data, verifyPayment apiKey verifier (trim text)
                    (pendingAccountPrice sess) <> Ok c data) ->
  snd (on_text apiKey verifier sess from text s) = s.
Proof.
  intros Hv. unfold on_text.
  destruct (pendingAccountId sess); [|reflexivity].
  destruct (String.eqb text EmptyString); [reflexivity|].
  destruct (String.eqb (pendingPaymentMethod sess) "telebirr"); [|reflexivity].
  destruct (verifyPayment apiKey verifier (trim text) (pendingAccountPrice sess))
    as [c data|c e]; [|reflexivity].
  now destruct (Hv c data).
Qed.

Lemma on_photo_no_order reply sess from s :
  (forall data amount, reply = Some data ->
     cbe_validate data (pendingAccountPrice sess) <> inr amount) ->
  snd (on_photo reply sess from s) = s.
Proof.
  intros Hv. unfold on_photo.
  destruct (pendingAccountId sess); [|reflexivity].
  destruct (negb (String.eqb (pendingPaymentMethod sess) "cbe")); [reflexivity|].
  destruct reply as [data|]; [|reflexivity].
  destruct (negb (cbe_success data)); [reflexivity|].
  destruct (getUserByTelegram from s); [|reflexivity].
  destruct (cbe_validate data (pendingAccountPrice sess)) as [e|amount] eqn:E;
    [reflexivity|].
  now destruct (Hv data amount eq_refl).
Qed.

(** C3.  The Telebirr check [settled < expected] is false when the settled
    amount does not parse ([NaN]), so a receipt whose amount the server
    cannot read passes the amount check and the bot creates the order:
    - at that input the verification succeeds although the settled amount
      is not greater than or equal to the expected 500, and [on_text]
      inserts the order;
    - for every verification whose settled amount does parse, success
      means the verifier accepted the receipt, the settled amount is at
      least the expected one (also when it is [-0] or an infinity) and
      the credited party is an escrow identity; a credited party that is
      no escrow identity, or a settled amount below the expected one, is
      answered with PaymentMismatch;
    - the CBE check passes only for an escrow receiver (trimmed, case
      ignored) and an amount equal to the price, and throws otherwise;
    - a verification that does not pass leaves the store unchanged: no
      order is created. *)
Theorem verifyPayment_unreadable_amount :
  (verifyPayment (Some "key") (fun _ => Some unreadable_amount_reply) "R1" (Some 500)
     = Ok 200 unreadable_amount_reply /\
   parseFloat (strip_amount (settledAmount unreadable_amount_reply)) = NaN /\
   js_ge (parseFloat (strip_amount (settledAmount unreadable_amount_reply)))
         (Num (inject_Z 500)) = false /\
   fst (on_text (Some "key") (fun _ => Some unreadable_amount_reply)
                telebirr_session "200" "R1" reserved_listing)
     = Some (Done (mkOrder 4%N 2%N 3%N 500 "pending" (Some "R1")))) /\
  (forall apiKey verifier reference amt c data q,
     verifyPayment apiKey verifier reference (Some amt) = Ok c data ->
     parseFloat (strip_amount (settledAmount data)) = Num q ->
     verifier reference = Some data /\ success data = true /\
     Qle (inject_Z amt) q /\ matches_escrow (creditedPartyName data) = true) /\
  (forall apiKey verifier reference amt c data,
     verifyPayment apiKey verifier reference (Some amt) = Ok c data ->
     parseFloat (strip_amount (settledAmount data)) <> NaN ->
     js_ge (parseFloat (strip_amount (settledAmount data))) (Num (inject_Z amt))
     = true) /\
  (forall key verifier reference amt data,
     reference <> EmptyString -> amt <> 0 ->
     verifier reference = Some data -> success data = true ->
     (matches_escrow (creditedPartyName data) = false \/
      exists q, parseFloat (strip_amount (settledAmount data)) = Num q /\
                Qlt q (inject_Z amt)) ->
     verifyPayment (Some key) verifier reference (Some amt) = PaymentMismatch) /\
  (forall data accountPrice amount,
     cbe_validate data accountPrice = inr amount ->
     accountPrice = Some amount /\
     js_int (parseInt (cbe_amount data)) = Some amount /\
     matches_escrow (receiver data) = true) /\
  (forall data accountPrice,
     (matches_escrow (receiver data) = false \/
      js_int (parseInt (cbe_amount data)) <> accountPrice) ->
     exists e, cbe_validate data accountPrice = inl e) /\
  (forall apiKey verifier sess from text s,
     (forall c data, verifyPayment apiKey verifier (trim text)
                       (pendingAccountPrice sess) <> Ok c data) ->
     snd (on_text apiKey verifier sess from text s) = s) /\
  (forall reply sess from s,
     (forall data amount, reply = Some data ->
        cbe_validate data (pendingAccountPrice sess) <> inr amount) ->
     snd (on_photo reply sess from s) = s).
Proof.
  split; [|split; [|split; [|split; [|split; [|split; [|split]]]]]].
  - repeat split; vm_compute; reflexivity.
  - exact verifyPayment_sound.
  - exact verifyPayment_number.
  - exact verifyPayment_mismatch.
  - exact cbe_validate_sound.
  - exact cbe_validate_mismatch.
  - exact on_text_no_order.
  - exact on_photo_no_order.
Qed.

(** * Properties of the other handlers *)

(** ** The integrity of the store *)

Lemma existsb_map_key {R} (key : R -> N) (f : R -> R) (k : N) (l : list R) :
  (forall r, key (f r) = key r) ->
  existsb (fun r => (key r =? k)%N) (map f l) = existsb (fun r => (key r =? k)%N) l.
Proof.
  intros Hk. induction l as [|r l IH]; [reflexivity|].
  simpl. now rewrite Hk, IH.
Qed.

Lemma existsb_app_l {R} (p : R -> bool) (l l' : list R) :
  existsb p l = true -> existsb p (l ++ l') = true.
Proof. intros H. rewrite existsb_app, H. reflexivity. Qed.

Lemma map_key_eq {R K} (key : R -> K) (f : R -> R) (l : list R) :
  (forall r, key (f r) = key r) -> map key (map f l) = map key l.
Proof.
  intros Hk. rewrite map_map. apply map_ext. exact Hk.
Qed.

Lemma NoDup_snoc_fresh (l : list N) (n : N) :
  (forall x, In x l -> (x < n)%N) -> NoDup l -> NoDup (l ++ [n]).
Proof.
  intros Hlt Hnd. induction l as [|x l IH]; simpl.
  - constructor; [intros []|constructor].
  - inversion Hnd as [|? ? Hx Hl]; subst. constructor.
    + rewrite in_app_iff. intros [Hin|[E|[]]]; [now apply Hx|].
      specialize (Hlt x (or_introl eq_refl)). lia.
    + apply IH; [|exact Hl]. intros y Hy. apply Hlt. now right.
Qed.

Lemma consistent_users_map (d : Db) (f : User -> User) :
  (forall u, user_id (f u) = user_id u) ->
  (forall u, telegram_user_id (f u) = telegram_user_id u) ->
  consistent d -> consistent (with_users (map f (users d)) d).
Proof.
  intros Hid Htg [Huf Haf Hof Hwf Huk Hak Hok Hwk Htu Hao Hob Hoa Hwu].
  constructor; cbn [with_users users accounts orders withdrawals next_id];
    try assumption.
  - intros u Hu. apply in_map_iff in Hu as [u0 [<- Hu0]]. rewrite Hid. auto.
  - now rewrite (map_key_eq user_id f _ Hid).
  - now rewrite (map_key_eq telegram_user_id f _ Htg).
  - intros a Ha. unfold by_user_id. rewrite (existsb_map_key user_id f _ _ Hid).
    now apply Hao.
  - intros o Ho. unfold by_user_id. rewrite (existsb_map_key user_id f _ _ Hid).
    now apply Hob.
  - intros w Hw. unfold by_user_id. rewrite (existsb_map_key user_id f _ _ Hid).
    now apply Hwu.
Qed.

Lemma consistent_accounts_map (d : Db) (f : Account -> Account) :
  (forall a, account_id (f a) = account_id a) ->
  (forall a, owner_id (f a) = owner_id a) ->
  consistent d -> consistent (with_accounts (map f (accounts d)) d).
Proof.
  intros Hid Hown [Huf Haf Hof Hwf Huk Hak Hok Hwk Htu Hao Hob Hoa Hwu].
  constructor; cbn [with_accounts users accounts orders withdrawals next_id];
    try assumption.
  - intros a Ha. apply in_map_iff in Ha as [a0 [<- Ha0]]. rewrite Hid. auto.
  - now rewrite (map_key_eq account_id f _ Hid).
  - intros a Ha. apply in_map_iff in Ha as [a0 [<- Ha0]]. rewrite Hown. auto.
  - intros o Ho. unfold by_account_id.
    rewrite (existsb_map_key account_id f _ _ Hid). now apply Hoa.
Qed.

Lemma consistent_orders_map (d : Db) (f : Order -> Order) :
  (forall o, order_id (f o) = order_id o) ->
  (forall o, buyer_id (f o) = buyer_id o) ->
  (forall o, order_account_id (f o) = order_account_id o) ->
  consistent d -> consistent (with_orders (map f (orders d)) d).
Proof.
  intros Hid Hb Ha [Huf Haf Hof Hwf Huk Hak Hok Hwk Htu Hao Hob Hoa Hwu].
  constructor; cbn [with_orders users accounts orders withdrawals next_id];
    try assumption.
  - intros o Ho. apply in_map_iff in Ho as [o0 [<- Ho0]]. rewrite Hid. auto.
  - now rewrite (map_key_eq order_id f _ Hid).
  - intros o Ho. apply in_map_iff in Ho as [o0 [<- Ho0]]. rewrite Hb. auto.
  - intros o Ho. apply in_map_iff in Ho as [o0 [<- Ho0]]. rewrite Ha. auto.
Qed.

Lemma NoDup_map_filter {R K} (key : R -> K) (p : R -> bool) (l : list R) :
  NoDup (map key l) -> NoDup (map key (filter p l)).
Proof.
  induction l as [|r l IH]; simpl; intros Hnd; [constructor|].
  inversion Hnd as [|? ? Hr Hl]; subst.
  destruct (p r); simpl; [|now apply IH].
  constructor; [|now apply IH].
  intros Hin. apply Hr. apply in_map_iff in Hin as [r' [E Hr']].
  apply in_map_iff. exists r'. split; [exact E|].
  apply filter_In in Hr'. tauto.
Qed.

Lemma consistent_orders_filter (d : Db) (p : Order -> bool) :
  consistent d -> consistent (with_orders (filter p (orders d)) d).
Proof.
  intros [Huf Haf Hof Hwf Huk Hak Hok Hwk Htu Hao Hob Hoa Hwu].
  constructor; cbn [with_orders users accounts orders withdrawals next_id];
    try assumption.
  - intros o Ho. apply filter_In in Ho. now apply Hof.
  - now apply NoDup_map_filter.
  - intros o Ho. apply filter_In in Ho. now apply Hob.
  - intros o Ho. apply filter_In in Ho. now apply Hoa.
Qed.

(** Deleting accounts, with the cascade on their orders. *)
Lemma consistent_delete_accounts (d : Db) (p : Account -> bool) :
  consistent d ->
  consistent
    (with_orders
       (filter (fun o => negb (existsb (fun a => (account_id a =? order_account_id o)%N)
                                       (filter p (accounts d))))
               (orders d))
       (with_accounts (filter (fun a => negb (p a)) (accounts d)) d)).
Proof.
  intros [Huf Haf Hof Hwf Huk Hak Hok Hwk Htu Hao Hob Hoa Hwu].
  constructor; cbn [with_orders with_accounts users accounts orders withdrawals next_id];
    try assumption.
  - intros a Ha. apply filter_In in Ha. now apply Haf.
  - intros o Ho. apply filter_In in Ho. now apply Hof.
  - now apply NoDup_map_filter.
  - now apply NoDup_map_filter.
  - intros a Ha. apply filter_In in Ha. now apply Hao.
  - intros o Ho. apply filter_In in Ho. now apply Hob.
  - intros o Ho. apply filter_In in Ho as [Ho Hkeep].
    specialize (Hoa o Ho).
    apply existsb_exists in Hoa as [a [Ha Hid]].
    apply existsb_exists. exists a. split; [|exact Hid].
    apply filter_In. split; [exact Ha|].
    destruct (p a) eqn:Hp; [|reflexivity].
    apply negb_true_iff in Hkeep.
    assert (Hex : existsb (fun a0 => (account_id a0 =? order_account_id o)%N)
                          (filter p (accounts d)) = true).
    { apply existsb_exists. exists a. split; [|exact Hid].
      apply filter_In. now split. }
    congruence.
Qed.

Lemma fresh_succ {R} (key : R -> N) (l : list R) (n : N) (new : R) :
  (forall r, In r l -> (key r < n)%N) -> key new = n ->
  forall r, In r (l ++ [new]) -> (key r < N.succ n)%N.
Proof.
  intros Hl Hn r Hr. apply in_app_iff in Hr as [Hr|[<-|[]]].
  - specialize (Hl r Hr). lia.
  - lia.
Qed.

Lemma fresh_weaken {R} (key : R -> N) (l : list R) (n : N) :
  (forall r, In r l -> (key r < n)%N) ->
  forall r, In r l -> (key r < N.succ n)%N.
Proof. intros Hl r Hr. specialize (Hl r Hr). lia. Qed.

Lemma NoDup_key_snoc {R} (key : R -> N) (l : list R) (new : R) :
  (forall r, In r l -> (key r < key new)%N) ->
  NoDup (map key l) -> NoDup (map key (l ++ [new])).
Proof.
  intros Hl Hnd. rewrite map_app. simpl. apply NoDup_snoc_fresh; [|exact Hnd].
  intros x Hx. apply in_map_iff in Hx as [r [<- Hr]]. now apply Hl.
Qed.

Lemma consistent_insert_user (d : Db) (tg uname : string) :
  ~ In tg (map telegram_user_id (users d)) ->
  consistent d ->
  consistent (bump_id (with_users (users d ++ [mkUser (next_id d) tg uname 0]) d)).
Proof.
  intros Htg [Huf Haf Hof Hwf Huk Hak Hok Hwk Htu Hao Hob Hoa Hwu].
  constructor;
    cbn [bump_id with_users users accounts orders withdrawals next_id].
  - now apply (fresh_succ user_id).
  - now apply (fresh_weaken account_id).
  - now apply (fresh_weaken order_id).
  - now apply (fresh_weaken withdrawal_id).
  - now apply NoDup_key_snoc.
  - assumption.
  - assumption.
  - assumption.
  - rewrite map_app. simpl.
    apply NoDup_rev in Htu. rewrite <- (rev_involutive (_ ++ _)).
    apply NoDup_rev. rewrite rev_app_distr. simpl.
    constructor; [now rewrite <- in_rev|exact Htu].
  - intros a Ha. apply existsb_app_l. now apply Hao.
  - intros o Ho. apply existsb_app_l. now apply Hob.
  - assumption.
  - intros w Hw. apply existsb_app_l. now apply Hwu.
Qed.

Lemma consistent_insert_account (d : Db) (new : Account) :
  account_id new = next_id d ->
  existsb (by_user_id (owner_id new)) (users d) = true ->
  consistent d ->
  consistent (bump_id (with_accounts (accounts d ++ [new]) d)).
Proof.
  intros Hid Hown [Huf Haf Hof Hwf Huk Hak Hok Hwk Htu Hao Hob Hoa Hwu].
  constructor;
    cbn [bump_id with_accounts users accounts orders withdrawals next_id];
    try assumption.
  - now apply (fresh_weaken user_id).
  - now apply (fresh_succ account_id).
  - now apply (fresh_weaken order_id).
  - now apply (fresh_weaken withdrawal_id).
  - apply NoDup_key_snoc; [|assumption]. rewrite Hid. assumption.
  - intros a Ha. apply in_app_iff in Ha as [Ha|[<-|[]]]; auto.
  - intros o Ho. apply existsb_app_l. now apply Hoa.
Qed.

Lemma consistent_insert_order (d : Db) (new : Order) :
  order_id new = next_id d ->
  existsb (by_user_id (buyer_id new)) (users d) = true ->
  existsb (by_account_id (order_account_id new)) (accounts d) = true ->
  consistent d ->
  consistent (bump_id (with_orders (orders d ++ [new]) d)).
Proof.
  intros Hid Hb Ha [Huf Haf Hof Hwf Huk Hak Hok Hwk Htu Hao Hob Hoa Hwu].
  constructor;
    cbn [bump_id with_orders users accounts orders withdrawals next_id];
    try assumption.
  - now apply (fresh_weaken user_id).
  - now apply (fresh_weaken account_id).
  - now apply (fresh_succ order_id).
  - now apply (fresh_weaken withdrawal_id).
  - apply NoDup_key_snoc; [|assumption]. rewrite Hid. assumption.
  - intros o Ho. apply in_app_iff in Ho as [Ho|[<-|[]]]; auto.
  - intros o Ho. apply in_app_iff in Ho as [Ho|[<-|[]]]; auto.
Qed.

Lemma consistent_insert_withdrawal (d : Db) (new : Withdrawal) :
  withdrawal_id new = next_id d ->
  existsb (by_user_id (withdrawal_user_id new)) (users d) = true ->
  consistent d ->
  consistent (bump_id (with_withdrawals (withdrawals d ++ [new]) d)).
Proof.
  intros Hid Hu [Huf Haf Hof Hwf Huk Hak Hok Hwk Htu Hao Hob Hoa Hwu].
  constructor;
    cbn [bump_id with_withdrawals users accounts orders withdrawals next_id];
    try assumption.
  - now apply (fresh_weaken user_id).
  - now apply (fresh_weaken account_id).
  - now apply (fresh_weaken order_id).
  - now apply (fresh_succ withdrawal_id).
  - apply NoDup_key_snoc; [|assumption]. rewrite Hid. assumption.
  - intros w Hw. apply in_app_iff in Hw as [Hw|[<-|[]]]; auto.
Qed.

Lemma consistent_empty : consistent empty_db.
Proof.
  constructor; simpl; try (intros ? []); constructor.
Qed.
Lemma consistent_update_users d p b :
  consistent d -> consistent (with_users (update_rows p (set_balance b) (users d)) d).
Proof.
  apply (consistent_users_map d (fun r => if p r then set_balance b r else r));
    intros u; now destruct (p u).
Qed.

Lemma consistent_update_accounts d p st :
  consistent d ->
  consistent (with_accounts (update_rows p (set_status st) (accounts d)) d).
Proof.
  apply (consistent_accounts_map d (fun r => if p r then set_status st r else r));
    intros a; now destruct (p a).
Qed.

Lemma consistent_update_orders d p st :
  consistent d ->
  consistent (with_orders (update_rows p (set_order_status st) (orders d)) d).
Proof.
  apply (consistent_orders_map d (fun r => if p r then set_order_status st r else r));
    intros o; now destruct (p o).
Qed.

Lemma not_in_telegram tg (l : list User) :
  filter (fun u => String.eqb (telegram_user_id u) tg) l = [] ->
  ~ In tg (map telegram_user_id l).
Proof.
  intros Hf Hin. apply in_map_iff in Hin as [u [E Hu]].
  assert (Hin : In u (filter (fun u => String.eqb (telegram_user_id u) tg) l)).
  { apply filter_In. split; [exact Hu|]. rewrite E. apply String.eqb_refl. }
  rewrite Hf in Hin. exact Hin.
Qed.

Lemma createUser_consistent tg uname s :
  consistent (db s) -> consistent (db (snd (createUser tg uname s))).
Proof.
  intros Hc. unfold createUser.
  destruct (filter (fun u => String.eqb (telegram_user_id u) tg) (users (db s)))
    eqn:Hf; [|exact Hc].
  destruct (String.eqb uname EmptyString); [exact Hc|].
  run_m. cbn [snd db with_db].
  apply consistent_insert_user; [|exact Hc]. now apply not_in_telegram.
Qed.

Lemma createAccount_consistent owner pf nm pr subs year monet s :
  consistent (db s) ->
  consistent (db (snd (createAccount owner pf nm pr subs year monet s))).
Proof.
  intros Hc. rewrite createAccount_run.
  destruct (negb _); [exact Hc|].
  destruct (existsb (by_user_id owner) (users (db s))) eqn:Hown; [|exact Hc].
  cbv zeta. cbn [snd db with_db].
  exact (consistent_insert_account (db s)
           (mkAccount (next_id (db s)) owner pf nm pr available subs year monet
                      (clock s)) eq_refl Hown Hc).
Qed.

Lemma reserve_consistent id buyer s :
  consistent (db s) -> consistent (db (snd (reserve id buyer s))).
Proof.
  intros Hc. destruct (reserve_accounts id buyer s) as [->|[a0 [_ [_ ->]]]];
    [exact Hc|].
  now apply consistent_update_accounts.
Qed.

Lemma createOrder_consistent buyer acc amt receipt s :
  consistent (db s) -> consistent (db (snd (createOrder buyer acc amt receipt s))).
Proof.
  intros Hc. rewrite createOrder_run.
  destruct (negb (int4 amt)); [exact Hc|].
  destruct (existsb (by_user_id buyer) (users (db s))) eqn:Hb; [|exact Hc].
  destruct (existsb (by_account_id acc) (accounts (db s))) eqn:Ha; [|exact Hc].
  cbn [andb snd db with_db].
  now apply consistent_insert_order.
Qed.

(** What [PUT /orders/:id] leaves behind. *)
Lemma updateOrder_state id st s :
  snd (updateOrder id st s) =
  if String.eqb st EmptyString then s
  else match find_order id s with
       | None => s
       | Some o =>
           if String.eqb st "completed" then completed_state id o s
           else with_db (with_orders (update_rows (by_order_id id) (set_order_status st)
                                                  (orders (db s))) (db s)) s
       end.
Proof.
  destruct (String.eqb_spec st "completed") as [->|Hne].
  - cbn [String.eqb Ascii.eqb Bool.eqb].
    destruct (find_order id s) as [o|] eqn:Hf.
    + now rewrite (updateOrder_completed_found id s o Hf).
    + now rewrite (updateOrder_completed_missing id s Hf).
  - apply String.eqb_neq in Hne.
    unfold updateOrder, updateOrder_body, find_order.
    destruct (String.eqb st EmptyString); [reflexivity|]. run_m. rewrite Hne.
    destruct (filter (by_order_id id) (orders (db s))) as [|o l] eqn:E;
      reflexivity.
Qed.

Lemma updateOrder_consistent id st s :
  consistent (db s) -> consistent (db (snd (updateOrder id st s))).
Proof.
  intros Hc. rewrite updateOrder_state.
  destruct (String.eqb st EmptyString); [exact Hc|].
  destruct (find_order id s) as [o|]; [|exact Hc].
  destruct (String.eqb st "completed").
  - unfold completed_state. cbn [db].
    apply (consistent_update_accounts
             (with_orders (update_rows (by_order_id id) (set_order_status "completed")
                                       (orders (db s))) (db s))).
    now apply consistent_update_orders.
  - cbn [db with_db]. now apply consistent_update_orders.
Qed.

Lemma cancelOrder_consistent id s :
  consistent (db s) -> consistent (db (snd (cancelOrder id s))).
Proof.
  intros Hc. destruct (cancelOrder_accounts id s) as [->|[o [_ ->]]]; [exact Hc|].
  unfold cancelled. cbn [db with_db].
  apply (consistent_orders_filter
           (with_accounts (update_rows (by_account_id (order_account_id o))
                                       (set_status available) (accounts (db s)))
                          (db s))).
  now apply consistent_update_accounts.
Qed.

Lemma deleteOrder_consistent id s :
  consistent (db s) -> consistent (db (snd (deleteOrder id s))).
Proof.
  intros Hc. unfold deleteOrder. run_m.
  destruct (filter (by_order_id id) (orders (db s))); cbn [snd db with_db];
    now apply consistent_orders_filter.
Qed.

Lemma deleted_consistent id s :
  consistent (db s) -> consistent (db (deleted id s)).
Proof.
  intros Hc. unfold deleted, exec. run_m. cbn [snd db with_db].
  now apply consistent_delete_accounts.
Qed.

Lemma deleteAccountApi_consistent id s :
  consistent (db s) -> consistent (db (snd (deleteAccountApi id s))).
Proof.
  intros Hc. destruct (find_account id s) as [a0|] eqn:Hf.
  - rewrite (deleteAccountApi_run id s a0 Hf).
    destruct (negb (status_eqb (status a0) available)); [exact Hc|].
    destruct (filter (fun o => of_account id o && is_active_order o)
                     (orders (db s))); [|exact Hc].
    now apply deleted_consistent.
  - unfold deleteAccountApi. unfold find_account in Hf.
    now destruct (filter (by_account_id id) (accounts (db s))).
Qed.

Lemma setUserBalance_consistent id bal s :
  consistent (db s) -> consistent (db (snd (setUserBalance id bal s))).
Proof.
  intros Hc. rewrite setUserBalance_run. destruct bal as [b|]; [|exact Hc].
  destruct (int4 b); [|exact Hc].
  destruct (find_user id s); cbn [snd credited db with_db];
    now apply consistent_update_users.
Qed.

Lemma withdraw_consistent uid amt s :
  consistent (db s) -> consistent (db (snd (withdraw uid amt s))).
Proof.
  intros Hc. destruct uid as [u|], amt as [a|]; try exact Hc.
  rewrite withdraw_run.
  destruct (find_user u s) as [u0|] eqn:Hu; [|exact Hc].
  destruct (balance u0 <? a); [exact Hc|].
  destruct (int4 (balance u0 - a) && int4 a); [|exact Hc].
  cbv zeta. cbn [snd db with_db].
  apply (consistent_insert_withdrawal
           (with_users (update_rows (by_user_id u) (set_balance (balance u0 - a))
                                    (users (db s))) (db s))
           (mkWithdrawal (next_id (db s)) u a "pending" "order_refund") eq_refl).
  - cbn [withdrawal_user_id with_users users].
    rewrite existsb_update_rows by reflexivity.
    now apply (existsb_found _ _ u0).
  - now apply consistent_update_users.
Qed.

Lemma release_consistent id s :
  consistent (db s) -> consistent (db (exec (release_reservation id) s)).
Proof.
  intros Hc. rewrite release_reservation_run.
  destruct (find_account id s) as [a0|]; [|exact Hc].
  destruct (status_eqb (status a0) pending); [|exact Hc].
  destruct (pending_orders_of id s); [|exact Hc].
  unfold released. cbn [db with_db]. now apply consistent_update_accounts.
Qed.

Lemma cleanup_consistent acc s :
  consistent (db s) -> consistent (db (exec (cleanup_after_completion acc) s)).
Proof.
  intros Hc. unfold exec, cleanup_after_completion. run_m. cbn [snd db with_db].
  apply (consistent_delete_accounts
           (with_orders (filter (fun o => negb (of_account acc o)) (orders (db s)))
                        (db s))).
  now apply consistent_orders_filter.
Qed.

Lemma fire_consistent i s :
  consistent (db s) -> consistent (db (fire i s)).
Proof.
  intros Hc. unfold fire.
  destruct (nth_error (timers s) i) as [t|]; [|exact Hc].
  destruct (due t <=? clock s)%N; [|exact Hc].
  destruct (task t) as [id|id]; cbn [run_task].
  - now apply release_consistent.
  - now apply cleanup_consistent.
Qed.

Lemma step_consistent op s :
  consistent (db s) -> consistent (db (step op s)).
Proof.
  intros Hc. destruct op; cbn [step].
  - now apply createUser_consistent.
  - now apply createAccount_consistent.
  - now apply reserve_consistent.
  - now apply createOrder_consistent.
  - now apply updateOrder_consistent.
  - now apply cancelOrder_consistent.
  - now apply deleteOrder_consistent.
  - now apply deleteAccountApi_consistent.
  - now apply setUserBalance_consistent.
  - now apply withdraw_consistent.
  - exact Hc.
  - now apply fire_consistent.
Qed.

Lemma run_consistent ops : forall s,
  consistent (db s) -> consistent (db (run ops s)).
Proof.
  induction ops as [|op ops IH]; intros s Hc; [exact Hc|].
  cbn [run fold_left]. apply IH. now apply step_consistent.
Qed.

Lemma reachable_consistent s : reachable s -> consistent (db s).
Proof.
  intros [ops ->]. apply run_consistent. exact consistent_empty.
Qed.

(** ** The integer columns

    Every write of an [integer] column goes through the range check of
    the store, so the rows of a state reached from the empty server hold
    32-bit values only. *)

Lemma forallb_update_rows {R} (q p : R -> bool) (f : R -> R) (l : list R) :
  (forall r, q r = true -> q (f r) = true) ->
  forallb q l = true -> forallb q (update_rows p f l) = true.
Proof.
  intros Hf. unfold update_rows. induction l as [|r l IH]; [reflexivity|].
  cbn [forallb map]. intros H. apply andb_true_iff in H as [Hr Hl].
  rewrite (IH Hl), andb_true_r. destruct (p r); auto.
Qed.

Lemma forallb_filter_sub {R} (q p : R -> bool) (l : list R) :
  forallb q l = true -> forallb q (filter p l) = true.
Proof.
  induction l as [|r l IH]; [reflexivity|].
  cbn [forallb filter]. intros H. apply andb_true_iff in H as [Hr Hl].
  destruct (p r); cbn [forallb]; [rewrite Hr|]; auto.
Qed.

Lemma forallb_snoc {R} (q : R -> bool) (l : list R) (x : R) :
  forallb q l = true -> q x = true -> forallb q (l ++ [x]) = true.
Proof.
  intros Hl Hx. rewrite forallb_app, Hl. cbn [forallb]. now rewrite Hx.
Qed.

Lemma int4_columns_iff d :
  int4_columns d = true <->
  forallb user_int4 (users d) = true /\ forallb account_int4 (accounts d) = true /\
  forallb order_int4 (orders d) = true /\
  forallb withdrawal_int4 (withdrawals d) = true.
Proof.
  unfold int4_columns. rewrite !andb_true_iff. tauto.
Qed.

Lemma int4_accounts_status d p st :
  forallb account_int4 (accounts d) = true ->
  forallb account_int4 (update_rows p (set_status st) (accounts d)) = true.
Proof. apply forallb_update_rows. intros a Ha. exact Ha. Qed.

Lemma int4_orders_status d p st :
  forallb order_int4 (orders d) = true ->
  forallb order_int4 (update_rows p (set_order_status st) (orders d)) = true.
Proof. apply forallb_update_rows. intros o Ho. exact Ho. Qed.

Lemma int4_users_balance d p b :
  int4 b = true ->
  forallb user_int4 (users d) = true ->
  forallb user_int4 (update_rows p (set_balance b) (users d)) = true.
Proof. intros Hb. apply forallb_update_rows. intros u _. exact Hb. Qed.

Lemma createUser_int4 tg uname s :
  int4_columns (db s) = true -> int4_columns (db (snd (createUser tg uname s))) = true.
Proof.
  intros Hc. unfold createUser.
  destruct (filter (fun u => String.eqb (telegram_user_id u) tg) (users (db s)));
    [|exact Hc].
  destruct (String.eqb uname EmptyString); [exact Hc|].
  run_m. cbn [snd db with_db].
  apply int4_columns_iff in Hc as (Hu & Ha & Ho & Hw).
  apply int4_columns_iff. cbn [bump_id with_users users accounts orders withdrawals].
  repeat split; try assumption. now apply forallb_snoc.
Qed.

Lemma createAccount_int4 owner pf nm pr subs year monet s :
  int4_columns (db s) = true ->
  int4_columns (db (snd (createAccount owner pf nm pr subs year monet s))) = true.
Proof.
  intros Hc. rewrite createAccount_run.
  destruct (int4 pr && int4 subs
            && match year with Some y => int4 y | None => true end) eqn:Hr;
    cbn [negb]; [|exact Hc].
  destruct (existsb (by_user_id owner) (users (db s))); [|exact Hc].
  cbv zeta. cbn [snd db with_db].
  apply int4_columns_iff in Hc as (Hu & Ha & Ho & Hw).
  apply int4_columns_iff.
  cbn [bump_id with_accounts users accounts orders withdrawals].
  repeat split; try assumption. now apply forallb_snoc.
Qed.

Lemma reserve_int4 id buyer s :
  int4_columns (db s) = true -> int4_columns (db (snd (reserve id buyer s))) = true.
Proof.
  intros Hc. destruct (reserve_accounts id buyer s) as [->|[a0 [_ [_ ->]]]];
    [exact Hc|].
  apply int4_columns_iff in Hc as (Hu & Ha & Ho & Hw).
  apply int4_columns_iff. unfold reserved.
  cbn [db with_accounts users accounts orders withdrawals].
  repeat split; try assumption. now apply int4_accounts_status.
Qed.

Lemma createOrder_int4 buyer acc amt receipt s :
  int4_columns (db s) = true ->
  int4_columns (db (snd (createOrder buyer acc amt receipt s))) = true.
Proof.
  intros Hc. rewrite createOrder_run.
  destruct (int4 amt) eqn:Hr; cbn [negb]; [|exact Hc].
  destruct (existsb (by_user_id buyer) (users (db s)) &&
            existsb (by_account_id acc) (accounts (db s))); [|exact Hc].
  cbv zeta. cbn [snd db with_db].
  apply int4_columns_iff in Hc as (Hu & Ha & Ho & Hw).
  apply int4_columns_iff.
  cbn [bump_id with_orders users accounts orders withdrawals].
  repeat split; try assumption. now apply forallb_snoc.
Qed.

Lemma updateOrder_int4 id st s :
  int4_columns (db s) = true -> int4_columns (db (snd (updateOrder id st s))) = true.
Proof.
  intros Hc. rewrite updateOrder_state.
  destruct (String.eqb st EmptyString); [exact Hc|].
  destruct (find_order id s) as [o|]; [|exact Hc].
  apply int4_columns_iff in Hc as (Hu & Ha & Ho & Hw).
  destruct (String.eqb st "completed"); apply int4_columns_iff;
    unfold completed_state;
    cbn [db with_db with_accounts with_orders users accounts orders withdrawals];
    repeat split; try assumption;
    try (now apply int4_accounts_status); now apply int4_orders_status.
Qed.

Lemma cancelOrder_int4 id s :
  int4_columns (db s) = true -> int4_columns (db (snd (cancelOrder id s))) = true.
Proof.
  intros Hc. destruct (cancelOrder_accounts id s) as [->|[o [_ ->]]]; [exact Hc|].
  apply int4_columns_iff in Hc as (Hu & Ha & Ho & Hw).
  apply int4_columns_iff. unfold cancelled.
  cbn [db with_db with_accounts with_orders users accounts orders withdrawals].
  repeat split; try assumption.
  - now apply int4_accounts_status.
  - now apply forallb_filter_sub.
Qed.

Lemma deleteOrder_int4 id s :
  int4_columns (db s) = true -> int4_columns (db (snd (deleteOrder id s))) = true.
Proof.
  intros Hc. unfold deleteOrder. run_m.
  apply int4_columns_iff in Hc as (Hu & Ha & Ho & Hw).
  destruct (filter (by_order_id id) (orders (db s))); cbn [snd db with_db];
    apply int4_columns_iff; cbn [with_orders users accounts orders withdrawals];
    repeat split; try assumption; now apply forallb_filter_sub.
Qed.

Lemma deleted_int4 id s :
  int4_columns (db s) = true -> int4_columns (db (deleted id s)) = true.
Proof.
  intros Hc. unfold deleted, exec. run_m. cbn [snd db with_db].
  apply int4_columns_iff in Hc as (Hu & Ha & Ho & Hw).
  apply int4_columns_iff.
  cbn [with_orders with_accounts users accounts orders withdrawals].
  repeat split; try assumption; now apply forallb_filter_sub.
Qed.

Lemma deleteAccountApi_int4 id s :
  int4_columns (db s) = true ->
  int4_columns (db (snd (deleteAccountApi id s))) = true.
Proof.
  intros Hc. destruct (find_account id s) as [a0|] eqn:Hf.
  - rewrite (deleteAccountApi_run id s a0 Hf).
    destruct (negb (status_eqb (status a0) available)); [exact Hc|].
    destruct (filter (fun o => of_account id o && is_active_order o)
                     (orders (db s))); [|exact Hc].
    now apply deleted_int4.
  - unfold deleteAccountApi. unfold find_account in Hf.
    now destruct (filter (by_account_id id) (accounts (db s))).
Qed.

Lemma setUserBalance_int4 id bal s :
  int4_columns (db s) = true ->
  int4_columns (db (snd (setUserBalance id bal s))) = true.
Proof.
  intros Hc. rewrite setUserBalance_run. destruct bal as [b|]; [|exact Hc].
  destruct (int4 b) eqn:Hb; [|exact Hc].
  apply int4_columns_iff in Hc as (Hu & Ha & Ho & Hw).
  destruct (find_user id s); cbn [snd credited db with_db];
    apply int4_columns_iff; cbn [with_users users accounts orders withdrawals];
    repeat split; try assumption; now apply int4_users_balance.
Qed.

Lemma withdraw_int4 uid amt s :
  int4_columns (db s) = true -> int4_columns (db (snd (withdraw uid amt s))) = true.
Proof.
  intros Hc. destruct uid as [u|], amt as [a|]; try exact Hc.
  rewrite withdraw_run.
  destruct (find_user u s) as [u0|]; [|exact Hc].
  destruct (balance u0 <? a); [exact Hc|].
  destruct (int4 (balance u0 - a) && int4 a) eqn:Hr; [|exact Hc].
  apply andb_true_iff in Hr as [Hb Hamt].
  cbv zeta. cbn [snd db with_db].
  apply int4_columns_iff in Hc as (Hu & Ha & Ho & Hw).
  apply int4_columns_iff.
  cbn [bump_id with_withdrawals with_users users accounts orders withdrawals].
  repeat split; try assumption.
  - now apply int4_users_balance.
  - now apply forallb_snoc.
Qed.

Lemma fire_int4 i s :
  int4_columns (db s) = true -> int4_columns (db (fire i s)) = true.
Proof.
  intros Hc. unfold fire.
  destruct (nth_error (timers s) i) as [t|]; [|exact Hc].
  destruct (due t <=? clock s)%N; [|exact Hc].
  destruct (task t) as [id|id]; cbn [run_task].
  - rewrite release_reservation_run.
    destruct (find_account id _) as [a0|]; [|exact Hc].
    destruct (status_eqb (status a0) pending); [|exact Hc].
    destruct (pending_orders_of id _); [|exact Hc].
    apply int4_columns_iff in Hc as (Hu & Ha & Ho & Hw).
    apply int4_columns_iff. unfold released.
    cbn [db with_db with_accounts users accounts orders withdrawals].
    repeat split; try assumption. now apply int4_accounts_status.
  - unfold exec, cleanup_after_completion. run_m. cbn [snd db with_db].
    apply int4_columns_iff in Hc as (Hu & Ha & Ho & Hw).
    apply int4_columns_iff.
    cbn [with_orders with_accounts users accounts orders withdrawals].
    repeat split; try assumption; repeat apply forallb_filter_sub; assumption.
Qed.

Lemma step_int4 op s :
  int4_columns (db s) = true -> int4_columns (db (step op s)) = true.
Proof.
  intros Hc. destruct op; cbn [step].
  - now apply createUser_int4.
  - now apply createAccount_int4.
  - now apply reserve_int4.
  - now apply createOrder_int4.
  - now apply updateOrder_int4.
  - now apply cancelOrder_int4.
  - now apply deleteOrder_int4.
  - now apply deleteAccountApi_int4.
  - now apply setUserBalance_int4.
  - now apply withdraw_int4.
  - exact Hc.
  - now apply fire_int4.
Qed.

Lemma reachable_int4 s : reachable s -> int4_columns (db s) = true.
Proof.
  intros [ops ->]. unfold run.
  assert (forall s0, int4_columns (db s0) = true ->
            int4_columns (db (fold_left (fun s op => step op s) ops s0)) = true) as H.
  { induction ops as [|op ops IH]; intros s0 H0; [exact H0|].
    cbn [fold_left]. apply IH. now apply step_int4. }
  apply H. reflexivity.
Qed.

Lemma int4_user s u :
  int4_columns (db s) = true -> In u (users (db s)) -> int4 (balance u) = true.
Proof.
  intros Hc Hu. apply int4_columns_iff in Hc as (H & _).
  rewrite forallb_forall in H. exact (H u Hu).
Qed.

Lemma int4_account s a :
  int4_columns (db s) = true -> In a (accounts (db s)) -> int4 (price a) = true.
Proof.
  intros Hc Ha. apply int4_columns_iff in Hc as (_ & H & _).
  rewrite forallb_forall in H. specialize (H a Ha).
  unfold account_int4 in H. rewrite !andb_true_iff in H. tauto.
Qed.

(** ** JavaScript numbers: whole numbers up to [2 ^ 53] *)

Lemma ceil_div_spec a b n : 0 < b -> (n < ceil_div a b <-> n * b < a).
Proof.
  intros Hb. unfold ceil_div.
  pose proof (Z.div_mod (- a) b) as Hdm.
  pose proof (Z.mod_pos_bound (- a) b Hb) as Hm.
  split; intros H; nia.
Qed.

Lemma ceil_div_unique a b k :
  0 < b -> (k - 1) * b < a <= k * b -> ceil_div a b = k.
Proof.
  intros Hb [Hlo Hhi].
  pose proof (proj2 (ceil_div_spec a b (k - 1) Hb) Hlo).
  assert (~ k < ceil_div a b).
  { intros H'. apply (ceil_div_spec a b k Hb) in H'. lia. }
  lia.
Qed.

Lemma ceil_div_bounds a b :
  0 < b -> (ceil_div a b - 1) * b < a <= ceil_div a b * b.
Proof.
  intros Hb. split.
  - apply (ceil_div_spec a b _ Hb). lia.
  - destruct (Z_lt_ge_dec (ceil_div a b * b) a) as [H|H]; [|lia].
    apply (ceil_div_spec a b _ Hb) in H. lia.
Qed.

Lemma binade_spec n d :
  0 < n -> 0 < d ->
  Z.log2 n - Z.log2 d - 1 <= binade n d <= Z.log2 n - Z.log2 d /\
  (0 <= binade n d -> d * 2 ^ binade n d <= n) /\
  (binade n d < 0 -> d <= n * 2 ^ (- binade n d)).
Proof.
  intros Hn Hd. unfold binade.
  pose proof (Z.log2_spec n Hn) as [Hn1 Hn2].
  pose proof (Z.log2_spec d Hd) as [Hd1 Hd2].
  pose proof (Z.log2_nonneg n) as Hln. pose proof (Z.log2_nonneg d) as Hld.
  set (a := Z.log2 n) in *. set (b := Z.log2 d) in *.
  rewrite Z.pow_succ_r in Hn2, Hd2 by assumption.
  destruct (Z.leb_spec 0 (a - b)) as [Hl|Hl].
  - destruct (Z.leb_spec (d * 2 ^ (a - b)) n) as [Ht|Ht].
    + split; [lia|]. split; [intros _; exact Ht|lia].
    + split; [lia|]. split.
      * intros H0.
        assert (2 ^ a = 2 ^ b * 2 * 2 ^ (a - b - 1)) as E.
        { replace a with (b + 1 + (a - b - 1)) at 1 by lia.
          rewrite !Z.pow_add_r by lia. reflexivity. }
        assert (0 < 2 ^ (a - b - 1)) by (apply Z.pow_pos_nonneg; lia).
        nia.
      * intros H0. replace (- (a - b - 1)) with 1 by lia.
        assert (a = b) as E by lia. rewrite E in *. change (2 ^ 1) with 2. lia.
  - destruct (Z.leb_spec d (n * 2 ^ (- (a - b)))) as [Ht|Ht].
    + split; [lia|]. split; [lia|intros _; exact Ht].
    + split; [lia|]. split; [lia|]. intros _.
      assert (2 * 2 ^ b = 2 ^ a * 2 ^ (- (a - b - 1))) as E.
      { rewrite <- Z.pow_succ_r by lia.
        replace (Z.succ b) with (a + - (a - b - 1)) by lia.
        rewrite Z.pow_add_r by lia. reflexivity. }
      assert (0 < 2 ^ (- (a - b - 1))) by (apply Z.pow_pos_nonneg; lia).
      nia.
Qed.

Lemma round_half_even_exact num den :
  0 < den -> num mod den = 0 -> round_half_even num den = num / den.
Proof.
  intros Hd Hm. unfold round_half_even. rewrite Hm.
  destruct (Z.ltb_spec (2 * 0) den); [reflexivity|lia].
Qed.

(** Rounding [a * P / b] where [b < 2 * P]: the result lies between the
    multiples of [P] around [a / b], and is not the lower one. *)
Lemma round_half_even_ceil a b P :
  0 < b -> 0 < P -> b < 2 * P ->
  (ceil_div a b - 1) * P < round_half_even (a * P) b <= ceil_div a b * P.
Proof.
  intros Hb HP HbP.
  pose proof (ceil_div_bounds a b Hb) as [Hlo Hhi].
  set (k := ceil_div a b) in *.
  unfold round_half_even.
  pose proof (Z.div_mod (a * P) b ltac:(lia)) as Hdm.
  pose proof (Z.mod_pos_bound (a * P) b Hb) as Hr.
  set (q := a * P / b) in *. set (r := (a * P) mod b) in *.
  assert (Hq : (k - 1) * P <= q) by nia.
  assert (Hq' : r = 0 \/ q + 1 <= k * P) by nia.
  assert (Hlow : q = (k - 1) * P -> b < 2 * r) by nia.
  destruct (Z.ltb_spec (2 * r) b) as [H1|H1].
  - split; [|nia].
    destruct (Z.eq_dec q ((k - 1) * P)) as [E|E]; [specialize (Hlow E); lia|lia].
  - destruct (Z.ltb_spec b (2 * r)) as [H2|H2].
    + split; [lia|]. destruct Hq' as [E|E]; [lia|lia].
    + assert (q <> (k - 1) * P) by (intros E; specialize (Hlow E); lia).
      destruct (Z.even q); split; try lia.
      all: destruct Hq' as [E|E]; lia.
Qed.

Lemma Qred_inject_Z z : Qred (inject_Z z) = inject_Z z.
Proof.
  unfold Qred, inject_Z.
  pose proof (Z.ggcd_gcd z 1) as Hg. pose proof (Z.ggcd_correct_divisors z 1) as Hd.
  destruct (Z.ggcd z 1) as [g [aa bb]]. cbn [fst snd] in *.
  rewrite Z.gcd_1_r in Hg. subst g. destruct Hd as [Ha Hb].
  f_equal; [lia|]. assert (bb = 1) as -> by lia. reflexivity.
Qed.

Lemma Qred_whole z P : 0 < P -> Qred (z * P # Z.to_pos P) = inject_Z z.
Proof.
  intros HP.
  rewrite <- (Qred_inject_Z z).
  apply Qred_complete. unfold Qeq, inject_Z. cbn [Qnum Qden].
  rewrite Z2Pos.id by assumption. lia.
Qed.

Lemma nearest_double_whole p :
  Zpos p <= 2 ^ 53 -> nearest_double p 1 = Num (inject_Z (Zpos p)).
Proof.
  intros Hp. unfold nearest_double.
  pose proof (binade_spec (Zpos p) 1 ltac:(lia) ltac:(lia)) as (Hb & Hb1 & Hb2).
  change (Z.log2 1) with 0 in Hb.
  pose proof (Z.log2_nonneg (Zpos p)) as Hl.
  assert (Z.log2 (Zpos p) <= 53) as Hl53.
  { change 53 with (Z.log2 (2 ^ 53)). now apply Z.log2_le_mono. }
  assert (binade (Zpos p) 1 = Z.log2 (Zpos p)) as Eb.
  { unfold binade. change (Z.log2 1) with 0. rewrite Z.sub_0_r.
    destruct (Z.leb_spec 0 (Z.log2 (Zpos p))); [|lia].
    pose proof (Z.log2_spec (Zpos p) ltac:(lia)) as [Hlog _].
    destruct (Z.leb_spec (1 * 2 ^ Z.log2 (Zpos p)) (Zpos p)); [reflexivity|lia]. }
  rewrite Eb. set (l := Z.log2 (Zpos p)) in *.
  rewrite Z.max_l by lia.
  destruct (Z.leb_spec 0 (l - 52)) as [He|He].
  - assert (0 < 2 ^ (l - 52)) as Hpow by (apply Z.pow_pos_nonneg; lia).
    pose proof (Z.log2_spec (Zpos p) ltac:(lia)) as [Hlo Hhi]. fold l in Hlo, Hhi.
    assert (l = 52 \/ l = 53) as [E|E] by lia; rewrite E in *.
    + change (2 ^ (52 - 52)) with 1. rewrite !Z.mul_1_r.
      rewrite round_half_even_exact by (try lia; apply Z.mod_1_r).
      rewrite Z.div_1_r.
      destruct (Z.leb_spec (2 ^ 1024) (Zpos p)) as [H|H]; [|reflexivity].
      assert (2 ^ 53 < 2 ^ 1024) by (apply Z.pow_lt_mono_r; lia). lia.
    + assert (Zpos p = 2 ^ 53) as Ep by (change (2 ^ 53) with (2 ^ 53) in *; lia).
      rewrite Ep. vm_compute. reflexivity.
  - set (P := 2 ^ (- (l - 52))).
    assert (0 < P) as HP by (apply Z.pow_pos_nonneg; lia).
    rewrite round_half_even_exact by (try lia; apply Z.mod_1_r).
    rewrite Z.div_1_r. now rewrite Qred_whole.
Qed.

Lemma to_double_whole z :
  - 2 ^ 53 <= z <= 2 ^ 53 -> to_double (inject_Z z) = Num (inject_Z z).
Proof.
  intros Hz. unfold to_double, inject_Z. cbn [Qnum Qden].
  destruct z as [|p|p].
  - reflexivity.
  - apply nearest_double_whole. lia.
  - rewrite nearest_double_whole by lia. reflexivity.
Qed.

(** The quotient of two whole numbers up to [2 ^ 53], rounded to a double,
    has the ceiling of the exact quotient. *)
Lemma nearest_double_ceil pa pb :
  Zpos pa < 2 ^ 53 -> Zpos pb <= 2 ^ 53 ->
  exists x, nearest_double pa pb = Num x /\ 0 < Qnum x /\
            ceil_div (Qnum x) (Zpos (Qden x)) = ceil_div (Zpos pa) (Zpos pb).
Proof.
  intros Ha Hb.
  pose proof (binade_spec (Zpos pa) (Zpos pb) ltac:(lia) ltac:(lia))
    as (Hfl & Hfl1 & Hfl2).
  assert (Z.log2 (Zpos pa) < 53) as Hla by (apply Z.log2_lt_pow2; lia).
  assert (Z.log2 (Zpos pb) <= 53) as Hlb.
  { change 53 with (Z.log2 (2 ^ 53)). now apply Z.log2_le_mono. }
  pose proof (Z.log2_nonneg (Zpos pa)). pose proof (Z.log2_nonneg (Zpos pb)).
  pose proof (ceil_div_bounds (Zpos pa) (Zpos pb) ltac:(lia)) as Hk.
  assert (1 <= ceil_div (Zpos pa) (Zpos pb)) as Hk1 by nia.
  unfold nearest_double.
  set (fl := binade (Zpos pa) (Zpos pb)) in *.
  rewrite Z.max_l by lia.
  set (P := 2 ^ (52 - fl)).
  assert (0 < P) as HP by (apply Z.pow_pos_nonneg; lia).
  assert (Zpos pb < 2 * P) as HbP.
  { unfold P. rewrite <- Z.pow_succ_r by lia.
    destruct (Z_lt_ge_dec fl 0) as [Hneg|Hpos].
    - specialize (Hfl2 Hneg).
      assert (2 ^ Z.succ (52 - fl) = 2 ^ 53 * 2 ^ (- fl)) as ->.
      { rewrite <- Z.pow_add_r by lia. f_equal. lia. }
      assert (0 < 2 ^ (- fl)) by (apply Z.pow_pos_nonneg; lia). nia.
    - specialize (Hfl1 ltac:(lia)).
      assert (2 ^ 53 = 2 ^ Z.succ (52 - fl) * 2 ^ fl) as E.
      { rewrite <- Z.pow_add_r by lia. f_equal. lia. }
      assert (0 < 2 ^ fl) by (apply Z.pow_pos_nonneg; lia). nia. }
  pose proof (round_half_even_ceil (Zpos pa) (Zpos pb) P ltac:(lia) HP HbP) as Hm.
  destruct (Z.leb_spec 0 (fl - 52)) as [He|He].
  - assert (fl = 52) as E by lia.
    assert (P = 1) as EP by (unfold P; rewrite E; reflexivity).
    rewrite E. change (2 ^ (52 - 52)) with 1. rewrite !Z.mul_1_r.
    rewrite EP, !Z.mul_1_r in Hm.
    assert (round_half_even (Zpos pa) (Zpos pb) = ceil_div (Zpos pa) (Zpos pb))
      as Em by lia.
    rewrite Em.
    destruct (Z.leb_spec (2 ^ 1024) (ceil_div (Zpos pa) (Zpos pb))) as [H'|H'].
    { assert (2 ^ 53 < 2 ^ 1024) by (apply Z.pow_lt_mono_r; lia). nia. }
    eexists. split; [reflexivity|]. cbn [inject_Z Qnum Qden].
    split; [lia|]. apply ceil_div_unique; lia.
  - replace (- (fl - 52)) with (52 - fl) by lia. fold P.
    set (m := round_half_even (Zpos pa * P) (Zpos pb)) in *.
    eexists. split; [reflexivity|].
    pose proof (Qred_correct (m # Z.to_pos P)) as Hq.
    unfold Qeq in Hq. cbn [Qnum Qden] in Hq. rewrite Z2Pos.id in Hq by assumption.
    set (x := Qred (m # Z.to_pos P)) in *.
    set (dx := Zpos (Qden x)) in *. assert (0 < dx) as Hdx by (unfold dx; lia).
    set (k := ceil_div (Zpos pa) (Zpos pb)) in *.
    assert ((k - 1) * dx * P < Qnum x * P) as Hlo by nia.
    assert (Qnum x * P <= k * dx * P) as Hhi by nia.
    apply Z.mul_lt_mono_pos_r in Hlo; [|exact HP].
    apply Z.mul_le_mono_pos_r in Hhi; [|exact HP].
    split; [nia|]. apply ceil_div_unique; [lia|]. lia.
Qed.

Lemma js_ceil_quotient a b :
  0 <= a < 2 ^ 53 -> 0 < b <= 2 ^ 53 ->
  js_ceil (js_div (Num (inject_Z a)) (Num (inject_Z b)))
  = Num (inject_Z (ceil_div a b)).
Proof.
  intros Ha Hb. destruct b as [|pb|pb]; try lia.
  destruct a as [|pa|pa]; try lia.
  - reflexivity.
  - unfold js_div, inject_Z.
    cbn [js_is_zero js_negative js_abs Qnum Qden Z.eqb Z.ltb Z.compare xorb
         js_signed Z.abs].
    unfold Qdiv, Qinv, Qmult. cbn [Qnum Qden Z.mul Pos.mul].
    rewrite Pos.mul_1_r. unfold to_double. cbn [Qnum Qden].
    destruct (nearest_double_ceil pa pb ltac:(lia) ltac:(lia)) as (x & -> & Hx & Hc).
    unfold js_ceil. rewrite Hc.
    pose proof (ceil_div_bounds (Zpos pa) (Zpos pb) ltac:(lia)).
    destruct (Z.eqb_spec (ceil_div (Zpos pa) (Zpos pb)) 0) as [E|E]; [nia|].
    reflexivity.
Qed.

Lemma js_lt_whole a b :
  js_lt (Num (inject_Z a)) (Num (inject_Z b)) = (a <? b).
Proof.
  cbn [js_lt js_value]. unfold Qle_bool, inject_Z. cbn [Qnum Qden].
  rewrite !Z.mul_1_r.
  destruct (Z.leb_spec b a), (Z.ltb_spec a b); try reflexivity; lia.
Qed.

Lemma js_ge_whole a b :
  js_ge (Num (inject_Z a)) (Num (inject_Z b)) = (b <=? a).
Proof.
  cbn [js_ge]. rewrite js_lt_whole.
  destruct (Z.leb_spec b a), (Z.ltb_spec a b); try reflexivity; lia.
Qed.

Lemma js_int_whole z : js_int (Num (inject_Z z)) = Some z.
Proof.
  cbn [js_int inject_Z Qnum Qden]. now rewrite Z.mod_1_r, Z.div_1_r.
Qed.

Lemma js_truthy_whole z : js_truthy (Num (inject_Z z)) = negb (z =? 0).
Proof. reflexivity. Qed.

Lemma js_sub_whole a b :
  - 2 ^ 53 <= a - b <= 2 ^ 53 ->
  js_sub (Num (inject_Z a)) (Num (inject_Z b)) = Num (inject_Z (a - b)).
Proof.
  intros H. cbn [js_sub].
  replace (inject_Z a - inject_Z b)%Q with (inject_Z (a - b)).
  - now apply to_double_whole.
  - unfold inject_Z, Qminus, Qplus, Qopp. cbn [Qnum Qden Pos.mul]. f_equal. lia.
Qed.

Lemma js_mul_whole a b :
  0 <= a -> 0 <= b -> a * b <= 2 ^ 53 ->
  js_mul (Num (inject_Z a)) (Num (inject_Z b)) = Num (inject_Z (a * b)).
Proof.
  intros Ha Hb H. cbn [js_mul js_negative js_abs inject_Z Qnum Qden].
  destruct (Z.ltb_spec a 0); [lia|]. destruct (Z.ltb_spec b 0); [lia|].
  cbn [xorb js_signed].
  replace ((Z.abs a # 1) * (Z.abs b # 1))%Q with (inject_Z (a * b)).
  - apply to_double_whole. nia.
  - unfold inject_Z, Qmult. cbn [Qnum Qden Pos.mul]. f_equal. lia.
Qed.

(** ** The order of the marketplace and its pages *)

Lemma listed_before_total a b : listed_before a b = false -> listed_before b a = true.
Proof.
  unfold listed_before. intros H.
  apply orb_false_iff in H as [H1 H2]. apply N.ltb_ge in H1.
  apply andb_false_iff in H2.
  apply orb_true_iff.
  destruct (N.eq_dec (created_at a) (created_at b)) as [E|E].
  - right. destruct H2 as [H2|H2].
    + apply N.eqb_neq in H2. contradiction.
    + apply N.leb_gt in H2. apply andb_true_iff. split.
      * apply N.eqb_eq. now symmetry.
      * apply N.leb_le. lia.
  - left. apply N.ltb_lt. lia.
Qed.

Lemma listed_before_trans a b c :
  listed_before a b = true -> listed_before b c = true -> listed_before a c = true.
Proof.
  unfold listed_before. intros H1 H2.
  apply orb_true_iff in H1. apply orb_true_iff in H2. apply orb_true_iff.
  rewrite !andb_true_iff, !N.ltb_lt, !N.eqb_eq, !N.leb_le in *.
  destruct H1 as [H1|[H1 H1']], H2 as [H2|[H2 H2']];
    [left; lia|left; lia|left; lia|right; split; lia].
Qed.

Lemma insert_sorted_sorted a l :
  StronglySorted listed l -> StronglySorted listed (insert_sorted a l).
Proof.
  induction l as [|b l IH]; intros Hs; simpl.
  - constructor; constructor.
  - inversion Hs as [|? ? Hl Hb]; subst.
    destruct (listed_before a b) eqn:Hab.
    + constructor; [exact Hs|]. constructor; [exact Hab|].
      eapply Forall_impl; [|exact Hb]. intros x Hx.
      exact (listed_before_trans a b x Hab Hx).
    + constructor; [now apply IH|].
      apply Forall_forall. intros x Hx. apply In_insert_sorted in Hx as [->|Hx].
      * now apply listed_before_total.
      * rewrite Forall_forall in Hb. now apply Hb.
Qed.

Lemma insert_sorted_perm a l : Permutation (insert_sorted a l) (a :: l).
Proof.
  induction l as [|b l IH]; simpl; [reflexivity|].
  destruct (listed_before a b); [reflexivity|].
  rewrite IH. apply perm_swap.
Qed.

Lemma orderBy_sorted l : StronglySorted listed (orderBy l).
Proof.
  induction l as [|a l IH]; simpl; [constructor|now apply insert_sorted_sorted].
Qed.

Lemma orderBy_perm l : Permutation (orderBy l) l.
Proof.
  induction l as [|a l IH]; simpl; [reflexivity|].
  rewrite insert_sorted_perm. now constructor.
Qed.

Lemma sorted_nth {A} (R : A -> A -> Prop) (l : list A) :
  StronglySorted R l ->
  forall i j a b, (i < j)%nat -> nth_error l i = Some a -> nth_error l j = Some b ->
                  R a b.
Proof.
  induction 1 as [|x l Hs IH Hx]; intros i j a b Hij Hi Hj.
  - destruct i; discriminate.
  - destruct j as [|j]; [lia|]. simpl in Hj.
    destruct i as [|i]; simpl in Hi.
    + injection Hi as <-. rewrite Forall_forall in Hx. apply Hx.
      eapply nth_error_In. exact Hj.
    + apply (IH i j); [lia|assumption|assumption].
Qed.

(** X1.  [orderBy] puts the rows in the order the query asks for: the result
    holds the same rows as the input, each as often, and of two rows the
    one listed first was created later, or at the same time with the
    smaller id. *)
Theorem orderBy_newest_first (l : list Account) :
  Permutation (orderBy l) l /\
  StronglySorted (fun a b => listed_before a b = true) (orderBy l) /\
  (forall i j a b, (i < j)%nat ->
     nth_error (orderBy l) i = Some a -> nth_error (orderBy l) j = Some b ->
     (created_at b <= created_at a)%N /\
     (created_at a = created_at b -> (account_id a <= account_id b)%N)).
Proof.
  split; [apply orderBy_perm|]. split; [apply orderBy_sorted|].
  intros i j a b Hij Hi Hj.
  pose proof (sorted_nth listed _ (orderBy_sorted l) i j a b Hij Hi Hj) as H.
  unfold listed, listed_before in H.
  apply orb_true_iff in H.
  rewrite andb_true_iff, N.ltb_lt, N.eqb_eq, N.leb_le in H.
  split; [lia|]. intros E. destruct H as [H|[_ H]]; [lia|exact H].
Qed.

(** *** Pages *)

Lemma paginate_length limit offset l :
  (List.length (paginate limit offset l) <= Z.to_nat limit)%nat.
Proof. unfold paginate. apply firstn_le_length. Qed.

Lemma paginate_nonempty limit offset l :
  0 < limit -> 0 <= offset ->
  (paginate limit offset l <> [] <-> offset < Z.of_nat (List.length l)).
Proof.
  intros Hl Ho. unfold paginate.
  destruct (Z.to_nat limit) as [|n] eqn:En; [lia|].
  split.
  - intros Hne. destruct (Z_lt_ge_dec offset (Z.of_nat (List.length l))) as [H|H];
      [exact H|].
    exfalso. apply Hne. rewrite skipn_all2 by lia. reflexivity.
  - intros Hlt Hnil.
    destruct (skipn (Z.to_nat offset) l) as [|x r] eqn:Es; [|discriminate].
    pose proof (length_skipn (Z.to_nat offset) l) as Hlen. rewrite Es in Hlen.
    simpl in Hlen. lia.
Qed.

Lemma firstn_skipn_step {A} (n m : nat) (l : list A) :
  firstn n l ++ firstn m (skipn n l) = firstn (n + m) l.
Proof.
  revert l. induction n as [|n IH]; intros l; [reflexivity|].
  destruct l as [|x l]; simpl.
  - now rewrite firstn_nil.
  - now rewrite IH.
Qed.

Lemma pages_concat limit l n :
  0 <= limit ->
  List.concat (map (fun k => paginate limit (Z.of_nat k * limit) l) (seq 0 n))
  = firstn (n * Z.to_nat limit) l.
Proof.
  intros Hl. induction n as [|n IH]; [reflexivity|].
  rewrite seq_S, map_app, List.concat_app, IH. cbn [map List.concat plus].
  rewrite app_nil_r. unfold paginate.
  replace (Z.to_nat (Z.of_nat n * limit)) with (n * Z.to_nat limit)%nat
    by (rewrite Z2Nat.inj_mul by lia; now rewrite Nat2Z.id).
  rewrite firstn_skipn_step. f_equal. lia.
Qed.

Lemma pages_cover limit l :
  0 < limit ->
  List.concat (map (fun k => paginate limit (Z.of_nat k * limit) l)
              (seq 0 (Z.to_nat (ceil_div (Z.of_nat (List.length l)) limit))))
  = l.
Proof.
  intros Hl. rewrite pages_concat by lia. apply firstn_all2.
  set (n := ceil_div (Z.of_nat (List.length l)) limit).
  assert (Hn : ~ (n < ceil_div (Z.of_nat (List.length l)) limit)) by (unfold n; lia).
  rewrite (ceil_div_spec _ _ n Hl) in Hn.
  assert (0 <= n).
  { destruct (Z_lt_ge_dec n 0) as [Hneg|]; [|lia].
    exfalso. apply Hn. nia. }
  apply Nat2Z.inj_le. rewrite Nat2Z.inj_mul, !Z2Nat.id by lia. lia.
Qed.

Lemma select_page_whole limit offset rows :
  0 <= limit < 2 ^ 63 -> 0 <= offset < 2 ^ 63 ->
  select_page (Num (inject_Z limit)) (Num (inject_Z offset)) rows
  = Some (paginate limit offset rows).
Proof.
  intros Hl Ho. unfold select_page, as_bigint, int8, paginate.
  change (Num 0) with (Num (inject_Z 0)).
  rewrite js_truthy_whole, js_ge_whole, !js_int_whole.
  assert (forall z, 0 <= z < 2 ^ 63 -> (- 2 ^ 63 <=? z) && (z <? 2 ^ 63) = true)
    as Hin.
  { intros z Hz. apply andb_true_iff. split; [apply Z.leb_le|apply Z.ltb_lt]; lia. }
  rewrite !Hin by assumption.
  destruct (Z.leb_spec 0 limit); [|lia].
  destruct (Z.eqb_spec offset 0) as [->|Hne]; cbn [negb].
  - reflexivity.
  - destruct (Z.ltb_spec offset 0); [lia|reflexivity].
Qed.

Lemma select_page_some limit offset rows rows' r :
  select_page limit offset rows = Some r ->
  exists r', select_page limit offset rows' = Some r'.
Proof.
  unfold select_page.
  destruct (js_truthy offset).
  - destruct (as_bigint offset) as [n|]; [|discriminate].
    destruct (n <? 0); [discriminate|].
    destruct (js_ge limit (Num 0)); [|eauto].
    destruct (as_bigint limit); [eauto|discriminate].
  - destruct (js_ge limit (Num 0)); [|eauto].
    destruct (as_bigint limit); [eauto|discriminate].
Qed.

Lemma select_page_limit limit offset rows :
  2 ^ 63 <= limit -> select_page (Num (inject_Z limit)) offset rows = None.
Proof.
  intros Hl. unfold select_page.
  match goal with |- match ?x with _ => _ end = _ => destruct x end;
    [|reflexivity].
  change (Num 0) with (Num (inject_Z 0)).
  rewrite js_ge_whole. unfold as_bigint, int8. rewrite js_int_whole.
  destruct (Z.leb_spec 0 limit); [|lia].
  destruct (Z.ltb_spec limit (2 ^ 63)); [lia|].
  now rewrite andb_false_r.
Qed.

(** X2.  The pages of [GET /accounts].  Let the page and the limit of the
    request be the whole numbers [page] and [limit] (after [parseInt] and
    the defaults 1 and 6).  For a positive limit and a page from 1 on,
    with [page * limit] and the number of accounts within [2 ^ 53] (where
    the numbers of JavaScript are exact), the answer is the page-th slice
    of the available accounts in listing order; it holds at most [limit]
    accounts; [hasMore] is true exactly when the next page is not empty;
    and the pages 1 to [totalPages], one after the other, are the whole
    listing: no account is left out or shown twice.  A limit from
    [2 ^ 63] on is refused by the store: the answer is 500. *)
Theorem listAccounts_pages (q_page q_limit : option string) (s : Server)
  (page limit : Z)
  (Hpage : parseInt_or q_page 1 = Num (inject_Z page))
  (Hlimit : parseInt_or q_limit 6 = Num (inject_Z limit)) :
  let listing := orderBy (filter is_available (accounts (db s))) in
  (0 < limit -> 1 <= page -> page * limit <= 2 ^ 53 ->
   Z.of_nat (List.length (accounts (db s))) < 2 ^ 53 ->
   exists p n,
     listAccounts q_page q_limit s = Ok 200 p /\
     page_accounts p = paginate limit ((page - 1) * limit) listing /\
     (List.length (page_accounts p) <= Z.to_nat limit)%nat /\
     (hasMore p = true <-> paginate limit (page * limit) listing <> []) /\
     totalPages p = Num (inject_Z n) /\
     List.concat (map (fun k => paginate limit ((Z.of_nat (S k) - 1) * limit) listing)
                 (seq 0 (Z.to_nat n))) = listing /\
     (n < page -> page_accounts p = [])) /\
  (2 ^ 63 <= limit ->
   listAccounts q_page q_limit s = Fail 500 "Failed to fetch accounts").
Proof.
  intros listing. split.
  - intros Hl Hp Hpl Hrows. unfold listAccounts. fold listing.
    rewrite Hpage, Hlimit.
    assert (Hlen : List.length listing
                   = List.length (filter is_available (accounts (db s)))).
    { apply Permutation_length, orderBy_perm. }
    rewrite <- Hlen.
    assert (Hcount : (List.length listing <= List.length (accounts (db s)))%nat).
    { rewrite Hlen.
      pose proof (filter_length is_available (accounts (db s))). lia. }
    assert (2 ^ 53 < 2 ^ 63) as H63 by (apply Z.pow_lt_mono_r; lia).
    change (Num 1) with (Num (inject_Z 1)).
    rewrite js_sub_whole by (change (2 ^ 53) with 9007199254740992 in *; nia).
    rewrite js_mul_whole by nia.
    rewrite select_page_whole by nia.
    rewrite js_ceil_quotient by nia.
    rewrite js_lt_whole.
    eexists. exists (ceil_div (Z.of_nat (List.length listing)) limit).
    split; [reflexivity|]. cbn [page_accounts hasMore totalPages].
    split; [reflexivity|]. split; [apply paginate_length|].
    split; [|split; [reflexivity|split]].
    + rewrite Z.ltb_lt, (ceil_div_spec _ _ page Hl).
      rewrite paginate_nonempty by nia. reflexivity.
    + rewrite <- (pages_cover limit listing Hl) at 2.
      f_equal. apply map_ext. intros k. f_equal. lia.
    + intros Hn.
      destruct (paginate limit ((page - 1) * limit) listing) eqn:E; [reflexivity|].
      assert (Hne : paginate limit ((page - 1) * limit) listing <> [])
        by (rewrite E; discriminate).
      apply paginate_nonempty in Hne; [|lia|nia].
      apply (ceil_div_spec _ _ (page - 1) Hl) in Hne. lia.
  - intros Hl. unfold listAccounts. rewrite Hlimit.
    now rewrite select_page_limit.
Qed.

Lemma listAccounts_pages_witness :
  exists p n,
    listAccounts None (Some "1") fresh_listing = Ok 200 p /\
    page_accounts p
    = paginate 1 ((1 - 1) * 1) (orderBy (filter is_available (accounts (db fresh_listing)))) /\
    (List.length (page_accounts p) <= Z.to_nat 1)%nat /\
    (hasMore p = true
     <-> paginate 1 (1 * 1) (orderBy (filter is_available (accounts (db fresh_listing)))) <> []) /\
    totalPages p = Num (inject_Z n) /\
    List.concat (map (fun k => paginate 1 ((Z.of_nat (S k) - 1) * 1)
                            (orderBy (filter is_available (accounts (db fresh_listing)))))
                (seq 0 (Z.to_nat n)))
    = orderBy (filter is_available (accounts (db fresh_listing))) /\
    (n < 1 -> page_accounts p = []).
Proof.
  apply (listAccounts_pages None (Some "1") fresh_listing 1 1);
    vm_compute; reflexivity || (intros; discriminate).
Defined.

(** ** The filters of the search *)

Lemma conjunction_holds fs c :
  conjunction fs = Some c -> forall a, c a = forallb (fun f => holds f a) fs.
Proof.
  revert c. induction fs as [|f fs IH]; intros c; simpl.
  - now intros [= <-].
  - destruct (conjunction fs) as [rest|]; [|discriminate].
    destruct f; [intros [= <-]|intros [= <-]|discriminate]; intros a; simpl.
    + now apply IH.
    + now rewrite (IH rest eq_refl).
Qed.

Lemma conjunction_bad fs : In BadValue fs -> conjunction fs = None.
Proof.
  induction fs as [|f fs IH]; [intros []|].
  intros [->|Hin]; simpl.
  - now destruct (conjunction fs).
  - now rewrite (IH Hin).
Qed.

Lemma number_filter_holds x c str a :
  truthy x = Some str -> holds (number_filter x c) a = true ->
  exists n, as_int4 (parseInt str) = Some n /\ c n a = true.
Proof.
  unfold number_filter. intros ->.
  destruct (as_int4 (parseInt str)) as [n|]; [|discriminate].
  intros H. now exists n.
Qed.

Lemma number_filter_bad x c str :
  truthy x = Some str -> as_int4 (parseInt str) = None ->
  number_filter x c = BadValue.
Proof. unfold number_filter. now intros -> ->. Qed.

Lemma searchAccounts_bad ilike lower_case q s :
  In BadValue (search_filters ilike lower_case q) ->
  searchAccounts ilike lower_case q s = Fail 500 "Failed to search accounts".
Proof.
  intros Hbad. unfold searchAccounts. now rewrite (conjunction_bad _ Hbad).
Qed.

(** X3.  What a search result satisfies.  Every account on a page of
    [GET /search/accounts] is 'available' and passes each filter the query
    carries: its name matches the pattern, its platform is one of the
    listed types (compared with the types in lower case and trimmed), its
    subscriber count is within the bounds, its monetization flag and
    creation year are the ones asked for.  The bounds and the year are
    read by [parseInt] and compared as 32-bit integers, the type of the
    columns: one that is not a number, or not within 32 bits, makes the
    whole search fail with status 500. *)
Theorem searchAccounts_filters (ilike : string -> string -> bool)
  (lower_case : string -> string)
  (q : SearchQuery) (s : Server) :
  (forall c p a,
     searchAccounts ilike lower_case q s = Ok c p -> In a (page_accounts p) ->
     In a (accounts (db s)) /\ status a = available /\
     (forall query, truthy (q_query q) = Some query ->
        ilike (name a) ("%" ++ query ++ "%")%string = true) /\
     (forall platform_types, truthy (q_platform_types q) = Some platform_types ->
        let types := filter (fun t => negb (String.eqb t EmptyString))
                            (map (fun t => lower_case (trim t))
                                 (split "," platform_types)) in
        types <> [] -> In (platform a) types) /\
     (forall str, truthy (q_minSubscribers q) = Some str ->
        exists n, as_int4 (parseInt str) = Some n /\ n <= subscriber_count a) /\
     (forall str, truthy (q_maxSubscribers q) = Some str ->
        exists n, as_int4 (parseInt str) = Some n /\ subscriber_count a <= n) /\
     (forall str, truthy (q_isMonetized q) = Some str ->
        is_monetized a = Some (String.eqb str "true")) /\
     (forall str, truthy (q_creation_year q) = Some str ->
        exists n, as_int4 (parseInt str) = Some n /\ creation_year a = Some n)) /\
  (forall str,
     (truthy (q_minSubscribers q) = Some str \/
      truthy (q_maxSubscribers q) = Some str \/
      truthy (q_creation_year q) = Some str) ->
     as_int4 (parseInt str) = None ->
     searchAccounts ilike lower_case q s = Fail 500 "Failed to search accounts").
Proof.
  split.
  - intros c p a. unfold searchAccounts.
    destruct (conjunction (search_filters ilike lower_case q)) as [cond|] eqn:Hc;
      [|discriminate].
    destruct (select_page _ _ _) as [results|] eqn:Hsel; [|discriminate].
    intros [= _ <-]. cbn [page_accounts]. intros Ha.
    apply (In_select_page _ _ _ _ _ Hsel), In_orderBy, filter_In in Ha.
    destruct Ha as [Hin Hca].
    rewrite (conjunction_holds _ _ Hc a) in Hca.
    unfold search_filters in Hca. cbn [forallb] in Hca.
    repeat (apply andb_true_iff in Hca as [? Hca]).
    split; [exact Hin|]. split; [now apply status_eqb_eq|].
    split; [|split; [|split; [|split; [|split]]]].
    + intros query Hq. rewrite Hq in *. assumption.
    + intros pt Hq Hne.
      match goal with H : holds (match truthy (q_platform_types q) with _ => _ end) a = true |- _ =>
        rewrite Hq in H;
          destruct (filter (fun t => negb (String.eqb t EmptyString))
                           (map (fun t => lower_case (trim t)) (split "," pt)))
            as [|t ts]; [now destruct Hne|]; cbn [holds] in H;
          apply existsb_exists in H as [t' [Hin' Heq]] end.
      apply String.eqb_eq in Heq. now rewrite Heq.
    + intros str Hq.
      match goal with H : holds (number_filter (q_minSubscribers q) _) a = true |- _ =>
        destruct (number_filter_holds _ _ str a Hq H) as [n [Hn Hle]] end.
      exists n. split; [exact Hn|]. now apply Z.leb_le.
    + intros str Hq.
      match goal with H : holds (number_filter (q_maxSubscribers q) _) a = true |- _ =>
        destruct (number_filter_holds _ _ str a Hq H) as [n [Hn Hle]] end.
      exists n. split; [exact Hn|]. now apply Z.leb_le.
    + intros str Hq.
      match goal with H : holds (match truthy (q_isMonetized q) with _ => _ end) a = true |- _ =>
        rewrite Hq in H; cbn [holds] in H;
          destruct (is_monetized a) as [b|]; [|discriminate];
          apply Bool.eqb_prop in H; now rewrite H end.
    + intros str Hq.
      match goal with H : holds (number_filter (q_creation_year q) _) a = true |- _ =>
        destruct (number_filter_holds _ _ str a Hq H) as [n [Hn Hy]] end.
      exists n. split; [exact Hn|].
      destruct (creation_year a) as [y|]; [|discriminate].
      apply Z.eqb_eq in Hy. now rewrite Hy.
  - intros str Hq Hnan. apply searchAccounts_bad. unfold search_filters.
    destruct Hq as [Hq|[Hq|Hq]].
    + rewrite (number_filter_bad (q_minSubscribers q) _ str Hq Hnan). simpl. tauto.
    + rewrite (number_filter_bad (q_maxSubscribers q) _ str Hq Hnan). simpl. tauto.
    + rewrite (number_filter_bad (q_creation_year q) _ str Hq Hnan). simpl. tauto.
Qed.

Lemma parseInt_or_default x dflt :
  js_truthy (parseInt_default x dflt) = true ->
  parseInt_or x dflt = parseInt_default x dflt.
Proof.
  unfold parseInt_default, parseInt_or. destruct x as [str|]; [|reflexivity].
  now intros ->.
Qed.

Lemma js_mul_minus_one b :
  0 < b <= 2 ^ 53 ->
  js_mul (js_sub (Num 0) (Num 1)) (Num (inject_Z b)) = Num (inject_Z (- b)).
Proof.
  intros Hb. change (js_sub (Num 0) (Num 1)) with (Num (inject_Z (-1))).
  cbn [js_mul js_negative js_abs inject_Z Qnum Qden].
  destruct (Z.ltb_spec b 0); [lia|].
  change (-1 <? 0) with true. cbn [xorb js_signed].
  replace ((Z.abs (-1) # 1) * (Z.abs b # 1))%Q with (inject_Z b).
  - rewrite to_double_whole by lia. cbn [js_neg inject_Z Qnum].
    destruct (Z.eqb_spec b 0); [lia|]. reflexivity.
  - unfold inject_Z, Qmult. cbn [Qnum Qden Pos.mul]. f_equal. lia.
Qed.

(** X4.  A search without filters is the listing.  When the query carries no
    filter and its page and limit are numbers other than 0 (or are left
    out), [GET /search/accounts] answers with the accounts and the
    pagination figures of [GET /accounts], which reports the offset in
    addition; when one fails, so does the other, each with its own
    message.  For page 0 the listing shows page 1 while the search
    fails. *)
Theorem search_without_filters (ilike : string -> string -> bool)
  (lower_case : string -> string)
  (q : SearchQuery) (s : Server)
  (Hquery : truthy (q_query q) = None)
  (Hplatform : truthy (q_platform_types q) = None)
  (Hmin : truthy (q_minSubscribers q) = None)
  (Hmax : truthy (q_maxSubscribers q) = None)
  (Hmonetized : truthy (q_isMonetized q) = None)
  (Hyear : truthy (q_creation_year q) = None) :
  (js_truthy (parseInt_default (q_page q) 1) = true ->
   js_truthy (parseInt_default (q_limit q) 6) = true ->
   match listAccounts (q_page q) (q_limit q) s,
         searchAccounts ilike lower_case q s with
   | Ok c p, Ok c' p' =>
       c = 200%N /\ c' = 200%N /\
       page_accounts p' = page_accounts p /\
       currentPage p' = currentPage p /\
       totalPages p' = totalPages p /\
       totalCount p' = totalCount p /\
       hasMore p' = hasMore p /\
       page_limit p' = page_limit p /\
       page_offset p' = None /\
       page_offset p
       = Some (js_mul (js_sub (currentPage p) (Num 1)) (page_limit p))
   | Fail c e, Fail c' e' =>
       c = 500%N /\ c' = 500%N /\
       e = "Failed to fetch accounts" /\ e' = "Failed to search accounts"
   | _, _ => False
   end) /\
  (forall limit,
     parseInt_default (q_page q) 1 = Num 0 ->
     parseInt_default (q_limit q) 6 = Num (inject_Z limit) ->
     0 < limit <= 2 ^ 53 ->
     searchAccounts ilike lower_case q s = Fail 500 "Failed to search accounts" /\
     is_ok (listAccounts (q_page q) (q_limit q) s) = true).
Proof.
  assert (Hcond : conjunction (search_filters ilike lower_case q)
                  = Some (fun a => is_available a && true)).
  { unfold search_filters, number_filter.
    now rewrite Hquery, Hplatform, Hmin, Hmax, Hmonetized, Hyear. }
  assert (Hfilter : forall l, filter (fun a => is_available a && true) l
                              = filter is_available l).
  { intros l. apply filter_ext. intros a. apply andb_true_r. }
  split.
  - intros Hp Hl. unfold searchAccounts, listAccounts.
    rewrite Hcond, !Hfilter.
    rewrite (parseInt_or_default _ _ Hp), (parseInt_or_default _ _ Hl).
    destruct (select_page _ _ _); cbn; repeat split; reflexivity.
  - intros limit Hpage Hlimit Hl.
    assert (2 ^ 53 < 2 ^ 63) as H63 by (apply Z.pow_lt_mono_r; lia).
    split.
    + unfold searchAccounts. rewrite Hcond, Hpage, Hlimit.
      rewrite js_mul_minus_one by assumption.
      unfold select_page, as_bigint, int8.
      rewrite js_truthy_whole, js_int_whole.
      destruct (Z.eqb_spec (- limit) 0); [lia|]. cbn [negb].
      destruct (Z.leb_spec (- 2 ^ 63) (- limit)); [|lia].
      destruct (Z.ltb_spec (- limit) (2 ^ 63)); [|lia]. cbn [andb].
      destruct (Z.ltb_spec (- limit) 0); [reflexivity|lia].
    + unfold listAccounts.
      assert (parseInt_or (q_page q) 1 = Num (inject_Z 1)) as ->.
      { unfold parseInt_or, parseInt_default in *. destruct (q_page q); [|reflexivity].
        now rewrite Hpage. }
      rewrite parseInt_or_default
        by (rewrite Hlimit, js_truthy_whole; destruct (Z.eqb_spec limit 0);
            [lia|reflexivity]).
      rewrite Hlimit. change (Num 1) with (Num (inject_Z 1)).
      rewrite js_sub_whole by (vm_compute; split; discriminate).
      rewrite js_mul_whole by lia.
      rewrite select_page_whole by lia. reflexivity.
Qed.

Lemma search_without_filters_witness :
  match listAccounts (Some "1") None fresh_listing,
        searchAccounts (fun _ _ => true) toLowerCase
          (mkSearchQuery None None None None None None (Some "1") None)
          fresh_listing with
  | Ok c p, Ok c' p' =>
      c = 200%N /\ c' = 200%N /\
      page_accounts p' = page_accounts p /\
      currentPage p' = currentPage p /\
      totalPages p' = totalPages p /\
      totalCount p' = totalCount p /\
      hasMore p' = hasMore p /\
      page_limit p' = page_limit p /\
      page_offset p' = None /\
      page_offset p
      = Some (js_mul (js_sub (currentPage p) (Num 1)) (page_limit p))
  | Fail c e, Fail c' e' =>
      c = 500%N /\ c' = 500%N /\
      e = "Failed to fetch accounts" /\ e' = "Failed to search accounts"
  | _, _ => False
  end.
Proof.
  apply (search_without_filters (fun _ _ => true) toLowerCase
           (mkSearchQuery None None None None None None (Some "1") None)
           fresh_listing); reflexivity.
Defined.

(** ** Rows found by their key in a store that is consistent *)

Lemma filter_key_unique {R} (key : R -> N) (l : list R) (k : N) (x : R) :
  NoDup (map key l) -> In x l -> key x = k ->
  filter (fun r => (key r =? k)%N) l = [x].
Proof.
  intros Hnd Hin Hk. induction l as [|r l IH]; [destruct Hin|].
  simpl in Hnd. inversion Hnd as [|? ? Hr Hl]; subst. simpl.
  destruct Hin as [->|Hin].
  - rewrite N.eqb_refl. f_equal.
    destruct (filter (fun r => (key r =? key x)%N) l) as [|y ys] eqn:E;
      [reflexivity|].
    assert (Hy : In y (filter (fun r => (key r =? key x)%N) l))
      by (rewrite E; now left).
    apply filter_In in Hy as [Hy Hky]. apply N.eqb_eq in Hky.
    exfalso. apply Hr. rewrite <- Hky. now apply in_map.
  - destruct (N.eqb_spec (key r) (key x)) as [E|E].
    + exfalso. apply Hr. rewrite E. now apply in_map.
    + now apply IH.
Qed.

Lemma existsb_key_In {R} (key : R -> N) (l : list R) (k : N) :
  existsb (fun r => (key r =? k)%N) l = true -> exists x, In x l /\ key x = k.
Proof.
  intros H. apply existsb_exists in H as [x [Hin Hk]].
  exists x. split; [exact Hin|]. now apply N.eqb_eq.
Qed.

Lemma hd_filter_In {R} (p : R -> bool) (l : list R) (x : R) :
  hd_error (filter p l) = Some x -> In x l /\ p x = true.
Proof.
  intros H. apply filter_In.
  destruct (filter p l) as [|y ys]; [discriminate|].
  injection H as ->. now left.
Qed.

Lemma consistent_account_of_order s o :
  consistent (db s) -> In o (orders (db s)) ->
  exists a, In a (accounts (db s)) /\
            filter (by_account_id (order_account_id o)) (accounts (db s)) = [a].
Proof.
  intros Hc Ho.
  destruct (existsb_key_In account_id _ _ (order_account _ Hc o Ho)) as [a [Ha Hk]].
  exists a. split; [exact Ha|].
  exact (filter_key_unique account_id _ _ a (accounts_key _ Hc) Ha Hk).
Qed.

Lemma consistent_buyer_of_order s o :
  consistent (db s) -> In o (orders (db s)) ->
  exists u, In u (users (db s)) /\
            filter (by_user_id (buyer_id o)) (users (db s)) = [u].
Proof.
  intros Hc Ho.
  destruct (existsb_key_In user_id _ _ (order_buyer _ Hc o Ho)) as [u [Hu Hk]].
  exists u. split; [exact Hu|].
  exact (filter_key_unique user_id _ _ u (users_key _ Hc) Hu Hk).
Qed.

Lemma consistent_owner_of_account s a :
  consistent (db s) -> In a (accounts (db s)) ->
  exists u, In u (users (db s)) /\
            filter (by_user_id (owner_id a)) (users (db s)) = [u].
Proof.
  intros Hc Ha.
  destruct (existsb_key_In user_id _ _ (account_owner _ Hc a Ha)) as [u [Hu Hk]].
  exists u. split; [exact Hu|].
  exact (filter_key_unique user_id _ _ u (users_key _ Hc) Hu Hk).
Qed.

Lemma find_order_In id s o : find_order id s = Some o -> In o (orders (db s)).
Proof. intros H. now apply hd_filter_In in H. Qed.

Lemma find_account_In id s a : find_account id s = Some a -> In a (accounts (db s)).
Proof. intros H. now apply hd_filter_In in H. Qed.

Lemma find_account_unique id s a0 :
  consistent (db s) -> find_account id s = Some a0 ->
  filter (by_account_id id) (accounts (db s)) = [a0].
Proof.
  intros Hc Hf.
  apply (filter_key_unique account_id _ _ a0 (accounts_key _ Hc)).
  - now apply (find_account_In id).
  - now apply (find_account_id id s).
Qed.

(** ** The purchases and the sales of a user *)

Lemma filter_andb {R} (p q : R -> bool) (l : list R) :
  filter (fun r => p r && q r) l = filter q (filter p l).
Proof.
  induction l as [|r l IH]; [reflexivity|].
  simpl. destruct (p r); simpl; [|exact IH].
  destruct (q r); now rewrite IH.
Qed.

Lemma purchases_rows s id :
  consistent (db s) ->
  map Some (getUserPurchases id s)
  = map (purchase_row s) (filter (fun o => (buyer_id o =? id)%N) (orders (db s))).
Proof.
  intros Hc. unfold getUserPurchases.
  assert (Hsub : forall o, In o (filter (fun o => (buyer_id o =? id)%N) (orders (db s))) ->
                           In o (orders (db s))).
  { intros o Ho. now apply filter_In in Ho. }
  induction (filter (fun o => (buyer_id o =? id)%N) (orders (db s))) as [|o l IH];
    [reflexivity|].
  cbn [flat_map]. rewrite map_app, IH by (intros x Hx; apply Hsub; now right).
  cbn [map]. specialize (Hsub o (or_introl eq_refl)).
  destruct (consistent_account_of_order s o Hc Hsub) as [a [Ha Hfa]].
  destruct (consistent_buyer_of_order s o Hc Hsub) as [u [Hu Hfu]].
  destruct (consistent_owner_of_account s a Hc Ha) as [sel [Hsel Hfs]].
  unfold purchase_row at 2, find_account, find_user.
  rewrite Hfa, Hfu. cbn [flat_map hd_error app]. rewrite Hfs. reflexivity.
Qed.

(** The rows of the two queries, in the order of the table. *)
Lemma purchases_sales_rows (s : Server) (id : Id) (Hs : reachable s) :
  map ov_order (getUserPurchases id s)
  = filter (fun o => (buyer_id o =? id)%N) (orders (db s)) /\
  (forall v, In v (getUserPurchases id s) ->
     buyer_id (ov_order v) = id /\
     find_order (order_id (ov_order v)) s = Some (ov_order v) /\
     find_account (order_account_id (ov_order v)) s = Some (ov_account v) /\
     find_user id s = Some (ov_buyer v) /\
     find_user (owner_id (ov_account v)) s = Some (ov_seller v)) /\
  map sv_order (getUserSales id s)
  = filter (fun o => match find_account (order_account_id o) s with
                     | Some a => (owner_id a =? id)%N
                     | None => false
                     end) (orders (db s)) /\
  (forall v, In v (getUserSales id s) ->
     owner_id (sv_account v) = id /\
     find_account (order_account_id (sv_order v)) s = Some (sv_account v) /\
     find_user (buyer_id (sv_order v)) s = Some (sv_user v)).
Proof.
  pose proof (reachable_consistent s Hs) as Hc.
  pose proof (purchases_rows s id Hc) as Hrows.
  assert (Hview : forall v, In v (getUserPurchases id s) ->
            exists o, In o (orders (db s)) /\ (buyer_id o =? id)%N = true /\
                      purchase_row s o = Some v).
  { intros v Hv. apply (in_map Some) in Hv. rewrite Hrows in Hv.
    apply in_map_iff in Hv as [o [Hrow Ho]]. apply filter_In in Ho as [Ho Hb].
    now exists o. }
  assert (Hsales : forall o, In o (orders (db s)) ->
            flat_map (fun a => map (fun u => mkSaleView o a u)
                                   (filter (by_user_id (buyer_id o)) (users (db s))))
                     (filter (fun a => by_account_id (order_account_id o) a
                                       && (owner_id a =? id)%N) (accounts (db s)))
            = match find_account (order_account_id o) s, find_user (buyer_id o) s with
              | Some a, Some u => if (owner_id a =? id)%N then [mkSaleView o a u] else []
              | _, _ => []
              end).
  { intros o Ho.
    destruct (consistent_account_of_order s o Hc Ho) as [a [Ha Hfa]].
    destruct (consistent_buyer_of_order s o Hc Ho) as [u [Hu Hfu]].
    unfold find_account, find_user.
    rewrite (filter_andb (by_account_id (order_account_id o))), Hfa, Hfu.
    cbn [filter hd_error]. now destruct (owner_id a =? id)%N. }
  split; [|split; [|split]].
  - apply (f_equal (map (option_map ov_order))) in Hrows.
    rewrite !map_map in Hrows. cbn [option_map] in Hrows.
    assert (E : forall (l : list Order),
              (forall o, In o l -> In o (orders (db s))) ->
              map (fun x => option_map ov_order (purchase_row s x)) l = map Some l).
    { intros l Hl. apply map_ext_in. intros o Ho. specialize (Hl o Ho).
      destruct (consistent_account_of_order s o Hc Hl) as [a [Ha Hfa]].
      destruct (consistent_buyer_of_order s o Hc Hl) as [u [Hu Hfu]].
      destruct (consistent_owner_of_account s a Hc Ha) as [sel [Hsel Hfs]].
      unfold purchase_row, find_account, find_user.
      rewrite Hfa, Hfu. cbn [hd_error]. now rewrite Hfs. }
    rewrite E in Hrows by (intros o Ho; now apply filter_In in Ho).
    rewrite <- (map_map ov_order Some) in Hrows.
    revert Hrows. generalize (map ov_order (getUserPurchases id s)).
    generalize (filter (fun o => (buyer_id o =? id)%N) (orders (db s))).
    intros l1 l2. revert l1. induction l2 as [|x l2 IH]; intros [|y l1] H;
      try discriminate; [reflexivity|].
    simpl in H. injection H as -> H. f_equal. now apply IH.
  - intros v Hv. destruct (Hview v Hv) as [o [Ho [Hb Hrow]]].
    unfold purchase_row in Hrow.
    destruct (find_account (order_account_id o) s) as [a|] eqn:Hfa; [|discriminate].
    destruct (find_user (buyer_id o) s) as [u|] eqn:Hfu; [|discriminate].
    destruct (find_user (owner_id a) s) as [sel|] eqn:Hfs; [|discriminate].
    injection Hrow as <-. cbn [ov_order ov_account ov_buyer ov_seller].
    apply N.eqb_eq in Hb. rewrite Hb in Hfu.
    split; [exact Hb|]. split; [|now repeat split].
    unfold find_order.
    change (by_order_id (order_id o)) with (fun r => (order_id r =? order_id o)%N).
    rewrite (filter_key_unique order_id _ _ o (orders_key _ Hc) Ho eq_refl).
    reflexivity.
  - unfold getUserSales.
    assert (E : forall l, (forall o, In o l -> In o (orders (db s))) ->
              map sv_order
                  (flat_map (fun o =>
                     flat_map (fun a => map (fun u => mkSaleView o a u)
                                 (filter (by_user_id (buyer_id o)) (users (db s))))
                       (filter (fun a => by_account_id (order_account_id o) a
                                         && (owner_id a =? id)%N) (accounts (db s))))
                     l)
              = filter (fun o => match find_account (order_account_id o) s with
                                 | Some a => (owner_id a =? id)%N
                                 | None => false
                                 end) l).
    { induction l as [|o l IH]; intros Hl; [reflexivity|].
      cbn [flat_map filter]. rewrite map_app, IH by (intros x Hx; apply Hl; now right).
      specialize (Hl o (or_introl eq_refl)). rewrite (Hsales o Hl).
      destruct (consistent_account_of_order s o Hc Hl) as [a [Ha Hfa]].
      destruct (consistent_buyer_of_order s o Hc Hl) as [u [Hu Hfu]].
      unfold find_account, find_user. rewrite Hfa, Hfu. cbn [hd_error].
      now destruct (owner_id a =? id)%N. }
    apply E. auto.
  - intros v Hv. unfold getUserSales in Hv.
    apply in_flat_map in Hv as [o [Ho Hv]]. rewrite (Hsales o Ho) in Hv.
    destruct (find_account (order_account_id o) s) as [a|] eqn:Hfa; [|destruct Hv].
    destruct (find_user (buyer_id o) s) as [u|] eqn:Hfu; [|destruct Hv].
    destruct (N.eqb_spec (owner_id a) id) as [E|E]; [|destruct Hv].
    destruct Hv as [<-|[]]. cbn [sv_order sv_account sv_user]. now repeat split.
Qed.

(** X5.  The purchases and the sales lists are complete and exact.  In a
    state reached by requests and timers, whatever the order in which the
    store answers the rows, [GET /users/:id/purchases] returns one row for
    each order of the buyer, and the row carries the order's account, the
    buyer and the account's owner; [GET /users/:id/sales] returns one row
    for each order on an account the user owns, with that account and
    the buyer of the order. *)
Theorem purchases_and_sales (s : Server) (id : Id) (Hs : reachable s) :
  (forall rows, purchases_answer id s rows ->
     Permutation (map ov_order rows)
                 (filter (fun o => (buyer_id o =? id)%N) (orders (db s))) /\
     (forall v, In v rows ->
        buyer_id (ov_order v) = id /\
        find_order (order_id (ov_order v)) s = Some (ov_order v) /\
        find_account (order_account_id (ov_order v)) s = Some (ov_account v) /\
        find_user id s = Some (ov_buyer v) /\
        find_user (owner_id (ov_account v)) s = Some (ov_seller v))) /\
  (forall rows, sales_answer id s rows ->
     Permutation (map sv_order rows)
                 (filter (fun o => match find_account (order_account_id o) s with
                                   | Some a => (owner_id a =? id)%N
                                   | None => false
                                   end) (orders (db s))) /\
     (forall v, In v rows ->
        owner_id (sv_account v) = id /\
        find_account (order_account_id (sv_order v)) s = Some (sv_account v) /\
        find_user (buyer_id (sv_order v)) s = Some (sv_user v))).
Proof.
  destruct (purchases_sales_rows s id Hs) as (Hp & Hpv & Hsl & Hsv).
  split; intros rows Hrows; unfold purchases_answer, sales_answer in Hrows.
  - split.
    + rewrite <- Hp. now apply Permutation_map.
    + intros v Hv. apply Hpv. now apply (Permutation_in v Hrows).
  - split.
    + rewrite <- Hsl. now apply Permutation_map.
    + intros v Hv. apply Hsv. now apply (Permutation_in v Hrows).
Qed.

Lemma purchases_and_sales_witness :
  Permutation (map ov_order (getUserPurchases 2%N two_sales))
              (filter (fun o => (buyer_id o =? 2)%N) (orders (db two_sales))) /\
  Permutation (map sv_order (rev (getUserSales 1%N two_sales)))
              (filter (fun o => match find_account (order_account_id o) two_sales with
                                | Some a => (owner_id a =? 1)%N
                                | None => false
                                end) (orders (db two_sales))).
Proof.
  assert (H : reachable two_sales) by (exists two_sales_trace; reflexivity).
  split.
  - apply (purchases_and_sales two_sales 2%N H). apply Permutation_refl.
  - apply (purchases_and_sales two_sales 1%N H). unfold sales_answer.
    symmetry. apply Permutation_rev.
Defined.

(** ** Completing an order in a reachable state *)

Lemma sum_map_repeat {A} (f : A -> Z) (x : A) (n : nat) :
  sum (map f (repeat x n)) = Z.of_nat n * f x.
Proof.
  induction n as [|n IH]; [reflexivity|].
  cbn [repeat map sum fold_right]. fold (sum (map f (repeat x n))).
  rewrite IH. lia.
Qed.

Lemma consistent_order_view s oid o :
  consistent (db s) -> find_order oid s = Some o ->
  exists acc buyer sel,
    find_account (order_account_id o) s = Some acc /\
    find_user (buyer_id o) s = Some buyer /\
    find_user (owner_id acc) s = Some sel /\
    getOrder oid s = Ok 200 (mkOrderView o acc buyer sel).
Proof.
  intros Hc Hf. pose proof (find_order_In oid s o Hf) as Ho.
  destruct (consistent_account_of_order s o Hc Ho) as [a [Ha Hfa]].
  destruct (consistent_buyer_of_order s o Hc Ho) as [u [Hu Hfu]].
  destruct (consistent_owner_of_account s a Hc Ha) as [sel [Hsel Hfs]].
  exists a, u, sel.
  assert (H1 : find_account (order_account_id o) s = Some a)
    by (unfold find_account; now rewrite Hfa).
  assert (H2 : find_user (buyer_id o) s = Some u)
    by (unfold find_user; now rewrite Hfu).
  assert (H3 : find_user (owner_id a) s = Some sel)
    by (unfold find_user; now rewrite Hfs).
  repeat split; try assumption.
  now apply getOrder_found.
Qed.

Lemma firstn_repeat {A} (x : A) (k n : nat) :
  firstn k (repeat x n) = repeat x (Nat.min k n).
Proof.
  revert k. induction n as [|n IH]; intros [|k]; cbn; try reflexivity.
  now rewrite IH.
Qed.

(** X6.  In a state reached by requests and timers, every order on record
    can be shown and completed: its account, its buyer and the account's
    owner are on record, [GET /orders/:id] answers 200, and a run of the
    completion handler credits the owner with the account's price.  The
    handler does not look at the status of the order: [n] runs on the same
    order, before the clean-up deletes it, credit the price [n] times.
    Both hold as long as the balance stays a value of the 32-bit
    [integer] column; the store refuses a credit that would take it
    beyond. *)
Theorem completeOrder_repeatable (s : Server) (oid : Id) (o : Order) (n : nat)
  (Hs : reachable s) (Hf : find_order oid s = Some o) :
  exists acc buyer sel,
    find_account (order_account_id o) s = Some acc /\
    find_user (owner_id acc) s = Some sel /\
    getOrder oid s = Ok 200 (mkOrderView o acc buyer sel) /\
    (int4 (balance sel + price acc) = true ->
     balance_of (owner_id acc) (snd (completeOrder oid s))
     = Some (balance sel + price acc)) /\
    ((forall k, (k <= n)%nat -> int4 (balance sel + Z.of_nat k * price acc) = true) ->
     balance_of (owner_id acc) (complete_all (repeat oid n) s)
     = Some (balance sel + Z.of_nat n * price acc)).
Proof.
  pose proof (reachable_consistent s Hs) as Hc.
  destruct (consistent_order_view s oid o Hc Hf)
    as [acc [buyer [sel [Ha [Hb [Hsel Hget]]]]]].
  exists acc, buyer, sel.
  assert (Hbal : balance_of (owner_id acc) s = Some (balance sel))
    by (unfold balance_of; now rewrite Hsel).
  assert (Hcredit : credit_of s (owner_id acc) oid = price acc).
  { unfold credit_of. rewrite Hget. cbn [ov_account]. now rewrite N.eqb_refl. }
  repeat split; try assumption.
  - intros Hr. rewrite (completeOrder_balance _ _ oid s Hbal); rewrite Hcredit;
      [reflexivity|exact Hr].
  - intros Hr. rewrite (complete_all_balance (repeat oid n) _ _ s Hbal).
    + now rewrite sum_map_repeat, Hcredit.
    + intros k. rewrite firstn_repeat, sum_map_repeat, Hcredit.
      apply Hr. lia.
Qed.

Lemma completeOrder_repeatable_witness :
  exists acc buyer sel,
    find_account 3%N two_sales = Some acc /\
    find_user (owner_id acc) two_sales = Some sel /\
    getOrder 5%N two_sales
    = Ok 200 (mkOrderView (mkOrder 5%N 2%N 3%N 500 "pending" (Some "R1")) acc buyer sel) /\
    balance_of (owner_id acc) (snd (completeOrder 5%N two_sales))
    = Some (balance sel + price acc) /\
    balance_of (owner_id acc) (complete_all (repeat 5%N 2) two_sales)
    = Some (balance sel + Z.of_nat 2 * price acc).
Proof.
  assert (Hs : reachable two_sales) by (exists two_sales_trace; reflexivity).
  destruct (completeOrder_repeatable two_sales 5%N
              (mkOrder 5%N 2%N 3%N 500 "pending" (Some "R1")) 2 Hs eq_refl)
    as (acc & buyer & sel & Ha & Hsel & Hget & Hone & Hmany).
  exists acc, buyer, sel.
  assert (Hacc : acc = mkAccount 3%N 1%N "telegram_channel" "chan" 500 pending
                                 1000 None None 0%N)
    by (vm_compute in Ha; now injection Ha as <-).
  assert (Hbal : balance sel = 0).
  { rewrite Hacc in Hsel. vm_compute in Hsel. now injection Hsel as <-. }
  repeat split; try assumption.
  - apply Hone. rewrite Hacc, Hbal. reflexivity.
  - apply Hmany. rewrite Hacc, Hbal. intros [|[|[|k]]] Hk; try reflexivity. lia.
Defined.

(** ** After the sale: the clean-up timer *)

Lemma filter_none {R} (p : R -> bool) (l : list R) :
  (forall x, In x l -> p x = false) -> filter p l = [].
Proof.
  intros H. induction l as [|x l IH]; [reflexivity|].
  simpl. rewrite (H x (or_introl eq_refl)). apply IH.
  intros y Hy. apply H. now right.
Qed.

Lemma fire_due i s t :
  nth_error (timers s) i = Some t -> (due t <= clock s)%N ->
  fire i s = exec (run_task (task t))
                  (mkServer (db s) (clock s) (remove_nth i (timers s))).
Proof.
  intros Ht Hdue. unfold fire. rewrite Ht.
  apply N.leb_le in Hdue. now rewrite Hdue.
Qed.

Lemma fire_early i s t :
  nth_error (timers s) i = Some t -> (clock s < due t)%N -> fire i s = s.
Proof.
  intros Ht Hdue. unfold fire. rewrite Ht.
  apply N.leb_gt in Hdue. now rewrite Hdue.
Qed.

Lemma completeOrder_store oid s o :
  find_order oid s = Some o ->
  timers (snd (completeOrder oid s))
  = timers s ++ [mkTimer (clock s + cleanup_delay)%N
                         (CleanupAfterCompletion (order_account_id o))] /\
  clock (snd (completeOrder oid s)) = clock s /\
  accounts (db (snd (completeOrder oid s)))
  = update_rows (by_account_id (order_account_id o)) (set_status sold)
                (accounts (db s)) /\
  orders (db (snd (completeOrder oid s)))
  = update_rows (by_order_id oid) (set_order_status "completed") (orders (db s)).
Proof.
  intros Hf. rewrite completeOrder_run, Hf. cbv zeta.
  destruct (getOrder oid (completed_state oid o s)) as [c v|c e];
    [|now repeat split].
  destruct (find_user (owner_id (ov_account v)) (completed_state oid o s))
    as [sellerData|]; [|now repeat split].
  destruct (int4 (balance sellerData + price (ov_account v))); now repeat split.
Qed.

Lemma cleanup_store acc s :
  let s' := exec (cleanup_after_completion acc) s in
  users (db s') = users (db s) /\
  withdrawals (db s') = withdrawals (db s) /\
  accounts (db s') = filter (fun a => negb (by_account_id acc a)) (accounts (db s)) /\
  (forall o, In o (orders (db s')) ->
             In o (orders (db s)) /\ of_account acc o = false).
Proof.
  unfold exec, cleanup_after_completion. run_m. cbn [snd db with_db].
  cbn [users withdrawals accounts orders with_orders with_accounts].
  repeat split.
  - apply filter_In in H as [H _]. now apply filter_In in H.
  - apply filter_In in H as [H _]. apply filter_In in H as [_ H].
    now apply negb_true_iff in H.
Qed.

Lemma purchases_orders id s v :
  In v (getUserPurchases id s) -> In (ov_order v) (orders (db s)).
Proof.
  unfold getUserPurchases. intros Hv.
  apply in_flat_map in Hv as [o [Ho Hv]].
  apply in_flat_map in Hv as [a [_ Hv]].
  apply in_flat_map in Hv as [u [_ Hv]].
  apply in_map_iff in Hv as [sel [<- _]]. cbn [ov_order].
  now apply filter_In in Ho.
Qed.

(** X7.  What is left of a sale.  The completion sets a timer of 5 seconds;
    fired before that it does nothing; once it has fired, the sold
    account and every order on it are gone from the store: the order can
    no longer be fetched (404) and is on nobody's purchases list, while
    the users, the seller's credit among them, are as the completion left
    them. *)
Theorem sale_cleanup (s : Server) (oid : Id) (o : Order) (dt : N)
  (Hs : reachable s) (Hf : find_order oid s = Some o) :
  let acc := order_account_id o in
  let s1 := snd (completeOrder oid s) in
  let i := List.length (timers s) in
  nth_error (timers s1) i
  = Some (mkTimer (clock s + cleanup_delay)%N (CleanupAfterCompletion acc)) /\
  ((dt < cleanup_delay)%N -> fire i (advance dt s1) = advance dt s1) /\
  ((cleanup_delay <= dt)%N ->
   let s2 := fire i (advance dt s1) in
   find_account acc s2 = None /\
   getAccountOrders acc s2 = [] /\
   find_order oid s2 = None /\
   getOrder oid s2 = Fail 404 "Order not found" /\
   (forall b v, In v (getUserPurchases b s2) -> order_id (ov_order v) <> oid) /\
   users (db s2) = users (db s1) /\
   withdrawals (db s2) = withdrawals (db s1)).
Proof.
  intros acc s1 i.
  pose proof (reachable_consistent s Hs) as Hc.
  destruct (completeOrder_store oid s o Hf) as [Htimers [Hclock [Hacc Hord]]].
  fold s1 in Htimers, Hclock, Hacc, Hord. fold acc in Htimers, Hacc.
  assert (Hnth : nth_error (timers s1) i
                 = Some (mkTimer (clock s + cleanup_delay)%N
                                 (CleanupAfterCompletion acc))).
  { rewrite Htimers. now apply nth_error_middle. }
  split; [exact Hnth|]. split.
  - intros Hdt. apply (fire_early i (advance dt s1) _ Hnth).
    cbn [advance clock due]. lia.
  - intros Hdt s2.
    assert (Hs2 : s2 = exec (cleanup_after_completion acc)
                         (mkServer (db s1) (clock s1 + dt)%N
                                   (remove_nth i (timers s1)))).
    { unfold s2. rewrite (fire_due i (advance dt s1) _ Hnth); [reflexivity|].
      cbn [advance clock due]. lia. }
    destruct (cleanup_store acc (mkServer (db s1) (clock s1 + dt)%N
                                          (remove_nth i (timers s1))))
      as [Hu [Hw [Ha Ho]]].
    rewrite <- Hs2 in Hu, Hw, Ha, Ho. cbn [db] in Hu, Hw, Ha, Ho.
    assert (Hgone : forall o', In o' (orders (db s2)) -> order_id o' <> oid).
    { intros o' Ho' Hid. destruct (Ho o' Ho') as [Hin Hof].
      rewrite Hord in Hin. unfold update_rows in Hin.
      apply in_map_iff in Hin as [r [Hr Hrin]].
      assert (Hrid : order_id r = oid).
      { rewrite <- Hid, <- Hr. now destruct (by_order_id oid r). }
      assert (r = o) as ->.
      { pose proof (filter_key_unique order_id _ _ r (orders_key _ Hc) Hrin Hrid) as E.
        unfold find_order in Hf.
        change (by_order_id oid) with (fun r => (order_id r =? oid)%N) in Hf.
        rewrite E in Hf. now injection Hf. }
      assert (Hacc' : order_account_id o' = acc).
      { rewrite <- Hr. now destruct (by_order_id oid o). }
      unfold of_account in Hof. rewrite Hacc', N.eqb_refl in Hof. discriminate. }
    assert (Hnone : filter (by_order_id oid) (orders (db s2)) = []).
    { apply filter_none. intros o' Ho'. apply N.eqb_neq. now apply Hgone. }
    split; [|split; [|split; [|split; [|split; [|split]]]]].
    + unfold find_account. rewrite Ha.
      now rewrite (filter_filter_neg (by_account_id acc) (by_account_id acc)).
    + unfold getAccountOrders. apply filter_none. intros o' Ho'.
      now apply Ho.
    + unfold find_order. now rewrite Hnone.
    + unfold getOrder. now rewrite Hnone.
    + intros b v Hv. apply Hgone. now apply (purchases_orders b).
    + exact Hu.
    + exact Hw.
Qed.

Lemma sale_cleanup_witness :
  find_account 3%N (fire 2 (advance 5000 (snd (completeOrder 5%N two_sales)))) = None /\
  fire 2 (advance 4999 (snd (completeOrder 5%N two_sales)))
  = advance 4999 (snd (completeOrder 5%N two_sales)).
Proof.
  assert (Hs : reachable two_sales) by (exists two_sales_trace; reflexivity).
  assert (Hf : find_order 5%N two_sales
               = Some (mkOrder 5%N 2%N 3%N 500 "pending" (Some "R1")))
    by reflexivity.
  split.
  - apply (sale_cleanup two_sales 5%N _ 5000%N Hs Hf). vm_compute. discriminate.
  - apply (sale_cleanup two_sales 5%N _ 4999%N Hs Hf). reflexivity.
Defined.

(** ** Deleting an order *)

Lemma filter_neg_all {R} (p : R -> bool) (l : list R) :
  filter p l = [] -> filter (fun r => negb (p r)) l = l.
Proof.
  induction l as [|r l IH]; [reflexivity|].
  simpl. destruct (p r); [discriminate|]. intros H. simpl. now rewrite IH.
Qed.

(** X8.  [DELETE /orders/:id] removes the order and nothing else.  An
    unknown id is answered 404 with the store unchanged.  Otherwise the
    order is returned and removed, and, unlike the cancellation, the
    account keeps its status: a reserved account stays 'pending' until
    the release timer of the reservation runs, which then frees it when
    no other pending order is on it. *)
Theorem deleteOrder_keeps_status (id : Id) (s : Server) :
  match find_order id s with
  | None => deleteOrder id s = (Fail 404 "Order not found", s)
  | Some o =>
      let s' := snd (deleteOrder id s) in
      fst (deleteOrder id s) = Ok 200 o /\
      orders (db s') = filter (fun r => negb (by_order_id id r)) (orders (db s)) /\
      find_order id s' = None /\
      accounts (db s') = accounts (db s) /\
      users (db s') = users (db s) /\
      timers s' = timers s /\
      (account_status (order_account_id o) s = Some pending ->
       (forall r, In r (pending_orders_of (order_account_id o) s) -> order_id r = id) ->
       account_status (order_account_id o) s' = Some pending /\
       account_status (order_account_id o)
                      (exec (release_reservation (order_account_id o)) s')
       = Some available)
  end.
Proof.
  unfold deleteOrder, find_order. run_m.
  destruct (filter (by_order_id id) (orders (db s))) as [|o l] eqn:E.
  - cbn [hd_error]. rewrite (filter_neg_all _ _ E).
    now rewrite with_orders_same, with_db_same.
  - cbn [hd_error fst snd db with_db orders with_orders accounts users timers].
    split; [reflexivity|]. split; [reflexivity|].
    split; [now rewrite (filter_filter_neg (by_order_id id) (by_order_id id))|].
    split; [reflexivity|]. split; [reflexivity|]. split; [reflexivity|].
    intros Hst Honly.
    set (s' := with_db (with_orders (filter (fun r => negb (by_order_id id r))
                                            (orders (db s))) (db s)) s).
    assert (Hst' : account_status (order_account_id o) s' = Some pending)
      by exact Hst.
    split; [exact Hst'|].
    rewrite release_reservation_run.
    unfold account_status in Hst'.
    destruct (find_account (order_account_id o) s') as [a0|]; [|discriminate].
    injection Hst' as Hst'. rewrite Hst'. cbn [status_eqb].
    assert (Hnone : pending_orders_of (order_account_id o) s' = []).
    { unfold pending_orders_of, s'. cbn [db with_db orders with_orders].
      apply filter_none. intros r Hr. apply filter_In in Hr as [Hr Hneg].
      destruct (of_account (order_account_id o) r && is_pending_order r) eqn:Hp;
        [|reflexivity].
      assert (Hin : In r (pending_orders_of (order_account_id o) s))
        by (apply filter_In; now split).
      apply Honly in Hin. unfold by_order_id in Hneg.
      rewrite Hin, N.eqb_refl in Hneg. discriminate. }
    rewrite Hnone. rewrite account_status_released.
    change (account_status (order_account_id o) s')
      with (account_status (order_account_id o) s). now rewrite Hst.
Qed.

Lemma deleteOrder_keeps_status_witness :
  account_status 3%N (snd (deleteOrder 4%N pending_order_state)) = Some pending /\
  account_status 3%N (exec (release_reservation 3%N)
                           (snd (deleteOrder 4%N pending_order_state)))
  = Some available.
Proof.
  apply (deleteOrder_keeps_status 4%N pending_order_state).
  - reflexivity.
  - intros r [<-|[]]. reflexivity.
Defined.

(** ** Round trips of a reservation *)

Lemma update_rows_undo {R} (p : R -> bool) (f g : R -> R) (l : list R) :
  (forall r, p (g r) = p r) ->
  (forall r, In r l -> p r = true -> f (g r) = r) ->
  update_rows p f (update_rows p g l) = l.
Proof.
  intros Hp Hfg. unfold update_rows. rewrite map_map.
  rewrite <- (map_id l) at 2. apply map_ext_in. intros r Hr.
  destruct (p r) eqn:E.
  - rewrite Hp, E. now apply Hfg.
  - now rewrite E.
Qed.

Lemma set_status_same a : set_status (status a) a = a.
Proof. now destruct a. Qed.

Lemma release_undoes_reserve id s a0 :
  consistent (db s) -> find_account id s = Some a0 -> status a0 = available ->
  update_rows (by_account_id id) (set_status available)
              (update_rows (by_account_id id) (set_status pending) (accounts (db s)))
  = accounts (db s).
Proof.
  intros Hc Ha Hav. apply update_rows_undo; [reflexivity|].
  intros r Hr Hp.
  pose proof (find_account_unique id s a0 Hc Ha) as Hu.
  assert (Hin : In r (filter (by_account_id id) (accounts (db s))))
    by (apply filter_In; now split).
  rewrite Hu in Hin. destruct Hin as [<-|[]].
  rewrite <- Hav at 1. now destruct a0.
Qed.

Lemma remove_nth_last {A} (l : list A) (x : A) :
  remove_nth (List.length l) (l ++ [x]) = l.
Proof.
  induction l as [|y l IH]; [reflexivity|]. simpl. now rewrite IH.
Qed.

(** X9.  A reservation that is not paid for expires without a trace.  For
    an 'available' account without pending orders, in a state reached by
    requests and timers: the timer of the reservation does nothing while
    fewer than ten minutes have passed, and the account is 'pending' all
    that time; fired after ten minutes, it leaves the server exactly as
    it would be had the reservation never been made. *)
Theorem reservation_round_trip (s : Server) (id buyer : Id) (a0 : Account) (dt : N)
  (Hs : reachable s)
  (Ha : find_account id s = Some a0) (Hav : status a0 = available)
  (Hno : pending_orders_of id s = []) :
  let s1 := snd (reserve id (Some buyer) s) in
  let i := List.length (timers s) in
  ((dt < reservation_timeout)%N ->
   fire i (advance dt s1) = advance dt s1 /\
   account_status id (advance dt s1) = Some pending) /\
  ((reservation_timeout <= dt)%N -> fire i (advance dt s1) = advance dt s).
Proof.
  intros s1 i. pose proof (reachable_consistent s Hs) as Hc.
  assert (Hs1 : s1 = reserved id s)
    by (unfold s1; now rewrite (reserve_granted id buyer s a0 Ha Hav)).
  assert (Hnth : nth_error (timers s1) i
                 = Some (mkTimer (clock s + reservation_timeout)%N
                                 (ReleaseReservation id))).
  { rewrite Hs1. unfold reserved. cbn [timers]. now apply nth_error_middle. }
  split.
  - intros Hdt. split.
    + apply (fire_early i (advance dt s1) _ Hnth).
      rewrite Hs1. cbn [advance clock due reserved]. lia.
    + rewrite Hs1.
      change (account_status id (advance dt (reserved id s)))
        with (account_status id (reserved id s)).
      now apply (account_status_reserved id s a0).
  - intros Hdt.
    rewrite (fire_due i (advance dt s1) _ Hnth)
      by (rewrite Hs1; cbn [advance clock due reserved]; lia).
    cbn [task run_task]. rewrite release_reservation_run.
    rewrite Hs1.
    change (find_account id (mkServer (db (advance dt (reserved id s)))
                                      (clock (advance dt (reserved id s)))
                                      (remove_nth i (timers (advance dt (reserved id s))))))
      with (find_account id (reserved id s)).
    rewrite (find_account_reserved id s a0 Ha). cbn [status set_status status_eqb].
    change (pending_orders_of id
              (mkServer (db (advance dt (reserved id s)))
                        (clock (advance dt (reserved id s)))
                        (remove_nth i (timers (advance dt (reserved id s))))))
      with (pending_orders_of id s).
    rewrite Hno. unfold released, advance, reserved, with_db.
    cbn [db clock timers accounts with_accounts].
    rewrite (release_undoes_reserve id s a0 Hc Ha Hav).
    unfold i. rewrite remove_nth_last. f_equal.
    destruct (db s). reflexivity.
Qed.

Lemma reservation_round_trip_witness :
  fire 0 (advance 600000 (snd (reserve 3%N (Some 2%N) fresh_listing)))
  = advance 600000 fresh_listing.
Proof.
  apply (reservation_round_trip fresh_listing 3%N 2%N
           (mkAccount 3%N 1%N "telegram_channel" "chan" 500 available 1000 None None 0%N)
           600000%N).
  - exists listing_trace. reflexivity.
  - reflexivity.
  - reflexivity.
  - reflexivity.
  - vm_compute. discriminate.
Defined.

Lemma filter_fresh_order (l : list Order) (n : Id) :
  (forall o, In o l -> (order_id o < n)%N) -> filter (by_order_id n) l = [].
Proof.
  intros H. apply filter_none. intros o Ho. apply N.eqb_neq.
  specialize (H o Ho). lia.
Qed.

(** X10.  Reserve, pay, cancel is a round trip.  For an 'available' account,
    a buyer on record and an amount that is a value of the 32-bit
    [integer] column, in a state reached by requests and timers: after
    the reservation, the order and its cancellation, the accounts,
    orders, users and withdrawals are what they were before the
    reservation, and so is every page of the marketplace. *)
Theorem cancel_round_trip (s : Server) (id buyer : Id) (a0 : Account) (amt : Z)
  (receipt : option string)
  (Hs : reachable s)
  (Ha : find_account id s = Some a0) (Hav : status a0 = available)
  (Hb : find_user buyer s <> None)
  (Hamt : int4 amt = true) :
  let s1 := snd (reserve id (Some buyer) s) in
  let o := mkOrder (next_id (db s)) buyer id amt "pending" receipt in
  let s2 := snd (createOrder buyer id amt receipt s1) in
  let s3 := snd (cancelOrder (order_id o) s2) in
  fst (createOrder buyer id amt receipt s1) = Ok 201 o /\
  account_status id s2 = Some pending /\
  fst (cancelOrder (order_id o) s2) = Ok 200 (Some o) /\
  accounts (db s3) = accounts (db s) /\
  orders (db s3) = orders (db s) /\
  users (db s3) = users (db s) /\
  withdrawals (db s3) = withdrawals (db s) /\
  (forall q_page q_limit, listAccounts q_page q_limit s3 = listAccounts q_page q_limit s).
Proof.
  intros s1 o s2 s3. pose proof (reachable_consistent s Hs) as Hc.
  assert (Hs1 : s1 = reserved id s)
    by (unfold s1; now rewrite (reserve_granted id buyer s a0 Ha Hav)).
  assert (Hbuyer : existsb (by_user_id buyer) (users (db s1)) = true).
  { rewrite Hs1. cbn [reserved db users with_accounts].
    destruct (find_user buyer s) as [u|] eqn:Hu; [|now destruct Hb].
    now apply (existsb_found _ _ u). }
  assert (Hacc : existsb (by_account_id id) (accounts (db s1)) = true).
  { rewrite Hs1. cbn [reserved db accounts with_accounts].
    rewrite existsb_update_rows by reflexivity.
    now apply (existsb_found _ _ a0). }
  assert (Hcreate : createOrder buyer id amt receipt s1
                    = (Ok 201 o,
                       with_db (bump_id (with_orders (orders (db s1) ++ [o]) (db s1))) s1)).
  { rewrite createOrder_run, Hamt, Hbuyer, Hacc. cbn [andb negb]. cbv zeta.
    rewrite Hs1. reflexivity. }
  assert (Hs2 : s2 = with_db (bump_id (with_orders (orders (db s) ++ [o])
                                                   (db (reserved id s))))
                             (reserved id s)).
  { unfold s2. rewrite Hcreate, Hs1. reflexivity. }
  assert (Hold : filter (by_order_id (next_id (db s))) (orders (db s)) = []).
  { apply filter_fresh_order. exact (orders_fresh _ Hc). }
  assert (Hfind : find_order (order_id o) s2 = Some o).
  { rewrite Hs2. unfold find_order, o. cbn [db with_db orders bump_id with_orders order_id].
    rewrite filter_app, Hold. cbn [filter app]. unfold by_order_id at 1.
    cbn [order_id]. now rewrite N.eqb_refl. }
  split; [now rewrite Hcreate|]. split.
  { rewrite Hs2.
    change (account_status id (reserved id s) = Some pending).
    now apply (account_status_reserved id s a0). }
  unfold s3. rewrite (cancelOrder_found _ _ _ Hfind). cbn [fst snd].
  split; [reflexivity|].
  assert (Haccs : accounts (db (cancelled o s2)) = accounts (db s)).
  { rewrite Hs2. unfold cancelled, o.
    cbn [db with_db accounts with_accounts with_orders bump_id reserved
         order_account_id].
    now apply (release_undoes_reserve id s a0). }
  split; [exact Haccs|]. split; [|split; [|split]].
  - rewrite Hs2. unfold cancelled, o.
    cbn [db with_db orders with_accounts with_orders bump_id reserved order_id].
    rewrite filter_app. cbn [filter app]. unfold by_order_id at 2.
    cbn [order_id]. rewrite N.eqb_refl. cbn [negb]. rewrite app_nil_r.
    now apply filter_neg_all.
  - rewrite Hs2. reflexivity.
  - rewrite Hs2. reflexivity.
  - intros q_page q_limit. unfold listAccounts. now rewrite Haccs.
Qed.

Lemma cancel_round_trip_witness :
  accounts (db (snd (cancelOrder 4%N
                       (snd (createOrder 2%N 3%N 500 (Some "R1")
                               (snd (reserve 3%N (Some 2%N) fresh_listing)))))))
  = accounts (db fresh_listing).
Proof.
  apply (cancel_round_trip fresh_listing 3%N 2%N
           (mkAccount 3%N 1%N "telegram_channel" "chan" 500 available 1000 None None 0%N)
           500 (Some "R1")).
  - exists listing_trace. reflexivity.
  - reflexivity.
  - reflexivity.
  - vm_compute. discriminate.
  - reflexivity.
Defined.

(** ** Registration: [POST /users] and [/start] *)

Lemma NoDup_snoc {A} (l : list A) (x : A) :
  ~ In x l -> NoDup l -> NoDup (l ++ [x]).
Proof.
  intros Hx Hl. apply NoDup_rev in Hl. rewrite <- (rev_involutive (l ++ [x])).
  apply NoDup_rev. rewrite rev_app_distr. simpl.
  constructor; [now rewrite <- in_rev|exact Hl].
Qed.

Lemma getUserByTelegram_run tg s :
  getUserByTelegram tg s =
  match hd_error (filter (by_telegram tg) (users (db s))) with
  | Some u => Ok 200 u
  | None => Fail 404 "User not found"
  end.
Proof.
  unfold getUserByTelegram, by_telegram.
  now destruct (filter (fun u => String.eqb (telegram_user_id u) tg) (users (db s))).
Qed.

Lemma createUser_existing tg uname s c u :
  getUserByTelegram tg s = Ok c u -> createUser tg uname s = (Ok 200 u, s).
Proof.
  unfold getUserByTelegram, createUser.
  destruct (filter (fun u => String.eqb (telegram_user_id u) tg) (users (db s)));
    [discriminate|].
  now intros [= _ ->].
Qed.

Lemma createUser_new tg uname s :
  filter (by_telegram tg) (users (db s)) = [] -> uname <> EmptyString ->
  createUser tg uname s
  = (Ok 200 (mkUser (next_id (db s)) tg uname 0),
     with_db (bump_id (with_users (users (db s)
                                     ++ [mkUser (next_id (db s)) tg uname 0])
                                  (db s))) s).
Proof.
  intros Hf Hu. unfold createUser. unfold by_telegram in Hf. rewrite Hf.
  apply String.eqb_neq in Hu. rewrite Hu. reflexivity.
Qed.

Lemma createUser_nameless tg s :
  filter (by_telegram tg) (users (db s)) = [] ->
  createUser tg EmptyString s
  = (Fail 400 "Username is required to create an account.", s).
Proof.
  intros Hf. unfold createUser. unfold by_telegram in Hf. now rewrite Hf.
Qed.

Lemma filter_snoc_other {R} (p : R -> bool) (l : list R) (x : R) :
  p x = false -> filter p (l ++ [x]) = filter p l.
Proof.
  intros H. rewrite filter_app. simpl. rewrite H. apply app_nil_r.
Qed.

(** X11.  [POST /users] is a get-or-create by Telegram id.  When it answers
    with a user, that user carries the Telegram id of the request, is
    the one a lookup by that id finds afterwards, and a second request
    for the same id, whatever its username, returns the same user and
    changes nothing.  Lookups by other Telegram ids are not affected, the
    users already on record are untouched, and no two users ever get the
    same Telegram id.  Without a username, nobody is created. *)
Theorem createUser_get_or_create (tg uname : string) (s : Server) :
  let out := createUser tg uname s in
  (forall c u, fst out = Ok c u ->
     telegram_user_id u = tg /\
     getUserByTelegram tg (snd out) = Ok 200 u /\
     (forall uname', createUser tg uname' (snd out) = (Ok 200 u, snd out)) /\
     (users (db (snd out)) = users (db s) \/
      (getUserByTelegram tg s = Fail 404 "User not found" /\
       users (db (snd out)) = users (db s) ++ [u] /\
       username u = uname /\ uname <> EmptyString /\ balance u = 0))) /\
  (forall tg', tg' <> tg ->
     getUserByTelegram tg' (snd out) = getUserByTelegram tg' s) /\
  (NoDup (map telegram_user_id (users (db s))) ->
   NoDup (map telegram_user_id (users (db (snd out))))) /\
  (forall c e, fst out = Fail c e ->
     snd out = s /\ uname = EmptyString /\
     getUserByTelegram tg s = Fail 404 "User not found").
Proof.
  cbv zeta.
  destruct (filter (by_telegram tg) (users (db s))) as [|u0 l] eqn:Hf.
  - assert (H404 : getUserByTelegram tg s = Fail 404 "User not found")
      by (rewrite getUserByTelegram_run; now rewrite Hf).
    destruct (String.eqb_spec uname EmptyString) as [->|Hne].
    + rewrite (createUser_nameless tg s Hf). cbn [fst snd].
      split; [intros c u [=]|]. split; [reflexivity|]. split; [auto|].
      now intros c e _.
    + rewrite (createUser_new tg uname s Hf Hne). cbn [fst snd].
      set (u := mkUser (next_id (db s)) tg uname 0).
      assert (Hfound : filter (by_telegram tg)
                         (users (db s) ++ [u]) = [u]).
      { rewrite filter_app, Hf. cbn [filter app by_telegram telegram_user_id u].
        unfold by_telegram. cbn [telegram_user_id]. now rewrite String.eqb_refl. }
      split; [|split; [|split]].
      * intros c u' [= _ <-]. split; [reflexivity|].
        assert (Hget : getUserByTelegram tg
                  (with_db (bump_id (with_users (users (db s) ++ [u]) (db s))) s)
                = Ok 200 u).
        { rewrite getUserByTelegram_run.
          cbn [db with_db users bump_id with_users]. now rewrite Hfound. }
        split; [exact Hget|]. split.
        -- intros uname'. now apply (createUser_existing _ _ _ 200).
        -- right. repeat split; assumption.
      * intros tg' Hne'. rewrite !getUserByTelegram_run.
        cbn [db with_db users bump_id with_users].
        rewrite filter_snoc_other; [reflexivity|].
        unfold by_telegram, u. cbn [telegram_user_id]. apply String.eqb_neq.
        congruence.
      * intros Hnd. cbn [db with_db users bump_id with_users].
        rewrite map_app. cbn [map telegram_user_id u].
        apply NoDup_snoc; [|exact Hnd]. now apply not_in_telegram.
      * intros c e [=].
  - assert (Hget : getUserByTelegram tg s = Ok 200 u0)
      by (rewrite getUserByTelegram_run; now rewrite Hf).
    rewrite (createUser_existing tg uname s 200 u0 Hget). cbn [fst snd].
    split; [|split; [reflexivity|split; [auto|intros c e [=]]]].
    intros c u [= _ <-].
    assert (Hin : In u0 (filter (by_telegram tg) (users (db s))))
      by (rewrite Hf; now left).
    apply filter_In in Hin as [_ Htg]. apply String.eqb_eq in Htg.
    split; [exact Htg|]. split; [exact Hget|]. split.
    + intros uname'. now apply (createUser_existing _ _ _ 200).
    + now left.
Qed.

Lemma updateUserVisit_nothing id s : updateUserVisit id s = s.
Proof. reflexivity. Qed.

(** X12.  [/start] registers a user once.  With a username, the handler ends
    with the user's id in the session, the user on record under the
    Telegram id, and every balance as it was; sending [/start] again
    changes neither the store nor the session.  Without a username, an
    unregistered user is told to set one and nothing is stored. *)
Theorem on_start_registers (from_tg uname : string) (session_user : option Id)
  (s : Server) :
  (uname <> EmptyString ->
   exists u,
     let s' := snd (on_start from_tg uname session_user s) in
     on_start from_tg uname session_user s = (Welcome, Some (user_id u), s') /\
     getUserByTelegram from_tg s' = Ok 200 u /\
     (forall uname' su, on_start from_tg uname' su s' = (Welcome, Some (user_id u), s')) /\
     (forall u0, In u0 (users (db s)) -> In u0 (users (db s'))) /\
     (forall u1, In u1 (users (db s')) -> In u1 (users (db s)) \/ (u1 = u /\ balance u = 0)) /\
     accounts (db s') = accounts (db s) /\ orders (db s') = orders (db s)) /\
  (getUserByTelegram from_tg s = Fail 404 "User not found" ->
   on_start from_tg EmptyString session_user s = (UsernameNeeded, session_user, s)).
Proof.
  split.
  - intros Hne. unfold on_start.
    destruct (filter (by_telegram from_tg) (users (db s))) as [|u l] eqn:Hf.
    2:{ assert (Hget : getUserByTelegram from_tg s = Ok 200 u)
          by (rewrite getUserByTelegram_run; now rewrite Hf).
        rewrite Hget.
        exists u. rewrite updateUserVisit_nothing. cbn [snd].
        split; [reflexivity|]. split; [exact Hget|]. split.
        * intros uname' su. now rewrite Hget.
        * repeat split; auto. }
    assert (Hget : getUserByTelegram from_tg s = Fail 404 "User not found")
      by (rewrite getUserByTelegram_run; now rewrite Hf).
    rewrite Hget. cbn [N.eqb Pos.eqb].
    idtac.
    rewrite (createUser_new from_tg uname s Hf Hne).
    set (u := mkUser (next_id (db s)) from_tg uname 0).
    exists u. rewrite updateUserVisit_nothing. cbn [snd].
    set (s' := with_db (bump_id (with_users (users (db s) ++ [u]) (db s))) s).
    assert (Hget' : getUserByTelegram from_tg s' = Ok 200 u).
    { rewrite getUserByTelegram_run. unfold s'.
      cbn [db with_db users bump_id with_users].
      rewrite filter_app, Hf. cbn [filter app]. unfold by_telegram at 1, u.
      cbn [telegram_user_id]. now rewrite String.eqb_refl. }
    split; [reflexivity|]. split; [exact Hget'|]. split.
    + intros uname' su. now rewrite Hget'.
    + unfold s'. cbn [db with_db users accounts orders bump_id with_users].
      repeat split.
      * intros u0 Hu0. apply in_app_iff. now left.
      * intros u1 Hu1. apply in_app_iff in Hu1 as [Hu1|[<-|[]]]; [now left|].
        right. now split.
  - intros Hget. unfold on_start. rewrite Hget. cbn [N.eqb Pos.eqb].
    assert (Hf : filter (by_telegram from_tg) (users (db s)) = []).
    { rewrite getUserByTelegram_run in Hget.
      now destruct (filter (by_telegram from_tg) (users (db s))). }
    now rewrite (createUser_nameless from_tg s Hf).
Qed.

Lemma on_start_registers_witness :
  on_start "300" EmptyString None fresh_listing = (UsernameNeeded, None, fresh_listing) /\
  exists u,
    on_start "300" "carol" None fresh_listing
    = (Welcome, Some (user_id u), snd (on_start "300" "carol" None fresh_listing)).
Proof.
  split.
  - apply (on_start_registers "300" EmptyString None fresh_listing). reflexivity.
  - destruct (on_start_registers "300" "carol" None fresh_listing) as [H _].
    destruct (H ltac:(discriminate)) as [u [Hu _]].
    exists u. exact Hu.
Defined.

(** ** Withdrawals: the ledger and the bot's payout *)

Lemma withdrawn_snoc uid s s' w :
  withdrawals (db s') = withdrawals (db s) ++ [w] ->
  withdrawn uid s'
  = withdrawn uid s + (if (withdrawal_user_id w =? uid)%N then withdrawal_amount w else 0).
Proof.
  intros H. unfold withdrawn. rewrite H, filter_app, map_app.
  unfold sum. rewrite fold_right_app. cbn [filter].
  destruct (withdrawal_user_id w =? uid)%N; cbn [map fold_right].
  - generalize (map withdrawal_amount
                  (filter (fun w0 => (withdrawal_user_id w0 =? uid)%N)
                          (withdrawals (db s)))).
    intros l. induction l as [|x l IH]; simpl; lia.
  - lia.
Qed.

(** X13.  [POST /withdrawals] moves money from the balance to the
    withdrawals and nowhere else.  Whatever the request, and whether it
    succeeds or not, for every user on record the balance plus the sum of
    the amounts of the user's withdrawals is the same before and after;
    no user and no withdrawal on record disappears. *)
Theorem withdraw_ledger (req_user : option Id) (req_amount : option Z)
  (uid : Id) (u : User) (s : Server)
  (Hu : find_user uid s = Some u) :
  let s' := snd (withdraw req_user req_amount s) in
  exists u',
    find_user uid s' = Some u' /\
    balance u' + withdrawn uid s' = balance u + withdrawn uid s /\
    (forall w, In w (withdrawals (db s)) -> In w (withdrawals (db s'))) /\
    accounts (db s') = accounts (db s) /\ orders (db s') = orders (db s).
Proof.
  cbv zeta.
  destruct req_user as [ru|], req_amount as [a|];
    try (exists u; now repeat split).
  rewrite withdraw_run.
  destruct (find_user ru s) as [u0|] eqn:Hru; [|exists u; now repeat split].
  destruct (balance u0 <? a); [exists u; now repeat split|].
  destruct (int4 (balance u0 - a) && int4 a); [|exists u; now repeat split].
  cbv zeta. cbn [snd].
  set (w := mkWithdrawal (next_id (db s)) ru a "pending" "order_refund").
  set (s' := with_db _ s).
  assert (Hfind : find_user uid s'
                  = option_map (fun r => if by_user_id ru r
                                         then set_balance (balance u0 - a) r else r)
                               (find_user uid s)).
  { apply (find_user_updated ru uid (balance u0 - a) s s'). reflexivity. }
  rewrite Hu in Hfind. cbn [option_map] in Hfind.
  eexists. split; [exact Hfind|].
  rewrite (withdrawn_snoc uid s s' w eq_refl). cbn [withdrawal_user_id withdrawal_amount w].
  pose proof (find_user_id _ _ _ Hu) as Hid. unfold by_user_id. rewrite Hid.
  rewrite (N.eqb_sym ru uid).
  split; [|split; [|split; reflexivity]].
  - destruct (N.eqb_spec uid ru) as [E|E].
    + subst ru. rewrite Hu in Hru. injection Hru as <-. cbn [set_balance balance]. lia.
    + lia.
  - intros w0 Hw0. unfold s'. cbn [db with_db withdrawals bump_id with_withdrawals].
    apply in_app_iff. now left.
Qed.

Lemma withdraw_ledger_witness :
  exists u',
    find_user 1%N (snd (withdraw (Some 1%N) (Some 120) (seller_with_balance 500)))
    = Some u' /\
    balance u' + withdrawn 1%N (snd (withdraw (Some 1%N) (Some 120) (seller_with_balance 500)))
    = 500 + 0.
Proof.
  destruct (withdraw_ledger (Some 1%N) (Some 120) 1%N (mkUser 1%N "100" "seller" 500)
              (seller_with_balance 500) eq_refl) as [u' [H1 [H2 _]]].
  exists u'. split; [exact H1|exact H2].
Defined.

(** X14.  The bot's payout, for a user on record.  Below 100 the handler
    refuses and the server is not asked.  From 100 on it withdraws the
    whole balance: the request cannot fail for lack of funds, the balance
    becomes 0, and one withdrawal of the former balance is recorded with
    status 'pending'.  The server ignores the 'seller_payout' reason of
    the request: the row carries the column default 'order_refund', and
    the message shown is the one for refunds.  (This is for a balance
    that is a 32-bit number, as every value of the column is; were it
    not, the store would refuse the withdrawal record.) *)
Theorem withdraw_balance_pays_out (uid : Id) (u : User) (s : Server)
  (Hu : find_user uid s = Some u) :
  let out := withdraw_balance (Some uid) s in
  if balance u <? 100 then out = (BelowThreshold (balance u), s)
  else if int4 (balance u) then
    let w := mkWithdrawal (next_id (db s)) uid (balance u) "pending" "order_refund" in
    fst out = WithdrawalMessage "Refund processed due to order cancellation" /\
    balance_of uid (snd out) = Some 0 /\
    withdrawals (db (snd out)) = withdrawals (db s) ++ [w] /\
    withdrawn uid (snd out) = withdrawn uid s + balance u /\
    (forall id', id' <> uid -> find_user id' (snd out) = find_user id' s)
  else out = (WithdrawalFailed out_of_range, s).
Proof.
  cbv zeta. unfold withdraw_balance, getUser.
  fold (find_user uid s). rewrite Hu.
  destruct (balance u <? 100) eqn:Hlow; [reflexivity|].
  rewrite withdraw_run, Hu, Z.ltb_irrefl, Z.sub_diag.
  destruct (int4 (balance u)) eqn:Hrange;
    [|cbn [int4 Z.leb Z.compare andb]; rewrite ?andb_false_r; reflexivity].
  cbn [int4 Z.leb Z.compare andb]. cbv zeta. cbn [fst snd reason].
  set (w := mkWithdrawal (next_id (db s)) uid (balance u) "pending" "order_refund").
  set (s' := with_db _ s).
  assert (Hfind : forall id', find_user id' s'
                  = option_map (fun r => if by_user_id uid r
                                         then set_balance 0 r else r)
                               (find_user id' s)).
  { intros id'. apply (find_user_updated uid id' _ s s'). reflexivity. }
  split; [reflexivity|]. split; [|split; [reflexivity|split]].
  - unfold balance_of. rewrite Hfind, Hu. cbn [option_map].
    pose proof (find_user_id _ _ _ Hu) as Hid. unfold by_user_id.
    rewrite Hid, N.eqb_refl. reflexivity.
  - rewrite (withdrawn_snoc uid s s' w eq_refl).
    cbn [withdrawal_user_id withdrawal_amount w]. now rewrite N.eqb_refl.
  - intros id' Hne. rewrite Hfind.
    destruct (find_user id' s) as [r|] eqn:Hr; [|reflexivity].
    cbn [option_map]. pose proof (find_user_id _ _ _ Hr) as Hid.
    unfold by_user_id. rewrite Hid.
    destruct (N.eqb_spec id' uid); [contradiction|reflexivity].
Qed.

Lemma withdraw_balance_pays_out_witness :
  withdraw_balance (Some 1%N) (seller_with_balance 50)
  = (BelowThreshold 50, seller_with_balance 50) /\
  balance_of 1%N (snd (withdraw_balance (Some 1%N) (seller_with_balance 500))) = Some 0.
Proof.
  split.
  - apply (withdraw_balance_pays_out 1%N (mkUser 1%N "100" "seller" 50)
             (seller_with_balance 50) eq_refl).
  - apply (withdraw_balance_pays_out 1%N (mkUser 1%N "100" "seller" 500)
             (seller_with_balance 500) eq_refl).
Defined.

(** ** The order button and the purchase *)

Lemma getUserByTelegram_In tg s c u :
  getUserByTelegram tg s = Ok c u ->
  In u (users (db s)) /\ telegram_user_id u = tg /\ c = 200%N.
Proof.
  unfold getUserByTelegram.
  destruct (filter (fun u => String.eqb (telegram_user_id u) tg) (users (db s)))
    as [|u0 l] eqn:E; [discriminate|].
  intros [= <- <-].
  assert (Hin : In u0 (filter (fun u => String.eqb (telegram_user_id u) tg)
                              (users (db s)))) by (rewrite E; now left).
  apply filter_In in Hin as [Hin Htg]. apply String.eqb_eq in Htg. now repeat split.
Qed.

Lemma existsb_In_user u l : In u l -> existsb (by_user_id (user_id u)) l = true.
Proof.
  intros H. apply existsb_exists. exists u. split; [exact H|].
  apply N.eqb_refl.
Qed.

Lemma ordersCheck_run buyer acc s :
  ordersCheck (Some buyer) (Some acc) s =
  if existsb (own_active_order buyer acc) (orders (db s))
  then Fail 400 duplicate_active_order_msg else Ok 200 false.
Proof.
  unfold ordersCheck.
  induction (orders (db s)) as [|o l IH]; [reflexivity|].
  simpl. destruct (own_active_order buyer acc o); [reflexivity|exact IH].
Qed.

(** X15.  The order button reserves first and asks afterwards.  For a
    registered user and an account on record: an account that is not
    'available' is refused and nothing changes; an 'available' account
    is reserved in every other case, so also when the user turns out to
    be its owner or to have an active order on it already, and the
    handler then stops with the account left 'pending'.  Only otherwise
    does the session get the account and its price, and the user the
    payment instructions. *)
Theorem on_order_button_reserves (accountId : Id) (from_tg : string)
  (sess : Session) (s : Server) (u : User) (a0 : Account)
  (Huser : getUserByTelegram from_tg s = Ok 200 u)
  (Haccount : find_account accountId s = Some a0) :
  let out := on_order_button accountId from_tg sess s in
  (status a0 <> available -> out = (NoLongerAvailable not_available_msg, sess, s)) /\
  (status a0 = available ->
   snd out = reserved accountId s /\
   account_status accountId (snd out) = Some pending /\
   (user_id u = owner_id a0 -> fst out = (OwnAccount, sess)) /\
   (user_id u <> owner_id a0 ->
    existsb (own_active_order (user_id u) accountId) (orders (db s)) = true ->
    fst out = (OrderExists duplicate_active_order_msg, sess)) /\
   (user_id u <> owner_id a0 ->
    existsb (own_active_order (user_id u) accountId) (orders (db s)) = false ->
    fst out = (AskPayment (price a0),
               mkSession (Some accountId) (pendingPaymentMethod sess)
                         (Some (price a0))))).
Proof.
  cbv zeta. unfold on_order_button. rewrite Huser. split.
  - intros Hst. rewrite reserve_refused; [reflexivity|].
    unfold account_status. rewrite Haccount. cbn [option_map]. congruence.
  - intros Hst. rewrite (reserve_granted accountId _ s a0 Haccount Hst).
    cbn [owner_id set_status price].
    rewrite ordersCheck_run.
    change (orders (db (reserved accountId s))) with (orders (db s)).
    destruct (N.eqb_spec (user_id u) (owner_id a0)) as [E|E].
    + repeat split; try (intros; contradiction).
      now apply (account_status_reserved accountId s a0).
    + destruct (existsb (own_active_order (user_id u) accountId) (orders (db s)));
        cbn [N.eqb Pos.eqb fst snd];
        (split; [reflexivity|]);
        (split; [now apply (account_status_reserved accountId s a0)|]);
        repeat split; try (intros; congruence).
Qed.

Lemma on_order_button_reserves_witness :
  on_order_button 3%N "100" (mkSession None EmptyString None) fresh_listing
  = (OwnAccount, mkSession None EmptyString None, reserved 3%N fresh_listing) /\
  fst (on_order_button 3%N "200" (mkSession None EmptyString None) fresh_listing)
  = (AskPayment 500, mkSession (Some 3%N) EmptyString (Some 500)).
Proof.
  pose proof (on_order_button_reserves 3%N "100" (mkSession None EmptyString None)
                fresh_listing (mkUser 1%N "100" "seller" 0)
                (mkAccount 3%N 1%N "telegram_channel" "chan" 500 available 1000
                           None None 0%N) eq_refl eq_refl) as [_ H1].
  pose proof (on_order_button_reserves 3%N "200" (mkSession None EmptyString None)
                fresh_listing (mkUser 2%N "200" "buyer" 0)
                (mkAccount 3%N 1%N "telegram_channel" "chan" 500 available 1000
                           None None 0%N) eq_refl eq_refl) as [_ H2].
  destruct (H1 eq_refl) as [Hs [_ [Hown _]]].
  destruct (H2 eq_refl) as [_ [_ [_ [_ Hask]]]].
  split.
  - rewrite (surjective_pairing (on_order_button _ _ _ _)), Hs, (Hown eq_refl).
    reflexivity.
  - apply Hask; [discriminate|reflexivity].
Defined.

Lemma getAccount_consistent id s a0 :
  consistent (db s) -> find_account id s = Some a0 ->
  exists owner,
    find_user (owner_id a0) s = Some owner /\ getAccount id s = [(a0, owner)].
Proof.
  intros Hc Hf.
  pose proof (find_account_unique id s a0 Hc Hf) as Hu.
  destruct (consistent_owner_of_account s a0 Hc (find_account_In id s a0 Hf))
    as [owner [Hin Hfo]].
  exists owner. unfold find_user, getAccount. rewrite Hu. cbn [flat_map].
  rewrite Hfo. now repeat split.
Qed.

Lemma reserved_consistent id s : consistent (db s) -> consistent (db (reserved id s)).
Proof. intros Hc. unfold reserved. cbn [db]. now apply consistent_update_accounts. Qed.

(** X16.  A purchase from the button to the order.  In a state reached by
    requests and timers, for a registered buyer, an 'available' account
    of somebody else on which the buyer has no active order, and a
    receipt the verification accepts for the account's price: the button
    asks for payment, the choice of Telebirr keeps the account and its
    price in the session, and the receipt message creates one order, of
    the buyer, on the account, for the price, with status 'pending' and
    the trimmed receipt number.  The account is then 'pending' and stays
    so when the release timer of the reservation fires; the session has
    forgotten the account, so that a further message creates nothing. *)
Theorem purchase_flow (key : string) (verifier : string -> option TelebirrReply)
  (accountId : Id) (from_tg text : string) (sess : Session) (s : Server)
  (u : User) (a0 : Account) (data : TelebirrReply) (dt : N)
  (Hs : reachable s)
  (Huser : getUserByTelegram from_tg s = Ok 200 u)
  (Haccount : find_account accountId s = Some a0)
  (Havailable : status a0 = available)
  (Hother : user_id u <> owner_id a0)
  (Hnone : existsb (own_active_order (user_id u) accountId) (orders (db s)) = false)
  (Htext : text <> EmptyString)
  (Hpaid : verifyPayment (Some key) verifier (trim text) (Some (price a0)) = Ok 200 data) :
  let b := on_order_button accountId from_tg sess s in
  let s1 := snd b in
  let sess1 := snd (fst b) in
  let sess2 := on_pay_method "telebirr" accountId sess1 s1 in
  let t := on_text (Some key) verifier sess2 from_tg text s1 in
  let s2 := snd t in
  let o := mkOrder (next_id (db s)) (user_id u) accountId (price a0) "pending"
                   (Some (trim text)) in
  fst (fst b) = AskPayment (price a0) /\
  sess2 = mkSession (Some accountId) "telebirr" (Some (price a0)) /\
  fst t = Some (Done o) /\
  orders (db s2) = orders (db s) ++ [o] /\
  account_status accountId s2 = Some pending /\
  account_status accountId (fire (List.length (timers s)) (advance dt s2))
  = Some pending /\
  session_after_text sess2 (fst t) = mkSession None "telebirr" None /\
  (forall text', on_text (Some key) verifier (session_after_text sess2 (fst t))
                         from_tg text' s2 = (None, s2)).
Proof.
  intros b s1 sess1 sess2 t s2 o.
  pose proof (reachable_consistent s Hs) as Hc.
  assert (Hb : b = (AskPayment (price a0),
                    mkSession (Some accountId) (pendingPaymentMethod sess)
                              (Some (price a0)),
                    reserved accountId s)).
  { unfold b, on_order_button. rewrite Huser.
    rewrite (reserve_granted accountId _ s a0 Haccount Havailable).
    cbn [owner_id set_status price].
    apply N.eqb_neq in Hother. rewrite Hother.
    rewrite ordersCheck_run.
    change (orders (db (reserved accountId s))) with (orders (db s)).
    now rewrite Hnone. }
  assert (Hs1 : s1 = reserved accountId s) by (unfold s1; now rewrite Hb).
  assert (Hsess2 : sess2 = mkSession (Some accountId) "telebirr" (Some (price a0))).
  { unfold sess2, on_pay_method. rewrite Hs1.
    destruct (getAccount_consistent accountId (reserved accountId s)
                (set_status pending a0) (reserved_consistent _ _ Hc)
                (find_account_reserved accountId s a0 Haccount))
      as [owner [_ Hget]].
    now rewrite Hget. }
  destruct (getUserByTelegram_In from_tg s 200 u Huser) as [Hin [Htg _]].
  assert (Ht : t = (Some (Done o),
                    with_db (bump_id (with_orders (orders (db s) ++ [o])
                                                  (db (reserved accountId s))))
                            (reserved accountId s))).
  { unfold t, on_text. rewrite Hsess2, Hs1.
    cbn [pendingAccountId pendingPaymentMethod pendingAccountPrice].
    apply String.eqb_neq in Htext. rewrite Htext.
    cbn [String.eqb Ascii.eqb Bool.eqb]. rewrite Hpaid.
    change (getUserByTelegram from_tg (reserved accountId s))
      with (getUserByTelegram from_tg s).
    rewrite Huser. rewrite createOrder_run.
    rewrite (int4_account s a0 (reachable_int4 s Hs)
               (find_account_In _ _ _ Haccount)). cbn [negb].
    change (users (db (reserved accountId s))) with (users (db s)).
    rewrite (existsb_In_user u _ Hin).
    assert (existsb (by_account_id accountId) (accounts (db (reserved accountId s)))
            = true) as ->.
    { cbn [reserved db accounts with_accounts].
      rewrite existsb_update_rows by reflexivity.
      now apply (existsb_found _ _ a0). }
    reflexivity. }
  assert (Hs2 : s2 = with_db (bump_id (with_orders (orders (db s) ++ [o])
                                                   (db (reserved accountId s))))
                             (reserved accountId s))
    by (unfold s2; now rewrite Ht).
  clearbody s2. subst s2. set (s2 := with_db _ (reserved accountId s)).
  assert (Hst2 : account_status accountId s2 = Some pending).
  { change (account_status accountId (reserved accountId s) = Some pending).
    now apply (account_status_reserved accountId s a0). }
  split; [now rewrite Hb|]. split; [exact Hsess2|]. split; [now rewrite Ht|].
  split; [reflexivity|]. split; [exact Hst2|].
  split; [|split].
  - assert (Hnth : nth_error (timers s2) (List.length (timers s))
                   = Some (mkTimer (clock s + reservation_timeout)%N
                                   (ReleaseReservation accountId))).
    { unfold s2. cbn [timers with_db reserved]. now apply nth_error_middle. }
    unfold fire. cbn [advance timers]. rewrite Hnth.
    destruct (due _ <=? clock _)%N; [|exact Hst2].
    cbn [task run_task]. rewrite release_reservation_run.
    set (s2' := mkServer _ _ _).
    change (find_account accountId s2') with (find_account accountId (reserved accountId s)).
    rewrite (find_account_reserved accountId s a0 Haccount).
    cbn [status set_status status_eqb].
    assert (Hpend : In o (pending_orders_of accountId s2')).
    { unfold pending_orders_of, s2', s2.
      cbn [db advance with_db orders bump_id with_orders].
      apply filter_In. split; [apply in_app_iff; right; now left|].
      unfold of_account, is_pending_order, o. cbn [order_account_id order_status].
      now rewrite N.eqb_refl. }
    destruct (pending_orders_of accountId s2') as [|o' os]; [destruct Hpend|].
    unfold s2'. exact Hst2.
  - rewrite Ht, Hsess2. reflexivity.
  - intros text'. rewrite Ht, Hsess2. reflexivity.
Qed.

Lemma purchase_flow_witness :
  fst (on_text (Some "key") paid_500
         (on_pay_method "telebirr" 3%N
            (snd (fst (on_order_button 3%N "200" (mkSession None EmptyString None)
                                       fresh_listing)))
            (snd (on_order_button 3%N "200" (mkSession None EmptyString None)
                                  fresh_listing)))
         "200" " R1 "
         (snd (on_order_button 3%N "200" (mkSession None EmptyString None)
                               fresh_listing)))
  = Some (Done (mkOrder 4%N 2%N 3%N 500 "pending" (Some "R1"))).
Proof.
  apply (purchase_flow "key" paid_500 3%N "200" " R1 "
           (mkSession None EmptyString None) fresh_listing
           (mkUser 2%N "200" "buyer" 0)
           (mkAccount 3%N 1%N "telegram_channel" "chan" 500 available 1000
                      None None 0%N)
           (mkTelebirrReply true "Kaleb Mate Megane" "500.00") 0%N).
  - exists listing_trace. reflexivity.
  - reflexivity.
  - reflexivity.
  - reflexivity.
  - discriminate.
  - reflexivity.
  - discriminate.
  - vm_compute. reflexivity.
Defined.

(** ** Browsing the orders *)

Lemma chunks_concat {A} (n m : nat) (l : list A) :
  List.concat (map (fun k => firstn n (skipn (k * n) l)) (seq 0 m))
  = firstn (m * n) l.
Proof.
  induction m as [|m IH]; [reflexivity|].
  rewrite seq_S, map_app, List.concat_app, IH. cbn [map List.concat plus].
  rewrite app_nil_r, firstn_skipn_step. f_equal. lia.
Qed.

Lemma totalPages_spec (orders : list Item) (p : nat) :
  (p < orders_totalPages orders)%nat
  <-> (p * ITEMS_PER_PAGE < List.length orders)%nat.
Proof.
  unfold orders_totalPages, ITEMS_PER_PAGE.
  pose proof (ceil_div_spec (Z.of_nat (List.length orders)) (Z.of_nat 5)
                            (Z.of_nat p) ltac:(lia)) as H.
  split; intros Hlt.
  - assert (Z.of_nat p < ceil_div (Z.of_nat (List.length orders)) (Z.of_nat 5)) by lia.
    apply H in H0. lia.
  - assert (Z.of_nat p * Z.of_nat 5 < Z.of_nat (List.length orders)) by lia.
    apply H in H0. lia.
Qed.

Lemma press_browsing items title b sess :
  browsing items title sess -> browsing items title (press b sess).
Proof.
  intros [Ho [Ht [p [Hp Hlt]]]]. destruct b; cbn [press].
  - unfold orders_page_next. rewrite Hp.
    destruct (p + 1 <? orders_totalPages (session_orders sess))%nat eqn:E.
    + apply Nat.ltb_lt, totalPages_spec in E. rewrite Ho in E.
      repeat split; try assumption. exists (p + 1)%nat. now split.
    + repeat split; try assumption. now exists p.
  - unfold orders_page_prev. rewrite Hp.
    destruct (0 <? p)%nat eqn:E.
    + repeat split; try assumption. exists (p - 1)%nat. split; [reflexivity|].
      unfold ITEMS_PER_PAGE in *. lia.
    + repeat split; try assumption. now exists p.
Qed.

Lemma browse_browsing items title presses : forall sess,
  browsing items title sess -> browsing items title (browse presses sess).
Proof.
  induction presses as [|b presses IH]; intros sess H; [exact H|].
  cbn [browse fold_left]. apply IH. now apply press_browsing.
Qed.

(** X17.  The orders browser never leaves the list.  After [fetchAndShow...]
    has stored a non-empty list with page 0, and whatever buttons are
    pressed then: the list and its title stay; the page shown is not
    empty, it is the slice of five orders the page index points at, and
    its number is at most the number of pages; the 'Next' button is
    offered exactly when pressing it moves to the next page, and
    'Previous' exactly when there is a page before.  The pages together
    are the whole list. *)
Theorem orders_browser (items : list Item) (title : string) (presses : list Press)
  (Hitems : items <> []) :
  let sess := browse presses (mkOrdersSession items (Some O) title) in
  session_orders sess = items /\ orders_title sess = title /\
  (exists p pg,
     orders_page sess = Some p /\
     sendOrdersPage sess = Some pg /\
     map fst (shown pg) = firstn ITEMS_PER_PAGE (skipn (p * ITEMS_PER_PAGE) items) /\
     shown pg <> [] /\
     page_no pg = (p + 1)%nat /\ (page_no pg <= page_count pg)%nat /\
     (In NextPage (navigation pg)
      <-> orders_page (orders_page_next sess) = Some (p + 1)%nat) /\
     (In PreviousPage (navigation pg)
      <-> p <> O /\ orders_page (orders_page_prev sess) = Some (p - 1)%nat)) /\
  List.concat (map (fun k => firstn ITEMS_PER_PAGE (skipn (k * ITEMS_PER_PAGE) items))
                   (seq 0 (orders_totalPages items))) = items.
Proof.
  intros sess.
  assert (Hb : browsing items title sess).
  { apply browse_browsing. repeat split. exists O. split; [reflexivity|].
    destruct items; [contradiction|]. simpl. lia. }
  destruct Hb as [Ho [Ht [p [Hp Hlt]]]].
  split; [exact Ho|]. split; [exact Ht|]. split.
  - unfold sendOrdersPage. rewrite Ho, Hp.
    destruct items as [|it items'] eqn:Ei; [contradiction|]. rewrite <- Ei in *.
    eexists p, _. split; [reflexivity|]. split; [reflexivity|].
    cbn [shown page_no page_count navigation].
    replace (p * ITEMS_PER_PAGE + ITEMS_PER_PAGE - p * ITEMS_PER_PAGE)%nat
      with ITEMS_PER_PAGE by lia.
    split; [|split; [|split; [|split; [|split]]]].
    + rewrite map_map. cbn [fst]. apply map_id.
    + destruct (skipn (p * ITEMS_PER_PAGE) items) as [|x r] eqn:Es.
      * pose proof (length_skipn (p * ITEMS_PER_PAGE) items) as Hl.
        rewrite Es in Hl. simpl in Hl. lia.
      * discriminate.
    + reflexivity.
    + apply totalPages_spec in Hlt. lia.
    + unfold orders_page_next. rewrite Hp, Ho.
      destruct (p + 1 <? orders_totalPages items)%nat eqn:E.
      * apply Nat.ltb_lt, totalPages_spec in E.
        assert ((p * ITEMS_PER_PAGE + ITEMS_PER_PAGE <? List.length items)%nat = true)
          as -> by (apply Nat.ltb_lt; lia).
        split; [reflexivity|]. intros _. apply in_app_iff. right. now left.
      * apply Nat.ltb_ge in E.
        assert (~ (p + 1 < orders_totalPages items)%nat) as Hn by lia.
        rewrite totalPages_spec in Hn.
        assert ((p * ITEMS_PER_PAGE + ITEMS_PER_PAGE <? List.length items)%nat = false)
          as -> by (apply Nat.ltb_ge; lia).
        rewrite Hp. split.
        -- intros Hin. apply in_app_iff in Hin as [Hin|[]].
           destruct (0 <? p)%nat; [destruct Hin as [[=]|[]]|destruct Hin].
        -- intros [= H]. lia.
    + unfold orders_page_prev. rewrite Hp.
      destruct (0 <? p)%nat eqn:E.
      * apply Nat.ltb_lt in E. split.
        -- intros _. split; [lia|reflexivity].
        -- intros _. apply in_app_iff. left. now left.
      * apply Nat.ltb_ge in E. split.
        -- intros Hin. apply in_app_iff in Hin as [[]|Hin].
           destruct (_ <? _)%nat; [destruct Hin as [[=]|[]]|destruct Hin].
        -- intros [Hne _]. lia.
  - rewrite chunks_concat. apply firstn_all2.
    assert (Hn : ~ (orders_totalPages items < orders_totalPages items)%nat) by lia.
    rewrite totalPages_spec in Hn. lia.
Qed.

Lemma orders_browser_witness :
  session_orders (browse [PressNext; PressNext; PressPrevious]
                         (fetchAndShowPurchases "200" (mkOrdersSession [] None EmptyString)
                                                two_sales))
  = map purchase_item (getUserPurchases 2%N two_sales).
Proof.
  apply (orders_browser (map purchase_item (getUserPurchases 2%N two_sales))
           purchases_title [PressNext; PressNext; PressPrevious]).
  vm_compute. discriminate.
Defined.

(** ** Text helpers *)

Lemma escapeMarkdown_head text d rest :
  escapeMarkdown text = String d rest -> markdown_special d = false.
Proof.
  destruct text as [|c text']; [discriminate|]. cbn [escapeMarkdown].
  destruct (markdown_special c) eqn:E.
  - now intros [= <- _].
  - now intros [= <- _].
Qed.

Lemma unescapeMarkdown_cons c d rest :
  unescapeMarkdown (String c (String d rest))
  = if Ascii.eqb c "\" && markdown_special d
    then String d (unescapeMarkdown rest)
    else String c (unescapeMarkdown (String d rest)).
Proof. reflexivity. Qed.

Lemma unescape_escape text : unescapeMarkdown (escapeMarkdown text) = text.
Proof.
  induction text as [|c text IH]; [reflexivity|].
  cbn [escapeMarkdown]. destruct (markdown_special c) eqn:E.
  - rewrite unescapeMarkdown_cons, E. cbn [Ascii.eqb Bool.eqb andb].
    now rewrite IH.
  - destruct (escapeMarkdown text) as [|d rest] eqn:Ee.
    + destruct text as [|c' text']; [reflexivity|].
      cbn [escapeMarkdown] in Ee. now destruct (markdown_special c').
    + rewrite unescapeMarkdown_cons.
      rewrite (escapeMarkdown_head text d rest Ee), andb_false_r.
      now rewrite IH.
Qed.

(** X18.  [escapeMarkdown] loses nothing.  Dropping the backslash in front of
    each special character gives the text back, so two different texts
    are never escaped to the same string; a text without special
    characters is left as it is; and the result is longer by one
    character for each special character of the text. *)
Theorem escapeMarkdown_faithful (text : string) :
  unescapeMarkdown (escapeMarkdown text) = text /\
  (forall text', escapeMarkdown text = escapeMarkdown text' -> text = text') /\
  (count_special text = O -> escapeMarkdown text = text) /\
  String.length (escapeMarkdown text) = (String.length text + count_special text)%nat.
Proof.
  split; [apply unescape_escape|]. split; [|split].
  - intros text' H. rewrite <- (unescape_escape text), <- (unescape_escape text').
    now rewrite H.
  - induction text as [|c text IH]; [reflexivity|].
    cbn [count_special escapeMarkdown].
    destruct (markdown_special c); [discriminate|].
    intros H. now rewrite IH.
  - induction text as [|c text IH]; [reflexivity|].
    cbn [count_special escapeMarkdown].
    destruct (markdown_special c); cbn [String.length]; rewrite IH; lia.
Qed.

(** *** The public id of an uploaded image *)

Lemma split_on_nonempty sep cur l : split_on sep cur l <> [].
Proof.
  revert cur. induction l as [|c l IH]; intros cur; simpl; [discriminate|].
  destruct (Ascii.eqb c sep); [discriminate|apply IH].
Qed.

Lemma split_on_no_sep sep cur l :
  existsb (Ascii.eqb sep) l = false ->
  split_on sep cur l = [string_of_list_ascii (rev cur ++ l)].
Proof.
  revert cur. induction l as [|c l IH]; intros cur H; simpl.
  - now rewrite app_nil_r.
  - simpl in H. apply orb_false_iff in H as [Hc Hl].
    rewrite Ascii.eqb_sym, Hc. rewrite (IH (c :: cur) Hl). simpl.
    now rewrite <- app_assoc.
Qed.

Lemma last_cons_nonempty {A} (x : A) (l : list A) (d : A) :
  l <> [] -> last (x :: l) d = last l d.
Proof. destruct l; [contradiction|reflexivity]. Qed.

Lemma split_on_last sep cur l1 l2 d :
  last (split_on sep cur (l1 ++ sep :: l2)) d = last (split_on sep [] l2) d.
Proof.
  revert cur. induction l1 as [|c l1 IH]; intros cur; simpl.
  - rewrite Ascii.eqb_refl. apply last_cons_nonempty, split_on_nonempty.
  - destruct (Ascii.eqb c sep).
    + rewrite last_cons_nonempty by apply split_on_nonempty. apply IH.
    + apply IH.
Qed.

Lemma split_on_head sep cur l1 l2 d :
  existsb (Ascii.eqb sep) l1 = false ->
  hd d (split_on sep cur (l1 ++ sep :: l2)) = string_of_list_ascii (rev cur ++ l1).
Proof.
  revert cur. induction l1 as [|c l1 IH]; intros cur H; simpl.
  - rewrite Ascii.eqb_refl. simpl. now rewrite app_nil_r.
  - simpl in H. apply orb_false_iff in H as [Hc Hl].
    rewrite Ascii.eqb_sym, Hc. rewrite (IH (c :: cur) Hl). simpl.
    now rewrite <- app_assoc.
Qed.

Lemma list_ascii_of_string_app a b :
  list_ascii_of_string (a ++ b)%string
  = list_ascii_of_string a ++ list_ascii_of_string b.
Proof. induction a as [|c a IH]; [reflexivity|]. simpl. now rewrite IH. Qed.

(** X19.  The public id [deleteFromCloudinary] asks to destroy.  For an image
    URL that ends in [/name.ext], where [name] holds neither a slash nor
    a dot and [ext] no slash, the id is [name]; without an extension it
    is the whole last segment. *)
Theorem publicId_of_url (base name ext : string)
  (Hname_slash : has_char "/" name = false)
  (Hname_dot : has_char "." name = false)
  (Hext : has_char "/" ext = false) :
  publicId (base ++ "/" ++ name ++ "." ++ ext)%string = name /\
  publicId (base ++ "/" ++ name)%string = name.
Proof.
  unfold publicId, split, has_char in *. split.
  - rewrite !list_ascii_of_string_app. cbn [list_ascii_of_string app].
    rewrite split_on_last.
    rewrite (split_on_no_sep "/"%char []
               (list_ascii_of_string name ++ "."%char :: list_ascii_of_string ext)).
    2:{ rewrite existsb_app, Hname_slash. cbn [existsb orb Ascii.eqb Bool.eqb].
        exact Hext. }
    cbn [rev app last]. rewrite list_ascii_of_string_of_list_ascii.
    rewrite (split_on_head "."%char [] _ _ EmptyString Hname_dot).
    cbn [rev app]. apply string_of_list_ascii_of_string.
  - rewrite !list_ascii_of_string_app. cbn [list_ascii_of_string app].
    rewrite split_on_last.
    rewrite (split_on_no_sep "/"%char [] _ Hname_slash).
    cbn [rev app last]. rewrite list_ascii_of_string_of_list_ascii.
    rewrite (split_on_no_sep _ _ _ Hname_dot).
    cbn [rev app hd]. apply string_of_list_ascii_of_string.
Qed.

Lemma publicId_of_url_witness :
  publicId "https://res.cloudinary.com/demo/image/upload/v1712/receipt_7.jpg"
  = "receipt_7".
Proof.
  apply (publicId_of_url "https://res.cloudinary.com/demo/image/upload/v1712"
                         "receipt_7" "jpg"); reflexivity.
Defined.

(** *** The receiver check of the CBE receipt *)

Lemma is_space_code c : is_space c = true -> (code c <= 32)%N.
Proof.
  unfold is_space. rewrite orb_true_iff, andb_true_iff, !N.leb_le, N.eqb_eq. lia.
Qed.

Lemma is_space2_code c1 c2 :
  is_space2 c1 c2 = true -> (code c1 = 194 /\ code c2 = 160)%N.
Proof. unfold is_space2. now rewrite andb_true_iff, !N.eqb_eq. Qed.

Lemma is_space3_code c1 c2 c3 :
  is_space3 c1 c2 c3 = true ->
  (128 <= code c1 /\ 128 <= code c2 /\ 128 <= code c3)%N.
Proof.
  unfold is_space3.
  rewrite !orb_true_iff, !andb_true_iff, !orb_true_iff, !andb_true_iff,
    !N.leb_le, !N.eqb_eq.
  lia.
Qed.

Lemma skip_spaces_blank l : forallb is_space l = true -> skip_spaces l = [].
Proof.
  induction l as [|c l IH]; [reflexivity|]. cbn [forallb skip_spaces].
  destruct (is_space c); [exact IH|discriminate].
Qed.

Lemma skip_spaces_app_blank p l :
  forallb is_space p = true -> skip_spaces (p ++ l) = skip_spaces l.
Proof.
  induction p as [|c p IH]; [reflexivity|]. cbn [forallb app skip_spaces].
  destruct (is_space c); [exact IH|discriminate].
Qed.

Lemma skip_spaces_back_app_blank p l :
  forallb is_space p = true -> skip_spaces_back (p ++ l) = skip_spaces_back l.
Proof.
  induction p as [|c p IH]; [reflexivity|]. cbn [forallb app skip_spaces_back].
  destruct (is_space c); [exact IH|discriminate].
Qed.

Lemma list_length_ind {A} (P : list A -> Prop) :
  (forall l, (forall l', (List.length l' < List.length l)%nat -> P l') -> P l) ->
  forall l, P l.
Proof.
  intros H l.
  assert (forall n l', (List.length l' < n)%nat -> P l') as Hn.
  { induction n as [|n IH]; intros l' Hl; [lia|].
    apply H. intros l'' Hl''. apply IH. lia. }
  apply (Hn (S (List.length l))). lia.
Qed.

(** White space after a text is left where it is, unless the text is
    white space altogether. *)
Lemma skip_spaces_app l p :
  forallb is_space p = true ->
  skip_spaces (l ++ p)
  = match skip_spaces l with [] => [] | _ :: _ => skip_spaces l ++ p end.
Proof.
  intros Hp. induction l as [l IH] using list_length_ind.
  destruct l as [|c1 l1].
  - cbn [app skip_spaces]. now apply skip_spaces_blank.
  - cbn [app skip_spaces].
    destruct (is_space c1) eqn:E1; [apply IH; simpl; lia|].
    destruct l1 as [|c2 l2].
    + cbn [app]. destruct p as [|p1 p']; [reflexivity|].
      cbn [forallb] in Hp. apply andb_true_iff in Hp as [Hp1 Hp'].
      apply is_space_code in Hp1.
      destruct (is_space2 c1 p1) eqn:E2;
        [apply is_space2_code in E2; lia|].
      destruct p' as [|p2 p'']; [reflexivity|].
      destruct (is_space3 c1 p1 p2) eqn:E3;
        [apply is_space3_code in E3; lia|reflexivity].
    + cbn [app].
      destruct (is_space2 c1 c2) eqn:E2; [apply IH; simpl; lia|].
      destruct l2 as [|c3 l3].
      * cbn [app]. destruct p as [|p1 p']; [reflexivity|].
        cbn [forallb] in Hp. apply andb_true_iff in Hp as [Hp1 Hp'].
        apply is_space_code in Hp1.
        destruct (is_space3 c1 c2 p1) eqn:E3;
          [apply is_space3_code in E3; lia|reflexivity].
      * cbn [app].
        destruct (is_space3 c1 c2 c3) eqn:E3; [apply IH; simpl; lia|reflexivity].
Qed.

Lemma forallb_rev {A} (f : A -> bool) (l : list A) :
  forallb f (rev l) = forallb f l.
Proof.
  induction l as [|x l IH]; [reflexivity|]. simpl.
  rewrite forallb_app, IH. simpl. rewrite andb_true_r. apply andb_comm.
Qed.

Lemma trim_padding pad1 pad2 s :
  blank pad1 = true -> blank pad2 = true ->
  trim (pad1 ++ s ++ pad2)%string = trim s.
Proof.
  unfold blank, trim. intros H1 H2.
  rewrite !list_ascii_of_string_app.
  rewrite (skip_spaces_app_blank _ _ H1), (skip_spaces_app _ _ H2).
  destruct (skip_spaces (list_ascii_of_string s)) as [|c r]; [reflexivity|].
  rewrite rev_app_distr, skip_spaces_back_app_blank; [reflexivity|].
  now rewrite forallb_rev.
Qed.

(** On ASCII text the white space is the one of a single byte. *)
Lemma skip_spaces_ascii l :
  forallb ascii_char l = true -> skip_spaces l = skip_blank l.
Proof.
  induction l as [|c1 l1 IH]; [reflexivity|]. cbn [forallb skip_spaces skip_blank].
  intros H. apply andb_true_iff in H as [H1 Hl].
  unfold ascii_char in H1. apply N.ltb_lt in H1.
  destruct (is_space c1); [exact (IH Hl)|].
  destruct l1 as [|c2 l2]; [reflexivity|].
  destruct (is_space2 c1 c2) eqn:E2; [apply is_space2_code in E2; lia|].
  destruct l2 as [|c3 l3]; [reflexivity|].
  destruct (is_space3 c1 c2 c3) eqn:E3; [apply is_space3_code in E3; lia|].
  reflexivity.
Qed.

Lemma skip_spaces_back_ascii l :
  forallb ascii_char l = true -> skip_spaces_back l = skip_blank l.
Proof.
  induction l as [|c1 l1 IH]; [reflexivity|].
  cbn [forallb skip_spaces_back skip_blank].
  intros H. apply andb_true_iff in H as [H1 Hl].
  unfold ascii_char in H1. apply N.ltb_lt in H1.
  destruct (is_space c1); [exact (IH Hl)|].
  destruct l1 as [|c2 l2]; [reflexivity|].
  destruct (is_space2 c2 c1) eqn:E2; [apply is_space2_code in E2; lia|].
  destruct l2 as [|c3 l3]; [reflexivity|].
  destruct (is_space3 c3 c2 c1) eqn:E3; [apply is_space3_code in E3; lia|].
  reflexivity.
Qed.

Lemma forallb_skip_blank (f : ascii -> bool) l :
  forallb f l = true -> forallb f (skip_blank l) = true.
Proof.
  induction l as [|c l IH]; [reflexivity|]. cbn [skip_blank].
  destruct (is_space c); [|auto].
  cbn [forallb]. intros H. apply andb_true_iff in H as [_ H]. auto.
Qed.

Lemma trim_ascii s :
  ascii_text s = true ->
  trim s = string_of_list_ascii
             (rev (skip_blank (rev (skip_blank (list_ascii_of_string s))))).
Proof.
  unfold ascii_text, trim. intros H.
  rewrite (skip_spaces_ascii _ H), skip_spaces_back_ascii; [reflexivity|].
  rewrite forallb_rev. now apply forallb_skip_blank.
Qed.

Lemma upper_space c : is_space (upper c) = is_space c.
Proof. destruct c as [[] [] [] [] [] [] [] []]; reflexivity. Qed.

Lemma lower_space c : is_space (lower c) = is_space c.
Proof. destruct c as [[] [] [] [] [] [] [] []]; reflexivity. Qed.

Lemma upper_ascii c : ascii_char (upper c) = ascii_char c.
Proof. destruct c as [[] [] [] [] [] [] [] []]; reflexivity. Qed.

Lemma lower_ascii c : ascii_char (lower c) = ascii_char c.
Proof. destruct c as [[] [] [] [] [] [] [] []]; reflexivity. Qed.

Lemma upper_upper c : upper (upper c) = upper c.
Proof. destruct c as [[] [] [] [] [] [] [] []]; reflexivity. Qed.

Lemma upper_lower c : upper (lower c) = upper c.
Proof. destruct c as [[] [] [] [] [] [] [] []]; reflexivity. Qed.

Lemma list_of_map_string f s :
  list_ascii_of_string (map_string f s) = map f (list_ascii_of_string s).
Proof. induction s as [|c s IH]; [reflexivity|]. simpl. now rewrite IH. Qed.

Lemma string_of_map f l :
  string_of_list_ascii (map f l) = map_string f (string_of_list_ascii l).
Proof. induction l as [|c l IH]; [reflexivity|]. simpl. now rewrite IH. Qed.

Lemma skip_blank_map f l :
  (forall c, is_space (f c) = is_space c) ->
  skip_blank (map f l) = map f (skip_blank l).
Proof.
  intros Hf. induction l as [|c l IH]; [reflexivity|]. simpl.
  rewrite Hf. now destruct (is_space c).
Qed.

Lemma ascii_text_map f s :
  (forall c, ascii_char (f c) = ascii_char c) ->
  ascii_text (map_string f s) = ascii_text s.
Proof.
  intros Hf. unfold ascii_text. rewrite list_of_map_string.
  induction (list_ascii_of_string s) as [|c l IH]; [reflexivity|].
  cbn [map forallb]. now rewrite Hf, IH.
Qed.

Lemma trim_map_string f s :
  (forall c, is_space (f c) = is_space c) ->
  (forall c, ascii_char (f c) = ascii_char c) ->
  ascii_text s = true ->
  trim (map_string f s) = map_string f (trim s).
Proof.
  intros Hf Ha Hs.
  rewrite (trim_ascii s Hs), trim_ascii by (now rewrite ascii_text_map).
  rewrite list_of_map_string, (skip_blank_map f _ Hf), <- map_rev,
    (skip_blank_map f _ Hf), <- map_rev.
  apply string_of_map.
Qed.

Lemma map_string_map_string f g s :
  map_string f (map_string g s) = map_string (fun c => f (g c)) s.
Proof. induction s as [|c s IH]; [reflexivity|]. simpl. now rewrite IH. Qed.

Lemma map_string_ext f g s :
  (forall c, f c = g c) -> map_string f s = map_string g s.
Proof.
  intros H. induction s as [|c s IH]; [reflexivity|]. simpl. now rewrite H, IH.
Qed.

(** X20.  The receiver name on a CBE receipt is compared without regard to
    case and to white space around it.  [isValidReceiver] accepts exactly
    the names that, trimmed and in upper case, read 'KALEB MATE' or
    'KALEB MATE MEGANE'; its answer does not change when the name is
    padded with white space, nor when a name of ASCII characters is put
    in upper or lower case.  The no-break space counts as white space:
    a name between two of them is accepted. *)
Theorem isValidReceiver_normalises (receiver pad1 pad2 : string)
  (Hpad1 : blank pad1 = true) (Hpad2 : blank pad2 = true) :
  (isValidReceiver receiver = true <->
   toUpperCase (trim receiver) = "KALEB MATE" \/
   toUpperCase (trim receiver) = "KALEB MATE MEGANE") /\
  isValidReceiver (pad1 ++ receiver ++ pad2)%string = isValidReceiver receiver /\
  (ascii_text receiver = true ->
   isValidReceiver (toUpperCase receiver) = isValidReceiver receiver /\
   isValidReceiver (toLowerCase receiver) = isValidReceiver receiver) /\
  isValidReceiver (nbsp ++ "Kaleb Mate" ++ nbsp)%string = true.
Proof.
  split; [|split; [|split]].
  - unfold isValidReceiver, validReceivers. cbn [existsb].
    rewrite orb_false_r, orb_true_iff, !String.eqb_eq.
    change (toUpperCase "Kaleb Mate") with "KALEB MATE".
    change (toUpperCase "KALEB MATE MEGANE") with "KALEB MATE MEGANE".
    split; (intros [H|H]; [left|right]); now symmetry.
  - unfold isValidReceiver. now rewrite trim_padding.
  - intros Hascii. split.
    + unfold isValidReceiver, toUpperCase.
      rewrite (trim_map_string upper _ upper_space upper_ascii Hascii),
        map_string_map_string.
      now rewrite (map_string_ext _ upper _ upper_upper).
    + unfold isValidReceiver, toUpperCase, toLowerCase.
      rewrite (trim_map_string lower _ lower_space lower_ascii Hascii),
        map_string_map_string.
      now rewrite (map_string_ext _ upper _ upper_lower).
  - vm_compute. reflexivity.
Qed.

Lemma isValidReceiver_normalises_witness :
  isValidReceiver "  kaleb mate megane " = isValidReceiver "kaleb mate megane".
Proof.
  apply (isValidReceiver_normalises "kaleb mate megane" "  " " "); reflexivity.
Defined.

(** ** The integrity of the store, in every reachable state *)

Lemma filter_telegram_unique (l : list User) (u : User) :
  NoDup (map telegram_user_id l) -> In u l ->
  filter (by_telegram (telegram_user_id u)) l = [u].
Proof.
  intros Hnd Hin. induction l as [|r l IH]; [destruct Hin|].
  simpl in Hnd. inversion Hnd as [|? ? Hr Hl]; subst. simpl.
  unfold by_telegram at 1.
  destruct Hin as [->|Hin].
  - rewrite String.eqb_refl. f_equal. apply filter_none. intros x Hx.
    unfold by_telegram. apply String.eqb_neq. intros E. apply Hr.
    rewrite <- E. now apply in_map.
  - destruct (String.eqb_spec (telegram_user_id r) (telegram_user_id u)) as [E|E].
    + exfalso. apply Hr. rewrite E. now apply in_map.
    + now apply IH.
Qed.

(** X21.  The requests and the timers keep the store as the schema wants it.
    Every step of the server keeps the ids unique in each table and below
    the next id to hand out, the Telegram ids unique, and the rows that
    accounts, orders and withdrawals refer to in place; so in every state
    reached from the empty server, a lookup by id or by Telegram id finds
    exactly the row that carries it, every account has its owner, and
    every order its account and its buyer. *)
Theorem store_integrity :
  (forall op s, consistent (db s) -> consistent (db (step op s))) /\
  (forall s, reachable s ->
     consistent (db s) /\
     (forall u, In u (users (db s)) ->
        find_user (user_id u) s = Some u /\
        getUserByTelegram (telegram_user_id u) s = Ok 200 u) /\
     (forall a, In a (accounts (db s)) ->
        find_account (account_id a) s = Some a /\
        find_user (owner_id a) s <> None) /\
     (forall o, In o (orders (db s)) ->
        find_order (order_id o) s = Some o /\
        find_account (order_account_id o) s <> None /\
        find_user (buyer_id o) s <> None)).
Proof.
  split; [exact step_consistent|].
  intros s Hs. pose proof (reachable_consistent s Hs) as Hc.
  split; [exact Hc|]. split; [|split].
  - intros u Hu. split.
    + unfold find_user.
      change (by_user_id (user_id u)) with (fun r => (user_id r =? user_id u)%N).
      now rewrite (filter_key_unique user_id _ _ u (users_key _ Hc) Hu eq_refl).
    + rewrite getUserByTelegram_run.
      now rewrite (filter_telegram_unique _ u (telegram_unique _ Hc) Hu).
  - intros a Ha. split.
    + unfold find_account.
      change (by_account_id (account_id a))
        with (fun r => (account_id r =? account_id a)%N).
      now rewrite (filter_key_unique account_id _ _ a (accounts_key _ Hc) Ha eq_refl).
    + destruct (consistent_owner_of_account s a Hc Ha) as [owner [_ Hf]].
      unfold find_user. now rewrite Hf.
  - intros o Ho. split; [|split].
    + unfold find_order.
      change (by_order_id (order_id o)) with (fun r => (order_id r =? order_id o)%N).
      now rewrite (filter_key_unique order_id _ _ o (orders_key _ Hc) Ho eq_refl).
    + destruct (consistent_account_of_order s o Hc Ho) as [a [_ Hf]].
      unfold find_account. now rewrite Hf.
    + destruct (consistent_buyer_of_order s o Hc Ho) as [u [_ Hf]].
      unfold find_user. now rewrite Hf.
Qed.

(** ** Listing an account *)

Lemma filter_snoc {R} (p : R -> bool) (l : list R) (x : R) :
  p x = true -> filter p (l ++ [x]) = filter p l ++ [x].
Proof. intros H. rewrite filter_app. simpl. now rewrite H. Qed.

(** X22.  A new listing is on the marketplace at once.  [POST /accounts]
    (with the bank details it asks for), with a price, a subscriber count
    and a creation year that are values of the 32-bit [integer] columns,
    for an owner on record stores one account, 'available', owned by the
    owner, created now, and answers with it; no balance and no order
    changes, and the total count of the marketplace grows by one.  For an
    unknown owner the transaction fails, and a number outside the range
    is refused by the store; in both cases nothing is stored. *)
Theorem createAccount_lists (owner : Id) (pf nm : string) (pr subs : Z)
  (year : option Z) (monet : option bool) (s : Server) :
  let out := createAccount owner pf nm pr subs year monet s in
  if int4 pr && int4 subs && match year with Some y => int4 y | None => true end
  then
    match find_user owner s with
    | None => out = (Fail 500 fk_violation, s)
    | Some _ =>
        let a := mkAccount (next_id (db s)) owner pf nm pr available subs year monet
                           (clock s) in
        fst out = Ok 200 a /\
        accounts (db (snd out)) = accounts (db s) ++ [a] /\
        (forall id, balance_of id (snd out) = balance_of id s) /\
        orders (db (snd out)) = orders (db s) /\
        timers (snd out) = timers s /\
        (forall q_page q_limit c p,
           listAccounts q_page q_limit s = Ok c p ->
           exists p', listAccounts q_page q_limit (snd out) = Ok 200 p' /\
                      totalCount p' = totalCount p + 1) /\
        (find_account (next_id (db s)) s = None ->
         find_account (next_id (db s)) (snd out) = Some a)
    end
  else out = (Fail 500 out_of_range, s).
Proof.
  cbv zeta. rewrite createAccount_run.
  destruct (int4 pr && int4 subs
            && match year with Some y => int4 y | None => true end);
    cbn [negb]; [|reflexivity].
  unfold find_user.
  destruct (filter (by_user_id owner) (users (db s))) as [|u l] eqn:E;
    cbn [hd_error].
  - assert (existsb (by_user_id owner) (users (db s)) = false) as ->.
    { destruct (existsb (by_user_id owner) (users (db s))) eqn:Hex; [|reflexivity].
      apply existsb_exists in Hex as [x [Hx Hp]].
      assert (Hin : In x (filter (by_user_id owner) (users (db s))))
        by (apply filter_In; now split).
      rewrite E in Hin. destruct Hin. }
    reflexivity.
  - assert (existsb (by_user_id owner) (users (db s)) = true) as ->.
    { apply (existsb_found _ _ u). now rewrite E. }
    cbn [fst snd db with_db accounts users orders timers bump_id with_accounts].
    set (a := mkAccount (next_id (db s)) owner pf nm pr available subs year monet
                        (clock s)).
    split; [reflexivity|]. split; [reflexivity|]. split; [reflexivity|].
    split; [reflexivity|]. split; [reflexivity|]. split.
    + intros q_page q_limit c p. unfold listAccounts.
      cbn [db with_db accounts with_users bump_id with_accounts].
      destruct (select_page _ _ (orderBy (filter is_available (accounts (db s)))))
        as [result|] eqn:Hsel; [|discriminate].
      intros [= _ <-].
      destruct (select_page_some _ _ _
                  (orderBy (filter is_available (accounts (db s) ++ [a])))
                  _ Hsel) as [result' ->].
      eexists. split; [reflexivity|]. cbn [totalCount].
      rewrite filter_snoc by reflexivity. rewrite length_app. simpl. lia.
    + unfold find_account.
      cbn [db with_db accounts with_users bump_id with_accounts]. intros Hnone.
      rewrite filter_app.
      destruct (filter (by_account_id (next_id (db s))) (accounts (db s)));
        [|discriminate].
      cbn [filter app]. unfold by_account_id at 1. cbn [account_id].
      now rewrite N.eqb_refl.
Qed.

(** ** Updating an order *)

Lemma find_order_updated id id' st s s' :
  orders (db s') = update_rows (by_order_id id) (set_order_status st) (orders (db s)) ->
  find_order id' s' =
  option_map (fun o => if by_order_id id o then set_order_status st o else o)
             (find_order id' s).
Proof.
  intros H. unfold find_order. rewrite H.
  rewrite filter_update_rows by reflexivity.
  unfold update_rows. apply hd_error_map.
Qed.

(** X23.  [PUT /orders/:id] with a status other than 'completed' rewrites
    the status of that order and nothing else.  An empty status is
    answered 400 and an unknown id 404, with the server unchanged.
    Otherwise the order comes back with the new status, whatever text it
    is; the other orders, the accounts and their statuses, the users and
    the timers stay as they are: an order marked 'failed' or 'cancelled'
    this way leaves its account 'pending'. *)
Theorem updateOrder_other_status (id : Id) (st : string) (s : Server) :
  updateOrder id EmptyString s = (Fail 400 "Status is required", s) /\
  (st <> EmptyString -> find_order id s = None ->
   updateOrder id st s = (Fail 404 "Order not found", s)) /\
  (forall o, st <> EmptyString -> st <> "completed" -> find_order id s = Some o ->
     let s' := snd (updateOrder id st s) in
     fst (updateOrder id st s) = Ok 200 (Some (set_order_status st o)) /\
     find_order id s' = Some (set_order_status st o) /\
     (forall id', id' <> id -> find_order id' s' = find_order id' s) /\
     accounts (db s') = accounts (db s) /\
     account_status (order_account_id o) s' = account_status (order_account_id o) s /\
     users (db s') = users (db s) /\
     timers s' = timers s).
Proof.
  split; [reflexivity|]. split.
  - intros Hne Hf. unfold updateOrder, updateOrder_body. unfold find_order in Hf.
    apply String.eqb_neq in Hne. rewrite Hne. run_m.
    now destruct (filter (by_order_id id) (orders (db s))).
  - intros o Hne Hnc Hf. cbv zeta.
    apply String.eqb_neq in Hne. apply String.eqb_neq in Hnc.
    assert (Hrun : updateOrder id st s
                   = (Ok 200 (Some (set_order_status st o)),
                      with_db (with_orders
                                 (update_rows (by_order_id id) (set_order_status st)
                                              (orders (db s))) (db s)) s)).
    { unfold updateOrder, updateOrder_body. rewrite Hne. run_m. rewrite Hnc.
      unfold find_order in Hf.
      destruct (filter (by_order_id id) (orders (db s))) as [|o' l] eqn:E;
        [discriminate|].
      injection Hf as ->. cbn [db with_db orders with_orders]. now rewrite E. }
    rewrite Hrun. cbn [fst snd].
    set (s' := with_db _ s).
    assert (Hfind : forall id', find_order id' s'
                    = option_map (fun r => if by_order_id id r
                                           then set_order_status st r else r)
                                 (find_order id' s)).
    { intros id'. now apply (find_order_updated id id' st s s'). }
    split; [reflexivity|]. split; [|split; [|now repeat split]].
    + rewrite Hfind, Hf. cbn [option_map].
      pose proof (find_order_id _ _ _ Hf) as Hid. unfold by_order_id.
      now rewrite Hid, N.eqb_refl.
    + intros id' Hne'. rewrite Hfind.
      destruct (find_order id' s) as [r|] eqn:Hr; [|reflexivity].
      cbn [option_map]. pose proof (find_order_id _ _ _ Hr) as Hid.
      unfold by_order_id. rewrite Hid.
      destruct (N.eqb_spec id' id); [contradiction|reflexivity].
Qed.

Lemma updateOrder_other_status_witness :
  find_order 4%N (snd (updateOrder 4%N "failed" pending_order_state))
  = Some (set_order_status "failed" (mkOrder 4%N 2%N 3%N 500 "pending" (Some "R1"))) /\
  account_status 3%N (snd (updateOrder 4%N "failed" pending_order_state))
  = account_status 3%N pending_order_state.
Proof.
  destruct (updateOrder_other_status 4%N "failed" pending_order_state) as [_ [_ H]].
  destruct (H (mkOrder 4%N 2%N 3%N 500 "pending" (Some "R1"))
              ltac:(discriminate) ltac:(discriminate) eq_refl)
    as [_ [H1 [_ [_ [H2 _]]]]].
  split; [exact H1|exact H2].
Defined.


(** ** Reading amounts *)

Lemma digit_cases (P : nat -> Prop) :
  P 0%nat -> P 1%nat -> P 2%nat -> P 3%nat -> P 4%nat -> P 5%nat -> P 6%nat ->
  P 7%nat -> P 8%nat -> P 9%nat -> forall d, (d < 10)%nat -> P d.
Proof.
  intros H0 H1 H2 H3 H4 H5 H6 H7 H8 H9 d Hd.
  do 10 (destruct d as [|d]; [assumption|]). lia.
Qed.

Lemma digit_value_char d :
  (d < 10)%nat -> digit_value (digit_char d) = Some (Z.of_nat d).
Proof. revert d. apply digit_cases; reflexivity. Qed.

Lemma keeps_digit_char d : (d < 10)%nat -> keeps (digit_char d) = true.
Proof. revert d. apply digit_cases; reflexivity. Qed.

Lemma digit_char_plain d :
  (d < 10)%nat ->
  is_space (digit_char d) = false /\ Ascii.eqb (digit_char d) "-" = false /\
  Ascii.eqb (digit_char d) "+" = false /\ Ascii.eqb (digit_char d) "x" = false /\
  Ascii.eqb (digit_char d) "X" = false.
Proof. revert d. apply digit_cases; repeat split; reflexivity. Qed.

Lemma digit_char_ascii d :
  (d < 10)%nat ->
  ascii_char (digit_char d) = true /\ Ascii.eqb "I" (digit_char d) = false.
Proof. revert d. apply digit_cases; repeat split; reflexivity. Qed.

Lemma skip_spaces_head c l :
  is_space c = false -> ascii_char c = true -> skip_spaces (c :: l) = c :: l.
Proof.
  intros Hsp Hc. unfold ascii_char in Hc. apply N.ltb_lt in Hc.
  cbn [skip_spaces]. rewrite Hsp.
  destruct l as [|c2 l2]; [reflexivity|].
  destruct (is_space2 c c2) eqn:E2; [apply is_space2_code in E2; lia|].
  destruct l2 as [|c3 l3]; [reflexivity|].
  destruct (is_space3 c c2 c3) eqn:E3; [apply is_space3_code in E3; lia|].
  reflexivity.
Qed.

Lemma take_digits_decimal ds : forall rest acc cnt,
  forallb (fun d => (d <? 10)%nat) ds = true ->
  take_digits 10 (map digit_char ds ++ rest) acc cnt
  = take_digits 10 rest (fold_left (fun acc d => acc * 10 + Z.of_nat d) ds acc)
                (cnt + List.length ds)%nat.
Proof.
  induction ds as [|d ds IH]; intros rest acc cnt H.
  - simpl. now rewrite Nat.add_0_r.
  - simpl in H. apply andb_true_iff in H as [Hd Hds]. apply Nat.ltb_lt in Hd.
    cbn [map app take_digits]. rewrite (digit_value_char d Hd).
    assert ((Z.of_nat d <? 10) = true) as -> by (apply Z.ltb_lt; lia).
    rewrite (IH rest _ _ Hds). cbn [fold_left List.length]. f_equal. lia.
Qed.

Lemma take_digits_stop c rest acc cnt :
  is_decimal_digit c = false ->
  take_digits 10 (c :: rest) acc cnt = (acc, cnt, c :: rest).
Proof.
  unfold is_decimal_digit. intros H. cbn [take_digits]. unfold digit_value.
  rewrite H.
  destruct ((97 <=? code c) && (code c <=? 102))%N eqn:E1.
  - apply andb_true_iff in E1 as [Ha Hb]. apply N.leb_le in Ha.
    assert ((Z.of_N (code c) - 87 <? 10) = false) as -> by (apply Z.ltb_ge; lia).
    reflexivity.
  - destruct ((65 <=? code c) && (code c <=? 70))%N eqn:E2; [|reflexivity].
    apply andb_true_iff in E2 as [Ha Hb]. apply N.leb_le in Ha.
    assert ((Z.of_N (code c) - 55 <? 10) = false) as -> by (apply Z.ltb_ge; lia).
    reflexivity.
Qed.

Lemma filter_decoration s :
  decoration s = true -> filter keeps (list_ascii_of_string s) = [].
Proof.
  unfold decoration. intros H. apply filter_none. intros c Hc.
  rewrite forallb_forall in H. specialize (H c Hc). now apply negb_true_iff in H.
Qed.

Lemma filter_keeps_decimal ds :
  forallb (fun d => (d <? 10)%nat) ds = true ->
  filter keeps (map digit_char ds) = map digit_char ds.
Proof.
  induction ds as [|d ds IH]; [reflexivity|]. cbn [map filter forallb]. intros H.
  apply andb_true_iff in H as [Hd Hds]. apply Nat.ltb_lt in Hd.
  now rewrite (keeps_digit_char d Hd), (IH Hds).
Qed.

Lemma strip_amount_decimal pre ds post :
  decoration pre = true -> are_digits ds = true -> decoration post = true ->
  strip_amount (pre ++ decimal ds ++ post)%string = decimal ds.
Proof.
  intros Hpre Hds Hpost. unfold strip_amount, decimal.
  rewrite !list_ascii_of_string_app, list_ascii_of_string_of_list_ascii.
  rewrite !filter_app, (filter_decoration pre Hpre), (filter_decoration post Hpost).
  rewrite app_nil_r. cbn [app]. rewrite filter_keeps_decimal; [reflexivity|].
  destruct ds; [discriminate|exact Hds].
Qed.

Lemma parseFloat_decimal ds :
  are_digits ds = true -> decimal_value ds <= 2 ^ 53 ->
  parseFloat (decimal ds) = Num (inject_Z (decimal_value ds)).
Proof.
  intros Hds Hexact. destruct ds as [|d ds]; [discriminate|].
  cbn [are_digits] in Hds. pose proof Hds as Hall.
  cbn [forallb] in Hds. apply andb_true_iff in Hds as [Hd _].
  apply Nat.ltb_lt in Hd.
  destruct (digit_char_plain d Hd) as [Hsp [Hm [Hp _]]].
  destruct (digit_char_ascii d Hd) as [Hascii HI].
  unfold parseFloat, decimal. rewrite list_ascii_of_string_of_list_ascii.
  cbn [map]. rewrite (skip_spaces_head _ _ Hsp Hascii).
  cbn [take_sign]. rewrite Hm, Hp.
  cbn [list_ascii_of_string starts_with]. rewrite HI. cbn [andb].
  change (digit_char d :: map digit_char ds) with (map digit_char (d :: ds)).
  rewrite <- (app_nil_r (map digit_char (d :: ds))).
  rewrite (take_digits_decimal (d :: ds) [] 0 0 Hall).
  cbn [take_digits List.length plus exponent Z.of_nat Z.sub Z.opp Z.add Z.leb
       Z.compare Z.pow Z.pow_pos Pos.iter Z.mul Pos.mul js_signed].
  fold (decimal_value (d :: ds)).
  rewrite Z.mul_1_r, Z.add_0_r, Z.mul_1_r.
  apply to_double_whole. split; [|exact Hexact].
  assert (forall l acc, 0 <= acc ->
            0 <= fold_left (fun acc d => acc * 10 + Z.of_nat d) l acc) as Hpos.
  { induction l as [|x l IH]; intros acc Hacc; [exact Hacc|].
    cbn [fold_left]. apply IH. lia. }
  pose proof (Hpos (d :: ds) 0 ltac:(lia)). unfold decimal_value.
  assert (0 < 2 ^ 53) by (apply Z.pow_pos_nonneg; lia). lia.
Qed.

Lemma parseInt_decimal ds rest :
  are_digits ds = true -> decimal_value ds <= 2 ^ 53 ->
  ends_number rest = true ->
  parseInt (decimal ds ++ rest)%string = Num (inject_Z (decimal_value ds)).
Proof.
  intros Hds Hexact Hrest. destruct ds as [|d ds]; [discriminate|].
  cbn [are_digits] in Hds. pose proof Hds as Hall.
  cbn [forallb] in Hds. apply andb_true_iff in Hds as [Hd Hds'].
  apply Nat.ltb_lt in Hd.
  destruct (digit_char_plain d Hd) as [Hsp [Hm [Hp _]]].
  destruct (digit_char_ascii d Hd) as [Hascii _].
  unfold parseInt, decimal.
  rewrite list_ascii_of_string_app, list_ascii_of_string_of_list_ascii.
  cbn [map app]. rewrite (skip_spaces_head _ _ Hsp Hascii).
  cbn [take_sign]. rewrite Hm, Hp.
  assert (Hradix :
    match digit_char d :: map digit_char ds ++ list_ascii_of_string rest with
    | z :: x :: r =>
        if Ascii.eqb z "0" && (Ascii.eqb x "x" || Ascii.eqb x "X")
        then (16, r) else (10, digit_char d :: map digit_char ds ++ list_ascii_of_string rest)
    | _ => (10, digit_char d :: map digit_char ds ++ list_ascii_of_string rest)
    end = (10, digit_char d :: map digit_char ds ++ list_ascii_of_string rest)).
  { destruct ds as [|d' ds].
    - cbn [map app]. destruct rest as [|c rest]; [reflexivity|].
      cbn [list_ascii_of_string]. cbn [ends_number] in Hrest.
      apply andb_true_iff in Hrest as [Hrest HX].
      apply andb_true_iff in Hrest as [_ Hx].
      apply negb_true_iff in Hx, HX. rewrite Hx, HX. now rewrite andb_false_r.
    - cbn [map app]. cbn [forallb] in Hds'.
      apply andb_true_iff in Hds' as [Hd' _]. apply Nat.ltb_lt in Hd'.
      destruct (digit_char_plain d' Hd') as [_ [_ [_ [Hx HX]]]].
      rewrite Hx, HX. now rewrite andb_false_r. }
  rewrite Hradix.
  change (digit_char d :: map digit_char ds ++ list_ascii_of_string rest)
    with (map digit_char (d :: ds) ++ list_ascii_of_string rest).
  rewrite (take_digits_decimal (d :: ds) _ 0 0 Hall).
  assert (Hstop : take_digits 10 (list_ascii_of_string rest)
                    (fold_left (fun acc d0 => acc * 10 + Z.of_nat d0) (d :: ds) 0)
                    (0 + List.length (d :: ds))
                  = (decimal_value (d :: ds), (0 + List.length (d :: ds))%nat,
                     list_ascii_of_string rest)).
  { destruct rest as [|c rest]; [reflexivity|].
    cbn [list_ascii_of_string]. apply take_digits_stop.
    cbn [ends_number] in Hrest.
    apply andb_true_iff in Hrest as [Hrest _].
    apply andb_true_iff in Hrest as [Hrest _]. now apply negb_true_iff in Hrest. }
  rewrite Hstop. cbn [List.length plus js_signed].
  apply to_double_whole. split; [|exact Hexact].
  assert (forall l acc, 0 <= acc ->
            0 <= fold_left (fun acc d => acc * 10 + Z.of_nat d) l acc) as Hpos.
  { induction l as [|x l IH]; intros acc Hacc; [exact Hacc|].
    cbn [fold_left]. apply IH. lia. }
  pose proof (Hpos (d :: ds) 0 ltac:(lia)). unfold decimal_value.
  assert (0 < 2 ^ 53) by (apply Z.pow_pos_nonneg; lia). lia.
Qed.

(** X24.  How the two payment checks read an amount.  A settled amount
    written as a whole number in decimal digits, with any text around it
    that holds no digit, dot or minus sign, is read by the Telebirr check
    as that number, and the payment passes exactly when the number is at
    least the expected amount.  The CBE check reads the leading digits of
    the amount text and stops at the first other character (an [x] is
    left aside here: after a leading 0 it starts a hexadecimal number),
    so it passes exactly when the number before that character equals
    the price: of '1,500' it reads 1.  This is for numbers up to
    [2 ^ 53], which a JavaScript number holds exactly: beyond, the
    number read is the nearest double: 9007199254740993 reads as
    9007199254740992, and 9007199254740995 as 9007199254740996. *)
Theorem amount_reading (ds : list nat) (Hds : are_digits ds = true)
  (Hexact : decimal_value ds <= 2 ^ 53) :
  (forall pre post,
     decoration pre = true -> decoration post = true ->
     parseFloat (strip_amount (pre ++ decimal ds ++ post)%string)
     = Num (inject_Z (decimal_value ds))) /\
  (forall pre post key verifier reference amt data,
     decoration pre = true -> decoration post = true ->
     reference <> EmptyString -> amt <> 0 ->
     verifier reference = Some data -> success data = true ->
     creditedPartyName data = "Kaleb Mate Megane" ->
     settledAmount data = (pre ++ decimal ds ++ post)%string ->
     verifyPayment (Some key) verifier reference (Some amt)
     = if amt <=? decimal_value ds then Ok 200 data else PaymentMismatch) /\
  (forall rest, ends_number rest = true ->
     parseInt (decimal ds ++ rest)%string = Num (inject_Z (decimal_value ds))) /\
  (forall rest data pr,
     ends_number rest = true -> isValidReceiver (receiver data) = true ->
     cbe_amount data = (decimal ds ++ rest)%string ->
     cbe_validate data (Some pr)
     = if decimal_value ds =? pr then inr (decimal_value ds)
       else inl "Amount does not match required price") /\
  parseInt "9007199254740993" = Num (inject_Z 9007199254740992) /\
  parseFloat "9007199254740995" = Num (inject_Z 9007199254740996).
Proof.
  assert (Hfloat : forall pre post,
            decoration pre = true -> decoration post = true ->
            parseFloat (strip_amount (pre ++ decimal ds ++ post)%string)
            = Num (inject_Z (decimal_value ds))).
  { intros pre post Hpre Hpost.
    rewrite (strip_amount_decimal pre ds post Hpre Hds Hpost).
    now apply parseFloat_decimal. }
  split; [exact Hfloat|]. split; [|split; [|split; [|split]]].
  - intros pre post key verifier reference amt data Hpre Hpost Href Hamt Hv Hok Hname Hset.
    unfold verifyPayment.
    apply String.eqb_neq in Href. apply Z.eqb_neq in Hamt.
    rewrite Href, Hamt, Hv, Hok, Hname, Hset, (Hfloat pre post Hpre Hpost).
    rewrite js_lt_whole.
    cbn [orb negb String.eqb Ascii.eqb Bool.eqb].
    destruct (Z.ltb_spec (decimal_value ds) amt), (Z.leb_spec amt (decimal_value ds));
      try reflexivity; lia.
  - intros rest Hrest. now apply parseInt_decimal.
  - intros rest data pr Hrest Hrecv Hamount. unfold cbe_validate.
    rewrite Hrecv, Hamount, (parseInt_decimal ds rest Hds Hexact Hrest).
    cbn [negb js_strict_eq js_value]. unfold Qeq_bool, inject_Z. cbn [Qnum Qden].
    rewrite !Z.mul_1_r.
    destruct (Z.eqb_spec (decimal_value ds) pr) as [->|]; reflexivity.
  - vm_compute. reflexivity.
  - vm_compute. reflexivity.
Qed.

Lemma amount_reading_witness :
  parseFloat (strip_amount "ETB 1500 paid") = Num (inject_Z 1500) /\
  parseInt "1,500" = Num (inject_Z 1).
Proof.
  destruct (amount_reading [1; 5; 0; 0]%nat eq_refl) as [Hfloat _];
    [vm_compute; discriminate|].
  destruct (amount_reading [1]%nat eq_refl) as [_ [_ [Hint _]]];
    [vm_compute; discriminate|].
  split.
  - exact (Hfloat "ETB " " paid" eq_refl eq_refl).
  - exact (Hint ",500" eq_refl).
Defined.

(** ** A timer left over from an earlier reservation *)

(** X25.  The release timer knows the account, not the reservation.  When a
    release timer for an account is still waiting (the reservation it
    belongs to has ended by a cancellation) and the account is
    reserved anew, the old timer, once due, frees the account although
    the new reservation is younger than ten minutes, as long as its buyer
    has not paid yet. *)
Theorem stale_timer_releases (s : Server) (id buyer : Id) (a0 : Account)
  (i : nat) (t : Timer) (dt : N)
  (Ha : find_account id s = Some a0) (Hav : status a0 = available)
  (Hno : pending_orders_of id s = [])
  (Hi : nth_error (timers s) i = Some t)
  (Ht : task t = ReleaseReservation id)
  (Hdue : (due t <= clock s + dt)%N) :
  let s1 := snd (reserve id (Some buyer) s) in
  fst (reserve id (Some buyer) s) = Ok 200 (Some (set_status pending a0)) /\
  account_status id (advance dt s1) = Some pending /\
  account_status id (fire i (advance dt s1)) = Some available /\
  exists t', nth_error (timers (fire i (advance dt s1))) (List.length (timers s) - 1)
             = Some t' /\
             task t' = ReleaseReservation id /\
             due t' = (clock s + reservation_timeout)%N.
Proof.
  cbv zeta. rewrite (reserve_granted id buyer s a0 Ha Hav). cbn [fst snd].
  assert (Hnth : nth_error (timers (advance dt (reserved id s))) i = Some t).
  { cbn [advance reserved timers]. rewrite nth_error_app1; [exact Hi|].
    apply nth_error_Some. congruence. }
  assert (Hpend : account_status id (advance dt (reserved id s)) = Some pending).
  { change (account_status id (reserved id s) = Some pending).
    now apply (account_status_reserved id s a0). }
  split; [reflexivity|]. split; [exact Hpend|].
  rewrite (fire_due i _ t Hnth) by (cbn [advance clock reserved]; exact Hdue).
  rewrite Ht. cbn [run_task]. rewrite release_reservation_run.
  set (s2 := mkServer _ _ _).
  change (find_account id s2) with (find_account id (reserved id s)).
  rewrite (find_account_reserved id s a0 Ha). cbn [status set_status status_eqb].
  change (pending_orders_of id s2) with (pending_orders_of id s). rewrite Hno.
  split.
  - rewrite account_status_released.
    change (account_status id s2) with (account_status id (reserved id s)).
    now rewrite (account_status_reserved id s a0 Ha).
  - exists (mkTimer (clock s + reservation_timeout)%N (ReleaseReservation id)).
    split; [|now split].
    unfold released, s2. cbn [timers with_db advance reserved].
    assert (Hlen : (i < List.length (timers s))%nat)
      by (apply nth_error_Some; congruence).
    clear -Hlen. revert i Hlen.
    induction (timers s) as [|x l IH]; intros i Hlen; [simpl in Hlen; lia|].
    destruct i as [|i]; cbn [app remove_nth List.length].
    + replace (S (List.length l) - 1)%nat with (List.length l) by lia.
      now apply nth_error_middle.
    + simpl in Hlen. destruct l as [|y l']; [simpl in Hlen; lia|].
      replace (S (List.length (y :: l')) - 1)%nat
        with (S (List.length (y :: l') - 1)) by (simpl; lia).
      cbn [nth_error]. apply IH. simpl in *. lia.
Qed.

Lemma stale_timer_releases_witness :
  account_status 3%N
    (fire 0 (advance 60000
               (snd (reserve 3%N (Some 2%N) (run cancelled_purchase_trace init)))))
  = Some available.
Proof.
  apply (stale_timer_releases (run cancelled_purchase_trace init) 3%N 2%N
           (mkAccount 3%N 1%N "telegram_channel" "chan" 500 available 1000 None None 0%N)
           0 (mkTimer 600000%N (ReleaseReservation 3%N)) 60000%N);
    try reflexivity.
Defined.

(** ** Cancelling from the purchases list *)

(** X26.  The cancel button.  For an order on record and a registered user
    who presses the button (the handler does not ask whether it is the
    buyer), the order is cancelled, the user is told that a refund was
    processed, and the user's purchases are shown anew from page 0: the
    cancelled order is not among them and the account is 'available'
    again.  No refund is recorded: balances and withdrawals are as
    before.  For an unknown order nothing changes. *)
Theorem on_cancel_order_refreshes (orderId : Id) (from_tg : string)
  (sess : OrdersSession) (s : Server) :
  (find_order orderId s = None ->
   on_cancel_order orderId from_tg sess s
   = (CancelFailed "Failed to cancel order", sess, s)) /\
  (forall o u,
     find_order orderId s = Some o ->
     getUserByTelegram from_tg s = Ok 200 u ->
     let out := on_cancel_order orderId from_tg sess s in
     let s' := snd out in
     let sess' := snd (fst out) in
     fst (fst out) = CancelMessage "Refund processed due to order cancellation" /\
     s' = cancelled o s /\
     account_status (order_account_id o) s'
     = option_map (fun _ => available) (account_status (order_account_id o) s) /\
     session_orders sess' = map purchase_item (getUserPurchases (user_id u) s') /\
     orders_page sess' = Some O /\
     (forall it, In it (session_orders sess') -> order_id (item_order it) <> orderId) /\
     users (db s') = users (db s) /\
     withdrawals (db s') = withdrawals (db s)).
Proof.
  split.
  - intros Hf. unfold on_cancel_order. now rewrite (cancelOrder_missing orderId s Hf).
  - intros o u Hf Hu. cbv zeta. unfold on_cancel_order.
    rewrite (cancelOrder_found orderId s o Hf). cbn [fst snd].
    assert (Hu' : getUserByTelegram from_tg (cancelled o s) = Ok 200 u) by exact Hu.
    unfold fetchAndShowPurchases. rewrite Hu'.
    cbn [session_orders orders_page].
    split; [reflexivity|]. split; [reflexivity|]. split.
    { rewrite (status_after_update (order_account_id o) (order_account_id o)
                 available s (cancelled o s)) by reflexivity.
      now rewrite N.eqb_refl. }
    split; [reflexivity|]. split; [reflexivity|]. split; [|now split].
    intros it Hit. apply in_map_iff in Hit as [v [<- Hv]].
    cbn [purchase_item item_order].
    apply purchases_orders in Hv. unfold cancelled in Hv.
    cbn [db with_db orders with_orders] in Hv.
    apply filter_In in Hv as [_ Hneg]. apply negb_true_iff in Hneg.
    rewrite (find_order_id orderId s o Hf) in Hneg.
    now apply N.eqb_neq in Hneg.
Qed.

Lemma on_cancel_order_refreshes_witness :
  fst (fst (on_cancel_order 4%N "200" (mkOrdersSession [] None EmptyString)
                            pending_order_state))
  = CancelMessage "Refund processed due to order cancellation" /\
  on_cancel_order 9%N "200" (mkOrdersSession [] None EmptyString) pending_order_state
  = (CancelFailed "Failed to cancel order", mkOrdersSession [] None EmptyString,
     pending_order_state).
Proof.
  destruct (on_cancel_order_refreshes 4%N "200" (mkOrdersSession [] None EmptyString)
              pending_order_state) as [_ H].
  destruct (on_cancel_order_refreshes 9%N "200" (mkOrdersSession [] None EmptyString)
              pending_order_state) as [H' _].
  split.
  - apply (H (mkOrder 4%N 2%N 3%N 500 "pending" (Some "R1"))
             (mkUser 2%N "200" "buyer" 0) eq_refl eq_refl).
  - apply H'. reflexivity.
Defined.
